(* ===== verification/_CoqProject ===== *)
-Q . S2P
Prelude.v
PyStr.v
Dict.v
OrderedSet.v
Json.v
Logging.v
Versions.v
MisalignedBio.v
TargetHelpers.v
Host.v
HostSetup.v
VersionCheck.v
Disktools.v
World.v
Config.v
Collections.v
Cluster.v
ConfigFiles.v
Tls.v
HeapTypes.v
Firewall.v
Lifecycle.v
TrafficControl.v
Platform.v
Fio.v
Metadata.v
Members.v
Teardown.v
Creation.v
Storage.v
Endurance.v
Setup.v
ArgParse.v
SetupArgs.v
LocalSetup.v
HostStreams.v
ClusterSetup.v
Runner.v
RunnerHosts.v
VmshedMain.v
RunMain.v
Artifact.v
