(* ===== verification/Prelude.v ===== *)
(** * A verification development for the DRBD 9 test suite

    The repository is a test suite for the replicated block device DRBD: a
    Python framework (src/python) in which a test sets up a cluster over SSH,
    changes it and waits for events; small programs that run on the test nodes
    (src/target); a generator of test lists for virtual machines
    (src/virter); and a runner for a fixed set of machines (src/run.py).
    This development translates these programs into Rocq functions and proves
    what they promise to each other and to the tests.

    ** How the code is modelled

    A Python function that may raise is a function into [res]; one that
    changes state is a computation of the monad [M S] over an explicit state
    [S], in which an exception keeps the state reached.  Objects that are
    shared are positions in the lists of a heap ([World.world]), so that
    aliasing in Python is equality of positions.  Commands go through
    [Host.run]; the list of commands sent is part of the state, and what a host
    answers to a command, given the commands before it, is the parameter
    [SshServer].  In the same way [EventScanner] answers the waits for events.
    Both are the git submodule lbpytest in the repository, which is not under
    src/: nothing is assumed about them beyond their types, except where a
    theorem names the answer to a command as a hypothesis.

    ** The files

    - [Prelude], [PyStr], [Dict]: exceptions, the monad and its rules ([wp],
      [keeps]), strings and integers of Python, and dictionaries in the order
      of insertion.
    - [OrderedSet] (src/python/ordered_set.py): the class, refining an abstract
      ordered set; [OrderedSetOps] and [OrderedSetSpec] are the interface that
      [Collections] is proved against.
    - [Json] (src/run.py, [stream_read_json]): the decoder and the encoder of
      the standard library, and reading several documents from one file.
    - [Logging] (src/python/drbdtestlogger.py, [FirstWriteTrap] and
      [start_dmesg_with_cmd] of src/python/drbdtest.py): the module [Tee] for
      writes while streams come and go, [Logger] for the functions of the
      module, and [Dmesg] for the two threads that start the copy of the kernel
      log, as a step relation.
    - [Versions], [VmshedMain] (src/virter/vmshed_tests_generator.py): versions,
      their order, and the choice of the tests; the command line, the
      configurations in the tests and the lines that are written.
    - [MisalignedBio], [TargetHelpers] (src/target): the programs on the nodes;
      the block device is an interface.
    - [Host] (class [Host] of drbdtest.py): quoting and running commands, fio's
      arguments, the check of the kernel log.
    - [HostSetup] (the constructor of [Host], linuxplatformhelper.py,
      windowsplatformhelper.py): system, version of DRBD, addresses and name
      spaces.
    - [VersionCheck] ([validate_drbd_versions], [write_drbd_versions_meta]).
    - [Disktools] (src/python/disktools.py): pools, volumes, [create_md].
    - [World]: the classes [Host], [Volume], [Node], [Resource] as a heap.
    - [Config] ([Node.config], [ConfigBlock]): the text of the configuration.
    - [Collections] ([Collection], [connections()]): the sets of test objects.
    - [Cluster] ([create_resource], [add_disk], options, [update_config]).
    - [ConfigFiles]: the configuration files that these operations leave on the
      hosts.
    - [Firewall] ([block_path], [block_packet_type]): the interface [Iptables]
      has the laws of the rules.
    - [Lifecycle]: bringing a resource up and down and waiting for events.
    - [TrafficControl] (src/python/trafficcontrol.py): the interface [Tc] has
      the laws of the queues.
    - [Platform] (the platform helpers, [primary], [AsPrimary]).
    - [Fio] ([Host.fio_file], src/python/busywrite.py).
    - [Metadata] ([set_gi], the readers of identifiers, [resize]).
    - [HeapTypes]: the references between the objects of [World], through the
      operations of [Cluster].
    - [Members]: the methods of one node, volume, connection and peer device,
      the look-ups by the number of a volume, equality and hashes.
    - [ArgParse]: the part of Python's argparse that the programs use.
    - [Setup], [SetupArgs], [LocalSetup], [ClusterSetup] ([setup],
      [setup_resource], the creation of the hosts): the command line and the
      checks of the arguments; the directory of the logs and the consoles, where
      virsh and screen are the parameter [LocalCommands]; and the cluster a test
      begins with.
    - [HostStreams] ([Host.run] with its streams, [run_quiet], the kernel log and
      the events of a host): pieces of output go to the streams of [Logging],
      the module [Captures] interleaves the thread that writes the kernel log
      with captures that come and go, and [Events] keeps the process and the
      file of the events.
    - [Tls] (src/python/tls.py): dates, certificates and the files of a host;
      keys and the text of certificates are the interface [Crypto].
    - [Teardown] ([Cluster.teardown], the handlers at the end of the program);
      what is copied of the kernel logs while commands are sent is the interface
      [KernelLog].
    - [Creation]: which commands of [Disktools] make a disk, and which disk.
    - [Storage]: the disks of a test, from their creation in [Cluster] through
      any operations of [HeapTypes] to the handlers of [Teardown].
    - [Endurance] (src/python/endurance.py, src/python/datatools.py): the long
      tests and the comparison of the data.
    - [Runner], [RunnerHosts], [RunMain] (src/run.py): the tests and the
      statistics; what is done to the machines, which are the interface
      [Machines]; and the main program with its command line, its iterations,
      the file with the results and the table of them.  The text of floating
      point numbers is the interface [FloatText].
    - [Artifact] (src/.gitlab/trigger_for_artifact.py).

    ** What the theorems show

    - The heap: resources are a full mesh of connections, volumes are numbered
      alike on all nodes, ports and minors are distinct ([Cluster]); the text
      of the configuration is that of a tree and connects every pair once
      ([Config]); the file on a host is current unless its flag says otherwise,
      through any run of the operations that keep the flags and succeed, but not
      after removing disks, adding a disk to one node or renaming
      ([ConfigFiles]); every reference leads to
      an object that exists and refers back ([HeapTypes]); the objects of one
      node, volume or number are found ([Members]).
    - The beginning and the end of a test: the command line is read back, and
      hosts on both sides of the options are refused ([SetupArgs]); the logs of
      a run have a directory and a link of their own, and consoles that are
      captured, each by its commands, are left at the end ([LocalSetup]); [setup]
      gives fresh hosts with matching certificates, whose time of validity is
      moved by the time zone ([ClusterSetup], [Tls]), [setup_resource] a full
      mesh on them; what is cleaned up follows the option and the result, and
      all kernel logs are checked after the modules are unloaded ([Teardown]);
      every disk that a command of [add_disk] has made is recorded, and is
      removed at the end if its node is still a member ([Creation], [Storage]).
    - The endurance tests end, and compare the contents of all nodes
      ([Endurance]).
    - Waiting: every wait looks for failures as well, [down] allows the events
      of the shutdown for its own wait only, the resync is awaited for every
      pair ([Lifecycle]).
    - Commands: what the shell makes of a command line is the list of words
      that was given ([Host]); blocking covers exactly the packets of a path
      and unblocking undoes it ([Firewall]); slowing down delays one node
      ([TrafficControl]); disks are made and removed in matching layers
      ([Disktools]); resizing zeroes the new part ([Metadata]).
    - Texts that are read: JSON ([Json]), addresses and versions
      ([HostSetup]), patterns of versions ([VersionCheck]), identifiers
      ([Metadata]), results of fio ([Fio]).
    - Threads: a write reaches the streams of its beginning, the first line of
      the kernel log is trapped in every interleaving, and the start of the
      copy can miss its wake-up ([Logging]); a capture hears what arrives
      between its beginning and its end ([HostStreams]).
    - Streams: [Host.run] gives the same result for all of them, and [run_quiet]
      logs the output of failures only ([HostStreams]).
    - The runner and the generator run and list the tests they should
      ([Runner], [Versions]), from the limits and configurations that the tests
      give ([RunMain], [VmshedMain]); the file with the results keeps what was
      in it and gets what the tests of every iteration have ended with
      ([RunMain]); the machines are prepared and recovered in the order of the
      schedule, and only volumes that were not listed before the tests are
      removed ([RunnerHosts]).

    ** Bounds and fuel

    Recursion that is not structural takes fuel: the decoder of [Json] starts
    with twice the length of the text and two more, and its round trip shows
    that this is enough for every text the encoder writes; [stream_read_json]
    takes one more than the length of the file and is proved to end; the
    formatter of [Config] takes the length of its text and one more; the loops
    of [Platform] end with their first turn for every positive fuel.  The loop
    of [run_resync] in [Endurance] is proved to end after at most 1081 turns;
    the attempts to take DRBD down in [RunnerHosts] are counted as in the code,
    and its search for versions takes the length of the text.
    The loop of [ArgParse] takes the number of strings, of which every turn
    takes one; the wait for screen in [LocalSetup] is given a fuel by its caller
    and proved to end with any fuel that is more than the tries it takes
    ([await_screen_ends]).
    Characters are those below 256.  Python integers have no width; the fields
    of the block device in [TargetHelpers] and [MisalignedBio] are in [Z] with
    the arithmetic of the code.

    ** Not modelled

    The text of most log messages (outside [HostStreams], a command has no log),
    timeouts of commands, opening SSH connections, the progress display of the
    runner, the usage texts of argparse, the SELinux debugging of [Cluster] and
    [Host], the test scripts under src/tests, and the shell scripts and build
    files.  [World.w_resources] is the heap of the objects of [Resource], which
    has also those whose creation has failed, and not the list
    [Cluster.resources].  In [LocalSetup], a path is not looked at through [..] or through a
    link in its middle. *)

From stdpp Require Export base tactics gmap strings list pretty sorting.
From Stdlib Require Export ZArith Lia.
#[export] Set Warnings "-clear-no-such-hyp".

(** ** Python exceptions and results *)

(** The exceptions the modelled code raises or lets escape. *)
Inductive exn :=
| AssertionError
| AttributeError (msg : string)
| IndexError
| KeyError
| NameError (msg : string)
| TypeError (msg : string)
| ValueError (msg : string)
| RuntimeError (msg : string)
| ZeroDivisionError
| NotImplementedError (msg : string)
| CalledProcessError (code : Z) (cmd : string)
| OSError (msg : string)
| OverflowError (msg : string)
| TimeoutExpired (cmd : string)
| StopIteration
| SystemExit (code : Z)
| PlainException (msg : string).

(** What a Python expression evaluates to: a value or a raised exception. *)
Inductive res (A : Type) :=
| Ok (a : A)
| Raise (e : exn).
Arguments Ok {A} a.
Arguments Raise {A} e.

#[export] Instance exn_eq_dec : EqDecision exn.
Proof. solve_decision. Defined.
#[export] Instance res_eq_dec {A} `{EqDecision A} : EqDecision (res A).
Proof. solve_decision. Defined.

#[export] Instance res_ret : MRet res := fun _ a => Ok a.
#[export] Instance res_bind : MBind res := fun _ _ f m =>
  match m with Ok a => f a | Raise e => Raise e end.
#[export] Instance res_fmap : FMap res := fun _ _ f m =>
  match m with Ok a => Ok (f a) | Raise e => Raise e end.

Definition is_ok {A} (r : res A) : bool :=
  match r with Ok _ => true | Raise _ => false end.
Definition res_of_option {A} (e : exn) (o : option A) : res A :=
  match o with Some a => Ok a | None => Raise e end.

(** ** Stateful Python code: a state and exception monad

    An exception keeps the state reached when it was raised, as in Python. *)

Definition M (S A : Type) : Type := S -> res A * S.

#[export] Instance M_ret {S} : MRet (M S) := fun _ a s => (Ok a, s).
#[export] Instance M_bind {S} : MBind (M S) := fun _ _ f m s =>
  match m s with
  | (Ok a, s') => f a s'
  | (Raise e, s') => (Raise e, s')
  end.

Definition raise {S A} (e : exn) : M S A := fun s => (Raise e, s).
Definition get {S} : M S S := fun s => (Ok s, s).
Definition put {S} (s' : S) : M S unit := fun _ => (Ok tt, s').
Definition gets {S A} (f : S -> A) : M S A := fun s => (Ok (f s), s).
Definition modify {S} (f : S -> S) : M S unit := fun s => (Ok tt, f s).
Definition lift {S A} (r : res A) : M S A := fun s => (r, s).
(** [assert b] *)
Definition py_assert {S} (b : bool) : M S unit :=
  if b then mret tt else raise AssertionError.
(** [if b: m] *)
Definition when {S} (b : bool) (m : M S unit) : M S unit :=
  if b then m else mret tt.
(** [try: m  except: h] *)
Definition try_except {S A} (m : M S A) (h : exn -> M S A) : M S A := fun s =>
  match m s with
  | (Ok a, s') => (Ok a, s')
  | (Raise e, s') => h e s'
  end.
(** [try: m  except CalledProcessError: h] *)
Definition except_called {S A} (m : M S A) (h : exn -> M S A) : M S A :=
  try_except m (fun e => match e with CalledProcessError _ _ => h e | _ => raise e end).
(** [try: m  finally: k]: the exception of [k], if there is one, is the one that leaves. *)
Definition try_finally {S A} (m : M S A) (k : M S unit) : M S A := fun s =>
  let '(r, s1) := m s in
  match k s1 with
  | (Ok _, s2) => (r, s2)
  | (Raise e, s2) => (Raise e, s2)
  end.
(** [for x in l: body] *)
Fixpoint for_each {S A} (l : list A) (body : A -> M S unit) : M S unit :=
  match l with
  | [] => mret tt
  | x :: l => body x ≫= fun _ => for_each l body
  end.
(** [[body(x) for x in l]] *)
Fixpoint map_each {S A B} (l : list A) (body : A -> M S B) : M S (list B) :=
  match l with
  | [] => mret []
  | x :: l => body x ≫= fun y => map_each l body ≫= fun ys => mret (y :: ys)
  end.
(** A loop that updates a local variable *)
Fixpoint fold_each {S A B} (l : list A) (body : B -> A -> M S B) (y : B) : M S B :=
  match l with
  | [] => mret y
  | x :: l => body y x ≫= fun y => fold_each l body y
  end.
(** [[f(x) for x in l]] for an [f] that may raise *)
Fixpoint map_res {A B} (l : list A) (f : A -> res B) : res (list B) :=
  match l with
  | [] => Ok []
  | x :: l => f x ≫= fun y => map_res l f ≫= fun ys => Ok (y :: ys)
  end.
(** A computation on one field of a larger state. *)
Definition zoom {S T A} (g : S -> T) (u : T -> S -> S) (m : M T A) : M S A :=
  fun s => let '(r, t) := m (g s) in (r, u t s).

Arguments M_ret {_} _ _ _ /.
Arguments M_bind {_} _ _ _ _ _ /.
Arguments res_ret _ _ /.
Arguments res_bind _ _ _ _ /.

(** Reduce binds of known results. *)
Ltac mred := cbv beta iota delta [mbind mret res_bind res_ret M_bind M_ret].

Declare Scope py_scope.
Delimit Scope py_scope with py.
Notation "'let*' x ':=' m 'in' k" := (mbind (fun x => k) m)
  (at level 10, x pattern, m at level 100, k at level 200) : py_scope.
Notation "m ;;; k" := (mbind (fun _ => k) m)
  (at level 199, right associativity) : py_scope.
#[global] Open Scope py_scope.

(** A bind whose first part is known *)
Lemma bind_ok {S A B} (m : M S A) (f : A -> M S B) s a s' : m s = (Ok a, s') -> (m ≫= f) s = f a s'.
Proof. intros Hm. mred. by rewrite Hm. Qed.
(** A loop whose next iteration succeeds *)
Lemma for_each_ok {S A} (body : A -> M S unit) x l (s s' : S) :
  body x s = (Ok tt, s') -> for_each (x :: l) body s = for_each l body s'.
Proof. intros Hx. cbn [for_each]. mred. by rewrite Hx. Qed.

(** ** Reasoning about stateful code *)

(** [wp m Q E s]: run in [s], [m] ends normally in a state of [Q] or raises in
    a state of [E]. *)
Definition wp {S A} (m : M S A) (Q : A -> S -> Prop) (E : exn -> S -> Prop)
    (s : S) : Prop :=
  match m s with
  | (Ok a, s') => Q a s'
  | (Raise e, s') => E e s'
  end.

(** [keeps R m]: however [m] ends, its final state is related to its first. *)
Definition keeps {S A} (R : S -> S -> Prop) (m : M S A) : Prop :=
  forall s, R s (snd (m s)).

Section wp_rules.
Context {S : Type}.
Implicit Types (s : S).

Lemma wp_ret {A} (a : A) Q E s : Q a s -> wp (mret a) Q E s.
Proof. done. Qed.

Lemma wp_bind {A B} (m : M S A) (f : A -> M S B) Q E s :
  wp m (fun a s' => wp (f a) Q E s') E s -> wp (m ≫= f) Q E s.
Proof. unfold wp, mbind; simpl. by destruct (m s) as [[a|e] s']. Qed.

Lemma wp_mono {A} (m : M S A) (Q Q' : A -> S -> Prop) (E E' : exn -> S -> Prop) s :
  wp m Q E s -> (forall a s', Q a s' -> Q' a s') ->
  (forall e s', E e s' -> E' e s') -> wp m Q' E' s.
Proof. unfold wp. destruct (m s) as [[a|e] s']; naive_solver. Qed.

Lemma wp_elim {A} (m : M S A) (P : S -> Prop) E a s s' : wp m (fun _ => P) E s -> m s = (Ok a, s') -> P s'.
Proof. unfold wp. intros Hm Hs. by rewrite Hs in Hm. Qed.

Lemma wp_try {A} (m : M S A) h Q E s :
  wp m Q (fun e s' => wp (h e) Q E s') s -> wp (try_except m h) Q E s.
Proof. unfold wp, try_except. by destruct (m s) as [[a|e] s']. Qed.

(** Loop rule: an invariant indexed by the elements already visited. *)
Lemma wp_for_each {A} (l : list A) (body : A -> M S unit)
    (I : list A -> S -> Prop) E s :
  I [] s ->
  (forall done x todo s', l = done ++ x :: todo -> I done s' ->
    wp (body x) (fun _ s'' => I (done ++ [x]) s'') E s') ->
  wp (for_each l body) (fun _ s' => I l s') E s.
Proof.
  intros H0 Hstep.
  assert (forall todo done s', l = done ++ todo -> I done s' ->
    wp (for_each todo body) (fun _ s'' => I l s'') E s') as Hgen.
  { induction todo as [|x todo IH]; intros done s' Hl HI.
    - apply wp_ret. by rewrite app_nil_r in Hl; subst.
    - apply wp_bind. eapply wp_mono; [eapply Hstep; eauto| |done].
      intros [] s'' HI'. apply (IH (done ++ [x])); [|done].
      by rewrite <-app_assoc. }
  by apply (Hgen l []).
Qed.

Lemma wp_fold_each {A B} (l : list A) (body : B -> A -> M S B)
    (I : list A -> B -> S -> Prop) E y s :
  I [] y s ->
  (forall visited y x todo s', l = visited ++ x :: todo -> I visited y s' ->
    wp (body y x) (fun y' s'' => I (visited ++ [x]) y' s'') E s') ->
  wp (fold_each l body y) (fun y' s' => I l y' s') E s.
Proof.
  intros H0 Hstep.
  enough (Hgen : forall todo visited y s', l = visited ++ todo -> I visited y s' ->
    wp (fold_each todo body y) (fun y' s'' => I l y' s'') E s') by by apply (Hgen l []).
  induction todo as [|x todo IH]; intros visited z s' Hl HI.
  - apply wp_ret. by rewrite Hl, app_nil_r.
  - apply wp_bind. eapply wp_mono; [by eapply Hstep| |done]. intros z' s'' HI'.
    apply (IH (visited ++ [x])); [by rewrite <-app_assoc|done].
Qed.

(** The invariant of a comprehension may also speak about the results so far. *)
Lemma wp_map_each_with {A B} (l : list A) (body : A -> M S B)
    (I : list A -> list B -> S -> Prop) E s :
  I [] [] s ->
  (forall visited ys x todo s', l = visited ++ x :: todo -> I visited ys s' ->
    wp (body x) (fun y s'' => I (visited ++ [x]) (ys ++ [y]) s'') E s') ->
  wp (map_each l body) (fun ys s' => I l ys s') E s.
Proof.
  intros H0 Hstep.
  enough (Hgen : forall todo visited ys s', l = visited ++ todo -> I visited ys s' ->
    wp (map_each todo body) (fun zs s'' => I l (ys ++ zs) s'') E s') by by apply (Hgen l [] []).
  induction todo as [|x todo IH]; intros visited ys s' Hl HI.
  - apply wp_ret. by rewrite Hl, !app_nil_r.
  - apply wp_bind. eapply wp_mono; [by eapply Hstep| |done]. intros y s'' HI'.
    apply wp_bind. eapply wp_mono; [apply (IH (visited ++ [x]) (ys ++ [y])); [by rewrite <-app_assoc|done]| |done].
    intros zs s3 HI3. apply wp_ret. change (y :: zs) with ([y] ++ zs). by rewrite app_assoc.
Qed.

Lemma wp_map_each {A B} (l : list A) (body : A -> M S B)
    (I : list A -> S -> Prop) E s :
  I [] s ->
  (forall visited x todo s', l = visited ++ x :: todo -> I visited s' ->
    wp (body x) (fun _ s'' => I (visited ++ [x]) s'') E s') ->
  wp (map_each l body) (fun _ s' => I l s') E s.
Proof. intros H0 Hstep. apply (wp_map_each_with l body (fun v _ => I v)); [done|]. intros. by eapply Hstep. Qed.
End wp_rules.

Section keeps_rules.
Context {S : Type} (R : S -> S -> Prop) `{!PreOrder R}.

Lemma keeps_ret {A} (a : A) : keeps R (mret a : M S A).
Proof. intros s. simpl. reflexivity. Qed.
Lemma keeps_raise {A} e : keeps R (raise e : M S A).
Proof. intros s. simpl. reflexivity. Qed.
Lemma keeps_gets {A} (f : S -> A) : keeps R (gets f).
Proof. intros s. simpl. reflexivity. Qed.
Lemma keeps_get : keeps R get.
Proof. intros s. simpl. reflexivity. Qed.
Lemma keeps_lift {A} (r : res A) : keeps R (lift r).
Proof. intros s. simpl. reflexivity. Qed.
Lemma keeps_bind {A B} (m : M S A) (f : A -> M S B) :
  keeps R m -> (forall a, keeps R (f a)) -> keeps R (m ≫= f).
Proof.
  intros Hm Hf s. unfold mbind; simpl. specialize (Hm s).
  destruct (m s) as [[a|e] s']; simpl in *; [|done].
  by transitivity s'; [|apply Hf].
Qed.
Lemma keeps_when b (m : M S unit) : keeps R m -> keeps R (when b m).
Proof. destruct b; simpl; [done|]. intros _. apply keeps_ret. Qed.
Lemma keeps_assert b : keeps R (py_assert b).
Proof. destruct b; simpl; [apply keeps_ret|apply keeps_raise]. Qed.
Lemma keeps_try {A} (m : M S A) h :
  keeps R m -> (forall e, keeps R (h e)) -> keeps R (try_except m h).
Proof.
  intros Hm Hh s. unfold try_except. specialize (Hm s).
  destruct (m s) as [[a|e] s']; simpl in *; [done|].
  by transitivity s'; [|apply Hh].
Qed.
Lemma keeps_called {A} (m : M S A) h :
  keeps R m -> (forall e, keeps R (h e)) -> keeps R (except_called m h).
Proof. intros Hm Hh. apply keeps_try; [done|]. intros []; first [apply Hh|apply keeps_raise]. Qed.
Lemma wp_keeps {A} (m : M S A) (Q : A -> S -> Prop) (E : exn -> S -> Prop) s :
  keeps R m -> (forall a s', R s s' -> Q a s') -> (forall e s', R s s' -> E e s') -> wp m Q E s.
Proof. intros Hm HQ HE. specialize (Hm s). unfold wp. destruct (m s) as [[a|e] s']; [by apply HQ|by apply HE]. Qed.
Lemma keeps_for_each {A} (l : list A) body :
  (forall x, x ∈ l -> keeps R (body x)) -> keeps R (for_each l body).
Proof.
  induction l as [|x l IH]; intros Hb; simpl; [apply keeps_ret|].
  apply keeps_bind; [apply Hb; set_solver|]. intros _. apply IH. set_solver.
Qed.
Lemma keeps_map_each {A B} (l : list A) (body : A -> M S B) :
  (forall x, x ∈ l -> keeps R (body x)) -> keeps R (map_each l body).
Proof.
  induction l as [|x l IH]; intros Hb; simpl; [apply keeps_ret|].
  apply keeps_bind; [apply Hb; set_solver|]. intros y.
  apply keeps_bind; [apply IH; set_solver|]. intros ys. apply keeps_ret.
Qed.
End keeps_rules.

(** The rules above, for [eauto with keeps]. *)
Create HintDb keeps.
#[export] Hint Resolve keeps_ret keeps_raise keeps_gets keeps_get keeps_lift
  keeps_bind keeps_when keeps_assert keeps_try keeps_called keeps_for_each keeps_map_each
  : keeps.

(** ** Python sequences *)

(** [l.remove(x)]: drop the first occurrence, or [ValueError]. *)
Fixpoint list_remove {A} `{EqDecision A} (x : A) (l : list A) : option (list A) :=
  match l with
  | [] => None
  | y :: l => if decide (x = y) then Some l else cons y <$> list_remove x l
  end.

(** [l[i]] with Python's negative indices. *)
Definition py_index {A} (l : list A) (i : Z) : res A :=
  let n := Z.of_nat (length l) in
  let j := (if i <? 0 then i + n else i)%Z in
  if ((j <? 0) || (n <=? j))%Z%bool then Raise IndexError
  else res_of_option IndexError (l !! Z.to_nat j).

(** A slice bound, clamped to the length. *)
Definition py_bound (n : Z) (b : Z) : nat :=
  Z.to_nat (Z.min n (if (b <? 0)%Z then Z.max 0 (b + n) else b)).

(** [l[lo:hi]] *)
Definition py_slice {A} (lo hi : option Z) (l : list A) : list A :=
  let n := Z.of_nat (length l) in
  let i := from_option (py_bound n) 0 lo in
  let j := from_option (py_bound n) (length l) hi in
  drop i (take j l).

(** [for i, x in enumerate(l)] *)
Definition enumerate {A} (l : list A) : list (nat * A) := imap pair l.

Section sequences.
Context {A : Type}.
Implicit Types (l : list A).

Lemma list_remove_None `{EqDecision A} x l : list_remove x l = None <-> x ∉ l.
Proof.
  induction l as [|y l IH]; simpl; [split; [intros _; apply not_elem_of_nil|done]|].
  rewrite not_elem_of_cons. case_decide; [naive_solver|].
  rewrite fmap_None, IH. naive_solver.
Qed.

Lemma filter_id (P : A -> Prop) `{!forall x, Decision (P x)} l :
  Forall P l -> filter P l = l.
Proof.
  induction 1 as [|x l Hx _ IH]; [done|]. rewrite filter_cons_True by done.
  by rewrite IH.
Qed.

(** On a list without duplicates [remove] is the filter of the other items. *)
Lemma list_remove_NoDup `{EqDecision A} x l :
  NoDup l -> x ∈ l -> list_remove x l = Some (filter (fun y => y <> x) l).
Proof.
  induction l as [|y l IH]; intros Hnd Hx; simpl; [by apply elem_of_nil in Hx|].
  apply NoDup_cons in Hnd as [Hy Hnd].
  case_decide as Hxy; subst.
  - rewrite filter_cons_False by naive_solver. f_equal.
    symmetry. apply filter_id, Forall_forall. intros z Hz ->. done.
  - rewrite filter_cons_True by done. apply elem_of_cons in Hx as [|Hx]; [done|]. by rewrite IH.
Qed.

Lemma py_index_nat l (i : nat) :
  py_index l (Z.of_nat i) = res_of_option IndexError (l !! i).
Proof.
  unfold py_index. rewrite !(proj2 (Z.ltb_ge (Z.of_nat i) 0)) by lia.
  rewrite Nat2Z.id. simpl.
  destruct (Z.leb_spec (Z.of_nat (length l)) (Z.of_nat i)); [|done].
  rewrite lookup_ge_None_2 by lia. done.
Qed.

Lemma py_bound_nat (n i : nat) : py_bound (Z.of_nat n) (Z.of_nat i) = Nat.min n i.
Proof.
  unfold py_bound. rewrite (proj2 (Z.ltb_ge (Z.of_nat i) 0)) by lia. lia.
Qed.

Lemma py_slice_from l (i : nat) : py_slice (Some (Z.of_nat i)) None l = drop i l.
Proof.
  unfold py_slice; simpl. rewrite py_bound_nat, take_ge by lia.
  destruct (decide (i <= length l)); [by rewrite Nat.min_r by lia|].
  by rewrite !drop_ge by lia.
Qed.

Lemma py_slice_to l (j : nat) : py_slice None (Some (Z.of_nat j)) l = take j l.
Proof.
  unfold py_slice; simpl. rewrite py_bound_nat, drop_0.
  destruct (decide (j <= length l)); [by rewrite Nat.min_r by lia|].
  by rewrite !take_ge by lia.
Qed.
End sequences.

(** The element visited after [done] in a [range(m, m + n)] loop. *)
Lemma seq_visit (m n : nat) done x todo :
  seq m n = done ++ x :: todo -> x = m + length done /\ length done < n.
Proof.
  intros Hs. assert (seq m n !! length done = Some x) as Hl.
  { rewrite Hs, lookup_app_r, Nat.sub_diag by lia. done. }
  apply lookup_seq in Hl. lia.
Qed.

Lemma wp_get {S} Q E (s : S) : Q s s -> wp get Q E s.
Proof. done. Qed.
Lemma wp_gets {S A} (f : S -> A) Q E (s : S) : Q (f s) s -> wp (gets f) Q E s.
Proof. done. Qed.
Lemma wp_modify {S} (f : S -> S) Q E (s : S) : Q tt (f s) -> wp (modify f) Q E s.
Proof. done. Qed.
Lemma wp_put {S} (s' : S) Q E s : Q tt s' -> wp (put s') Q E s.
Proof. done. Qed.
