(* ===== verification/PyStr.v ===== *)
(** * Python strings and integers

    The string methods and conversions the modelled code uses, on ASCII
    strings: [split], [join], [startswith], [endswith], [strip], [replace],
    [upper], [str(int)] and [int(str)], with the lemmas that relate them. *)

From S2P Require Import Prelude.
From Stdlib Require Export Ascii.

#[global] Open Scope stdpp_scope.

(** ** Characters *)

Definition code (c : ascii) : N := N_of_ascii c.
Definition digit_val (c : ascii) : option Z :=
  let n := Z.of_N (code c) in
  if ((48 <=? n) && (n <=? 57))%Z then Some (n - 48)%Z else None.
Definition is_digit (c : ascii) : bool := if digit_val c is Some _ then true else false.
Definition is_space (c : ascii) : bool :=
  let n := code c in ((9 <=? n) && (n <=? 13) || (n =? 32) || (28 <=? n) && (n <=? 31))%N.
Definition to_upper (c : ascii) : ascii :=
  let n := code c in if ((97 <=? n) && (n <=? 122))%N then ascii_of_N (n - 32) else c.
Definition to_lower (c : ascii) : ascii :=
  let n := code c in if ((65 <=? n) && (n <=? 90))%N then ascii_of_N (n + 32) else c.

(** ** Strings *)

Definition slen (s : string) : nat := String.length s.

Fixpoint chars (s : string) : list ascii :=
  match s with EmptyString => [] | String c s => c :: chars s end.
Fixpoint of_chars (l : list ascii) : string :=
  match l with [] => "" | c :: l => String c (of_chars l) end.

Fixpoint smap (f : ascii -> ascii) (s : string) : string :=
  match s with EmptyString => EmptyString | String c s => String (f c) (smap f s) end.
(** [all(p(c) for c in s)] *)
Fixpoint sall (p : ascii -> bool) (s : string) : bool :=
  match s with EmptyString => true | String c s => p c && sall p s end.
(** [c in s] *)
Fixpoint scontains (c : ascii) (s : string) : bool :=
  match s with EmptyString => false | String d s => bool_decide (c = d) || scontains c s end.

Definition upper := smap to_upper.
Definition lower := smap to_lower.

(** [s.startswith(p)], and the rest of [s] when it does *)
Fixpoint strip_prefix (p s : string) : option string :=
  match p, s with
  | EmptyString, _ => Some s
  | String a p, String b s => if decide (a = b) then strip_prefix p s else None
  | _, EmptyString => None
  end.
Definition startswith (p s : string) : bool :=
  if strip_prefix p s is Some _ then true else false.
(** [sub in s] *)
Fixpoint has_sub (sub s : string) : bool :=
  startswith sub s || match s with EmptyString => false | String _ s => has_sub sub s end.
Fixpoint srev_app (s acc : string) : string :=
  match s with EmptyString => acc | String c s => srev_app s (String c acc) end.
Definition srev (s : string) : string := srev_app s "".
Definition endswith (p s : string) : bool := startswith (srev p) (srev s).

Fixpoint lstrip (s : string) : string :=
  match s with
  | String c s' => if is_space c then lstrip s' else s
  | EmptyString => EmptyString
  end.
Definition rstrip (s : string) : string := srev (lstrip (srev s)).
(** [s.strip()] *)
Definition strip (s : string) : string := rstrip (lstrip s).

(** [s.replace(c, r)] for a one-character [c] *)
Fixpoint replace (c : ascii) (r : string) (s : string) : string :=
  match s with
  | EmptyString => EmptyString
  | String d s => (if decide (c = d) then r else String d EmptyString) +:+ replace c r s
  end.

(** [sep.join(l)] *)
Fixpoint join (sep : string) (l : list string) : string :=
  match l with
  | [] => ""
  | [x] => x
  | x :: l => x +:+ sep +:+ join sep l
  end.

(** [s.split(c)] for a one-character [c]: the first piece and the others *)
Fixpoint split_go (c : ascii) (s : string) : string * list string :=
  match s with
  | EmptyString => (EmptyString, [])
  | String d s => let '(w, ws) := split_go c s in
      if decide (c = d) then (EmptyString, w :: ws) else (String d w, ws)
  end.
Definition str_split (c : ascii) (s : string) : list string :=
  let '(w, ws) := split_go c s in w :: ws.

(** [s.split()]: the words between runs of white space *)
Definition words (s : string) : list string :=
  filter (fun w => w <> "") (str_split " "%char (smap (fun c => if is_space c then " "%char else c) s)).

(** [s.splitlines()] on newline-terminated lines *)
Definition splitlines (s : string) : list string :=
  let l := str_split "010"%char s in
  if decide (last l = Some "") then take (pred (length l)) l else l.

(** ** Integers *)

Definition str_int (n : Z) : string := pretty n.
Definition str_nat (n : nat) : string := pretty (Z.of_nat n).

(** Decimal digits, with Python's single underscores between them:
    [ok] says whether the end of the string is allowed here. *)
Fixpoint dec_digits (ok : bool) (acc : Z) (s : string) : option Z :=
  match s with
  | EmptyString => if ok then Some acc else None
  | String c s =>
      match digit_val c with
      | Some d => dec_digits true (acc * 10 + d) s
      | None => if ok && bool_decide (c = "_"%char) then dec_digits false acc s else None
      end
  end.

(** [int(s)] *)
Definition py_int (s : string) : res Z :=
  res_of_option (ValueError "invalid literal for int() with base 10")
    match strip s with
    | String "-" s => Z.opp <$> dec_digits false 0 s
    | String "+" s => dec_digits false 0 s
    | s => dec_digits false 0 s
    end.

(** [s.isdecimal()] *)
Definition isdecimal (s : string) : bool :=
  negb (bool_decide (s = "")) && sall is_digit s.

(** [repr] of a string and of lists *)
Definition quote1 : ascii := "'"%char.
Definition quote2 : ascii := ascii_of_N 34.
Definition backslash : ascii := ascii_of_N 92.
Definition hex_low (n : N) : ascii := ascii_of_N (if (n <? 10)%N then n + 48 else n + 87).
Definition repr_char (q c : ascii) : string :=
  let n := code c in
  if decide (c = q \/ c = backslash) then String backslash (String c EmptyString)
  else if (n =? 9)%N then String backslash "t"
  else if (n =? 10)%N then String backslash "n"
  else if (n =? 13)%N then String backslash "r"
  else if ((n <? 32) || (n =? 127))%N then
    String backslash (String "x"%char (String (hex_low (n / 16)) (String (hex_low (n mod 16)) EmptyString)))
  else String c EmptyString.
Fixpoint repr_chars (q : ascii) (s : string) : string :=
  match s with EmptyString => EmptyString | String c s => repr_char q c +:+ repr_chars q s end.
Definition repr_str (s : string) : string :=
  let q := if scontains quote1 s && negb (scontains quote2 s) then quote2 else quote1 in
  String q (repr_chars q s +:+ String q EmptyString).
Definition dquoted (s : string) : string := String quote2 (s +:+ String quote2 EmptyString).
Definition repr_list (l : list string) : string := "[" +:+ join ", " l +:+ "]".

Definition hex_digit (n : Z) : ascii :=
  ascii_of_N (Z.to_N (if (n <? 10)%Z then n + 48 else n + 55)).
(** ['%04X' % n] for [0 <= n]: at least [width] upper-case hexadecimal digits *)
Fixpoint hex_go (fuel : nat) (width : nat) (n : Z) (acc : string) : string :=
  match fuel with
  | O => acc
  | S fuel =>
      if (n =? 0)%Z && bool_decide (width = 0) then acc
      else hex_go fuel (pred width) (n / 16) (String (hex_digit (n mod 16)) acc)
  end.
Definition hex (width : nat) (n : Z) : string :=
  hex_go (width + Z.to_nat (Z.log2 n) + 1) width n "".


(** ** Lemmas *)

Section strings.
Implicit Types (s t : string) (c d : ascii) (l : list string).

Lemma sapp_nil s : "" +:+ s = s.
Proof. done. Qed.
Lemma sapp_cons c s t : String c s +:+ t = String c (s +:+ t).
Proof. done. Qed.
Lemma sapp_nil_r s : s +:+ "" = s.
Proof. induction s as [|c s IH]; [done|]. by rewrite sapp_cons, IH. Qed.
Lemma sapp_assoc s t p : (s +:+ t) +:+ p = s +:+ t +:+ p.
Proof. induction s as [|c s IH]; [done|]. by rewrite !sapp_cons, IH. Qed.
Lemma sapp_inv p s t : p +:+ s = p +:+ t -> s = t.
Proof. induction p as [|c p IH]; [done|]. rewrite !sapp_cons. by intros [= ->%IH]. Qed.
Lemma slen_app s t : slen (s +:+ t) = slen s + slen t.
Proof. induction s as [|c s IH]; [done|]. rewrite sapp_cons. unfold slen in *. simpl. by rewrite IH. Qed.
Lemma sapp_inv_r s s' t : s +:+ t = s' +:+ t -> s = s'.
Proof.
  intros Heq. assert (Hl : slen s = slen s') by (pose proof (f_equal slen Heq) as Hl; rewrite !slen_app in Hl; lia).
  revert s' Hl Heq. unfold slen. induction s as [|c s IH]; intros [|c' s'] Hl Heq; try done; simpl in Hl.
  rewrite !sapp_cons in Heq. injection Heq as -> Heq. f_equal. apply IH; [lia|done].
Qed.

Lemma sall_app p s t : sall p (s +:+ t) = sall p s && sall p t.
Proof. induction s as [|c s IH]; [done|]. rewrite sapp_cons. simpl. by rewrite IH, andb_assoc. Qed.
Lemma scontains_app c s t : scontains c (s +:+ t) = scontains c s || scontains c t.
Proof. induction s as [|d s IH]; [done|]. rewrite sapp_cons. simpl. by rewrite IH, orb_assoc. Qed.
Lemma sall_impl (p q : ascii -> bool) s :
  (forall c, p c = true -> q c = true) -> sall p s = true -> sall q s = true.
Proof.
  intros Hpq. induction s as [|c s IH]; [done|]. simpl.
  rewrite !andb_true_iff. naive_solver.
Qed.
Lemma sall_contains (p : ascii -> bool) c s :
  sall p s = true -> p c = false -> scontains c s = false.
Proof.
  induction s as [|d s IH]; [done|]. simpl. rewrite andb_true_iff. intros [Hd Hs] Hc.
  rewrite IH by done. rewrite bool_decide_false; [done|]. intros ->. congruence.
Qed.

Lemma strip_prefix_app p s : strip_prefix p (p +:+ s) = Some s.
Proof. induction p as [|c p IH]; [done|]. rewrite sapp_cons. simpl. by rewrite decide_True. Qed.
Lemma strip_prefix_Some p s t : strip_prefix p s = Some t <-> s = p +:+ t.
Proof.
  split; [|intros ->; apply strip_prefix_app].
  revert s. induction p as [|c p IH]; intros s; simpl; [naive_solver|].
  destruct s as [|d s]; [done|]. case_decide; [|done]. subst.
  intros ->%IH. by rewrite sapp_cons.
Qed.
Lemma startswith_spec p s : startswith p s = true <-> exists t, s = p +:+ t.
Proof.
  unfold startswith. destruct (strip_prefix p s) as [t|] eqn:E.
  - apply strip_prefix_Some in E. naive_solver.
  - split; [done|]. intros [t Ht]. apply strip_prefix_Some in Ht. congruence.
Qed.

(** [split] undoes [join] when the separator is in none of the pieces. *)
Lemma split_go_app c s t : scontains c s = false ->
  split_go c (s +:+ t) = (s +:+ fst (split_go c t), snd (split_go c t)).
Proof.
  induction s as [|d s IH]; simpl; [rewrite !sapp_nil; by destruct (split_go c t)|].
  rewrite orb_false_iff. intros [Hd%bool_decide_eq_false Hs].
  rewrite sapp_cons. simpl. rewrite IH by done. by rewrite decide_False.
Qed.

Lemma split_join c l : l <> [] -> Forall (fun s => scontains c s = false) l ->
  str_split c (join (String c "") l) = l.
Proof.
  intros Hl HF. unfold str_split. induction HF as [|x l Hx HF IH]; [done|].
  destruct l as [|y l].
  - simpl. rewrite <-(sapp_nil_r x) at 1. rewrite split_go_app by done. simpl.
    by rewrite sapp_nil_r.
  - cbn [join]. fold (join (String c "") (y :: l)). rewrite split_go_app by done.
    rewrite sapp_cons, sapp_nil. cbn [split_go].
    specialize (IH ltac:(done)). destruct (split_go c _) as [w ws].
    rewrite decide_True by done. simpl. by rewrite sapp_nil_r, IH.
Qed.

(** [join] undoes [split]. *)
Lemma join_split c s : join (String c "") (str_split c s) = s.
Proof.
  unfold str_split. induction s as [|d s IHs]; [done|]. cbn [split_go].
  destruct (split_go c s) as [w ws]. rewrite <-IHs.
  case_decide as Hd; subst; by destruct ws.
Qed.

Lemma join_cons sep x y l : join sep (x :: y :: l) = x +:+ sep +:+ join sep (y :: l).
Proof. done. Qed.

Lemma chars_of_chars (l : list ascii) : chars (of_chars l) = l.
Proof. induction l as [|c l IH]; [done|]. simpl. by rewrite IH. Qed.
Lemma of_chars_chars s : of_chars (chars s) = s.
Proof. induction s as [|c s IH]; [done|]. simpl. by rewrite IH. Qed.
End strings.


(** *** Decimal round trip *)

Lemma pretty_N_char_digit n : (n < 10)%N -> digit_val (pretty_N_char n) = Some (Z.of_N n).
Proof.
  intros Hn.
  assert (Hall : forallb (fun k => bool_decide (digit_val (pretty_N_char (N.of_nat k)) = Some (Z.of_nat k)))
    (seq 0 10) = true) by reflexivity.
  rewrite forallb_forall in Hall. specialize (Hall (N.to_nat n)). rewrite N2Nat.id, bool_decide_eq_true in Hall.
  rewrite Hall; [f_equal; lia|]. apply in_seq. lia.
Qed.

Lemma is_digit_val c d : digit_val c = Some d -> is_digit c = true.
Proof. unfold is_digit. by intros ->. Qed.

Lemma dec_digits_pretty_go n s ok :
  (0 < n)%N \/ ok = true -> (0 < n)%N \/ s <> "" ->
  dec_digits ok 0 (pretty_N_go n s) = dec_digits true (Z.of_N n) s.
Proof.
  revert s ok. induction (N.lt_wf_0 n) as [n _ IH]. intros s ok Hok Hs.
  destruct (decide (0 < n)%N) as [Hn|Hn].
  - pose proof (N.div_mod' n 10) as Hdm. rewrite pretty_N_go_step by done.
    destruct (decide (n `div` 10 = 0)%N) as [Hz|Hz].
    + rewrite Hz, pretty_N_go_0. simpl.
      rewrite pretty_N_char_digit by (apply N.mod_lt; done). f_equal. lia.
    + apply N.neq_0_lt_0 in Hz. rewrite IH; [|by apply N.div_lt|by left..]. simpl.
      rewrite pretty_N_char_digit by (apply N.mod_lt; done). f_equal. lia.
  - assert (n = 0%N) as -> by lia. rewrite pretty_N_go_0.
    destruct Hok as [Hok|Hok]; [lia|by rewrite Hok].
Qed.

Lemma dec_digits_pretty (n : N) : dec_digits false 0 (pretty n) = Some (Z.of_N n).
Proof.
  unfold pretty, pretty_N. case_decide; subst; [done|].
  rewrite dec_digits_pretty_go by (left; lia). done.
Qed.

Lemma pretty_N_go_digits n s : sall is_digit s = true -> sall is_digit (pretty_N_go n s) = true.
Proof.
  revert s. induction (N.lt_wf_0 n) as [n _ IH]. intros s Hs.
  destruct (decide (0 < n)%N) as [Hn|Hn].
  - rewrite pretty_N_go_step by done. apply IH; [by apply N.div_lt|]. simpl.
    rewrite Hs, andb_true_r. eapply is_digit_val, pretty_N_char_digit, N.mod_lt. done.
  - assert (n = 0%N) as -> by lia. by rewrite pretty_N_go_0.
Qed.

Lemma pretty_N_digits (n : N) : sall is_digit (pretty n) = true.
Proof. unfold pretty, pretty_N. case_decide; [done|]. by apply pretty_N_go_digits. Qed.

Lemma pretty_N_nonempty (n : N) : pretty n <> "".
Proof.
  intros Hn. pose proof (dec_digits_pretty n) as Hd. by rewrite Hn in Hd.
Qed.

Lemma is_digit_not_space c : is_digit c = true -> is_space c = false.
Proof. by destruct c as [[] [] [] [] [] [] [] []]. Qed.

Lemma lstrip_digits s : sall is_digit s = true -> lstrip s = s.
Proof.
  destruct s as [|c s]; [done|]. simpl. rewrite andb_true_iff. intros [Hc _].
  by rewrite is_digit_not_space.
Qed.

Lemma srev_app_spec s acc : srev_app s acc = srev s +:+ acc.
Proof.
  unfold srev. revert acc. induction s as [|c s IH]; intros acc; [done|]. simpl.
  by rewrite IH, (IH (String c "")), sapp_assoc.
Qed.
Lemma srev_cons c s : srev (String c s) = srev s +:+ String c "".
Proof. unfold srev at 1. simpl. apply srev_app_spec. Qed.
Lemma srev_append s t : srev (s +:+ t) = srev t +:+ srev s.
Proof.
  induction s as [|c s IH]; [by rewrite sapp_nil_r|].
  by rewrite sapp_cons, !srev_cons, IH, sapp_assoc.
Qed.
Lemma srev_involutive s : srev (srev s) = s.
Proof.
  induction s as [|c s IH]; [done|]. by rewrite srev_cons, srev_append, IH.
Qed.
Lemma sall_srev p s : sall p (srev s) = sall p s.
Proof.
  induction s as [|c s IH]; [done|]. rewrite srev_cons, sall_app, IH. simpl.
  by rewrite andb_true_r, andb_comm.
Qed.

Lemma strip_digits s : sall is_digit s = true -> strip s = s.
Proof.
  intros Hs. unfold strip, rstrip. rewrite (lstrip_digits s) by done.
  rewrite lstrip_digits by by rewrite sall_srev. apply srev_involutive.
Qed.

(** [int] on decimal digits, and [int(str(n)) == n]. *)
Lemma lstrip_idem s : lstrip (lstrip s) = lstrip s.
Proof. induction s as [|c s IH]; [done|]. cbn. destruct (is_space c) eqn:Hc; [done|]. cbn. by rewrite Hc. Qed.
Lemma lstrip_cases s : lstrip s = EmptyString \/ exists c t, lstrip s = String c t /\ is_space c = false.
Proof. induction s as [|c s IH]; [by left|]. cbn. destruct (is_space c) eqn:Hc; [done|]. right. by exists c, s. Qed.
Lemma lstrip_suffix s : exists p, s = p +:+ lstrip s.
Proof.
  induction s as [|c s (p & IH)]; [by exists EmptyString|]. cbn. destruct (is_space c); [|by exists EmptyString].
  exists (String c p). rewrite sapp_cons. by f_equal.
Qed.
Lemma strip_idem s : strip (strip s) = strip s.
Proof.
  unfold strip. assert (Hl : lstrip (rstrip (lstrip s)) = rstrip (lstrip s)).
  { destruct (lstrip_suffix (srev (lstrip s))) as [p Hp].
    assert (Hr : lstrip s = rstrip (lstrip s) +:+ srev p).
    { rewrite <-(srev_involutive (lstrip s)) at 1. rewrite Hp at 1. by rewrite srev_append. }
    destruct (rstrip (lstrip s)) as [|c t]; [done|]. rewrite sapp_cons in Hr.
    destruct (lstrip_cases s) as [Hs|(c' & t' & Hs & Hc)]; rewrite Hs in Hr; [done|]. injection Hr as <- _. cbn. by rewrite Hc. }
  rewrite Hl. unfold rstrip. by rewrite srev_involutive, lstrip_idem.
Qed.
Lemma py_int_digits s : sall is_digit s = true ->
  py_int s = res_of_option (ValueError "invalid literal for int() with base 10")
    (dec_digits false 0 s).
Proof.
  intros Hs. unfold py_int. rewrite strip_digits by done.
  destruct s as [|[[] [] [] [] [] [] [] []] s]; try done.
Qed.

Lemma py_int_pretty (n : N) : py_int (pretty n) = Ok (Z.of_N n).
Proof. rewrite py_int_digits by apply pretty_N_digits. by rewrite dec_digits_pretty. Qed.

Lemma str_nat_N n : str_nat n = pretty (N.of_nat n).
Proof. unfold str_nat. by destruct n. Qed.

Lemma py_int_str_nat n : py_int (str_nat n) = Ok (Z.of_nat n).
Proof. rewrite str_nat_N, py_int_pretty. f_equal. lia. Qed.

Lemma str_nat_digits n : sall is_digit (str_nat n) = true.
Proof. rewrite str_nat_N. apply pretty_N_digits. Qed.

Lemma isdecimal_str_nat n : isdecimal (str_nat n) = true.
Proof.
  unfold isdecimal. rewrite str_nat_digits, str_nat_N.
  by rewrite bool_decide_false by apply pretty_N_nonempty.
Qed.

(** A string of digits denotes a natural number. *)
Lemma dec_digits_total s ok acc : sall is_digit s = true -> s <> "" \/ ok = true ->
  (0 <= acc)%Z -> exists z, dec_digits ok acc s = Some z /\ (0 <= z)%Z.
Proof.
  revert ok acc. induction s as [|c s IH]; intros ok acc Hs Hok Hacc; simpl.
  - destruct Hok as [|Hok]; [done|]. rewrite Hok. by exists acc.
  - simpl in Hs. apply andb_true_iff in Hs as [Hc Hs].
    unfold is_digit in Hc. destruct (digit_val c) as [d|] eqn:Hd; [|done].
    apply IH; [done|by right|]. unfold digit_val in Hd. case_match; simplify_eq.
    apply andb_true_iff in H as [H _]. apply Z.leb_le in H. lia.
Qed.

Lemma py_int_isdecimal s : isdecimal s = true -> exists z, py_int s = Ok z /\ (0 <= z)%Z.
Proof.
  unfold isdecimal. rewrite andb_true_iff, negb_true_iff, bool_decide_eq_false.
  intros [Hne Hs]. rewrite py_int_digits by done.
  destruct (dec_digits_total s false 0 Hs) as (z & -> & Hz); [by left|done|].
  by exists z.
Qed.

(** What a sequence of [print] calls writes, and [splitlines] of it *)
Definition newline : string := String "010"%char EmptyString.
Definition print_lines (l : list string) : string := join newline (l ++ [EmptyString]).

Lemma print_lines_cons s l : print_lines (s :: l) = s +:+ newline +:+ print_lines l.
Proof. unfold print_lines. by destruct l. Qed.

Lemma splitlines_print l : Forall (fun s => scontains "010"%char s = false) l ->
  splitlines (print_lines l) = l.
Proof.
  intros Hl. unfold splitlines, print_lines, newline.
  rewrite split_join; [|by destruct l|by apply Forall_app; split; [|repeat constructor]].
  rewrite last_snoc, decide_True, length_app by done. simpl.
  rewrite Nat.add_1_r. simpl. apply take_app_length.
Qed.

Lemma digits_no_newline s : sall is_digit s = true -> scontains "010"%char s = false.
Proof. intros Hs. by apply (sall_contains is_digit). Qed.

(** ** Hexadecimal numbers *)

Lemma hex_digit_inj n m : (0 <= n < 16)%Z -> (0 <= m < 16)%Z -> hex_digit n = hex_digit m -> n = m.
Proof.
  intros Hn Hm Heq.
  set (val c := let k := Z.of_N (code c) in if (k <? 58)%Z then (k - 48)%Z else (k - 55)%Z).
  assert (Hval : forall i, (0 <= i < 16)%Z -> val (hex_digit i) = i).
  { intros i Hi. assert (Hin : i ∈ Z.of_nat <$> seq 0 16).
    { apply list_elem_of_fmap. exists (Z.to_nat i). rewrite elem_of_seq. lia. }
    clear Hi. revert i Hin. apply Forall_forall. by repeat constructor. }
  by rewrite <-(Hval n), <-(Hval m), Heq.
Qed.

(** A number that fits is written with exactly [width] digits. *)
Fixpoint hex_fixed (width : nat) (n : Z) (acc : string) : string :=
  match width with
  | O => acc
  | S width => hex_fixed width (n / 16) (String (hex_digit (n mod 16)) acc)
  end.

Lemma hex_go_fixed fuel width n acc : (0 <= n < 16 ^ Z.of_nat width)%Z -> width < fuel ->
  hex_go fuel width n acc = hex_fixed width n acc.
Proof.
  revert fuel n acc. induction width as [|width IH]; intros fuel n acc Hn Hf; (destruct fuel as [|fuel]; [lia|]).
  - cbn [hex_go]. replace n with 0%Z by lia. done.
  - cbn [hex_go hex_fixed pred]. rewrite bool_decide_false, andb_false_r by lia. apply IH; [|lia].
    rewrite Nat2Z.inj_succ, Z.pow_succ_r in Hn by lia.
    split; [apply Z.div_pos; lia|apply Z.div_lt_upper_bound; lia].
Qed.

Lemma hex_fixed_inj width n m acc acc' : hex_fixed width n acc = hex_fixed width m acc' ->
  acc = acc' /\ ((0 <= n < 16 ^ Z.of_nat width)%Z -> (0 <= m < 16 ^ Z.of_nat width)%Z -> n = m).
Proof.
  revert n m acc acc'. induction width as [|width IH]; intros n m acc acc' Heq; cbn [hex_fixed] in Heq; [split; [done|lia]|].
  apply IH in Heq as [Hacc Hnm]. injection Hacc as Hd ->. split; [done|].
  apply hex_digit_inj in Hd; [|apply Z.mod_pos_bound; lia..].
  rewrite Nat2Z.inj_succ, Z.pow_succ_r by lia. intros Hn Hm.
  pose proof (Z.div_mod n 16). pose proof (Z.div_mod m 16).
  assert (n / 16 = m / 16)%Z; [apply Hnm|lia].
  all: split; [apply Z.div_pos; lia|apply Z.div_lt_upper_bound; lia].
Qed.

(** Numbers of the same width are told apart, whatever follows them. *)
Lemma hex_inj width n m s t : (0 <= n < 16 ^ Z.of_nat width)%Z -> (0 <= m < 16 ^ Z.of_nat width)%Z ->
  hex width n +:+ s = hex width m +:+ t -> n = m /\ s = t.
Proof.
  intros Hn Hm. unfold hex. rewrite !hex_go_fixed by (done || lia).
  assert (Happ : forall w k acc r, hex_fixed w k acc +:+ r = hex_fixed w k (acc +:+ r)).
  { intros w. induction w as [|w IH]; intros k acc r; [done|]. cbn [hex_fixed]. by rewrite IH, sapp_cons. }
  rewrite !Happ, !sapp_nil. intros [Hst Hnm]%hex_fixed_inj. auto.
Qed.
