(* ===== verification/Dict.v ===== *)
(** * Python dictionaries

    Insertion-ordered dictionaries: updating a key keeps its place, a new key
    goes to the end.  The code iterates over several of them. *)

From S2P Require Import Prelude.

Section dict.
Context {K V : Type} `{EqDecision K}.

Definition dict : Type := list (K * V).

Fixpoint d_get (k : K) (d : dict) : option V :=
  match d with
  | [] => None
  | (k', v) :: d => if decide (k = k') then Some v else d_get k d
  end.

(** [d[k] = v] *)
Fixpoint d_set (k : K) (v : V) (d : dict) : dict :=
  match d with
  | [] => [(k, v)]
  | (k', v') :: d => if decide (k = k') then (k', v) :: d else (k', v') :: d_set k v d
  end.

Definition d_keys (d : dict) : list K := map fst d.
Definition d_values (d : dict) : list V := map snd d.
(** [k in d] *)
Definition d_has (k : K) (d : dict) : bool := if d_get k d is Some _ then true else false.

Implicit Types (d : dict) (k : K) (v : V).

Lemma d_get_set k k' v d :
  d_get k (d_set k' v d) = if decide (k = k') then Some v else d_get k d.
Proof.
  induction d as [|[k0 v0] d IH]; simpl; [by repeat case_decide|].
  repeat (case_decide; simpl; subst); try done.
Qed.

Lemma d_keys_set k v d :
  d_keys (d_set k v d) = if decide (k ∈ d_keys d) then d_keys d else d_keys d ++ [k].
Proof.
  unfold d_keys. induction d as [|[k0 v0] d IH]; cbn [d_set map fst].
  - case_decide as Hin; [by apply elem_of_nil in Hin|done].
  - destruct (decide (k = k0)) as [<-|Hk]; cbn [map fst].
    + rewrite decide_True by left. done.
    + rewrite IH. destruct (decide (k ∈ map fst d)).
      * by rewrite decide_True by by right.
      * rewrite decide_False; [done|]. by intros [|]%elem_of_cons.
Qed.

Lemma d_get_None k d : d_get k d = None <-> k ∉ d_keys d.
Proof.
  unfold d_keys. induction d as [|[k0 v0] d IH]; simpl.
  - split; [intros _; apply not_elem_of_nil|done].
  - rewrite not_elem_of_cons. case_decide; naive_solver.
Qed.

Lemma d_get_elem k v d : d_get k d = Some v -> (k, v) ∈ d.
Proof.
  induction d as [|[k0 v0] d IH]; simpl; [done|].
  case_decide; [intros [= ->]; subst; left|]. intros ?%IH. by right.
Qed.

Lemma d_elem_get k v d : NoDup (d_keys d) -> (k, v) ∈ d -> d_get k d = Some v.
Proof.
  unfold d_keys. induction d as [|[k0 v0] d IH]; simpl; [by intros _ ?%elem_of_nil|].
  intros [Hk Hnd]%NoDup_cons [Heq|Hin]%elem_of_cons; simplify_eq; [by rewrite decide_True|].
  rewrite decide_False; [by apply IH|]. intros ->. apply Hk.
  by apply (list_elem_of_fmap_2 fst) in Hin.
Qed.

Lemma d_set_NoDup k v d : NoDup (d_keys d) -> NoDup (d_keys (d_set k v d)).
Proof.
  intros Hnd. rewrite d_keys_set. case_decide; [done|].
  apply NoDup_app. split; [done|]. split; [|apply NoDup_singleton].
  by intros x Hx ->%list_elem_of_singleton.
Qed.

(** A predicate on every entry survives an update by a value that has it. *)
Lemma d_set_Forall (P : K * V -> Prop) k v d :
  Forall P d -> (forall k', k' = k -> P (k', v)) -> Forall P (d_set k v d).
Proof.
  intros Hd Hv. induction Hd as [|[k0 v0] d H0 Hd IH]; simpl; [repeat constructor; auto|].
  case_decide; subst; repeat constructor; auto.
Qed.
End dict.
Arguments dict K V : clear implicits.

(** A loop over the items of another dictionary that updates the entry of each
    key from its old value, if any. *)
Lemma d_get_update_all {K V W} `{EqDecision K} (f : W -> option V -> V) (l : dict K W) k
    (d : dict K V) : NoDup (d_keys l) ->
  d_get k (foldl (fun d '(k', w) => d_set k' (f w (d_get k' d)) d) d l) =
  match d_get k l with Some w => Some (f w (d_get k d)) | None => d_get k d end.
Proof.
  revert d. induction l as [|[k' w] l IH]; intros d Hnd; [done|].
  unfold d_keys in Hnd. cbn [map fst] in Hnd. apply NoDup_cons in Hnd as [Hk Hnd].
  cbn [foldl d_get]. rewrite IH by done. rewrite !d_get_set. destruct (decide (k = k')) as [->|Hne].
  - destruct (d_get k' l) as [w'|] eqn:Hw; [|done]. destruct Hk. apply d_get_elem in Hw.
    by apply (list_elem_of_fmap_2 fst) in Hw.
  - done.
Qed.
Lemma d_NoDup_update_all {K V W} `{EqDecision K} (f : W -> option V -> V) (l : dict K W)
    (d : dict K V) : NoDup (d_keys d) ->
  NoDup (d_keys (foldl (fun d '(k', w) => d_set k' (f w (d_get k' d)) d) d l)).
Proof.
  revert d. induction l as [|[k' w] l IH]; intros d Hnd; [done|]. cbn [foldl]. by apply IH, d_set_NoDup.
Qed.
