(* ===== verification/OrderedSet.v ===== *)
(** * The ordered set (src/python/ordered_set.py)

    [oset] is the class [OrderedSet]: the list [items] and the dictionary [map]
    from an item to the index it had when it was added.  Every operation is
    translated, [discard] included, which leaves the indices of [map] as they
    were.  [OrderedSetSpec] is the interface the collections of the test
    framework are proved against; [oset_spec] discharges it. *)

From S2P Require Import Prelude.

(** The abstract ordered set: a list without duplicates. *)
Definition aset_add {K} `{EqDecision K} (k : K) (l : list K) : list K :=
  if decide (k ∈ l) then l else l ++ [k].
Definition aset_union {K} `{EqDecision K} (ks l : list K) : list K :=
  foldl (fun l k => aset_add k l) l ks.
Definition aset_discard {K} `{EqDecision K} (k : K) (l : list K) : list K :=
  filter (fun x => x <> k) l.
Definition aset_difference {K} `{EqDecision K} (ks l : list K) : list K :=
  filter (fun x => x ∉ ks) l.

(** What an ordered set implementation promises: a state [T], seen as a list
    through [elems], whose operations are those of the abstract set. *)
Class OrderedSetOps (K T : Type) := {
  elems : T -> list K;
  osNew : list K -> T;
  osAdd : K -> T -> T;
  osUpdate : list K -> T -> T;
  osDiscard : K -> T -> T;
  osRemove : K -> T -> res unit * T;
  osDifference : list K -> T -> T;
  osContains : K -> T -> bool;
  osGood : T -> Prop
}.

Class OrderedSetSpec (K T : Type) `{EqDecision K} `{!OrderedSetOps K T} := {
  spec_nodup (s : T) : osGood s -> NoDup (elems s);
  spec_new (l : list K) : osGood (osNew l) /\ elems (osNew l) = aset_union l [];
  spec_add (k : K) (s : T) : osGood s ->
    osGood (osAdd k s) /\ elems (osAdd k s) = aset_add k (elems s);
  spec_update (ks : list K) (s : T) : osGood s ->
    osGood (osUpdate ks s) /\ elems (osUpdate ks s) = aset_union ks (elems s);
  spec_discard (k : K) (s : T) : osGood s ->
    osGood (osDiscard k s) /\ elems (osDiscard k s) = aset_discard k (elems s);
  spec_remove (k : K) (s : T) : osGood s ->
    osRemove k s = if decide (k ∈ elems s) then (Ok tt, osDiscard k s)
                   else (Raise KeyError, s);
  spec_difference (ks : list K) (s : T) : osGood s ->
    osGood (osDifference ks s) /\
    elems (osDifference ks s) = aset_difference ks (elems s);
  spec_contains (k : K) (s : T) : osGood s ->
    osContains k s = bool_decide (k ∈ elems s)
}.

Section OrderedSet.
Context {K : Type} `{Countable K}.

Record oset := OSet { items : list K; index_map : gmap K nat }.

Definition os_empty : oset := OSet [] ∅.

(** [d[k]] on the dictionary [map] *)
Definition map_get (m : gmap K nat) (k : K) : res nat :=
  res_of_option KeyError (m !! k).

Definition os_contains (k : K) (s : oset) : bool := bool_decide (is_Some (index_map s !! k)).

Definition os_add (k : K) : M oset nat := fun s =>
  let s' := if os_contains k s then s
            else OSet (items s ++ [k]) (<[k := length (items s)]> (index_map s)) in
  (map_get (index_map s') k, s').

Definition os_update (data : list K) : M oset (list nat) := map_each data os_add.

(** [__init__(iterable)]: the loop of [add] on an empty set *)
Definition os_init (iterable : option (list K)) : oset :=
  match iterable with
  | None => os_empty
  | Some l => snd (for_each l (fun e => os_add e ;;; mret tt) os_empty)
  end.

Definition os_len (s : oset) : nat := length (items s).

(** [__getitem__] for an integer, for a slice and for an iterable of integers *)
Definition os_getitem (index : Z) (s : oset) : res K := py_index (items s) index.
Definition os_getslice (lo hi : option Z) (s : oset) : oset :=
  match lo, hi with
  | None, None => s
  | _, _ => os_init (Some (py_slice lo hi (items s)))
  end.
Definition os_getitems (index : list Z) (s : oset) : res oset :=
  let* l := map_res index (py_index (items s)) in Ok (os_init (Some l)).

Definition os_copy (s : oset) : oset := os_init (Some (items s)).

(** [__getstate__]: the tuple [(None,)] stands for the empty set *)
Definition os_getstate (s : oset) : option (list K) :=
  if decide (os_len s = 0) then None else Some (items s).
Definition os_setstate (state : option (list K)) : oset :=
  match state with
  | None => os_init (Some [])
  | Some l => os_init (Some l)
  end.

Definition os_discard (k : K) (s : oset) : oset :=
  OSet (default (items s) (list_remove k (items s))) (delete k (index_map s)).

(** [remove], inherited from [collections.abc.MutableSet] *)
Definition os_remove (k : K) (s : oset) : res unit * oset :=
  if os_contains k s then (Ok tt, os_discard k s) else (Raise KeyError, s).

Definition os_difference_update (delta : list K) (s : oset) : oset :=
  foldl (fun s e => os_discard e s) s delta.
Definition os_difference (delta : list K) (s : oset) : oset :=
  foldl (fun new e => os_discard e new) (os_copy s) delta.

Definition os_index (k : K) (s : oset) : res nat := map_get (index_map s) k.
Definition os_index_all (ks : list K) (s : oset) : res (list nat) :=
  map_res ks (fun k => os_index k s).

(** [__eq__] with another ordered set, and with any other iterable *)
Definition os_eq (s t : oset) : bool :=
  bool_decide (os_len s = os_len t) && bool_decide (items s = items t).
Definition os_eq_iterable (s : oset) (other : list K) : bool :=
  bool_decide ((list_to_set (items s) : gset K) = list_to_set other).

(** ** Invariant *)

(** Every operation, [discard] included, keeps the items distinct and the
    dictionary's keys equal to them. *)
Definition os_wf (s : oset) : Prop :=
  NoDup (items s) /\ forall k, is_Some (index_map s !! k) <-> k ∈ items s.

(** Without [discard], the dictionary maps each item to its position. *)
Definition os_indexed (s : oset) : Prop :=
  forall k i, index_map s !! k = Some i <-> items s !! i = Some k.

(** The operations that change a set, as the commands of a run. *)
Inductive os_op :=
| OpAdd (k : K)
| OpUpdate (ks : list K)
| OpDiscard (k : K)
| OpRemove (k : K)
| OpDifferenceUpdate (ks : list K).

Definition os_step (o : os_op) (s : oset) : oset :=
  match o with
  | OpAdd k => snd (os_add k s)
  | OpUpdate ks => snd (os_update ks s)
  | OpDiscard k => os_discard k s
  | OpRemove k => snd (os_remove k s)
  | OpDifferenceUpdate ks => os_difference_update ks s
  end.
Definition os_run (ops : list os_op) (s : oset) : oset :=
  foldl (fun s o => os_step o s) s ops.

Definition grow_only (o : os_op) : bool :=
  match o with OpAdd _ | OpUpdate _ => true | _ => false end.

(** The same commands on the abstract set. *)
Definition aset_step (o : os_op) (l : list K) : list K :=
  match o with
  | OpAdd k => aset_add k l
  | OpUpdate ks => aset_union ks l
  | OpDiscard k | OpRemove k => aset_discard k l
  | OpDifferenceUpdate ks => aset_difference ks l
  end.
Definition aset_run (ops : list os_op) (l : list K) : list K :=
  foldl (fun l o => aset_step o l) l ops.
End OrderedSet.
Arguments oset K {_ _}.
Arguments os_op K : clear implicits.

#[export] Instance oset_eq_dec {K} `{Countable K} : EqDecision (oset K).
Proof. solve_decision. Defined.

(** ** Lemmas *)

Section theory.
Context {K : Type} `{Countable K}.
Implicit Types (s : oset K) (k : K) (l ks : list K).

Lemma aset_add_elem k l x : x ∈ aset_add k l <-> x = k \/ x ∈ l.
Proof. unfold aset_add. case_decide; [naive_solver|]. rewrite elem_of_app, list_elem_of_singleton. naive_solver. Qed.

Lemma aset_add_NoDup k l : NoDup l -> NoDup (aset_add k l).
Proof.
  intros Hl. unfold aset_add. case_decide; [done|].
  apply NoDup_app. split; [done|]. split; [|apply NoDup_singleton].
  by intros x Hx ->%list_elem_of_singleton.
Qed.

Lemma aset_union_cons k ks l : aset_union (k :: ks) l = aset_union ks (aset_add k l).
Proof. done. Qed.

Lemma aset_union_elem ks l x : x ∈ aset_union ks l <-> x ∈ ks \/ x ∈ l.
Proof.
  revert l. induction ks as [|k ks IH]; intros l; [set_solver|].
  rewrite aset_union_cons, IH, aset_add_elem. set_solver.
Qed.

Lemma aset_union_NoDup ks l : NoDup l -> NoDup (aset_union ks l).
Proof.
  revert l. induction ks as [|k ks IH]; intros l Hl; [done|].
  rewrite aset_union_cons. by apply IH, aset_add_NoDup.
Qed.

(** Adding new distinct items appends them in order. *)
Lemma aset_union_fresh ks l :
  NoDup ks -> (forall x, x ∈ ks -> x ∉ l) -> aset_union ks l = l ++ ks.
Proof.
  revert l. induction ks as [|k ks IH]; intros l Hnd Hf; [by rewrite app_nil_r|].
  apply NoDup_cons in Hnd as [Hk Hnd]. rewrite aset_union_cons.
  assert (aset_add k l = l ++ [k]) as ->.
  { unfold aset_add. rewrite decide_False; [done|]. apply Hf. set_solver. }
  rewrite IH; [by rewrite <-app_assoc|done|]. set_solver.
Qed.

Lemma aset_union_id l : NoDup l -> aset_union l [] = l.
Proof. intros Hl. apply aset_union_fresh; [done|]. set_solver. Qed.

Lemma aset_difference_cons k ks l :
  aset_difference (k :: ks) l = aset_difference ks (aset_discard k l).
Proof.
  unfold aset_difference, aset_discard. rewrite list_filter_filter.
  apply list_filter_iff. set_solver.
Qed.

Lemma aset_discard_notin k l : k ∉ l -> aset_discard k l = l.
Proof. intros Hk. apply filter_id, Forall_forall. by intros x Hx ->. Qed.

Lemma os_contains_spec k s : os_wf s -> os_contains k s = bool_decide (k ∈ items s).
Proof. intros [_ Hd]. apply bool_decide_ext, Hd. Qed.

Lemma os_empty_wf : os_wf (os_empty : oset K).
Proof.
  split; [constructor|]. intros k. simpl. rewrite lookup_empty.
  split; [by intros []%is_Some_None|set_solver].
Qed.

Lemma os_add_wf k s : os_wf s -> os_wf (snd (os_add k s)).
Proof.
  intros Hwf. pose proof Hwf as [Hnd Hd]. unfold os_add; simpl.
  rewrite os_contains_spec by done. case_bool_decide as Hk; [done|]. split; simpl.
  - pose proof (aset_add_NoDup k _ Hnd) as Hn. unfold aset_add in Hn.
    by rewrite decide_False in Hn.
  - intros x. rewrite lookup_insert_is_Some, elem_of_app, list_elem_of_singleton, Hd.
    destruct (decide (k = x)); naive_solver.
Qed.

Lemma os_add_items k s : os_wf s -> items (snd (os_add k s)) = aset_add k (items s).
Proof.
  intros Hwf. unfold os_add, aset_add; simpl. rewrite os_contains_spec by done.
  by destruct (decide (k ∈ items s)); case_bool_decide.
Qed.

(** [add] always returns an index: the [KeyError] branch is not reachable. *)
Lemma os_add_returns k s : os_wf s -> is_ok (fst (os_add k s)) = true.
Proof.
  intros Hwf. pose proof Hwf as [_ Hd]. unfold os_add, map_get; simpl.
  rewrite os_contains_spec by done. case_bool_decide as Hk; simpl.
  - apply Hd in Hk as [i ->]. done.
  - by rewrite lookup_insert_eq.
Qed.

Lemma os_add_ok k s : os_wf s -> exists i, os_add k s = (Ok i, snd (os_add k s)).
Proof.
  intros Hwf. pose proof (os_add_returns k s Hwf) as Hr.
  destruct (os_add k s) as [[i|e] s']; [by eexists|done].
Qed.

Lemma os_update_cons k ks s : os_wf s ->
  snd (os_update (k :: ks) s) = snd (os_update ks (snd (os_add k s))).
Proof.
  intros Hwf. unfold os_update; simpl. unfold mbind, M_bind.
  destruct (os_add_ok k s Hwf) as [i ->]. simpl.
  by destruct (map_each ks os_add _) as [[]].
Qed.

Lemma os_update_spec ks s : os_wf s ->
  os_wf (snd (os_update ks s)) /\
  items (snd (os_update ks s)) = aset_union ks (items s).
Proof.
  revert s. induction ks as [|k ks IH]; intros s Hwf; [done|].
  rewrite os_update_cons, aset_union_cons by done.
  rewrite <-os_add_items by done. by apply IH, os_add_wf.
Qed.

Lemma os_init_update l :
  os_init (Some l) = snd (os_update l os_empty).
Proof.
  unfold os_init, os_update. generalize (os_empty_wf).
  generalize (os_empty : oset K) as s. induction l as [|k l IH]; intros s Hwf; [done|].
  simpl. unfold mbind, M_bind. destruct (os_add_ok k s Hwf) as [i Hi]. rewrite Hi. simpl.
  rewrite IH by by apply os_add_wf.
  by destruct (map_each l os_add _) as [[]].
Qed.

Lemma os_init_spec l :
  os_wf (os_init (Some l)) /\ items (os_init (Some l)) = aset_union l [].
Proof. rewrite os_init_update. apply os_update_spec, os_empty_wf. Qed.

Lemma os_discard_items k s : os_wf s -> items (os_discard k s) = aset_discard k (items s).
Proof.
  intros [Hnd _]. simpl. destruct (decide (k ∈ items s)) as [Hk|Hk].
  - by rewrite list_remove_NoDup.
  - rewrite aset_discard_notin by done. by rewrite (proj2 (list_remove_None _ _)).
Qed.

Lemma os_discard_wf k s : os_wf s -> os_wf (os_discard k s).
Proof.
  intros Hwf. pose proof Hwf as [Hnd Hd]. split.
  - rewrite os_discard_items by done. by apply NoDup_filter.
  - intros x. rewrite os_discard_items by done. unfold aset_discard.
    rewrite list_elem_of_filter. simpl.
    rewrite lookup_delete_is_Some, Hd. naive_solver.
Qed.

Lemma os_difference_update_spec ks s : os_wf s ->
  os_wf (os_difference_update ks s) /\
  items (os_difference_update ks s) = aset_difference ks (items s).
Proof.
  revert s. induction ks as [|k ks IH]; intros s Hwf; simpl.
  - split; [done|]. symmetry. apply filter_id, Forall_forall. set_solver.
  - rewrite aset_difference_cons, <-os_discard_items by done.
    by apply IH, os_discard_wf.
Qed.

Lemma os_copy_spec s : os_wf s -> os_wf (os_copy s) /\ items (os_copy s) = items s.
Proof.
  intros [Hnd _]. pose proof (os_init_spec (items s)) as [Hwf Hi].
  split; [done|]. unfold os_copy. by rewrite Hi, aset_union_id.
Qed.

Lemma os_difference_spec ks s : os_wf s ->
  os_wf (os_difference ks s) /\
  items (os_difference ks s) = aset_difference ks (items s).
Proof.
  intros Hwf. destruct (os_copy_spec s Hwf) as [Hc Hi].
  unfold os_difference. rewrite <-Hi. by apply os_difference_update_spec.
Qed.

Lemma os_remove_spec k s : os_wf s ->
  os_remove k s = if decide (k ∈ items s) then (Ok tt, os_discard k s) else (Raise KeyError, s).
Proof.
  intros Hwf. unfold os_remove. rewrite os_contains_spec by done.
  by destruct (decide (k ∈ items s)); case_bool_decide.
Qed.

Lemma os_step_spec (o : os_op K) s : os_wf s ->
  os_wf (os_step o s) /\ items (os_step o s) = aset_step o (items s).
Proof.
  intros Hwf. destruct o as [k|ks|k|k|ks]; simpl.
  - split; [by apply os_add_wf|by apply os_add_items].
  - by apply os_update_spec.
  - split; [by apply os_discard_wf|by apply os_discard_items].
  - rewrite os_remove_spec by done. case_decide; [split; [by apply os_discard_wf|by apply os_discard_items]|].
    simpl. by rewrite aset_discard_notin.
  - by apply os_difference_update_spec.
Qed.

Lemma os_run_spec (ops : list (os_op K)) s : os_wf s ->
  os_wf (os_run ops s) /\ items (os_run ops s) = aset_run ops (items s).
Proof.
  revert s. induction ops as [|o ops IH]; intros s Hwf; [done|].
  destruct (os_step_spec o s Hwf) as [Hs Hi]. simpl.
  unfold os_run, aset_run in *. simpl. rewrite <-Hi. by apply IH.
Qed.
End theory.

(** ** The interface is implemented *)

#[export] Instance oset_ops {K} `{Countable K} : OrderedSetOps K (oset K) := {|
  elems := items;
  osNew l := os_init (Some l);
  osAdd k s := snd (os_add k s);
  osUpdate ks s := snd (os_update ks s);
  osDiscard := os_discard;
  osRemove := os_remove;
  osDifference := os_difference;
  osContains := os_contains;
  osGood := os_wf
|}.

#[export] Instance oset_spec {K} `{Countable K} : OrderedSetSpec K (oset K).
Proof.
  split; simpl.
  - by intros s [Hnd _].
  - apply os_init_spec.
  - intros k s Hs. split; [by apply os_add_wf|by apply os_add_items].
  - intros ks s. apply os_update_spec.
  - intros k s Hs. split; [by apply os_discard_wf|by apply os_discard_items].
  - intros k s. apply os_remove_spec.
  - intros ks s. apply os_difference_spec.
  - intros k s. apply os_contains_spec.
Qed.

(** ** Indices *)

Section indices.
Context {K : Type} `{Countable K}.
Implicit Types (s : oset K) (k : K) (l ks : list K).

Lemma os_indexed_add k s : os_wf s -> os_indexed s -> os_indexed (snd (os_add k s)).
Proof.
  intros Hwf Hix. unfold os_add; simpl. rewrite os_contains_spec by done.
  case_bool_decide as Hk; [done|]. intros x i. simpl.
  destruct (decide (x = k)) as [->|Hx].
  - rewrite lookup_insert_eq, lookup_snoc_Some. split; [naive_solver lia|].
    intros [[_ Hi]|[-> _]]; [|done].
    destruct Hk. by eapply list_elem_of_lookup_2.
  - rewrite lookup_insert_ne by done. rewrite (Hix x i), lookup_snoc_Some.
    split; [|naive_solver]. intros Hi. left. split; [|done].
    by eapply lookup_lt_Some.
Qed.

Lemma os_indexed_update ks s : os_wf s -> os_indexed s -> os_indexed (snd (os_update ks s)).
Proof.
  revert s. induction ks as [|k ks IH]; intros s Hwf Hix; [done|].
  rewrite os_update_cons by done.
  apply IH; [by apply os_add_wf|by apply os_indexed_add].
Qed.

Lemma os_indexed_init l : os_indexed (os_init (Some l)).
Proof.
  rewrite os_init_update. apply os_indexed_update; [apply os_empty_wf|].
  intros k i. simpl. by rewrite lookup_empty, lookup_nil.
Qed.

Lemma os_indexed_run (ops : list (os_op K)) s :
  os_wf s -> os_indexed s -> forallb grow_only ops = true -> os_indexed (os_run ops s).
Proof.
  revert s. induction ops as [|o ops IH]; intros s Hwf Hix Hg; [done|].
  simpl in Hg. apply andb_true_iff in Hg as [Ho Hg].
  unfold os_run in *; simpl. apply IH; [by apply os_step_spec| |done].
  destruct o; try done; simpl; [by apply os_indexed_add|by apply os_indexed_update].
Qed.

Lemma os_index_getitem s k (i : nat) :
  os_indexed s -> os_index k s = Ok i <-> os_getitem (Z.of_nat i) s = Ok k.
Proof.
  intros Hix. unfold os_index, map_get, os_getitem. rewrite py_index_nat.
  specialize (Hix k i). destruct (index_map s !! k), (items s !! i); simpl; naive_solver.
Qed.
End indices.

(** ** Properties *)

(** C38: every sequence of [add], [update], [discard], [remove] and
    [difference_update] on an ordered set built from any iterable keeps the
    items distinct and the dictionary's keys equal to them, and leaves the
    items in exactly the order of the abstract ordered set: first insertion
    order, less the items discarded since. *)
Theorem ordered_set_refines {K} `{Countable K} (init : list K) (ops : list (os_op K)) :
  let s := os_run ops (os_init (Some init)) in
  os_wf s /\ items s = aset_run ops (aset_union init []).
Proof.
  simpl. destruct (os_init_spec init) as [Hwf <-]. by apply os_run_spec.
Qed.

(** as long as nothing is discarded, [index] is the inverse of
    [__getitem__]: it returns [i] for an item exactly when the item is at
    position [i], and it raises [KeyError] exactly on the items not present. *)
Theorem ordered_set_index_inverse {K} `{Countable K} (init : list K)
    (ops : list (os_op K)) (k : K) (i : nat) :
  forallb grow_only ops = true ->
  let s := os_run ops (os_init (Some init)) in
  (os_index k s = Ok i <-> os_getitem (Z.of_nat i) s = Ok k) /\
  (os_index k s = Raise KeyError <-> k ∉ items s).
Proof.
  intros Hg s. pose proof (os_init_spec init) as [Hwf0 _].
  pose proof (os_indexed_run ops _ Hwf0 (os_indexed_init init) Hg) as Hix.
  destruct (os_run_spec ops _ Hwf0) as [[_ Hd] _]. fold s in Hix, Hd.
  split; [by apply os_index_getitem|].
  unfold os_index, map_get. rewrite <-Hd.
  destruct (index_map s !! k); simpl; [naive_solver|].
  split; [by intros _ []%is_Some_None|done].
Qed.

(** after the first of at least two items is discarded the dictionary is
    stale: the next new item gets the index the last item already has, so two
    different items share an index and [index] no longer finds positions. *)
Theorem discard_makes_indices_collide {K} `{Countable K} (a z d : K) (l : list K) :
  NoDup (a :: l ++ [z]) -> d ∉ a :: l ++ [z] ->
  let s := snd (os_add d (os_discard a (os_init (Some (a :: l ++ [z]))))) in
  d <> z /\ items s = l ++ [z; d] /\
  os_index d s = Ok (S (length l)) /\ os_index z s = Ok (S (length l)) /\
  os_getitem (Z.of_nat (length l)) s = Ok z.
Proof.
  intros Hnd Hd. set (s0 := os_init _).
  destruct (os_init_spec (a :: l ++ [z])) as [Hwf Hi]. fold s0 in Hwf, Hi.
  rewrite aset_union_id in Hi by done.
  pose proof (os_indexed_init (a :: l ++ [z])) as Hix. fold s0 in Hix.
  pose proof (os_discard_wf a _ Hwf) as Hwf'.
  assert (items (os_discard a s0) = l ++ [z]) as Hi'.
  { rewrite os_discard_items, Hi by done. unfold aset_discard.
    rewrite filter_cons_False by naive_solver.
    apply NoDup_cons in Hnd as [Ha _]. by apply (aset_discard_notin a (l ++ [z])). }
  assert (d <> z /\ z <> a /\ d ∉ l ++ [z]) as (Hdz & Hza & Hdl).
  { apply NoDup_cons in Hnd as [Ha _]. set_solver. }
  assert (index_map s0 !! z = Some (S (length l))) as Hz.
  { apply Hix. rewrite Hi. simpl. rewrite lookup_app_r, Nat.sub_diag by lia. done. }
  unfold os_add. rewrite os_contains_spec, Hi', bool_decide_false by done.
  cbn [snd items index_map os_discard]. unfold os_index, os_getitem, map_get. cbn [index_map items].
  rewrite py_index_nat, length_app, lookup_insert_eq, lookup_insert_ne, lookup_delete_ne by done.
  rewrite Hz, <-app_assoc, lookup_app_r, Nat.sub_diag by lia. simpl.
  split_and!; [done..| |done|done]. f_equal. lia.
Qed.

(** pickling keeps the items and their order, and the unpickled set's
    indices are positions again, also when discards had made them stale. *)
Theorem ordered_set_pickle_roundtrip {K} `{Countable K} (init : list K)
    (ops : list (os_op K)) :
  let s := os_run ops (os_init (Some init)) in
  let t := os_setstate (os_getstate s) in
  items t = items s /\ os_indexed t /\ os_eq t s = true.
Proof.
  simpl. set (s := os_run _ _).
  destruct (os_init_spec init) as [Hwf0 _].
  destruct (os_run_spec ops _ Hwf0) as [[Hnd _] _]. fold s in Hnd.
  unfold os_eq. assert (items (os_setstate (os_getstate s)) = items s /\
    os_indexed (os_setstate (os_getstate s))) as [Hi Hx].
  { unfold os_getstate. case_decide as Hl.
    - apply nil_length_inv in Hl. split; [by rewrite Hl|apply os_indexed_init].
    - split; [|apply os_indexed_init]. simpl. fold (os_init (Some (items s))).
      destruct (os_init_spec (items s)) as [_ ->]. by apply aset_union_id. }
  split_and!; [done..|]. unfold os_len. by rewrite Hi, !bool_decide_true.
Qed.

(** ** Witnesses *)

Lemma ordered_set_index_inverse_witness :
  os_index 7 (os_run [OpAdd 7; OpUpdate [5; 9]] (os_init (Some [5]))) = Ok 1.
Proof.
  apply (proj2 (proj1 (ordered_set_index_inverse [5] [OpAdd 7; OpUpdate [5; 9]] 7 1 eq_refl))).
  reflexivity.
Defined.

Lemma discard_makes_indices_collide_witness :
  os_index 4 (snd (os_add 4 (os_discard 1 (os_init (Some [1; 2; 3]))))) = Ok 2.
Proof.
  refine (proj1 (proj2 (proj2 (discard_makes_indices_collide 1 3 4 [2] _ _)))).
  - apply (bool_decide_unpack _). vm_compute. exact I.
  - apply (bool_decide_unpack _). vm_compute. exact I.
Defined.
