(* ===== verification/Json.v ===== *)
(** * JSON texts

    The decoder and the encoder of Python's module [json], as far as the code
    uses them, on characters below 256 (an escape of a later character, and the
    names NaN and Infinity, are errors here), and [stream_read_json] of src/run.py, which reads several
    documents from one file. *)

From S2P Require Import Prelude PyStr Dict.
#[local] Set Warnings "-register-all".

(** ** Values *)

(** A number is kept as it is spelled. *)
Inductive json :=
| JNull
| JBool (b : bool)
| JNum (token : string)
| JStr (s : string)
| JList (l : list json)
| JObj (l : list (string * json)).

Lemma json_induction (P : json -> Prop) :
  P JNull -> (forall b, P (JBool b)) -> (forall t, P (JNum t)) -> (forall s, P (JStr s)) ->
  (forall l, Forall P l -> P (JList l)) -> (forall l, Forall (fun p => P (snd p)) l -> P (JObj l)) ->
  forall j, P j.
Proof.
  intros H1 H2 H3 H4 H5 H6. fix IH 1. intros [| | | |l|l]; [done|done|done|done|apply H5|apply H6].
  - induction l as [|j l IHl]; constructor; [apply IH|exact IHl].
  - induction l as [|[k j] l IHl]; constructor; [apply IH|exact IHl].
Qed.

(** ** Decoding *)

Definition is_ws (c : ascii) : bool := bool_decide (c ∈ [" "; "009"; "010"; "013"]%char).
Fixpoint skip_ws (s : string) : string :=
  match s with String c s' => if is_ws c then skip_ws s' else s | EmptyString => s end.
Definition head_char (s : string) : option ascii := match s with String c _ => Some c | _ => None end.

(** The longest prefix of digits *)
Fixpoint digits (s : string) : string * string :=
  match s with
  | String c s' => if is_digit c then let '(d, r) := digits s' in (String c d, r) else (EmptyString, s)
  | EmptyString => (EmptyString, s)
  end.

(** [NUMBER_RE]: an optional minus sign, 0 or digits that do not begin with 0,
    then an optional fraction and an optional exponent *)
Definition scan_fraction (s : string) : string * string :=
  match s with
  | String c s' => let '(d, r) := digits s' in
      if decide (c = "."%char /\ d <> EmptyString) then (String c d, r) else (EmptyString, s)
  | EmptyString => (EmptyString, s)
  end.
Definition scan_exponent (s : string) : string * string :=
  match s with
  | String c s1 =>
      let '(sign, s2) := match s1 with
                         | String d s2 => if decide (d ∈ ["+"; "-"]%char) then (String d EmptyString, s2) else (EmptyString, s1)
                         | EmptyString => (EmptyString, s1)
                         end in
      let '(d, r) := digits s2 in
      if decide (c ∈ ["e"; "E"]%char /\ d <> EmptyString) then (String c (sign +:+ d), r) else (EmptyString, s)
  | EmptyString => (EmptyString, s)
  end.
Definition scan_number (s : string) : option (string * string) :=
  let '(sign, s1) := match s with
                     | String c s1 => if decide (c = "-"%char) then ("-", s1) else (EmptyString, s)
                     | EmptyString => (EmptyString, s)
                     end in
  let int := match s1 with
             | String c s2 => if decide (c = "0"%char) then ("0", s2) else digits s1
             | EmptyString => (EmptyString, s1)
             end in
  let '(d, s2) := int in
  if decide (d = EmptyString) then None
  else
    let '(f, s3) := scan_fraction s2 in
    let '(e, s4) := scan_exponent s3 in
    Some (sign +:+ d +:+ f +:+ e, s4).

Definition hex_val (c : ascii) : option N :=
  let n := code c in
  if ((48 <=? n) && (n <=? 57))%N then Some (n - 48)%N
  else if ((97 <=? n) && (n <=? 102))%N then Some (n - 87)%N
  else if ((65 <=? n) && (n <=? 70))%N then Some (n - 55)%N else None.
Definition hex4 (a b c d : ascii) : option N :=
  match hex_val a, hex_val b, hex_val c, hex_val d with
  | Some a, Some b, Some c, Some d => Some (a * 4096 + b * 256 + c * 16 + d)%N
  | _, _, _, _ => None
  end.
Definition unescape (c : ascii) : option ascii :=
  if decide (c ∈ [quote2; backslash; "/"%char]) then Some c
  else match c with
       | "b"%char => Some "008"%char
       | "f"%char => Some "012"%char
       | "n"%char => Some "010"%char
       | "r"%char => Some "013"%char
       | "t"%char => Some "009"%char
       | _ => None
       end.

(** A string after its opening quote, and the text after its closing quote *)
Fixpoint scan_string (s : string) : option (string * string) :=
  match s with
  | EmptyString => None
  | String c s1 =>
      if decide (c = quote2) then Some (EmptyString, s1)
      else if decide (c = backslash) then
        match s1 with
        | String "u" (String a (String b (String c (String d s2)))) =>
            match hex4 a b c d with
            | Some n => if (n <? 256)%N then (fun '(t, r) => (String (ascii_of_N n) t, r)) <$> scan_string s2 else None
            | None => None
            end
        | String e s2 =>
            match unescape e with
            | Some x => (fun '(t, r) => (String x t, r)) <$> scan_string s2
            | None => None
            end
        | EmptyString => None
        end
      else if (code c <? 32)%N then None
      else (fun '(t, r) => (String c t, r)) <$> scan_string s1
  end.

(** The pairs of an object as a dictionary: a later value of a key counts. *)
Definition dict_of (l : list (string * json)) : list (string * json) :=
  foldl (fun d '(k, v) => d_set k v d) [] l.

(** [raw_decode]: a value at the beginning of the text, and the text after it.
    The fuel bounds the depth and the number of members. *)
Fixpoint decode (fuel : nat) (s : string) {struct fuel} : option (json * string) :=
  match fuel with
  | O => None
  | S fuel =>
      match s with
      | EmptyString => None
      | String c s1 =>
          if decide (c = quote2) then (fun '(t, r) => (JStr t, r)) <$> scan_string s1
          else if decide (c = "{"%char) then
            match skip_ws s1 with
            | String d s2 => if decide (d = "}"%char) then Some (JObj [], s2)
                             else (fun '(l, r) => (JObj (dict_of l), r)) <$> decode_members fuel (String d s2)
            | EmptyString => None
            end
          else if decide (c = "["%char) then
            match skip_ws s1 with
            | String d s2 => if decide (d = "]"%char) then Some (JList [], s2)
                             else (fun '(l, r) => (JList l, r)) <$> decode_items fuel (String d s2)
            | EmptyString => None
            end
          else
            match strip_prefix "null" s, strip_prefix "true" s, strip_prefix "false" s with
            | Some r, _, _ => Some (JNull, r)
            | _, Some r, _ => Some (JBool true, r)
            | _, _, Some r => Some (JBool false, r)
            | _, _, _ => (fun '(t, r) => (JNum t, r)) <$> scan_number s
            end
      end
  end
with decode_items (fuel : nat) (s : string) {struct fuel} : option (list json * string) :=
  match fuel with
  | O => None
  | S fuel =>
      decode fuel s ≫= fun '(j, s1) =>
      match skip_ws s1 with
      | String c s2 =>
          if decide (c = "]"%char) then Some ([j], s2)
          else if decide (c = ","%char) then (fun '(l, r) => (j :: l, r)) <$> decode_items fuel (skip_ws s2)
          else None
      | EmptyString => None
      end
  end
with decode_members (fuel : nat) (s : string) {struct fuel} : option (list (string * json) * string) :=
  match fuel with
  | O => None
  | S fuel =>
      match s with
      | String q s0 =>
          if decide (q = quote2) then
            scan_string s0 ≫= fun '(k, s1) =>
            match skip_ws s1 with
            | String c s2 =>
                if decide (c = ":"%char) then
                  decode fuel (skip_ws s2) ≫= fun '(j, s3) =>
                  match skip_ws s3 with
                  | String c s4 =>
                      if decide (c = "}"%char) then Some ([(k, j)], s4)
                      else if decide (c = ","%char) then (fun '(l, r) => ((k, j) :: l, r)) <$> decode_members fuel (skip_ws s4)
                      else None
                  | EmptyString => None
                  end
                else None
            | EmptyString => None
            end
          else None
      | EmptyString => None
      end
  end.
Definition raw_decode (s : string) : option (json * string) := decode (2 * slen s + 2) s.

(** [json.loads]: the value, or where data begin that are too much, or another error *)
Inductive loaded :=
| Loaded (j : json)
| ExtraData (pos : nat)
| BadJson.
Definition json_loads (s : string) : loaded :=
  match raw_decode (skip_ws s) with
  | Some (j, r) => let r := skip_ws r in
      if decide (r = EmptyString) then Loaded j else ExtraData (slen s - slen r)
  | None => BadJson
  end.

(** [j[key]] and [j[i]] *)
Definition json_key (key : string) (j : json) : res json :=
  match j with
  | JObj l => res_of_option KeyError (d_get key l)
  | JList _ => Raise (TypeError "list indices must be integers or slices, not str")
  | JStr _ => Raise (TypeError "string indices must be integers")
  | _ => Raise (TypeError "object is not subscriptable")
  end.
Definition json_index (i : Z) (j : json) : res json :=
  match j with
  | JList l => py_index l i
  | JStr s => (fun c => JStr (String c EmptyString)) <$> py_index (chars s) i
  | JObj _ => Raise KeyError
  | _ => Raise (TypeError "object is not subscriptable")
  end.
(** The value of [json.loads(s)] *)
Definition loads (s : string) : res json :=
  match json_loads s with Loaded j => Ok j | _ => Raise (ValueError "JSONDecodeError") end.

(** ** Encoding *)

Definition hex_lower (n : N) : ascii := ascii_of_N (if (n <? 10)%N then n + 48 else n + 87).
Definition escape (c : ascii) : string :=
  if decide (c = quote2) then String backslash (String quote2 EmptyString)
  else if decide (c = backslash) then String backslash (String backslash EmptyString)
  else if decide (c = "010"%char) then "\n"
  else if decide (c = "013"%char) then "\r"
  else if decide (c = "009"%char) then "\t"
  else if decide (c = "012"%char) then "\f"
  else if decide (c = "008"%char) then "\b"
  else if ((code c <? 32) || (126 <? code c))%N then
    "\u00" +:+ String (hex_lower (code c / 16)) (String (hex_lower (code c mod 16)) EmptyString)
  else String c EmptyString.
Fixpoint escape_all (s : string) : string :=
  match s with EmptyString => EmptyString | String c s => escape c +:+ escape_all s end.
Definition dumps_str (s : string) : string := String quote2 (escape_all s +:+ String quote2 EmptyString).

(** [json.dumps] *)
Fixpoint dumps (j : json) : string :=
  match j with
  | JNull => "null"
  | JBool true => "true"
  | JBool false => "false"
  | JNum t => t
  | JStr s => dumps_str s
  | JList l => "[" +:+ join ", " (map dumps l) +:+ "]"
  | JObj l => "{" +:+ join ", " (map (fun '(k, v) => dumps_str k +:+ ": " +:+ dumps v) l) +:+ "}"
  end.

(** What the encoder is given here: numbers as the decoder reads them, and
    objects with distinct keys *)
Fixpoint json_wf (j : json) : Prop :=
  match j with
  | JNum t => scan_number t = Some (t, EmptyString)
  | JList l => fold_right (fun j P => json_wf j /\ P) True l
  | JObj l => NoDup (map fst l) /\ fold_right (fun p P => json_wf (snd p) /\ P) True l
  | _ => True
  end.
(** No number goes on in this text. *)
Definition stops (s : string) : Prop :=
  match s with
  | String c _ => is_digit c = false /\ c ∉ ["."; "e"; "E"; "+"; "-"]%char
  | EmptyString => True
  end.

(** ** Lemmas: the pieces of a text *)

Lemma scan_escape c t : scan_string (escape c +:+ t) = (fun '(x, r) => (String c x, r)) <$> scan_string t.
Proof. destruct c as [[] [] [] [] [] [] [] []]; reflexivity. Qed.

Lemma scan_escape_all s rest :
  scan_string (escape_all s +:+ String quote2 rest) = Some (s, rest).
Proof.
  induction s as [|c s IH]; [done|]. cbn [escape_all]. by rewrite sapp_assoc, scan_escape, IH.
Qed.

Lemma digits_app s rest : stops rest -> digits (s +:+ rest) = (fst (digits s), snd (digits s) +:+ rest).
Proof.
  intros Hr. induction s as [|c s IH].
  - rewrite sapp_nil. destruct rest as [|c rest]; [done|]. destruct Hr as [Hc _]. cbn. by rewrite Hc.
  - rewrite sapp_cons. cbn. destruct (is_digit c); [|done]. rewrite IH. by destruct (digits s).
Qed.

Lemma scan_fraction_app s rest : stops rest ->
  scan_fraction (s +:+ rest) = (fst (scan_fraction s), snd (scan_fraction s) +:+ rest).
Proof.
  intros Hr. destruct s as [|c s].
  - rewrite sapp_nil. destruct rest as [|c rest]; [done|]. destruct Hr as [_ Hc]. unfold scan_fraction.
    destruct (digits rest). rewrite decide_False; [done|]. set_solver.
  - rewrite sapp_cons. unfold scan_fraction. rewrite digits_app by done. destruct (digits s) as [d r]. cbn.
    by destruct (decide _).
Qed.

Lemma scan_exponent_app s rest : stops rest ->
  scan_exponent (s +:+ rest) = (fst (scan_exponent s), snd (scan_exponent s) +:+ rest).
Proof.
  intros Hr. destruct s as [|c s].
  - rewrite sapp_nil. destruct rest as [|c rest]; [done|]. destruct Hr as [_ Hc]. unfold scan_exponent.
    destruct (match rest with EmptyString => _ | _ => _ end) as [sign s2]. destruct (digits s2).
    rewrite decide_False; [done|]. set_solver.
  - rewrite sapp_cons. unfold scan_exponent. destruct s as [|d s].
    + rewrite sapp_nil. cbn [digits]. destruct rest as [|d rest]; [cbn; by destruct (decide _)|]. destruct Hr as [Hd Hc].
      rewrite (decide_False (P := d ∈ _)) by set_solver. cbn [digits]. rewrite Hd. rewrite !decide_False by naive_solver. done.
    + rewrite sapp_cons. destruct (decide (d ∈ ["+"; "-"]%char)).
      * rewrite digits_app by done. destruct (digits s) as [x r]. cbn [fst snd]. by destruct (decide _).
      * rewrite <-sapp_cons, digits_app by done. destruct (digits (String d s)) as [x r]. cbn [fst snd]. by destruct (decide _).
Qed.

Lemma scan_number_app t r rest : stops rest -> scan_number t = Some (r, EmptyString) -> scan_number (t +:+ rest) = Some (r, rest).
Proof.
  intros Hr. unfold scan_number. destruct t as [|c t]; [done|]. rewrite sapp_cons.
  set (sp := if decide (c = "-"%char) then ("-", t) else (EmptyString, String c t)).
  assert (Hsp : (if decide (c = "-"%char) then ("-", t +:+ rest) else (EmptyString, String c (t +:+ rest))) = (fst sp, snd sp +:+ rest)).
  { unfold sp. by destruct (decide _). }
  rewrite Hsp. clear Hsp. destruct sp as [sign s1]. cbn [fst snd]. destruct s1 as [|d s1]; [done|]. rewrite sapp_cons.
  set (ip := if decide (d = "0"%char) then ("0", s1) else digits (String d s1)).
  assert (Hip : (if decide (d = "0"%char) then ("0", s1 +:+ rest) else digits (String d (s1 +:+ rest))) = (fst ip, snd ip +:+ rest)).
  { unfold ip. destruct (decide _); [done|]. rewrite <-sapp_cons. by apply digits_app. }
  rewrite Hip. clear Hip. destruct ip as [n s2]. cbn [fst snd]. destruct (decide (n = EmptyString)); [done|].
  rewrite scan_fraction_app by done. destruct (scan_fraction s2) as [f s3]. cbn [fst snd].
  rewrite scan_exponent_app by done. destruct (scan_exponent s3) as [e s4]. cbn [fst snd].
  intros [= <- ->]. done.
Qed.

Lemma scan_number_first c t r : scan_number (String c t) = Some r -> is_digit c = true \/ c = "-"%char.
Proof.
  unfold scan_number. destruct (decide (c = "-"%char)) as [->|Hm]; [by right|]. left.
  destruct (decide (c = "0"%char)) as [->|]; [done|]. cbn [digits] in *. destruct (is_digit c); [done|]. done.
Qed.

(** Fuel that is enough for a value *)
Fixpoint need (j : json) : nat :=
  match j with
  | JList l => S (fold_right (fun j k => S (need j + k)) 0 l)
  | JObj l => S (fold_right (fun p k => S (need (snd p) + k)) 0 l)
  | _ => 1
  end.

(** A value begins with a character that closes nothing and is not white space. *)
Lemma dumps_head j : json_wf j -> exists c s, dumps j = String c s /\ is_ws c = false /\ c <> "]"%char /\ c <> "}"%char.
Proof.
  destruct j as [|[]|t|s|l|l]; intros Hwf; try (by do 2 eexists).
  destruct t as [|c t]; [done|]. exists c, t. split; [done|]. cbn [json_wf] in Hwf.
  destruct (scan_number_first _ _ _ Hwf) as [Hd| ->]; [|done].
  split_and!; [|by intros ->|by intros ->]. apply bool_decide_eq_false. intros Hin.
  repeat (apply elem_of_cons in Hin as [->|Hin]; [done|]). by apply elem_of_nil in Hin.
Qed.

Lemma skip_ws_dumps j rest : json_wf j -> skip_ws (dumps j +:+ rest) = dumps j +:+ rest.
Proof. intros Hwf. destruct (dumps_head j Hwf) as (c & s & -> & Hc & _). rewrite sapp_cons. cbn. by rewrite Hc. Qed.

Lemma stops_at c s : c ∈ ["]"; "}"; ","; "{"; "["]%char -> stops (String c s).
Proof. intros Hc. repeat (apply elem_of_cons in Hc as [->|Hc]; [split; [done|by apply (bool_decide_unpack _)]|]). by apply elem_of_nil in Hc. Qed.
Ltac solve_stops := apply stops_at; by apply (bool_decide_unpack _).

Definition decodes (j : json) : Prop :=
  json_wf j -> forall fuel rest, need j <= fuel -> stops rest -> decode fuel (dumps j +:+ rest) = Some (j, rest).

Lemma decode_num t : decodes (JNum t).
Proof.
  intros Hwf [|fuel] rest Hf Hr; [cbn in Hf; lia|]. cbn [json_wf] in Hwf. destruct t as [|c t]; [done|].
  pose proof (scan_number_first _ _ _ Hwf) as Hc.
  assert (Hno : forall d, is_digit d = false -> d <> "-"%char -> c <> d) by (intros d Hd Hm ->; destruct Hc; congruence).
  cbn [dumps]. rewrite sapp_cons. cbn [decode]. rewrite !decide_False by (by apply Hno).
  cbn [strip_prefix]. rewrite !decide_False by (intros <-; by eapply Hno). rewrite <-sapp_cons, (scan_number_app _ _ _ Hr Hwf). done.
Qed.

Lemma decode_items_dumps l : Forall decodes l -> l <> [] -> fold_right (fun j P => json_wf j /\ P) True l ->
  forall fuel rest, fold_right (fun j k => S (need j + k)) 0 l <= fuel ->
  decode_items fuel (join ", " (map dumps l) +:+ "]" +:+ rest) = Some (l, rest).
Proof.
  induction 1 as [|j l Hj Hl IH]; [done|]. intros _ [Hwf Hwfs] [|fuel] rest Hf; [cbn in Hf; lia|].
  cbn [fold_right] in Hf. cbn [decode_items]. destruct l as [|j' l].
  - cbn [map join]. rewrite Hj; [reflexivity|done|lia|solve_stops].
  - cbn [map]. rewrite join_cons, !sapp_assoc.
    set (X := join ", " (dumps j' :: map dumps l) +:+ "]" +:+ rest).
    assert (Hskip : skip_ws X = X).
    { unfold X. destruct l as [|j2 l]; cbn [map]; [by apply skip_ws_dumps, Hwfs|]. rewrite join_cons, !sapp_assoc. by apply skip_ws_dumps, Hwfs. }
    assert (HX : decode_items fuel X = Some (j' :: l, rest)) by (apply IH; [done|done|cbn [fold_right] in *; lia]).
    rewrite Hj; [|done|lia|solve_stops]. cbn [mbind option_bind].
    change (skip_ws (", " +:+ X)) with (String "," (" " +:+ X)). cbn match.
    rewrite decide_False, decide_True by done. change (skip_ws (" " +:+ X)) with (skip_ws X). by rewrite Hskip, HX.
Qed.

Lemma scan_dumps_str k rest : scan_string (escape_all k +:+ String quote2 EmptyString +:+ rest) = Some (k, rest).
Proof. rewrite sapp_cons, sapp_nil. apply scan_escape_all. Qed.

(** One member of an object *)
Definition dumps_member (p : string * json) : string := let '(k, v) := p in dumps_str k +:+ ": " +:+ dumps v.

Lemma decode_members_dumps l : Forall (fun p => decodes (snd p)) l -> l <> [] ->
  fold_right (fun p P => json_wf (snd p) /\ P) True l ->
  forall fuel rest, fold_right (fun p k => S (need (snd p) + k)) 0 l <= fuel ->
  decode_members fuel (join ", " (map dumps_member l) +:+ "}" +:+ rest) = Some (l, rest).
Proof.
  induction 1 as [|[k j] l Hj Hl IH]; [done|]. intros _ [Hwf Hwfs] [|fuel] rest Hf; [cbn in Hf; lia|].
  cbn [fold_right snd] in Hf, Hj, Hwf.
  assert (Hone : forall tail, (exists c t, tail = String c t /\ c ∈ ["]"; "}"; ","; "{"; "["]%char) ->
    decode_members (S fuel) (dumps_member (k, j) +:+ tail) =
    match skip_ws tail with
    | String c s4 =>
        if decide (c = "}"%char) then Some ([(k, j)], s4)
        else if decide (c = ","%char) then (fun '(l, r) => ((k, j) :: l, r)) <$> decode_members fuel (skip_ws s4)
        else None
    | EmptyString => None
    end).
  { intros tail (c & t & -> & Hc). unfold dumps_member, dumps_str. rewrite !sapp_assoc, sapp_cons, !sapp_assoc.
    cbn [decode_members]. rewrite decide_True by done. rewrite scan_dumps_str. cbn [mbind option_bind].
    set (Y := dumps j +:+ String c t). change (skip_ws (": " +:+ Y)) with (String ":" (" " +:+ Y)). cbn match.
    rewrite decide_True by done. change (skip_ws (" " +:+ Y)) with (skip_ws Y). unfold Y.
    rewrite skip_ws_dumps by done. rewrite Hj; [done|done|lia|by apply stops_at]. }
  destruct l as [|p l].
  - cbn [map join]. rewrite Hone; [done|]. do 2 eexists. split; [reflexivity|]. by apply (bool_decide_unpack _).
  - cbn [map]. rewrite join_cons, !sapp_assoc. set (X := join ", " (dumps_member p :: map dumps_member l) +:+ "}" +:+ rest).
    assert (Hskip : skip_ws X = X).
    { unfold X. destruct p as [k' j']. destruct l; cbn [map join]; done. }
    assert (HX : decode_members fuel X = Some (p :: l, rest)) by (apply IH; [done|done|cbn [fold_right] in *; lia]).
    rewrite Hone; [|do 2 eexists; split; [reflexivity|by apply (bool_decide_unpack _)]].
    change (skip_ws (", " +:+ X)) with (String "," (" " +:+ X)). cbn match.
    rewrite decide_False, decide_True by done. change (skip_ws (" " +:+ X)) with (skip_ws X). by rewrite Hskip, HX.
Qed.

(** An object with distinct keys is its own dictionary. *)
Lemma dict_of_fresh (l d : list (string * json)) : NoDup (map fst l) -> (forall k, k ∈ map fst l -> k ∉ map fst d) ->
  foldl (fun d '(k, v) => d_set k v d) d l = d ++ l.
Proof.
  revert d. induction l as [|[k v] l IH]; intros d Hnd Hd; [by rewrite app_nil_r|].
  cbn [map fst] in Hnd, Hd. apply NoDup_cons in Hnd as [Hk Hnd]. cbn [foldl].
  assert (Hset : d_set k v d = d ++ [(k, v)]).
  { assert (Hkd : k ∉ map fst d) by (apply Hd; by left). clear -Hkd. induction d as [|[k0 v0] d IH]; [done|].
    cbn [map fst] in Hkd. apply not_elem_of_cons in Hkd as [Hne Hkd]. cbn. rewrite decide_False by done. by rewrite IH. }
  rewrite Hset, IH; [by rewrite <-app_assoc|done|]. intros k' Hk'. rewrite map_app. cbn [map fst].
  rewrite elem_of_app, list_elem_of_singleton. intros [Hin| ->]; [by eapply Hd; [right|]|done].
Qed.

Lemma decode_dumps j : decodes j.
Proof.
  induction j as [|[]|t|s|l Hl|l Hl] using json_induction; try (intros _ [|fuel] rest Hf _; [cbn in Hf; lia|reflexivity]).
  - apply decode_num.
  - intros _ [|fuel] rest Hf _; [cbn in Hf; lia|]. cbn [dumps]. unfold dumps_str. rewrite sapp_cons, sapp_assoc.
    cbn [decode]. rewrite decide_True by done. by rewrite scan_dumps_str.
  - intros Hwf [|fuel] rest Hf Hr; [cbn in Hf; lia|]. cbn [dumps json_wf need] in *. rewrite !sapp_assoc.
    change ("[" +:+ ?x) with (String "[" x). cbn [decode]. rewrite decide_False, decide_False, decide_True by done.
    destruct l as [|j l]; [done|]. pose proof (dumps_head j (proj1 Hwf)) as (c & s & Hs & Hws & Hc & _).
    assert (Hx : exists s', join ", " (map dumps (j :: l)) +:+ "]" +:+ rest = String c s').
    { cbn [map]. destruct (map dumps l) as [|y ys]; [cbn [join]|rewrite join_cons]; rewrite Hs; by eexists. }
    destruct Hx as [s' Hx]. rewrite Hx. cbn [skip_ws]. rewrite Hws, decide_False by done. rewrite <-Hx.
    rewrite decode_items_dumps; [done|done|done|done|lia].
  - intros [Hnd Hwf] [|fuel] rest Hf Hr; [cbn in Hf; lia|]. cbn [dumps need] in *. rewrite !sapp_assoc.
    change (map (fun '(k, v) => dumps_str k +:+ ": " +:+ dumps v) l) with (map dumps_member l).
    change ("{" +:+ ?x) with (String "{" x). cbn [decode]. rewrite decide_False, decide_True by done.
    destruct l as [|[k j] l]; [done|].
    assert (Hx : exists s', join ", " (map dumps_member ((k, j) :: l)) +:+ "}" +:+ rest = String quote2 s').
    { cbn [map]. destruct (map dumps_member l) as [|y ys]; [cbn [join]|rewrite join_cons]; by eexists. }
    destruct Hx as [s' Hx]. rewrite Hx. change (skip_ws (String quote2 s')) with (String quote2 s'). cbn match.
    rewrite decide_False by done. rewrite <-Hx.
    rewrite decode_members_dumps; [|done|done|done|lia].
    assert (Hdict : dict_of ((k, j) :: l) = (k, j) :: l) by (apply (dict_of_fresh ((k, j) :: l) []); [done|intros k' _; apply not_elem_of_nil]).
    cbn [fmap option_fmap option_map]. by rewrite Hdict.
Qed.

(** ** Lemmas: fuel and progress *)

Lemma need_dumps j : json_wf j -> need j <= 2 * slen (dumps j).
Proof.
  induction j as [|[]|t|s|l Hl|l Hl] using json_induction; intros Hwf; try (cbn; lia).
  - destruct t; [done|]. cbn. unfold slen. cbn. lia.
  - cbn [dumps json_wf need] in *. rewrite !slen_app. change (slen "[") with 1. change (slen "]") with 1.
    assert (Hx : fold_right (fun j k => S (need j + k)) 0 l <= 2 * slen (join ", " (map dumps l)) + 1).
    { induction Hl as [|j l Hj Hl IH]; [cbn; lia|]. destruct Hwf as [Hw Hws]. specialize (IH Hws). specialize (Hj Hw).
      cbn [fold_right map]. destruct (map dumps l) as [|y ys] eqn:He.
      - destruct l; [|done]. cbn [join fold_right]. lia.
      - rewrite join_cons, !slen_app. change (slen ", ") with 2. lia. }
    lia.
  - cbn [dumps json_wf need] in *. rewrite !slen_app. change (slen "{") with 1. change (slen "}") with 1.
    change (map (fun '(k, v) => dumps_str k +:+ ": " +:+ dumps v) l) with (map dumps_member l). destruct Hwf as [_ Hwf].
    assert (Hx : fold_right (fun p k => S (need (snd p) + k)) 0 l <= 2 * slen (join ", " (map dumps_member l)) + 1).
    { induction Hl as [|[k j] l Hj Hl IH]; [cbn; lia|]. destruct Hwf as [Hw Hws]. specialize (IH Hws). specialize (Hj Hw).
      cbn [snd] in Hj. cbn [fold_right map snd]. unfold dumps_member at 1.
      destruct (map dumps_member l) as [|y ys] eqn:He.
      - destruct l; [|done]. cbn [join fold_right]. rewrite !slen_app. lia.
      - rewrite join_cons, !slen_app. change (slen ", ") with 2. lia. }
    lia.
Qed.

Lemma raw_decode_dumps j rest : json_wf j -> stops rest -> raw_decode (dumps j +:+ rest) = Some (j, rest).
Proof.
  intros Hwf Hr. unfold raw_decode. apply decode_dumps; [done| |done].
  rewrite slen_app. pose proof (need_dumps j Hwf). lia.
Qed.

Lemma digits_shorter s : slen (snd (digits s)) + slen (fst (digits s)) = slen s.
Proof.
  induction s as [|c s IH]; [done|]. cbn. destruct (is_digit c); [|cbn; lia].
  destruct (digits s). cbn [fst snd] in *. unfold slen in *. cbn. lia.
Qed.

Lemma fraction_shorter s : slen (snd (scan_fraction s)) <= slen s.
Proof.
  destruct s as [|c s]; [done|]. unfold scan_fraction. pose proof (digits_shorter s). destruct (digits s) as [d r].
  cbn [fst snd] in *. destruct (decide _); cbn [snd]; [|done]. unfold slen in *. cbn. lia.
Qed.
Lemma exponent_shorter s : slen (snd (scan_exponent s)) <= slen s.
Proof.
  destruct s as [|c s]; [done|]. unfold scan_exponent.
  assert (Hx : forall sign s2, slen s2 <= slen s ->
    slen (snd (let '(d, r) := digits s2 in
      if decide (c ∈ ["e"; "E"]%char /\ d <> EmptyString) then (String c (sign +:+ d), r) else (EmptyString, String c s))) <= slen (String c s)).
  { intros sign s2 Hs. pose proof (digits_shorter s2). destruct (digits s2) as [d r]. cbn [fst snd] in *.
    destruct (decide _); cbn [snd]; [|done]. unfold slen in *. cbn. lia. }
  destruct s as [|d s]; [by apply Hx|]. destruct (decide _); apply Hx; unfold slen; cbn; lia.
Qed.

Lemma scan_number_shorter s t r : scan_number s = Some (t, r) -> slen r < slen s.
Proof.
  unfold scan_number. set (sp := match s with String c s1 => _ | EmptyString => _ end).
  assert (Hsp : slen (snd sp) <= slen s).
  { unfold sp. destruct s as [|c s]; [done|]. destruct (decide _); cbn; unfold slen; cbn; lia. }
  destruct sp as [sign s1]. cbn [snd] in Hsp. set (ip := match s1 with String c s2 => _ | EmptyString => _ end).
  assert (Hip : fst ip <> EmptyString -> slen (snd ip) < slen s1).
  { unfold ip. destruct s1 as [|c s1]; [done|]. destruct (decide _); [cbn; unfold slen; cbn; lia|].
    pose proof (digits_shorter (String c s1)) as Hd. destruct (digits (String c s1)) as [[|a d] r']; cbn [fst snd] in *; [done|].
    intros _. unfold slen in *. cbn in *. lia. }
  destruct ip as [d s2]. cbn [fst snd] in Hip. destruct (decide (d = EmptyString)); [done|]. specialize (Hip ltac:(done)).
  pose proof (fraction_shorter s2) as H2. destruct (scan_fraction s2) as [f s3]. cbn [snd] in H2.
  pose proof (exponent_shorter s3) as H3. destruct (scan_exponent s3) as [e s4]. cbn [snd] in H3. intros [= _ <-]. lia.
Qed.

Lemma scan_string_shorter s t r : scan_string s = Some (t, r) -> slen r < slen s.
Proof.
  assert (Hgen : forall n s t r, slen s <= n -> scan_string s = Some (t, r) -> slen r < slen s); [|by apply (Hgen (slen s))].
  clear s t r. unfold slen. induction n as [|n IH]; intros s t r Hn; destruct s as [|c s]; try done; cbn in Hn; [lia|].
  assert (Hrec : forall s2 x, String.length s2 <= String.length s ->
    (fun '(t, r) => (String x t, r)) <$> scan_string s2 = Some (t, r) -> String.length r < String.length (String c s)).
  { intros s2 x Hs2. destruct (scan_string s2) as [[t' r']|] eqn:Hs; [|done]. intros [= _ <-]. apply IH in Hs; cbn; lia. }
  cbn [scan_string]. destruct (decide (c = quote2)); [intros [= _ <-]; cbn; lia|].
  destruct (decide (c = backslash)).
  - destruct s as [|ch s2]; [done|].
    assert (He : match unescape ch with
                 | Some x => (fun '(t, r) => (String x t, r)) <$> scan_string s2
                 | None => None
                 end = Some (t, r) -> String.length r < String.length (String c (String ch s2))).
    { destruct (unescape ch) as [x|]; [|done]. apply Hrec. cbn. lia. }
    destruct ch as [[] [] [] [] [] [] [] []]; try exact He.
    destruct s2 as [|a [|b [|c' [|d s2]]]]; try exact He.
    destruct (hex4 a b c' d) as [k|]; [|done]. destruct (k <? 256)%N; [|done]. apply Hrec. cbn. lia.
  - destruct (code c <? 32)%N; [done|]. by apply Hrec.
Qed.

Lemma skip_ws_shorter s : slen (skip_ws s) <= slen s.
Proof. induction s as [|c s IH]; [done|]. cbn. destruct (is_ws c); [|done]. unfold slen in *. cbn. lia. Qed.
Lemma strip_prefix_shorter p s r : strip_prefix p s = Some r -> slen s = slen p + slen r.
Proof. intros ->%strip_prefix_Some. by rewrite slen_app. Qed.

Lemma decode_shorter fuel :
  (forall s j r, decode fuel s = Some (j, r) -> slen r < slen s) /\
  (forall s l r, decode_items fuel s = Some (l, r) -> slen r < slen s) /\
  (forall s l r, decode_members fuel s = Some (l, r) -> slen r < slen s).
Proof.
  induction fuel as [|fuel (IHv & IHi & IHm)]; [done|].
  assert (Hlen : forall c s, slen (String c s) = S (slen s)) by done. split_and!.
  - intros [|c s1] j r; [done|]. rewrite Hlen. cbn [decode].
    destruct (decide (c = quote2)).
    { destruct (scan_string s1) as [[t r']|] eqn:Hs; [|done]. intros [= _ <-]. apply scan_string_shorter in Hs. lia. }
    pose proof (skip_ws_shorter s1) as Hws. destruct (decide (c = "{"%char)).
    { destruct (skip_ws s1) as [|d s2]; [done|]. rewrite Hlen in Hws. destruct (decide _); [intros [= _ <-]; lia|].
      destruct (decode_members fuel _) as [[l r']|] eqn:Hs; [|done]. intros [= _ <-]. apply IHm in Hs. rewrite Hlen in Hs. lia. }
    destruct (decide (c = "["%char)).
    { destruct (skip_ws s1) as [|d s2]; [done|]. rewrite Hlen in Hws. destruct (decide _); [intros [= _ <-]; lia|].
      destruct (decode_items fuel _) as [[l r']|] eqn:Hs; [|done]. intros [= _ <-]. apply IHi in Hs. rewrite Hlen in Hs. lia. }
    rewrite <-(Hlen c). destruct (strip_prefix "null" _) as [r1|] eqn:H1; [intros [= _ <-]; apply strip_prefix_shorter in H1; change (slen "null") with 4 in H1; rewrite Hlen in *; lia|].
    destruct (strip_prefix "true" _) as [r2|] eqn:H2; [intros [= _ <-]; apply strip_prefix_shorter in H2; change (slen "true") with 4 in H2; rewrite Hlen in *; lia|].
    destruct (strip_prefix "false" _) as [r3|] eqn:H3; [intros [= _ <-]; apply strip_prefix_shorter in H3; change (slen "false") with 5 in H3; rewrite Hlen in *; lia|].
    destruct (scan_number _) as [[t r']|] eqn:Hs; [|done]. intros [= _ <-]. by apply scan_number_shorter in Hs.
  - intros s l r. cbn [decode_items]. destruct (decode fuel s) as [[j s1]|] eqn:Hs; [|done]. apply IHv in Hs. cbn [mbind option_bind].
    pose proof (skip_ws_shorter s1) as Hws. destruct (skip_ws s1) as [|c s2]; [done|]. rewrite Hlen in Hws.
    destruct (decide _); [intros [= _ <-]; lia|]. destruct (decide _); [|done].
    destruct (decode_items fuel _) as [[l' r']|] eqn:Hi; [|done]. intros [= _ <-]. apply IHi in Hi.
    pose proof (skip_ws_shorter s2). lia.
  - intros [|q s0] l r; [done|]. rewrite Hlen. cbn [decode_members]. destruct (decide _); [|done].
    destruct (scan_string s0) as [[k s1]|] eqn:Hs; [|done]. apply scan_string_shorter in Hs. cbn [mbind option_bind].
    pose proof (skip_ws_shorter s1) as Hw1. destruct (skip_ws s1) as [|c s2]; [done|]. rewrite Hlen in Hw1. destruct (decide _); [|done].
    pose proof (skip_ws_shorter s2) as Hw2. destruct (decode fuel (skip_ws s2)) as [[j s3]|] eqn:Hv; [|done]. apply IHv in Hv. cbn [mbind option_bind].
    pose proof (skip_ws_shorter s3) as Hw3. destruct (skip_ws s3) as [|c' s4]; [done|]. rewrite Hlen in Hw3.
    destruct (decide _); [intros [= _ <-]; lia|]. destruct (decide _); [|done].
    destruct (decode_members fuel _) as [[l' r']|] eqn:Hi; [|done]. intros [= _ <-]. apply IHm in Hi.
    pose proof (skip_ws_shorter s4). lia.
Qed.

Lemma json_loads_extra s p : json_loads s = ExtraData p -> 0 < p <= slen s.
Proof.
  unfold json_loads, raw_decode. destruct (decode _ _) as [[j r]|] eqn:Hd; [|done].
  apply (proj1 (decode_shorter _)) in Hd. pose proof (skip_ws_shorter s). pose proof (skip_ws_shorter r).
  destruct (decide _); [done|]. intros [= <-]. lia.
Qed.

(** *** White space around a value *)

Definition all_ws (s : string) : Prop := sall is_ws s = true.
Lemma skip_ws_app s t : all_ws s -> skip_ws (s +:+ t) = skip_ws t.
Proof.
  unfold all_ws. induction s as [|c s IH]; [done|]. cbn [sall]. intros [Hc Hs]%andb_true_iff. rewrite sapp_cons. cbn. rewrite Hc. by apply IH.
Qed.
Lemma skip_ws_all s : all_ws s -> skip_ws s = EmptyString.
Proof. intros Hs. by rewrite <-(sapp_nil_r s), skip_ws_app. Qed.
Lemma stops_ws c s : is_ws c = true -> stops (String c s).
Proof.
  intros Hc%bool_decide_eq_true. repeat (apply elem_of_cons in Hc as [->|Hc]; [split; [done|by apply (bool_decide_unpack _)]|]).
  by apply elem_of_nil in Hc.
Qed.

(** ** Lemmas: what is decoded can be encoded *)

Definition no_digit (s : string) : Prop := match s with String c _ => is_digit c = false | EmptyString => True end.
Lemma digits_all s : sall is_digit (fst (digits s)) = true /\ s = fst (digits s) +:+ snd (digits s).
Proof. induction s as [|c s [H1 H2]]; [done|]. cbn. destruct (is_digit c) eqn:Hc; [|done]. destruct (digits s) as [d r]. cbn in *. rewrite Hc, H1. by rewrite sapp_cons, <-H2. Qed.
Lemma digits_again d rest : sall is_digit d = true -> no_digit rest -> digits (d +:+ rest) = (d, rest).
Proof.
  intros Hd Hr. induction d as [|c d IH].
  - rewrite sapp_nil. destruct rest as [|c rest]; [done|]. cbn in *. by rewrite Hr.
  - cbn in Hd. apply andb_prop in Hd as [Hc Hd]. rewrite sapp_cons. cbn [digits]. by rewrite Hc, IH.
Qed.
(** What comes of a fraction and of an exponent *)
Definition fraction_like (f : string) : Prop := f = EmptyString \/ exists d, f = String "." d /\ d <> EmptyString /\ sall is_digit d = true.
Definition exponent_like (e : string) : Prop :=
  e = EmptyString \/ exists c sign d, e = String c (sign +:+ d) /\ c ∈ ["e"; "E"]%char /\ (sign = EmptyString \/ sign = "+" \/ sign = "-") /\
    d <> EmptyString /\ sall is_digit d = true.
Lemma scan_fraction_like s : fraction_like (fst (scan_fraction s)).
Proof.
  unfold scan_fraction. destruct s as [|c s]; [by left|]. destruct (digits_all s) as [Hd _]. destruct (digits s) as [d r].
  destruct (decide _) as [[-> Hne]|]; [|by left]. right. by exists d.
Qed.
Lemma scan_exponent_like s : exponent_like (fst (scan_exponent s)).
Proof.
  unfold scan_exponent. destruct s as [|c s]; [by left|]. set (p := match s with EmptyString => _ | _ => _ end).
  assert (Hp : fst p = EmptyString \/ fst p = "+" \/ fst p = "-").
  { unfold p. destruct s as [|d s]; [by left|]. destruct (decide _) as [Hd|]; [|by left]. cbn [fst].
    apply elem_of_cons in Hd as [->|Hd%list_elem_of_singleton]; [right; by left|subst; right; by right]. }
  destruct p as [sign s2]. destruct (digits_all s2) as [Hd _]. destruct (digits s2) as [d r]. cbn [fst] in *.
  destruct (decide _) as [[Hc Hne]|]; [|by left]. right. by exists c, sign, d.
Qed.
Lemma exponent_no_digit e : exponent_like e -> no_digit e.
Proof.
  intros [->|(c & sign & d & -> & Hc & _)]; [done|]. cbn. apply elem_of_cons in Hc as [->|Hc%list_elem_of_singleton]; [done|by subst].
Qed.
Lemma exponent_again e : exponent_like e -> scan_exponent e = (e, EmptyString).
Proof.
  intros [->|(c & sign & d & -> & Hc & Hs & Hne & Hd)]; [done|]. unfold scan_exponent.
  assert (Hdd : digits d = (d, EmptyString)) by (rewrite <-(sapp_nil_r d) at 1; by apply digits_again).
  destruct Hs as [->|[->| ->]].
  - rewrite sapp_nil. destruct d as [|x d]; [done|]. rewrite decide_False.
    + rewrite Hdd, decide_True by done. by rewrite sapp_nil.
    + cbn in Hd. apply andb_prop in Hd as [Hx _]. intros Hin. apply elem_of_cons in Hin as [->|Hin%list_elem_of_singleton]; [done|by subst].
  - rewrite sapp_cons, sapp_nil. rewrite decide_True by (apply (bool_decide_unpack _); done). by rewrite Hdd, decide_True.
  - rewrite sapp_cons, sapp_nil. rewrite decide_True by (apply (bool_decide_unpack _); done). by rewrite Hdd, decide_True.
Qed.
Lemma fraction_again f e : fraction_like f -> exponent_like e -> scan_fraction (f +:+ e) = (f, e).
Proof.
  intros Hf He. destruct Hf as [->|(d & -> & Hne & Hd)].
  - rewrite sapp_nil. destruct He as [->|(c & sign & d & -> & Hc & _)]; [done|]. unfold scan_fraction. destruct (digits (sign +:+ d)).
    rewrite decide_False; [done|]. intros [-> _]. apply elem_of_cons in Hc as [Hc|Hc%list_elem_of_singleton]; discriminate.
  - rewrite sapp_cons. unfold scan_fraction. rewrite digits_again by (done || by apply exponent_no_digit). by rewrite decide_True.
Qed.
Lemma fraction_exponent_no_digit f e : fraction_like f -> exponent_like e -> no_digit (f +:+ e).
Proof. intros [->|(d & -> & _)] He; [rewrite sapp_nil; by apply exponent_no_digit|done]. Qed.

Definition scan_sign (s : string) : string * string :=
  match s with String c s1 => if decide (c = "-"%char) then ("-", s1) else (EmptyString, s) | EmptyString => (EmptyString, s) end.
Definition scan_int (s : string) : string * string :=
  match s with String c s2 => if decide (c = "0"%char) then ("0", s2) else digits s | EmptyString => (EmptyString, s) end.
Lemma scan_number_parts s : scan_number s =
  let '(sign, s1) := scan_sign s in let '(d, s2) := scan_int s1 in
  if decide (d = EmptyString) then None
  else let '(f, s3) := scan_fraction s2 in let '(e, s4) := scan_exponent s3 in Some (sign +:+ d +:+ f +:+ e, s4).
Proof. reflexivity. Qed.
Lemma scan_sign_like s : fst (scan_sign s) = EmptyString \/ fst (scan_sign s) = "-".
Proof. unfold scan_sign. destruct s as [|c s]; [by left|]. case_decide; [by right|by left]. Qed.
Lemma scan_int_like s : fst (scan_int s) = "0" \/ sall is_digit (fst (scan_int s)) = true /\ head_char (fst (scan_int s)) <> Some "0"%char.
Proof.
  unfold scan_int. destruct s as [|c s]; [by right|]. case_decide as Hc; [by left|]. right. destruct (digits_all (String c s)) as [Hd _]. split; [done|].
  cbn [digits]. destruct (is_digit c); [|done]. destruct (digits s). cbn. congruence.
Qed.
Lemma int_again d rest : d = "0" \/ sall is_digit d = true /\ head_char d <> Some "0"%char -> d <> EmptyString -> no_digit rest ->
  scan_int (d +:+ rest) = (d, rest).
Proof.
  intros [->|[Hd Hz]] Hne Hr; [done|]. destruct d as [|c d]; [done|]. unfold scan_int. rewrite sapp_cons, decide_False by (cbn in Hz; congruence).
  rewrite <-sapp_cons. by apply digits_again.
Qed.
Lemma sign_again sign d rest : sign = EmptyString \/ sign = "-" -> (d = "0" \/ sall is_digit d = true /\ head_char d <> Some "0"%char) -> d <> EmptyString ->
  scan_sign (sign +:+ d +:+ rest) = (sign, d +:+ rest).
Proof.
  intros [->| ->] Hd Hne; [|done]. rewrite sapp_nil. destruct d as [|c d]; [done|]. unfold scan_sign. rewrite sapp_cons, decide_False; [done|].
  intros ->. destruct Hd as [Hd|[Hd _]]; done.
Qed.

(** A number that was read is read again. *)
Lemma scan_number_again s t r : scan_number s = Some (t, r) -> scan_number t = Some (t, EmptyString).
Proof.
  rewrite scan_number_parts. pose proof (scan_sign_like s) as Hs. destruct (scan_sign s) as [sign s1].
  pose proof (scan_int_like s1) as Hd. destruct (scan_int s1) as [d s2]. case_decide as Hne; [done|].
  pose proof (scan_fraction_like s2) as Hf. destruct (scan_fraction s2) as [f s3].
  pose proof (scan_exponent_like s3) as He. destruct (scan_exponent s3) as [e s4]. cbn [fst] in *. intros [= <- <-].
  rewrite scan_number_parts, sign_again, int_again by (done || by apply fraction_exponent_no_digit). rewrite decide_False by done.
  by rewrite fraction_again, exponent_again.
Qed.

(** The text of an integer *)
Lemma pretty_N_go_head (x : N) t : (0 < x)%N -> exists c r, pretty_N_go x t = String c r /\ c <> "0"%char.
Proof.
  revert t. induction (N.lt_wf_0 x) as [x _ IH]. intros t Hx. rewrite pretty_N_go_step by done.
  destruct (decide (x < 10)%N) as [Hs|Hs].
  - rewrite N.div_small, N.mod_small by done. rewrite pretty_N_go_0. eexists _, _. split; [done|].
    assert (x = 1 \/ x = 2 \/ x = 3 \/ x = 4 \/ x = 5 \/ x = 6 \/ x = 7 \/ x = 8 \/ x = 9)%N as Hc by lia. by destruct_or! Hc; subst x.
  - apply IH; [apply N.div_lt; lia|]. apply N.div_str_pos. lia.
Qed.
Lemma number_digits sign d : sign = EmptyString \/ sign = "-" -> (d = "0" \/ sall is_digit d = true /\ head_char d <> Some "0"%char) -> d <> EmptyString ->
  scan_number (sign +:+ d) = Some (sign +:+ d, EmptyString).
Proof.
  intros Hs Hd Hne. rewrite <-(sapp_nil_r d), scan_number_parts, sign_again, int_again by done. rewrite decide_False by done. done.
Qed.
Lemma number_str_int z : scan_number (str_int z) = Some (str_int z, EmptyString).
Proof.
  assert (Hp : forall p, sall is_digit (pretty (Npos p)) = true /\ head_char (pretty (Npos p)) <> Some "0"%char).
  { intros p. split; [apply pretty_N_digits|]. unfold pretty, pretty_N. rewrite decide_False by done.
    destruct (pretty_N_go_head (Npos p) EmptyString) as (c & r & -> & Hc); [lia|]. cbn. congruence. }
  destruct z as [|p|p]; [done| |]; unfold str_int.
  - change (pretty (Z.pos p)) with (pretty (Npos p)). rewrite <-(sapp_nil (pretty (Npos p))).
    apply (number_digits EmptyString (pretty (Npos p))); [by left|right; apply Hp|apply pretty_N_nonempty].
  - change (pretty (Z.neg p)) with ("-" +:+ pretty (Npos p)).
    apply (number_digits "-" (pretty (Npos p))); [by right|right; apply Hp|apply pretty_N_nonempty].
Qed.

Lemma dict_of_NoDup (l d : list (string * json)) : NoDup (map fst d) -> NoDup (map fst (foldl (fun d '(k, v) => d_set k v d) d l)).
Proof. revert d. induction l as [|[k v] l IH]; intros d Hd; [done|]. cbn [foldl]. apply IH. by apply (d_set_NoDup k v d). Qed.
Lemma dict_of_wf (l d : list (string * json)) : Forall (fun p => json_wf (snd p)) l -> Forall (fun p => json_wf (snd p)) d ->
  Forall (fun p => json_wf (snd p)) (foldl (fun d '(k, v) => d_set k v d) d l).
Proof.
  intros Hl. revert d. induction Hl as [|[k v] l Hv _ IH]; intros d Hd; [done|]. cbn [foldl]. apply IH. by apply d_set_Forall.
Qed.
Lemma fold_wf {A} (f : A -> Prop) l : Forall f l -> fold_right (fun x P => f x /\ P) True l.
Proof. induction 1; by cbn. Qed.

(** What the decoder makes of any text can be encoded and comes back. *)
Lemma decode_wf fuel :
  (forall s j r, decode fuel s = Some (j, r) -> json_wf j) /\
  (forall s l r, decode_items fuel s = Some (l, r) -> Forall json_wf l) /\
  (forall s l r, decode_members fuel s = Some (l, r) -> Forall (fun p => json_wf (snd p)) l).
Proof.
  induction fuel as [|fuel (IH1 & IH2 & IH3)]; [done|]. split_and!.
  - intros s j r. cbn [decode]. destruct s as [|c s]; [done|].
    destruct (decide (c = quote2)); [by destruct (scan_string s) as [[t r']|]; [intros [= <- <-]|]|].
    destruct (decide (c = "{"%char)).
    { destruct (skip_ws s) as [|d s2]; [done|]. destruct (decide (d = "}"%char)); [intros [= <- <-]; split; [constructor|done]|].
      destruct (decode_members fuel (String d s2)) as [[l r']|] eqn:Hm; [|done]. intros [= <- <-]. apply IH3 in Hm.
      split; [apply dict_of_NoDup; constructor|]. apply (fold_wf (fun p => json_wf (snd p))). by apply dict_of_wf. }
    destruct (decide (c = "["%char)).
    { destruct (skip_ws s) as [|d s2]; [done|]. destruct (decide (d = "]"%char)); [by intros [= <- <-]|].
      destruct (decode_items fuel (String d s2)) as [[l r']|] eqn:Hm; [|done]. intros [= <- <-]. apply IH2 in Hm. by apply (fold_wf json_wf). }
    destruct (strip_prefix "null" (String c s)); [by intros [= <- <-]|]. destruct (strip_prefix "true" (String c s)); [by intros [= <- <-]|].
    destruct (strip_prefix "false" (String c s)); [by intros [= <- <-]|].
    destruct (scan_number (String c s)) as [[t r']|] eqn:Hn; [|done]. intros [= <- <-]. by apply scan_number_again in Hn.
  - intros s l r. cbn [decode_items]. destruct (decode fuel s) as [[j s1]|] eqn:Hj; [|done]. apply IH1 in Hj. cbn [mbind option_bind].
    destruct (skip_ws s1) as [|c s2]; [done|]. destruct (decide (c = "]"%char)); [intros [= <- <-]; by constructor|].
    destruct (decide (c = ","%char)); [|done]. destruct (decode_items fuel (skip_ws s2)) as [[l' r']|] eqn:Hl; [|done].
    intros [= <- <-]. apply IH2 in Hl. by constructor.
  - intros s l r. cbn [decode_members]. destruct s as [|q s0]; [done|]. destruct (decide (q = quote2)); [|done].
    destruct (scan_string s0) as [[k s1]|]; [|done]. cbn [mbind option_bind]. destruct (skip_ws s1) as [|c s2]; [done|].
    destruct (decide (c = ":"%char)); [|done]. destruct (decode fuel (skip_ws s2)) as [[j s3]|] eqn:Hj; [|done]. apply IH1 in Hj. cbn [mbind option_bind].
    destruct (skip_ws s3) as [|c' s4]; [done|]. destruct (decide (c' = "}"%char)); [intros [= <- <-]; by constructor|].
    destruct (decide (c' = ","%char)); [|done]. destruct (decode_members fuel (skip_ws s4)) as [[l' r']|] eqn:Hl; [|done].
    intros [= <- <-]. apply IH3 in Hl. by constructor.
Qed.
Lemma loads_wf s j : loads s = Ok j -> json_wf j.
Proof.
  unfold loads, json_loads, raw_decode. destruct (decode _ (skip_ws s)) as [[j' r]|] eqn:Hd; [|done]. apply decode_wf in Hd.
  case_decide; [|done]. by intros [= <-].
Qed.


(** ** Several documents in one file *)

Fixpoint str_take (n : nat) (s : string) : string :=
  match n, s with S n, String c s => String c (str_take n s) | _, _ => EmptyString end.
Fixpoint str_drop (n : nat) (s : string) : string :=
  match n, s with S n, String _ s => str_drop n s | _, _ => s end.

Inductive stream_end :=
| StreamReturns
| StreamRaises (e : exn)
| StreamGoesOn.

(** [stream_read_json] from the position [start_pos] of the file: the objects it
    yields and how it ends.  The position of an error is read from its message;
    another message does not match the expression, which gives [None]. *)
Fixpoint stream_read_json (fuel : nat) (file : string) (start_pos : nat) : list json * stream_end :=
  match fuel with
  | O => ([], StreamGoesOn)
  | S fuel =>
      match json_loads (str_drop start_pos file) with
      | Loaded obj => ([obj], StreamReturns)
      | BadJson => ([], StreamRaises (AttributeError "'NoneType' object has no attribute 'groups'"))
      | ExtraData end_pos =>
          match json_loads (str_take end_pos (str_drop start_pos file)) with
          | Loaded obj =>
              let '(objs, e) := stream_read_json fuel file (start_pos + end_pos) in (obj :: objs, e)
          | _ => ([], StreamRaises (ValueError "JSONDecodeError"))
          end
      end
  end.

(** A document that no number or word can run into *)
Definition container (j : json) : Prop := match j with JList _ | JObj _ => True | _ => False end.
(** Documents, each followed by white space *)
Definition file_of_docs (docs : list (json * string)) : string :=
  fold_right (fun '(j, ws) t => dumps j +:+ ws +:+ t) EmptyString docs.

Lemma str_take_app s t : str_take (slen s) (s +:+ t) = s.
Proof. induction s as [|c s IH]; [by destruct t|]. rewrite sapp_cons. change (String c (str_take (slen s) (s +:+ t)) = String c s). by rewrite IH. Qed.
Lemma str_drop_app s t : str_drop (slen s) (s +:+ t) = t.
Proof. induction s as [|c s IH]; [done|]. rewrite sapp_cons. exact IH. Qed.
Lemma str_drop_len n s : slen (str_drop n s) = slen s - n.
Proof. revert n. induction s as [|c s IH]; intros [|n]; try done. cbn. apply IH. Qed.

Lemma json_loads_doc j ws : json_wf j -> all_ws ws -> json_loads (dumps j +:+ ws) = Loaded j.
Proof.
  intros Hwf Hws. unfold json_loads. rewrite skip_ws_dumps by done. rewrite raw_decode_dumps; [|done|].
  - by rewrite skip_ws_all, decide_True.
  - destruct ws as [|c ws]; [done|]. apply stops_ws. unfold all_ws in Hws. cbn in Hws. by apply andb_true_iff in Hws as [? _].
Qed.

Lemma loads_dumps j : json_wf j -> loads (dumps j) = Ok j.
Proof.
  intros Hj. unfold loads. pose proof (json_loads_doc j EmptyString Hj eq_refl) as Hd. by rewrite sapp_nil_r in Hd; rewrite Hd.
Qed.

Lemma dumps_container j : container j -> exists c s, dumps j = String c s /\ is_ws c = false /\ c ∈ ["{"; "["]%char.
Proof. destruct j; try done; intros _; do 2 eexists; (split; [reflexivity|]); (split; [done|]); by apply (bool_decide_unpack _). Qed.

Lemma json_loads_more j ws j' t : json_wf j -> all_ws ws -> container j' ->
  json_loads (dumps j +:+ ws +:+ dumps j' +:+ t) = ExtraData (slen (dumps j +:+ ws)).
Proof.
  intros Hwf Hws Hc. destruct (dumps_container j' Hc) as (c & s & Hs & Hnws & Hin).
  unfold json_loads. rewrite skip_ws_dumps by done. rewrite raw_decode_dumps; [|done|].
  - rewrite skip_ws_app by done. rewrite Hs, sapp_cons. change (skip_ws (String c (s +:+ t))) with (if is_ws c then skip_ws (s +:+ t) else String c (s +:+ t)).
    rewrite Hnws, decide_False by done. rewrite <-(sapp_cons c s t). f_equal. rewrite !slen_app. lia.
  - destruct ws as [|d ws]; [rewrite sapp_nil, Hs, sapp_cons; apply stops_at; set_solver|]. rewrite sapp_cons. apply stops_ws.
    unfold all_ws in Hws. cbn in Hws. by apply andb_true_iff in Hws as [? _].
Qed.

(** ** Properties *)

(** The decoder inverts the encoder: a value comes back from its text,
    whatever follows that is not the rest of a number, and alone between white
    space it is all that [loads] reads. *)
Theorem json_roundtrip j ws ws' :
  json_wf j -> all_ws ws -> all_ws ws' ->
  json_loads (ws +:+ dumps j +:+ ws') = Loaded j /\
  forall rest, stops rest -> raw_decode (dumps j +:+ rest) = Some (j, rest).
Proof.
  intros Hwf Hws Hws'. split; [|intros rest Hr; by apply raw_decode_dumps].
  pose proof (json_loads_doc j ws' Hwf Hws') as Hd. unfold json_loads in *.
  rewrite skip_ws_app by done. destruct (raw_decode (skip_ws (dumps j +:+ ws'))) as [[j0 r]|]; [|done].
  by destruct (decide _).
Qed.


(** ** Witnesses *)

Definition demo_json : json :=
  JObj [("tests", JList [JStr "up-down"; JNum "-12"; JNum "1.5e3"]); (String quote2 (String "010" "k"), JNull); ("ok", JBool true)].
Lemma demo_json_wf : json_wf demo_json.
Proof. split; [apply (bool_decide_unpack _); vm_compute; exact I|]. vm_compute. split_and!; done. Qed.

Lemma json_roundtrip_witness : json_loads (" " +:+ dumps demo_json +:+ String "010" EmptyString) = Loaded demo_json.
Proof. apply json_roundtrip; [apply demo_json_wf|reflexivity|reflexivity]. Defined.

