(* ===== verification/Logging.v ===== *)
(** * Log streams (src/python/drbdtestlogger.py and drbdtest.py)

    The stream [Tee], which other threads may change while it is written, and
    the start of the kernel log of a host, where one thread waits for the first
    message that another thread reads.  Threads are interleaved step by step. *)

From S2P Require Import Prelude PyStr.
From stdpp Require Import relations.

(** ** [Tee] *)

Module Tee.

(** The streams that are written to, and what each stream got so far *)
Record tee := Tee {
  streams : gset nat;
  written : gmap nat (list string)
}.
Definition output (x : nat) (t : tee) : list string := default [] (written t !! x).

Definition init : tee := Tee ∅ ∅.
(** [add] and [remove] make a new set. *)
Definition add (x : nat) (t : tee) : tee := Tee ({[x]} ∪ streams t) (written t).
Definition remove (x : nat) (t : tee) : res tee :=
  if decide (x ∈ streams t) then Ok (Tee (streams t ∖ {[x]}) (written t)) else Raise KeyError.
(** One turn of the loop of [write] *)
Definition write_one (message : string) (x : nat) (t : tee) : tee :=
  Tee (streams t) (<[x := output x t ++ [message]]> (written t)).
(** [write] without interruption *)
Definition write (message : string) (t : tee) : tee :=
  foldl (fun t x => write_one message x t) t (elements (streams t)).

(** What may happen while a thread is in [write]: its next turn, or a call of
    another thread.  The second component is what the loop has left of the set
    it started with. *)
Inductive event :=
| EvTurn
| EvAdd (x : nat)
| EvRemove (x : nat).
Definition step (message : string) (e : event) (s : tee * list nat) : res (tee * list nat) :=
  let '(t, todo) := s in
  match e with
  | EvTurn => match todo with
              | x :: todo => Ok (write_one message x t, todo)
              | [] => Raise StopIteration
              end
  | EvAdd x => Ok (add x t, todo)
  | EvRemove x => let* t := remove x t in Ok (t, todo)
  end.
Fixpoint run (message : string) (es : list event) (s : tee * list nat) : res (tee * list nat) :=
  match es with
  | [] => Ok s
  | e :: es => let* s := step message e s in run message es s
  end.

(** The set after the calls of the other threads *)
Definition change (e : event) (xs : gset nat) : gset nat :=
  match e with EvTurn => xs | EvAdd x => {[x]} ∪ xs | EvRemove x => xs ∖ {[x]} end.

Lemma output_write_one message x t y :
  output y (write_one message x t) = if decide (y = x) then output y t ++ [message] else output y t.
Proof.
  unfold output at 1, write_one. cbn [written]. case_decide as Hy; subst.
  - by rewrite lookup_insert_eq.
  - by rewrite lookup_insert_ne.
Qed.

Lemma run_effect message es t todo t' todo' : NoDup todo ->
  run message es (t, todo) = Ok (t', todo') ->
  streams t' = foldl (fun xs e => change e xs) (streams t) es /\
  exists front, todo = front ++ todo' /\
    forall x, output x t' = if decide (x ∈ front) then output x t ++ [message] else output x t.
Proof.
  revert t todo. induction es as [|e es IH]; intros t todo Hnd; cbn [run].
  { intros [= <- <-]. split; [done|]. exists []. split; [done|]. intros x. by rewrite decide_False by set_solver. }
  destruct (step message e (t, todo)) as [[t1 todo1]|x] eqn:He; [|done]. mred. intros Hr.
  assert (Hnd1 : NoDup todo1).
  { destruct e as [|x|x]; cbn in He; [destruct todo as [|y todo]; [done|]; injection He as _ <-; by apply NoDup_cons in Hnd as []|
      by injection He as _ <-|destruct (remove x t); [by injection He as _ <-|done]]. }
  destruct (IH t1 todo1 Hnd1 Hr) as (Hs & front & Hf & Ho). cbn [foldl]. destruct e as [|x|x]; cbn in He.
  - destruct todo as [|y todo]; [done|]. injection He as <- <-. split; [done|]. exists (y :: front). split; [by rewrite Hf|].
    apply NoDup_cons in Hnd as [Hy _]. intros x. rewrite Ho, output_write_one.
    destruct (decide (x = y)) as [->|Hne].
    + rewrite decide_False by (rewrite Hf in Hy; set_solver). by rewrite decide_True by set_solver.
    + destruct (decide (x ∈ front)); [by rewrite decide_True by set_solver|by rewrite decide_False by set_solver].
  - injection He as <- <-. split; [done|]. by exists front.
  - unfold remove in He. destruct (decide (x ∈ streams t)); [|done]. injection He as <- <-. split; [done|]. by exists front.
Qed.

(** a message written to a [Tee] reaches, once, exactly the streams that it
    had when [write] began, whatever streams other threads add and remove while
    it is being written; their calls take effect for the next message. *)
Theorem tee_write_reaches_its_streams message t es t' :
  run message es (t, elements (streams t)) = Ok (t', []) ->
  (forall x, output x t' = if decide (x ∈ streams t) then output x t ++ [message] else output x t) /\
  streams t' = foldl (fun xs e => change e xs) (streams t) es /\
  forall x, output x t' = output x (write message t).
Proof.
  intros Hr. assert (Hone : forall x, output x t' = if decide (x ∈ streams t) then output x t ++ [message] else output x t).
  { destruct (run_effect _ _ _ _ _ _ (NoDup_elements _) Hr) as (_ & front & Hf & Ho). rewrite app_nil_r in Hf. subst front.
    intros x. rewrite Ho. apply decide_ext. by rewrite elem_of_elements. }
  split_and!; [done|by apply (run_effect _ _ _ _ _ _ (NoDup_elements _) Hr)|].
  assert (Hw : run message (map (fun _ => EvTurn) (elements (streams t))) (t, elements (streams t)) = Ok (write message t, [])).
  { unfold write. generalize (elements (streams t)) as l. clear. intros l. revert t.
    induction l as [|x l IH]; intros t; [done|]. cbn. apply IH. }
  intros x. destruct (run_effect _ _ _ _ _ _ (NoDup_elements _) Hw) as (_ & front & Hf & Ho). rewrite app_nil_r in Hf. subst front.
  rewrite Hone, Ho. apply decide_ext. by rewrite elem_of_elements.
Qed.

Lemma tee_write_reaches_its_streams_witness :
  let t := add 1 (add 0 init) in
  exists t', run "hello" [EvTurn; EvRemove 1; EvAdd 2; EvTurn] (t, elements (streams t)) = Ok (t', []) /\
    (output 0 t' = ["hello"] /\ output 1 t' = ["hello"] /\ output 2 t' = []).
Proof.
  intros t. eexists. split; [vm_compute; reflexivity|].
  refine (let H := tee_write_reaches_its_streams "hello" t [EvTurn; EvRemove 1; EvAdd 2; EvTurn] _ _ in
    conj (proj1 H 0) (conj (proj1 H 1) (proj1 H 2))).
  vm_compute. reflexivity.
Defined.
End Tee.

(** ** [debug] and [log] *)

Module Logger.

(** The module's variables: the streams with what they got, whether
    [logstream] is set, and the level.  The first streams are the standard error
    stream, the standard output and the log file. *)
Record logger := Logger { out : Tee.tee; opened : bool; debug_level : Z }.
Definition stderr : nat := 0.
Definition stdout : nat := 1.
Definition logfile : nat := 2.
Definition initial : logger := Logger Tee.init false 0.
Definition output (x : nat) (s : logger) : list string := Tee.output x (out s).
Definition set_out (f : Tee.tee -> Tee.tee) (s : logger) : logger := Logger (f (out s)) (opened s) (debug_level s).

(** A new [Tee], with the streams as they are; a log file is empty when it is opened. *)
Definition open_logstream (s : logger) : logger :=
  Logger (Tee.add logfile (Tee.add stderr (Tee.Tee ∅ (<[logfile := []]> (Tee.written (out s)))))) true (debug_level s).
Definition set_debug_level (level : Z) (s : logger) : logger := Logger (out s) (opened s) level.

(** [print] writes the text and then the end of the line; without a
    [logstream], it goes to the standard output. *)
Definition print_to (x : nat) (text : string) (s : logger) : logger := set_out (fun t => Tee.write_one newline x (Tee.write_one text x t)) s.
Definition print_log (text : string) (s : logger) : logger :=
  if opened s then set_out (fun t => Tee.write newline (Tee.write text t)) s else print_to stdout text s.
(** [log] flushes the stream, and takes no notice of keyword arguments. *)
Definition log (text : string) (level : option Z) : M logger unit := fun s =>
  (if opened s then Ok tt else Raise (AttributeError "'NoneType' object has no attribute 'flush'"), print_log text s).
(** [debug] takes the keyword argument [level] off and compares it. *)
Definition debug_prints (level : option Z) (s : logger) : bool := (default 1%Z level <=? debug_level s)%Z.
Definition debug (text : string) (level : option Z) : M logger unit := fun s =>
  (Ok tt, if debug_prints level s then print_log text s else s).

Lemma output_write x message t : Tee.output x (Tee.write message t) = if decide (x ∈ Tee.streams t) then Tee.output x t ++ [message] else Tee.output x t.
Proof.
  unfold Tee.write. rewrite <-(decide_ext _ _ _ _ (elem_of_elements (Tee.streams t) x)). generalize (NoDup_elements (Tee.streams t)).
  generalize (elements (Tee.streams t)). intros l. revert t. induction l as [|y l IH]; intros t Hnd; [done|].
  apply NoDup_cons in Hnd as [Hy Hnd]. cbn [foldl]. rewrite IH by done. rewrite Tee.output_write_one.
  destruct (decide (x = y)) as [->|Hne].
  - rewrite (decide_False (P := y ∈ l)) by done. by rewrite decide_True by left.
  - apply decide_ext. rewrite elem_of_cons. naive_solver.
Qed.
Lemma streams_write message t : Tee.streams (Tee.write message t) = Tee.streams t.
Proof. unfold Tee.write. generalize (elements (Tee.streams t)). intros l. revert t. induction l as [|y l IH]; intros t; [done|]. cbn. by rewrite IH. Qed.

(** Once the log is open, a message is on the screen and in the file. *)
Definition logging (s : logger) : Prop := opened s = true /\ Tee.streams (out s) = {[stderr; logfile]}.
Lemma open_logstream_logging s : logging (open_logstream s) /\ output logfile (open_logstream s) = [] /\ output stderr (open_logstream s) = output stderr s.
Proof.
  unfold open_logstream, logging, output, Tee.output. cbn. split_and!; [done|set_solver|by rewrite lookup_insert_eq|by rewrite lookup_insert_ne].
Qed.
Lemma log_written text level s : logging s -> exists s', log text level s = (Ok tt, s') /\ logging s' /\
  output stderr s' = output stderr s ++ [text; newline] /\ output logfile s' = output logfile s ++ [text; newline] /\ output stdout s' = output stdout s.
Proof.
  intros [Ho Hs]. unfold log, print_log. rewrite Ho. eexists. split; [done|]. unfold logging, output. cbn [opened out set_out].
  rewrite !streams_write, !output_write, !streams_write, Hs. split_and!; try done;
    (rewrite !decide_True by set_solver) || (rewrite !decide_False by set_solver); by rewrite <-?app_assoc.
Qed.
End Logger.

(** ** The kernel log of a host *)

Module Dmesg.

(** [FirstWriteTrap.write], and the part of [start_dmesg_with_cmd] after
    [dmesg_thread.start()], as threads that take turns.  The pipe thread writes
    the messages of [pending] to the trap, one after the other. *)
Inductive thread := Main | Pipe.
#[export] Instance thread_eq_dec : EqDecision thread.
Proof. solve_decision. Defined.

Inductive pipe_pc :=
| Idle
| Acquiring (message : string)
| Storing (message : string)
| Notifying
| Releasing.
Inductive main_pc :=
| Started
| Holding
| Waiting
| Woken
| Leaving
| Done.

Record trap := Trap {
  first_message : option string;
  lock : option thread;
  target : list string;
  pending : list string;
  pipe : pipe_pc;
  main : main_pc
}.

Definition pipe_step (s : trap) : option trap :=
  let '(Trap first l t p pc m) := s in
  match pc with
  | Idle =>
      match p with
      | [] => None
      | x :: p =>
          match first with
          | None => Some (Trap first l t p (Acquiring x) m)
          | Some _ => Some (Trap first l (t ++ [x]) p Idle m)
          end
      end
  | Acquiring x => match l with None => Some (Trap first (Some Pipe) t p (Storing x) m) | Some _ => None end
  | Storing x => Some (Trap (Some x) l t p Notifying m)
  | Notifying => Some (Trap first l t p Releasing (match m with Waiting => Woken | _ => m end))
  | Releasing => Some (Trap first None t p Idle m)
  end.
(** [with condition: condition.wait()] *)
Definition main_step (s : trap) : option trap :=
  let '(Trap first l t p pc m) := s in
  match m with
  | Started => match l with None => Some (Trap first (Some Main) t p pc Holding) | Some _ => None end
  | Holding => Some (Trap first None t p pc Waiting)
  | Waiting => None
  | Woken => match l with None => Some (Trap first (Some Main) t p pc Leaving) | Some _ => None end
  | Leaving => Some (Trap first None t p pc Done)
  | Done => None
  end.
Definition next (th : thread) (s : trap) : option trap :=
  match th with Main => main_step s | Pipe => pipe_step s end.

Inductive step : trap -> trap -> Prop :=
| step_of th s s' : next th s = Some s' -> step s s'.

(** After [dmesg_thread.start()]; and once the main thread waits *)
Definition started (messages : list string) : trap := Trap None None [] messages Idle Started.
Definition waiting (messages : list string) : trap := Trap None None [] messages Idle Waiting.

(** The messages a state accounts for, in order *)
Definition current (pc : pipe_pc) : list string :=
  match pc with Acquiring x | Storing x => [x] | _ => [] end.
Definition passed (s : trap) : list string := option_list (first_message s) ++ target s.
Definition messages_of (s : trap) : list string := passed s ++ current (pipe s) ++ pending s.

(** Which threads are between taking the lock and giving it back *)
Definition pipe_holds (s : trap) : bool := match pipe s with Storing _ | Notifying | Releasing => true | _ => false end.
Definition main_holds (s : trap) : bool := match main s with Holding | Leaving => true | _ => false end.

(** A run by a list of choices *)
Definition run (ths : list thread) (s : trap) : option trap :=
  foldl (fun o th => o ≫= next th) (Some s) ths.

(** *** Lemmas *)

Definition locks_ok (s : trap) : Prop :=
  match pipe s with Storing _ | Notifying | Releasing => lock s = Some Pipe | _ => lock s <> Some Pipe end /\
  match main s with Holding | Leaving => lock s = Some Main | _ => lock s <> Some Main end.
Definition first_ok (s : trap) : Prop :=
  match pipe s with
  | Acquiring _ | Storing _ => first_message s = None
  | Notifying | Releasing => first_message s <> None
  | Idle => True
  end /\
  (first_message s = None -> target s = []) /\
  match main s with Woken | Leaving | Done => first_message s <> None | _ => True end.
Definition invariant (messages : list string) (s : trap) : Prop :=
  messages_of s = messages /\ locks_ok s /\ first_ok s.
(** Once the main thread waits, the notification cannot be missed. *)
Definition awaited (s : trap) : Prop :=
  match main s with
  | Started | Holding => False
  | Waiting => first_message s = None \/ pipe s = Notifying
  | _ => True
  end.

Ltac step_cases :=
  repeat match goal with
  | H : step _ _ |- _ => destruct H as [[] ?s ?s' H]
  | s : trap |- _ => destruct s as [?first ?l ?t ?p ?pc ?m]
  | H : next _ _ = Some _ |- _ => progress cbn in H
  | H : match ?x with _ => _ end = Some _ |- _ => destruct x eqn:?; try discriminate H
  | H : Some _ = Some _ |- _ => injection H as <- <- <- <- <- <-
  end.

Lemma invariant_started messages : invariant messages (started messages).
Proof. unfold invariant, locks_ok, first_ok, messages_of, passed. cbn. split_and!; done. Qed.
Lemma invariant_waiting messages : invariant messages (waiting messages).
Proof. unfold invariant, locks_ok, first_ok, messages_of, passed. cbn. split_and!; done. Qed.

Lemma invariant_step messages s s' : step s s' -> invariant messages s -> invariant messages s'.
Proof.
  intros Hs. unfold invariant, locks_ok, first_ok, messages_of, passed.
  step_cases; cbn; intros (Hm & (Hl1 & Hl2) & Hf1 & Hf2 & Hf3); subst; cbn in *;
    (split_and!; try done; repeat case_match; subst; try done; try naive_solver).
  all: try (rewrite Hf2 by done); try done; by rewrite <-app_assoc.
Qed.

Lemma invariant_runs messages s s' : rtc step s s' -> invariant messages s -> invariant messages s'.
Proof. induction 1 as [|s1 s2 s3 Hs _ IH]; [done|]. intros Hi. by eapply IH, invariant_step. Qed.

Lemma awaited_runs s s' : rtc step s s' -> awaited s -> awaited s'.
Proof.
  induction 1 as [|s1 s2 s3 Hs _ IH]; [done|]. intros Ha. apply IH. clear IH s3. revert Ha. unfold awaited.
  step_cases; cbn; subst; repeat case_match; subst; naive_solver.
Qed.

(** Nobody can move: all is read, and the main thread has finished or waits. *)
Lemma stuck_cases messages s : invariant messages s -> nf step s ->
  pipe s = Idle /\ pending s = [] /\ (main s = Waiting \/ main s = Done).
Proof.
  intros (_ & (Hl1 & Hl2) & _) Hnf.
  assert (Hn : forall th, next th s = None).
  { intros th. destruct (next th s) as [s'|] eqn:Hs; [|done]. exfalso. apply Hnf. exists s'. by econstructor. }
  pose proof (Hn Main) as Hm. pose proof (Hn Pipe) as Hp. destruct s as [first l t p pc m]. cbn in *.
  destruct m, pc; try done; destruct l as [[]|]; try done; destruct p; try done; try (by destruct first); auto.
Qed.

(** The steps left *)
Definition measure (s : trap) : nat :=
  5 * length (pending s) +
  match pipe s with Idle => 0 | Acquiring _ => 4 | Storing _ => 3 | Notifying => 2 | Releasing => 1 end +
  match main s with Started => 5 | Holding => 4 | Waiting => 3 | Woken => 2 | Leaving => 1 | Done => 0 end.

Lemma measure_step s s' : step s s' -> measure s' < measure s.
Proof. intros Hs. unfold measure. step_cases; cbn; subst; repeat case_match; subst; try discriminate; lia. Qed.

Lemma measure_runs n s s' : nsteps step n s s' -> n + measure s' <= measure s.
Proof. induction 1 as [|n s1 s2 s3 Hs _ IH]; [lia|]. apply measure_step in Hs. lia. Qed.

Lemma run_steps ths s s' : run ths s = Some s' -> rtc step s s'.
Proof.
  unfold run. assert (Hnone : forall ths, foldl (fun o th => o ≫= next th) None ths = None) by (intros l; by induction l).
  revert s. induction ths as [|th ths IH]; intros s; cbn [foldl]; [intros [= ->]; apply rtc_refl|].
  cbn [mbind option_bind]. destruct (next th s) as [s1|] eqn:Hs; [|by rewrite Hnone].
  intros Hr. eapply rtc_l; [by econstructor|]. by apply IH.
Qed.

(** The lock is taken too late: the pipe thread has already notified. *)
Lemma lost_wakeup x messages :
  run [Pipe; Pipe; Pipe; Pipe; Pipe; Main; Main] (started (x :: messages)) =
  Some (Trap (Some x) None [] messages Idle Waiting).
Proof. done. Qed.
Lemma drain x t messages :
  rtc step (Trap (Some x) None t messages Idle Waiting) (Trap (Some x) None (t ++ messages) [] Idle Waiting).
Proof.
  revert t. induction messages as [|y messages IH]; intros t; [by rewrite app_nil_r|].
  eapply rtc_l; [by apply (step_of Pipe)|]. rewrite (cons_middle y t messages), app_assoc. apply IH.
Qed.

(** *** Properties *)

(** C22: however the threads interleave, the messages of the kernel log are, in
    their order, those that the trap has kept or passed on to its target, the
    one it is keeping, and those that have not been read yet: none is lost,
    doubled or reordered.  The first one is kept, the target has exactly those
    behind it, only one of the threads is inside the lock, and when
    [start_dmesg_with_cmd] returns, the first message, which [stop_dmesg] reads
    the process ID from, has been kept. *)
Theorem first_write_is_trapped messages s :
  rtc step (started messages) s ->
  messages = option_list (first_message s) ++ target s ++ current (pipe s) ++ pending s /\
  (first_message s = None -> target s = []) /\
  pipe_holds s && main_holds s = false /\
  (main s = Done -> first_message s = head messages /\ messages <> []).
Proof.
  intros Hs. destruct (invariant_runs _ _ _ Hs (invariant_started messages)) as (Hm & [Hl1 Hl2] & Hf1 & Hf2 & Hf3).
  assert (Hall : messages = option_list (first_message s) ++ target s ++ current (pipe s) ++ pending s).
  { rewrite <-Hm. unfold messages_of, passed. by rewrite <-app_assoc. }
  split_and!; [done|done| |].
  - unfold pipe_holds, main_holds. destruct (pipe s), (main s); try done; cbn in *; congruence.
  - intros Hd. rewrite Hd in Hf3. destruct (first_message s) as [x|] eqn:Hx; [|done]. by rewrite Hall.
Qed.

(** C23: the start of the kernel log always comes to an end, after at most
    [5 * n + 5] steps for [n] messages, with all messages passed on; but the
    condition is waited for without looking whether the message is there
    already.  If the main thread gets to wait before the first message comes,
    it returns; if the message is faster, the notification is lost and
    [start_dmesg_with_cmd] never returns. *)
Theorem dmesg_start_may_lose_the_wakeup messages :
  (forall n s, nsteps step n (started messages) s -> n <= 5 * length messages + 5) /\
  (forall s, rtc step (started messages) s -> nf step s -> passed s = messages /\ (main s = Waiting \/ main s = Done)) /\
  (forall s, messages <> [] -> rtc step (waiting messages) s -> nf step s -> main s = Done) /\
  (messages <> [] -> exists s, rtc step (started messages) s /\ nf step s /\ passed s = messages /\ main s = Waiting).
Proof.
  split_and!.
  - intros n s Hn. apply measure_runs in Hn. unfold started in Hn. unfold measure at 2 in Hn. cbn in Hn. lia.
  - intros s Hs Hnf. pose proof (invariant_runs _ _ _ Hs (invariant_started messages)) as Hi.
    destruct (stuck_cases _ _ Hi Hnf) as (Hp & Hr & Hm). split; [|done]. destruct Hi as [Hi _].
    unfold messages_of in Hi. by rewrite Hp, Hr, app_nil_r in Hi.
  - intros s Hne Hs Hnf. pose proof (invariant_runs _ _ _ Hs (invariant_waiting messages)) as Hi.
    assert (Ha : awaited s) by (eapply awaited_runs; [exact Hs|by left]).
    destruct (stuck_cases _ _ Hi Hnf) as (Hp & Hr & [Hm|Hm]); [|done]. exfalso. unfold awaited in Ha. rewrite Hm, Hp in Ha.
    destruct Ha as [Hf|]; [|done]. destruct Hi as (Hi & _ & _ & Hf2 & _). apply Hne. rewrite <-Hi.
    unfold messages_of, passed. by rewrite Hp, Hr, Hf, Hf2.
  - intros Hne. destruct messages as [|x messages]; [done|]. exists (Trap (Some x) None messages [] Idle Waiting).
    split_and!; [|intros [s' Hs]; inversion Hs as [[] ? ? Hn]; subst; discriminate Hn|done|done].
    etransitivity; [eapply run_steps, lost_wakeup|]. apply (drain x [] messages).
Qed.

Lemma first_write_is_trapped_witness :
  let s := Trap (Some "1234") None ["boot"] ["late"] Idle Done in
  run [Main; Main; Pipe; Pipe; Pipe; Pipe; Pipe; Main; Main; Pipe] (started ["1234"; "boot"; "late"]) = Some s /\
  first_message s = Some "1234" /\ ["1234"; "boot"; "late"] = ["1234"] ++ target s ++ pending s.
Proof.
  intros s. split; [vm_compute; reflexivity|].
  assert (Hr : rtc step (started ["1234"; "boot"; "late"]) s).
  { apply (run_steps [Main; Main; Pipe; Pipe; Pipe; Pipe; Pipe; Main; Main; Pipe]). vm_compute. reflexivity. }
  destruct (first_write_is_trapped ["1234"; "boot"; "late"] s Hr) as (Hm & _ & _ & Hd).
  split; [exact (proj1 (Hd eq_refl))|exact Hm].
Defined.

Lemma dmesg_start_may_lose_the_wakeup_witness :
  (exists s, rtc step (started ["1234"; "boot"]) s /\ nf step s /\ passed s = ["1234"; "boot"] /\ main s = Waiting) /\
  main (Trap (Some "1234") None ["boot"] [] Idle Done) = Done.
Proof.
  pose proof (dmesg_start_may_lose_the_wakeup ["1234"; "boot"]) as (_ & _ & H1 & H2). split; [by apply H2|].
  apply H1; [done| |].
  - apply (run_steps [Pipe; Pipe; Pipe; Pipe; Pipe; Main; Main; Pipe]). vm_compute. reflexivity.
  - intros [s' Hs]. inversion Hs as [[] ? ? Hn]; subst; discriminate Hn.
Defined.
End Dmesg.
