(* ===== verification/Versions.v ===== *)
(** * Versions and test selection (src/virter/vmshed_tests_generator.py)

    DRBD version strings, their parsing and comparison, and the generation of
    the vmshed test list from the [### vmshed:] lines of the test scripts. *)

From S2P Require Import Prelude PyStr.

(** An element of a parsed version: an integer, [float('inf')] or a string. *)
Inductive velem :=
| VInt (n : Z)
| VInf
| VStr (s : string).

#[export] Instance velem_eq_dec : EqDecision velem.
Proof. solve_decision. Defined.

Definition star : velem := VStr "*".

(** [x < y]; numbers and strings are not comparable. *)
Definition elem_lt (x y : velem) : res bool :=
  match x, y with
  | VInt m, VInt n => Ok (bool_decide (m < n)%Z)
  | VInt _, VInf => Ok true
  | VInf, (VInt _ | VInf) => Ok false
  | VStr s, VStr t => Ok (String.ltb s t)
  | _, _ => Raise (TypeError "'<' not supported between instances of 'int' and 'str'")
  end.
Definition elem_gt (x y : velem) : res bool := elem_lt y x.

(** The loop body of [is_lower], down the two lists at once; [None] when the
    loop ends without a [return]. *)
Fixpoint is_lower_loop (version min_version : list velem) : res (option bool) :=
  match min_version with
  | [] => Ok None
  | y :: min_version' =>
      match version with
      | [] => Ok (Some true)
      | x :: version' =>
          if decide (x = star) then Ok (Some false)
          else if decide (y = star) then Ok (Some true)
          else let* lt := elem_lt x y in
               if (lt : bool) then Ok (Some true)
               else let* gt := elem_gt x y in
                    if (gt : bool) then Ok (Some false)
                    else is_lower_loop version' min_version'
      end
  end.

Definition is_lower (version min_version : list velem) : res bool :=
  let* r := is_lower_loop version min_version in
  match r with
  | Some b => Ok b
  | None => Ok (bool_decide (length version < length min_version))
  end.

(** Python's [a < b] on lists: the first differing elements decide. *)
Fixpoint py_list_lt (a b : list velem) : res bool :=
  match a, b with
  | _, [] => Ok false
  | [], _ :: _ => Ok true
  | x :: a, y :: b => if decide (x = y) then py_list_lt a b else elem_lt x y
  end.

Definition is_hex_lower (c : ascii) : bool := scontains c "0123456789abcdef".

Definition is_commit_sha (e : velem) : bool :=
  match e with
  | VStr s => if decide (slen s ∈ [40; 64]) then sall is_hex_lower s else false
  | _ => false
  end.

Definition parse_element (element : string) : res velem :=
  if isdecimal element then VInt <$> py_int element else Ok (VStr element).

Definition parse_version (version_str : string) : res (list velem) :=
  let* elements := map_res (str_split "."%char version_str) parse_element in
  match elements with
  | e0 :: e1 :: e2 :: e3 :: _ =>
      if bool_decide (e2 = VInt 0) && (bool_decide (e3 = VStr "latest") || is_commit_sha e3)
      then Ok [e0; e1; VInf]
      else Ok elements
  | _ => Ok elements
  end.

(** The configuration of one test: the JSON object of its [### vmshed:] line. *)
Record network := Network { forward : string; domain : string; dhcp : bool }.
Inductive variant_item :=
| VariantAlways (variant : string)
| VariantFrom (variant drbd_version_min : string).
Record vmshed_config := VmshedConfig {
  vms : gmap string (list Z);
  drbd_version_min : option string;
  vm_tags : list string;
  variants_add : list variant_item;
  samevms : bool;
  networks : list network
}.

Definition vmshed_prefix : string := "### vmshed: ".

(** The text after the prefix on the first line that has it. *)
Fixpoint read_vmshed_line (lines : list string) : option string :=
  match lines with
  | [] => None
  | line :: lines =>
      match strip_prefix vmshed_prefix line with
      | None => read_vmshed_line lines
      | Some json_str => Some json_str
      end
  end.

(** The variants of [variants_list] as the elements added to the set, in order. *)
Fixpoint parse_variants_add (variants_list : list variant_item)
    (drbd_version_lower : option (list velem)) : res (gset string) :=
  match variants_list with
  | [] => Ok ∅
  | item :: l =>
      let* here :=
        match item, drbd_version_lower with
        | VariantAlways v, _ => Ok {[v]}
        | VariantFrom v _, None => Ok {[v]}
        | VariantFrom v min, Some lower =>
            let* m := parse_version min in
            let* low := is_lower m lower in
            Ok (if (low : bool) then ({[v]} : gset string) else ∅)
        end in
      let* rest := parse_variants_add l drbd_version_lower in
      Ok (here ∪ rest)
  end.

(** The lower of the two command line versions. *)
Definition version_lower (drbd_version drbd_version_other : option (list velem)) :
    res (option (list velem)) :=
  match drbd_version_other, drbd_version with
  | None, v => Ok v
  | Some o, None => Ok (Some o)
  | Some o, Some v =>
      let* low := is_lower v o in Ok (Some (if (low : bool) then v else o))
  end.

(** A generated entry of the test list. *)
Record test_entry := TestEntry {
  te_name : string;
  te_vms : list Z;
  te_vm_tags : list string;
  te_variants : list string;
  te_samevms : bool;
  te_networks : list network
}.

(** The body of the loop that writes the tests; [None] is a [continue]. *)
Definition select_test (selection : string) (default_variants : list string)
    (lower : option (list velem)) (name : string) (cfg : vmshed_config) :
    res (option test_entry) :=
  match vms cfg !! ("vms_" +:+ selection) with
  | None => Ok None
  | Some vms0 =>
      let* below9 := match lower with
                     | None => Ok false
                     | Some l => py_list_lt l [VInt 9]
                     end in
      let vms1 := if (below9 : bool) then filter (fun x => x <= 2)%Z vms0 else vms0 in
      if decide (length vms1 = 0) then Ok None else
      let* too_low := match lower, drbd_version_min cfg with
                      | Some l, Some m => let* m := parse_version m in is_lower l m
                      | _, _ => Ok false
                      end in
      if (too_low : bool) then Ok None else
      let* extra := parse_variants_add (variants_add cfg) lower in
      Ok (Some {| te_name := name; te_vms := vms1; te_vm_tags := vm_tags cfg;
                  te_variants := merge_sort String.le
                    (elements (list_to_set default_variants ∪ extra : gset string));
                  te_samevms := samevms cfg; te_networks := networks cfg |})
  end.

Definition name_le (a b : string * vmshed_config) : Prop := String.le (fst a) (fst b).
#[export] Instance name_le_dec : RelDecision name_le.
Proof. intros a b. unfold name_le. apply _. Defined.

Fixpoint write_tests (selection : string) (default_variants : list string)
    (lower : option (list velem)) (l : list (string * vmshed_config)) :
    res (list test_entry) :=
  match l with
  | [] => Ok []
  | (name, cfg) :: l =>
      let* e := select_test selection default_variants lower name cfg in
      let* es := write_tests selection default_variants lower l in
      Ok (option_list e ++ es)
  end.

(** The lines printed for an entry *)
Definition network_lines (name : string) (n : network) : list string :=
  ["[[tests." +:+ name +:+ ".networks]]";
   "forward = " +:+ dquoted (forward n);
   "domain = " +:+ dquoted (domain n);
   "dhcp = " +:+ (if dhcp n then "true" else "false")].
Definition entry_lines (e : test_entry) : list string :=
  ["[tests." +:+ te_name e +:+ "]"; "vms = " +:+ repr_list (map str_int (te_vms e))] ++
  (if decide (te_vm_tags e = []) then []
   else ["vm_tags = " +:+ repr_list (map repr_str (te_vm_tags e))]) ++
  ["variants = " +:+ repr_list (map repr_str (te_variants e))] ++
  (if te_samevms e then ["samevms = true"] else []) ++
  concat (map (network_lines (te_name e)) (te_networks e)) ++ [EmptyString].

(** One directory entry: its name and, for a regular file, the configuration
    read from it ([None] when it has no vmshed line). *)
Inductive dir_entry :=
| NotAFile
| TestFile (config : option vmshed_config).

Definition read_config (tests_dir name : string) (e : dir_entry) :
    res (option (string * vmshed_config)) :=
  match e with
  | NotAFile => Ok None
  | TestFile None => Raise (RuntimeError ("no " +:+ dquoted vmshed_prefix +:+ " line found in "
      +:+ dquoted (tests_dir +:+ "/" +:+ name)))
  | TestFile (Some cfg) =>
      match vms cfg !! "vms_all" with
      | None | Some [] => Raise (RuntimeError ("no " +:+ dquoted "vms_all" +:+ " configured for "
          +:+ dquoted (tests_dir +:+ "/" +:+ name)))
      | Some _ => Ok (Some (name, cfg))
      end
  end.

(** [main], from the parsed options and the directory to the written entries. *)
Definition main (tests_dir selection : string) (drbd_version drbd_version_other : option string)
    (default_variants : list string) (dir : list (string * dir_entry)) :
    res (list test_entry) :=
  let* v := match drbd_version with None => Ok None | Some s => Some <$> parse_version s end in
  let* o := match drbd_version_other with None => Ok None | Some s => Some <$> parse_version s end in
  let* lower := version_lower v o in
  let* configs := map_res dir (fun '(name, e) => read_config tests_dir name e) in
  write_tests selection default_variants lower
    (merge_sort name_le (omap id configs)).

(** ** The order on versions *)

(** The order of two comparable elements that are not stars. *)
Inductive elem_before : velem -> velem -> Prop :=
| before_int m n : (m < n)%Z -> elem_before (VInt m) (VInt n)
| before_inf m : elem_before (VInt m) VInf
| before_str s t : String.ltb s t = true -> elem_before (VStr s) (VStr t).

(** The specification of [is_lower]: lexicographic, a proper prefix is lower,
    and a star is above every version that continues otherwise. *)
Inductive version_before : list velem -> list velem -> Prop :=
| vb_short y b : version_before [] (y :: b)
| vb_star x a b : x <> star -> version_before (x :: a) (star :: b)
| vb_elem x y a b : x <> star -> y <> star -> elem_before x y ->
    version_before (x :: a) (y :: b)
| vb_eq x a b : x <> star -> version_before a b -> version_before (x :: a) (x :: b).

(** Versions whose elements are numbers or stars: released and development
    versions, with wildcards. *)
Definition numeric (e : velem) : bool :=
  match e with VStr s => bool_decide (s = "*") | _ => true end.
Definition numeric_version (v : list velem) : bool := forallb numeric v.

(** ** Lemmas *)

Lemma string_ltb_irrefl s : String.ltb s s = false.
Proof.
  unfold String.ltb. pose proof (String.compare_antisym s s) as Ha.
  by destruct (String.compare s s).
Qed.

Lemma string_ltb_le s t : String.ltb s t = true <-> String.le s t /\ s <> t.
Proof.
  unfold String.le, String.leb. split.
  - intros Hlt. split; [|intros ->; by rewrite string_ltb_irrefl in Hlt].
    unfold String.ltb in Hlt. by destruct (String.compare s t).
  - intros [Hle Hne]. unfold String.ltb.
    destruct (String.compare s t) eqn:E; [|done|done].
    by apply String.compare_eq_iff in E.
Qed.

Lemma string_ltb_trans s t u :
  String.ltb s t = true -> String.ltb t u = true -> String.ltb s u = true.
Proof.
  rewrite !string_ltb_le. intros [Hst Hne] [Htu _]. split; [by transitivity t|].
  intros ->. apply Hne. by apply (anti_symm String.le).
Qed.

Lemma elem_lt_before x y : elem_lt x y = Ok true <-> elem_before x y.
Proof.
  split.
  - destruct x as [m| |s], y as [n| |t]; simpl; intros Hb; try done; [|constructor|].
    + injection Hb as Hb%bool_decide_eq_true. by constructor.
    + injection Hb as Hb. by constructor.
  - intros []; simpl; [by rewrite bool_decide_true|done|congruence].
Qed.

Lemma elem_before_irrefl x : ~ elem_before x x.
Proof. inversion 1; subst; [lia|]. by rewrite string_ltb_irrefl in *. Qed.

Lemma elem_lt_refl x : x <> star -> elem_lt x x = Ok false.
Proof.
  destruct x; simpl; [|done|by rewrite string_ltb_irrefl].
  intros _. by rewrite bool_decide_false by lia.
Qed.

(** Neither above nor below means equal. *)
Lemma elem_lt_trichotomy x y :
  elem_lt x y = Ok false -> elem_lt y x = Ok false -> x = y.
Proof.
  destruct x as [m| |s], y as [n| |t]; simpl; try done.
  - intros [= H1%bool_decide_eq_false] [= H2%bool_decide_eq_false]. f_equal. lia.
  - unfold String.ltb. intros [= H1] [= H2]. f_equal.
    rewrite String.compare_antisym in H2. apply String.compare_eq_iff.
    by destruct (String.compare s t).
Qed.

Lemma elem_lt_asym x y : elem_lt x y = Ok true -> elem_lt y x = Ok false.
Proof.
  destruct x as [m| |s], y as [n| |t]; simpl; try done.
  - intros [= H1%bool_decide_eq_true]. by rewrite bool_decide_false by lia.
  - unfold String.ltb. intros [= H1]. rewrite String.compare_antisym.
    by destruct (String.compare s t).
Qed.

(** One step of the loop on two elements that are not stars. *)
Lemma is_lower_loop_cons x y a b : x <> star -> y <> star ->
  is_lower_loop (x :: a) (y :: b) =
    let* lt := elem_lt x y in
    if (lt : bool) then Ok (Some true)
    else let* gt := elem_lt y x in
         if (gt : bool) then Ok (Some false) else is_lower_loop a b.
Proof. intros Hx Hy. cbn [is_lower_loop]. by rewrite !decide_False. Qed.

Lemma is_lower_loop_length a b : is_lower_loop a b = Ok None -> length b <= length a.
Proof.
  revert a. induction b as [|y b IH]; intros [|x a]; simpl; try (done || lia).
  repeat case_decide; try done.
  destruct (elem_lt x y) as [[]|]; try done. simpl. unfold elem_gt.
  destruct (elem_lt y x) as [[]|]; try done. simpl. intros Hl%IH. lia.
Qed.

(** The test after the loop never decides: it is reached only when the first
    list is at least as long. *)
Lemma is_lower_true a b : is_lower a b = Ok true <-> is_lower_loop a b = Ok (Some true).
Proof.
  unfold is_lower. destruct (is_lower_loop a b) as [[[]|]|] eqn:E; simpl; try naive_solver.
  apply is_lower_loop_length in E. rewrite bool_decide_false by lia. naive_solver.
Qed.

Lemma is_lower_ok a b r : is_lower a b = Ok r <->
  is_lower_loop a b = Ok (Some r) \/ (is_lower_loop a b = Ok None /\ r = false).
Proof.
  unfold is_lower. destruct (is_lower_loop a b) as [[[]|]|] eqn:E; simpl; try naive_solver.
  apply is_lower_loop_length in E. rewrite bool_decide_false by lia. naive_solver.
Qed.

Lemma is_lower_loop_spec a b : is_lower_loop a b = Ok (Some true) <-> version_before a b.
Proof.
  split.
  - revert a. induction b as [|y b IH]; intros [|x a]; simpl; try done; [constructor|].
    repeat case_decide; try done; subst; [by constructor|].
    destruct (elem_lt x y) as [[]|] eqn:E1; try done; simpl.
    { intros _. apply vb_elem; [done..|]. by apply elem_lt_before. }
    unfold elem_gt. destruct (elem_lt y x) as [[]|] eqn:E2; try done; simpl.
    intros Hl%IH. rewrite (elem_lt_trichotomy x y) in * by done. by apply vb_eq.
  - induction 1 as [| |x y a b Hx Hy Hb|x a b Hx _ IH]; [done|..].
    + cbn [is_lower_loop]. by rewrite decide_False, decide_True.
    + rewrite is_lower_loop_cons by done. apply elem_lt_before in Hb. by rewrite Hb.
    + rewrite is_lower_loop_cons, elem_lt_refl by done. done.
Qed.

Lemma elem_before_trans x y z : elem_before x y -> elem_before y z -> elem_before x z.
Proof.
  inversion 1; inversion 1; subst; constructor; [lia|].
  by eapply string_ltb_trans.
Qed.

Lemma version_before_star a b : ~ version_before (star :: a) b.
Proof. by inversion 1. Qed.

Lemma version_before_irrefl a : ~ version_before a a.
Proof.
  induction a as [|x a IH]; [by inversion 1|].
  inversion 1; subst; [done| |done]. by eapply elem_before_irrefl.
Qed.

Lemma version_before_trans a b c :
  version_before a b -> version_before b c -> version_before a c.
Proof.
  intros Hab. revert c. induction Hab as [y b|x a b Hx|x y a b Hx Hy Hb|x a b Hx Hab IH];
    intros c Hbc.
  - inversion Hbc; subst; constructor.
  - by apply version_before_star in Hbc.
  - inversion Hbc; subst; [by constructor| |by apply vb_elem].
    apply vb_elem; [done..|]. by eapply elem_before_trans.
  - inversion Hbc; subst; [by constructor|by apply vb_elem|]. apply vb_eq; auto.
Qed.

(** Numbers and stars are always comparable. *)
Lemma elem_lt_numeric x y : numeric x = true -> numeric y = true ->
  x <> star -> y <> star -> exists r, elem_lt x y = Ok r.
Proof.
  destruct x as [m| |s], y as [n| |t]; simpl; try (intros; by eexists);
  try rewrite !bool_decide_eq_true; intros ?? Hx Hy; subst; done.
Qed.

Lemma is_lower_numeric a b : numeric_version a = true -> numeric_version b = true ->
  exists r, is_lower a b = Ok r.
Proof.
  intros Ha Hb. assert (exists r, is_lower_loop a b = Ok r) as [[r|] Hr].
  { revert a Ha. induction b as [|y b IH]; intros [|x a] Ha; simpl; try (by eexists).
    simpl in *. apply andb_true_iff in Ha as [Hx Ha], Hb as [Hy Hb].
    repeat case_decide; try (by eexists).
    destruct (elem_lt_numeric x y) as [[] ->]; try done; simpl; [by eexists|].
    unfold elem_gt. destruct (elem_lt_numeric y x) as [[] ->]; try done; simpl; [by eexists|].
    by apply IH. }
  - exists r. apply is_lower_ok. by left.
  - exists false. apply is_lower_ok. by right.
Qed.

(** *** Parsing *)

Lemma parse_element_nat n : parse_element (str_nat n) = Ok (VInt (Z.of_nat n)).
Proof. unfold parse_element. by rewrite isdecimal_str_nat, py_int_str_nat. Qed.

Lemma parse_element_other s : isdecimal s = false -> parse_element s = Ok (VStr s).
Proof. unfold parse_element. by intros ->. Qed.

Lemma str_nat_no_dot n : scontains "."%char (str_nat n) = false.
Proof. eapply sall_contains; [apply str_nat_digits|done]. Qed.

Lemma sha_no_dot s : is_commit_sha (VStr s) = true -> scontains "."%char s = false.
Proof.
  simpl. case_decide; [|done]. intros Hs. by eapply sall_contains; [apply Hs|].
Qed.

Lemma parse_dotted (l : list string) : l <> [] ->
  Forall (fun s => scontains "."%char s = false) l ->
  map_res (str_split "."%char (join "." l)) parse_element = map_res l parse_element.
Proof. intros Hl HF. by rewrite split_join. Qed.

Lemma map_res_nats (l : list nat) :
  map_res (map str_nat l) parse_element = Ok (map (fun n => VInt (Z.of_nat n)) l).
Proof.
  induction l as [|n l IH]; [done|]. simpl. by rewrite parse_element_nat, IH.
Qed.

Lemma parse_element_total s : exists v, parse_element s = Ok v.
Proof.
  destruct (isdecimal s) eqn:E; [|eexists; by apply parse_element_other].
  unfold parse_element. rewrite E.
  destruct (py_int_isdecimal s E) as (z & -> & _). by eexists.
Qed.

(** Every version string parses. *)
Lemma parse_version_total s : is_ok (parse_version s) = true.
Proof.
  unfold parse_version. assert (exists l, map_res (str_split "."%char s) parse_element = Ok l)
    as [l ->].
  { induction (str_split "."%char s) as [|x l [l' IH]]; [by eexists|]. simpl.
    destruct (parse_element_total x) as [v ->]. simpl. rewrite IH. by eexists. }
  simpl. repeat case_match; done.
Qed.

(** *** Totality and minima *)

Lemma is_lower_loop_none_eq a b : numeric_version a = true -> numeric_version b = true ->
  star ∉ a -> is_lower_loop a b = Ok None -> exists c, a = b ++ c.
Proof.
  revert a. induction b as [|y b IH]; intros a Ha Hb Hs; [by exists a|].
  destruct a as [|x a]; [done|]. cbn [is_lower_loop].
  apply not_elem_of_cons in Hs as [Hx Hs]. simpl in Ha, Hb.
  apply andb_true_iff in Ha as [Hnx Ha], Hb as [Hny Hb].
  rewrite decide_False by done. case_decide; [done|].
  destruct (elem_lt x y) as [[]|] eqn:E1; simpl; try done. unfold elem_gt.
  destruct (elem_lt y x) as [[]|] eqn:E2; simpl; try done.
  rewrite (elem_lt_trichotomy x y) by done. intros Hl.
  destruct (IH a Ha Hb Hs Hl) as [c ->]. by exists c.
Qed.

Lemma version_before_total a b : numeric_version a = true -> numeric_version b = true ->
  star ∉ a -> star ∉ b -> a <> b -> version_before a b \/ version_before b a.
Proof.
  revert b. induction a as [|x a IH]; intros [|y b] Ha Hb Hsa Hsb Hne;
    [done|left; constructor|right; constructor|].
  apply not_elem_of_cons in Hsa as [Hx Hsa], Hsb as [Hy Hsb]. simpl in Ha, Hb.
  apply andb_true_iff in Ha as [Hnx Ha], Hb as [Hny Hb].
  destruct (decide (x = y)) as [<-|Hxy].
  { destruct (IH b) as [Hl|Hl]; [done..|naive_solver| |]; [left|right]; by apply vb_eq. }
  destruct (elem_lt_numeric x y) as [[] E1], (elem_lt_numeric y x) as [[] E2]; try done.
  - left. apply vb_elem; [done..|]. by apply elem_lt_before.
  - left. apply vb_elem; [done..|]. by apply elem_lt_before.
  - right. apply vb_elem; [done..|]. by apply elem_lt_before.
  - by destruct Hxy; apply elem_lt_trichotomy.
Qed.

Lemma is_lower_spec a b : is_lower a b = Ok true <-> version_before a b.
Proof. rewrite is_lower_true. apply is_lower_loop_spec. Qed.

Lemma is_lower_refl v : numeric_version v = true -> is_lower v v = Ok false.
Proof.
  intros Hv. destruct (is_lower_numeric v v Hv Hv) as [[] Hr]; [|done].
  apply is_lower_spec in Hr. by apply version_before_irrefl in Hr.
Qed.

(** *** Selection *)

Lemma select_test_Some sel dv lower name cfg e :
  select_test sel dv lower name cfg = Ok (Some e) ->
  te_name e = name /\ te_vms e <> [] /\
  (forall x, x ∈ te_vms e -> exists l, vms cfg !! ("vms_" +:+ sel) = Some l /\ x ∈ l) /\
  (forall l, lower = Some l -> py_list_lt l [VInt 9] = Ok true ->
    forall x, x ∈ te_vms e -> (x <= 2)%Z) /\
  (forall l m, lower = Some l -> drbd_version_min cfg = Some m ->
    exists v, parse_version m = Ok v /\ is_lower l v = Ok false) /\
  (forall v, v ∈ dv -> v ∈ te_variants e) /\ Sorted String.le (te_variants e).
Proof.
  unfold select_test. destruct (vms cfg !! _) as [vms0|] eqn:Hv; [|done].
  set (below := match lower with Some l => py_list_lt l [VInt 9] | None => Ok false end).
  destruct below as [b9|] eqn:Hb; mred; [|done].
  set (vms1 := if b9 then _ else _). case_decide as Hl; [done|].
  set (low := match lower with Some l => _ | None => _ end).
  destruct low as [[]|] eqn:Hlow; mred; [done| |done].
  destruct (parse_variants_add _ lower) as [extra|]; mred; [|done].
  intros [= <-]. simpl. split_and!; [done|by intros ->| | | | |].
  - intros x Hx. exists vms0. split; [done|]. unfold vms1 in Hx. destruct b9; [|done].
    by apply list_elem_of_filter in Hx as [_ Hx].
  - intros l -> Hlt x Hx. unfold below in Hb. rewrite Hlt in Hb. simplify_eq.
    unfold vms1 in Hx. by apply list_elem_of_filter in Hx as [Hx _].
  - intros l m -> Hm. unfold low in Hlow. rewrite Hm in Hlow.
    destruct (parse_version m) as [v|]; [|done]. by exists v.
  - intros v Hin. rewrite merge_sort_Permutation. apply elem_of_elements. set_solver.
  - apply Sorted_merge_sort. apply _.
Qed.

Lemma select_test_name sel dv lower name cfg e :
  select_test sel dv lower name cfg = Ok (Some e) -> te_name e = name.
Proof. intros He. by apply select_test_Some in He as [Hn _]. Qed.

Lemma write_tests_elem sel dv lower l es e :
  write_tests sel dv lower l = Ok es -> e ∈ es ->
  exists cfg, (te_name e, cfg) ∈ l /\
    select_test sel dv lower (te_name e) cfg = Ok (Some e).
Proof.
  revert es. induction l as [|[name cfg] l IH]; intros es; simpl.
  - intros [= <-]. set_solver.
  - destruct (select_test sel dv lower name cfg) as [o|] eqn:Ho; simpl; [|done].
    destruct (write_tests sel dv lower l) as [es'|]; simpl; [|done]. intros [= <-].
    rewrite elem_of_app. intros [He|He].
    + destruct o as [e'|]; simpl in He; [|set_solver].
      apply list_elem_of_singleton in He as ->.
      pose proof (select_test_name _ _ _ _ _ _ Ho) as Hn. exists cfg.
      split; [rewrite Hn; left|by rewrite Hn].
    + destruct (IH es' eq_refl He) as (c & Hc & Hs). exists c. split; [by right|done].
Qed.

(** The written names are those of a sublist of the configurations. *)
Lemma write_tests_sublist sel dv lower l es :
  write_tests sel dv lower l = Ok es -> sublist (map te_name es) (map fst l).
Proof.
  revert es. induction l as [|[name cfg] l IH]; intros es; simpl.
  - intros [= <-]. constructor.
  - destruct (select_test sel dv lower name cfg) as [o|] eqn:Ho; simpl; [|done].
    destruct (write_tests sel dv lower l) as [es'|] eqn:Hes; simpl; [|done]. intros [= <-].
    destruct o as [e'|]; simpl.
    + apply select_test_name in Ho as ->. constructor. by apply IH.
    + constructor. by apply IH.
Qed.

Lemma Sorted_sublist {A} (R : relation A) `{!Transitive R} (l k : list A) :
  sublist l k -> Sorted R k -> Sorted R l.
Proof.
  intros Hlk Hk. apply Sorted_StronglySorted in Hk; [|done]. apply StronglySorted_Sorted.
  revert Hk. induction Hlk as [|x l k Hlk IH|x l k Hlk IH]; intros Hk; [done|..];
    apply StronglySorted_cons in Hk as [Hx Hk].
  - apply StronglySorted_cons. split; [|by apply IH].
    apply Forall_forall. intros y Hy. rewrite Forall_forall in Hx. apply Hx.
    by eapply elem_of_submseteq, sublist_submseteq.
  - by apply IH.
Qed.

Lemma configs_names tests_dir (dir : list (string * dir_entry)) configs :
  map_res dir (fun '(name, e) => read_config tests_dir name e) = Ok configs ->
  sublist (map fst (omap id configs)) (map fst dir) /\
  (forall name cfg, (name, cfg) ∈ omap id configs ->
    (name, TestFile (Some cfg)) ∈ dir /\ exists v l, vms cfg !! "vms_all" = Some (v :: l)).
Proof.
  revert configs. induction dir as [|[name e] dir IH]; intros configs; simpl.
  - intros [= <-]. split; [constructor|]. set_solver.
  - destruct (read_config tests_dir name e) as [o|] eqn:Hr; simpl; [|done].
    destruct (map_res dir _) as [cs|]; simpl; [|done]. intros [= <-].
    destruct (IH cs eq_refl) as [Hsub Hin]. destruct e as [|[cfg|]]; simpl in Hr; [| |done].
    + simplify_eq. simpl. split; [by constructor|]. naive_solver eauto using list_elem_of_further.
    + destruct (vms cfg !! "vms_all") as [[|v l]|] eqn:Hv; [done| |done]. simplify_eq. simpl.
      split; [by constructor|]. intros n c [Hc|Hc]%elem_of_cons; simplify_eq.
      * split; [left|by exists v, l].
      * destruct (Hin n c Hc). split; [by right|done].
Qed.

(** ** Properties *)

(** [is_lower] returns [True] exactly when the first version comes before
    the second in the lexicographic order in which a proper prefix is lower
    and a star is above everything, and this is a strict order. *)
Theorem is_lower_is_the_version_order :
  (forall a b, is_lower a b = Ok true <-> version_before a b) /\
  StrictOrder (fun a b => is_lower a b = Ok true).
Proof.
  split; [apply is_lower_spec|]. split.
  - intros a Ha. apply is_lower_spec in Ha. by apply version_before_irrefl in Ha.
  - intros a b c. rewrite !is_lower_spec. apply version_before_trans.
Qed.

(** comparing versions made of numbers and stars never raises; two
    different ones without stars are ordered one way or the other, never both,
    and [version_lower] returns the one that is not above the other. *)
Theorem version_lower_is_minimum (v o : list velem) :
  numeric_version v = true -> numeric_version o = true -> star ∉ v -> star ∉ o ->
  exists l, version_lower (Some v) (Some o) = Ok (Some l) /\
    (l = v \/ l = o) /\ is_lower v l = Ok false /\ is_lower o l = Ok false /\
    (v <> o -> is_lower v o = Ok true <-> is_lower o v = Ok false).
Proof.
  intros Hv Ho Hsv Hso.
  destruct (is_lower_numeric v o Hv Ho) as [r Hr], (is_lower_numeric o v Ho Hv) as [r' Hr'].
  assert (~ (r = true /\ r' = true)) as Hasym.
  { intros [-> ->]. apply is_lower_spec in Hr, Hr'.
    by eapply version_before_irrefl, version_before_trans. }
  assert (v <> o -> r = false -> r' = true) as Htot.
  { intros Hne ->. destruct (version_before_total v o) as [Hb|Hb]; [done..| |];
      apply is_lower_spec in Hb; congruence. }
  simpl. rewrite Hr. mred. eexists. split; [done|].
  destruct r; split_and!; auto using is_lower_refl.
  - destruct r'; [|done]. by destruct Hasym.
  - intros Hne. rewrite Hr'. destruct r'; [|done]. by destruct Hasym.
  - intros Hne. rewrite Hr', Htot by done. naive_solver.
Qed.

(** development builds. A version ["X.Y.0.latest"] or ["X.Y.0.<sha>"] with
    a commit hash (of which one character at least is a letter) is above every
    release ["X.Y.Z"] of its series and below every ["X.(Y+k+1)..."]. *)
Theorem development_build_order (x y z k : nat) (tag : string) (rest : list nat) :
  tag = "latest" \/ (is_commit_sha (VStr tag) = true /\ isdecimal tag = false) ->
  exists dev release next,
    parse_version (join "." [str_nat x; str_nat y; str_nat 0; tag]) = Ok dev /\
    parse_version (join "." [str_nat x; str_nat y; str_nat z]) = Ok release /\
    parse_version (join "." (map str_nat (x :: (y + k + 1) :: rest))) = Ok next /\
    is_lower release dev = Ok true /\ is_lower dev release = Ok false /\
    is_lower dev next = Ok true.
Proof.
  intros Htag.
  assert (scontains "."%char tag = false /\ isdecimal tag = false) as [Hdot Hdec].
  { destruct Htag as [->|[Hsha Hd]]; [done|]. split; [by apply sha_no_dot|done]. }
  assert (Hdots : forall l, Forall (fun s => scontains "."%char s = false) (map str_nat l)).
  { intros l. apply Forall_map, Forall_forall. intros n _. apply str_nat_no_dot. }
  exists [VInt (Z.of_nat x); VInt (Z.of_nat y); VInf],
    [VInt (Z.of_nat x); VInt (Z.of_nat y); VInt (Z.of_nat z)],
    (map (fun n => VInt (Z.of_nat n)) (x :: (y + k + 1) :: rest)).
  split_and!.
  - unfold parse_version. rewrite parse_dotted; [|done|].
    + cbn [map_res]. rewrite !parse_element_nat, parse_element_other by done. mred.
      destruct Htag as [->|[Hsha _]]; [done|]. by rewrite Hsha, orb_true_r.
    + repeat constructor; auto using str_nat_no_dot.
  - change [str_nat x; str_nat y; str_nat z] with (map str_nat [x; y; z]).
    unfold parse_version. by rewrite parse_dotted, map_res_nats.
  - unfold parse_version. rewrite parse_dotted, map_res_nats by done. mred.
    by destruct rest as [|r1 [|r2 rest]]; simpl; rewrite ?andb_false_r.
  - apply is_lower_spec. do 2 (apply vb_eq; [done|]). by repeat constructor.
  - unfold is_lower. cbn [is_lower_loop elem_lt elem_gt].
    rewrite !decide_False by done. mred. rewrite !bool_decide_false by lia. done.
  - apply is_lower_spec. apply vb_eq; [done|].
    apply vb_elem; [done..|]. constructor. lia.
Qed.

(** the generated test list. The entries are sorted by name, one per test
    file at most; each comes from a test file that configures ["vms_all"], has
    at least one VM count, all from the selection; below DRBD 9 none is above
    two; the lowest DRBD version is not below the test's minimum; and all the
    default variants are there, sorted. *)
Theorem main_selects_valid_tests tests_dir selection v o default_variants dir es :
  NoDup (map fst dir) ->
  main tests_dir selection v o default_variants dir = Ok es ->
  NoDup (map te_name es) /\ Sorted String.le (map te_name es) /\
  exists lower, forall e, e ∈ es -> exists cfg,
    (te_name e, TestFile (Some cfg)) ∈ dir /\ te_vms e <> [] /\
    (forall x, x ∈ te_vms e -> exists l, vms cfg !! ("vms_" +:+ selection) = Some l /\ x ∈ l) /\
    (forall l, lower = Some l -> py_list_lt l [VInt 9] = Ok true ->
      forall x, x ∈ te_vms e -> (x <= 2)%Z) /\
    (forall l m, lower = Some l -> drbd_version_min cfg = Some m ->
      exists mv, parse_version m = Ok mv /\ is_lower l mv = Ok false) /\
    (forall d, d ∈ default_variants -> d ∈ te_variants e) /\
    Sorted String.le (te_variants e).
Proof.
  intros Hnd. unfold main.
  destruct (match v with None => _ | Some s => _ end) as [pv|]; mred; [|done].
  destruct (match o with None => _ | Some s => _ end) as [po|]; mred; [|done].
  destruct (version_lower pv po) as [lower|]; mred; [|done].
  destruct (map_res dir _) as [configs|] eqn:Hc; mred; [|done]. intros Hw.
  destruct (configs_names _ _ _ Hc) as [Hsub Hin].
  set (sorted := merge_sort name_le _) in Hw.
  assert (Sorted name_le sorted) as Hs.
  { apply Sorted_merge_sort. intros a b. apply (total String.le). }
  assert (Permutation sorted (omap id configs)) as Hp by apply merge_sort_Permutation.
  assert (Transitive String.le) by apply _.
  pose proof (write_tests_sublist _ _ _ _ _ Hw) as Hsubw. split_and!.
  - eapply sublist_NoDup; [|exact Hsubw]. rewrite Hp. by eapply sublist_NoDup.
  - apply (Sorted_sublist String.le _ _ Hsubw). clear -Hs.
    induction Hs as [|a l Hl IH Hh]; simpl; constructor; [done|].
    by destruct Hh; constructor.
  - exists lower. intros e He.
    destruct (write_tests_elem _ _ _ _ _ _ Hw He) as (cfg & Hcfg & Hsel).
    exists cfg. rewrite Hp in Hcfg. destruct (Hin _ _ Hcfg) as [Hdir _].
    apply select_test_Some in Hsel as (_ & ? & ? & ? & ? & ? & ?). by split_and!.
Qed.

(** the two uses of a minimum version disagree at the minimum itself: a
    test whose ["drbd_version_min"] is the tested version is written, a variant
    whose ["drbd_version_min"] is the tested version is not added. *)
Theorem variant_minimum_is_exclusive (m variant : string) (mv : list velem) :
  parse_version m = Ok mv -> numeric_version mv = true ->
  parse_variants_add [VariantFrom variant m] (Some mv) = Ok ∅ /\
  (forall selection dv name cfg vs, vms cfg !! ("vms_" +:+ selection) = Some vs -> vs <> [] ->
    drbd_version_min cfg = Some m -> variants_add cfg = [] ->
    py_list_lt mv [VInt 9] = Ok false ->
    exists e, select_test selection dv (Some mv) name cfg = Ok (Some e) /\ te_vms e = vs).
Proof.
  intros Hm Hn. pose proof (is_lower_refl mv Hn) as Hl. split.
  - simpl. rewrite Hm. simpl. by rewrite Hl.
  - intros sel dv name cfg vs Hvs Hne Hmin Hadd H9. unfold select_test.
    rewrite Hvs, H9, Hmin, Hm, Hadd. mred. rewrite Hl. mred. simpl.
    destruct vs as [|x vs]; [done|]. by eexists.
Qed.

(** ** Witnesses *)

Lemma version_lower_is_minimum_witness :
  exists l, version_lower (Some [VInt 9; VInt 2]) (Some [VInt 9; VInt 1; VInt 4]) = Ok (Some l).
Proof.
  destruct (version_lower_is_minimum [VInt 9; VInt 2] [VInt 9; VInt 1; VInt 4]
    eq_refl eq_refl ltac:(set_solver) ltac:(set_solver)) as (l & Hl & _).
  by exists l.
Defined.

Lemma development_build_order_witness :
  exists dev release, parse_version "9.3.0.latest" = Ok dev /\
    parse_version "9.3.7" = Ok release /\ is_lower release dev = Ok true.
Proof.
  destruct (development_build_order 9 3 7 0 "latest" [] (or_introl eq_refl))
    as (d & r & n & Hd & Hr & _ & Hl & _ & _).
  exists d, r. split_and!; [exact Hd|exact Hr|exact Hl].
Defined.

Definition example_config : vmshed_config :=
  VmshedConfig (<["vms_all" := [2; 3]%Z]> (<["vms_ci" := [2]%Z]> ∅)) (Some "9.0") []
    [VariantFrom "tls" "9.2"] false [].

Lemma main_selects_valid_tests_witness :
  exists es, main "tests" "ci" (Some "9.2.1") None ["tcp"]
    [("connect", TestFile (Some example_config)); ("README", NotAFile)] = Ok es /\
    NoDup (map te_name es).
Proof.
  eexists. split; [vm_compute; reflexivity|].
  refine (proj1 (main_selects_valid_tests "tests" "ci" (Some "9.2.1") None ["tcp"]
    [("connect", TestFile (Some example_config)); ("README", NotAFile)] _ _ _)).
  - apply (bool_decide_unpack _). vm_compute. exact I.
  - vm_compute. reflexivity.
Defined.

Lemma variant_minimum_is_exclusive_witness :
  parse_variants_add [VariantFrom "tls" "9.2"] (Some [VInt 9; VInt 2]) = Ok ∅.
Proof.
  exact (proj1 (variant_minimum_is_exclusive "9.2" "tls" [VInt 9; VInt 2]
    ltac:(vm_compute; reflexivity) eq_refl)).
Defined.
