(* ===== verification/MisalignedBio.v ===== *)
(** * Misaligned I/O (src/target/misaligned_bio.py)

    The target helper that writes a pattern of numbered sectors with bios of
    unusual alignment and reads it back.  Addresses are offsets into the
    buffer; [M io] carries the buffer, the open device, the file position and
    the global [current_byte].  The block device is the kernel's: it is an
    argument, described by [BlockDevice] and its laws. *)

From S2P Require Import Prelude.
#[local] Open Scope Z_scope.

(** A block device: [dev_write d p n f] writes the [n] bytes [f 0 ... f (n-1)]
    at [p], [dev_read d p n] reads [n] bytes at [p]; both return the system
    call's result, [-1] for an error. *)
Class BlockDevice (D : Type) := {
  dev_size : D -> Z;
  dev_byte : D -> Z -> Z;
  dev_write : D -> Z -> Z -> (Z -> Z) -> Z * D;
  dev_read : D -> Z -> Z -> Z * (Z -> Z)
}.

(** What the kernel documents: transfers inside the device are complete and
    reading returns what was written; a read across the end is short or fails. *)
Class BlockDeviceLaws (D : Type) `{!BlockDevice D} := {
  dev_write_fits (d : D) p n f : 0 <= p -> 0 <= n -> p + n <= dev_size d ->
    fst (dev_write d p n f) = n /\
    dev_size (snd (dev_write d p n f)) = dev_size d /\
    forall i, dev_byte (snd (dev_write d p n f)) i =
      if decide (p <= i < p + n) then f (i - p) else dev_byte d i;
  dev_read_fits (d : D) p n : 0 <= p -> 0 <= n -> p + n <= dev_size d ->
    fst (dev_read d p n) = n /\
    forall i, 0 <= i < n -> snd (dev_read d p n) i = dev_byte d (p + i);
  dev_read_end (d : D) p n : 0 <= p -> 0 < n -> dev_size d < p + n ->
    fst (dev_read d p n) <> n
}.

Section misaligned_bio.
Context {D : Type} `{!BlockDevice D}.
(** [libc.getpagesize()] *)
Context (page_size : Z).

Definition sect_size : Z := 512.
Definition buffer_size : Z := page_size * 8.

Record io := Io {
  mem : Z -> Z;            (* the bytes of the buffer *)
  dev : D;
  pos : Z;                 (* the file position *)
  current_byte : Z
}.

Definition set_mem (f : Z -> Z) (s : io) : io := Io f (dev s) (pos s) (current_byte s).
Definition set_byte (b : Z) (s : io) : io := Io (mem s) (dev s) (pos s) b.

(** An access outside the buffer is a memory error of the C library. *)
Definition in_buffer (a n : Z) : M io unit :=
  if (0 <=? a) && (a + n <=? buffer_size) then mret tt
  else raise (PlainException "segmentation fault").

(** [libc.memset] stores the low eight bits of [byte]. *)
Definition memset (a byte size : Z) : M io unit :=
  in_buffer a size ;;;
  modify (fun s => set_mem (fun x => if decide (a <= x < a + size) then byte mod 256
                                     else mem s x) s).

(** [libc.memcmp]: the difference of the first bytes that differ, or 0. *)
Definition memcmp_diff (f : Z -> Z) (a b size : Z) : Z :=
  foldr (fun i r => let d := f (a + Z.of_nat i) - f (b + Z.of_nat i) in
                    if d =? 0 then r else d) 0 (seq 0 (Z.to_nat size)).
Definition memcmp (a b size : Z) : M io Z :=
  in_buffer a size ;;; in_buffer b size ;;;
  gets (fun s => memcmp_diff (mem s) a b size).

Definition check_transfer (n size : Z) : M io Z :=
  if n =? -1 then raise (OSError "libc call failed")
  else if negb (n =? size) then raise (OSError "Short transfer?")
  else mret n.

Definition write (a size : Z) : M io Z :=
  in_buffer a size ;;;
  let* s := get in
  let '(n, d) := dev_write (dev s) (pos s) size (fun i => mem s (a + i)) in
  put (Io (mem s) d (pos s + Z.max 0 n) (current_byte s)) ;;;
  check_transfer n size.

Definition read (a size : Z) : M io Z :=
  in_buffer a size ;;;
  let* s := get in
  let '(n, f) := dev_read (dev s) (pos s) size in
  put (Io (fun x => if decide (a <= x < a + Z.max 0 n) then f (x - a) else mem s x)
          (dev s) (pos s + Z.max 0 n) (current_byte s)) ;;;
  check_transfer n size.

Definition prepare_buffer (start size : Z) : M io unit :=
  for_each (seq 0 (Z.to_nat (size / sect_size))) (fun j =>
    let* s := get in
    memset (start + Z.of_nat j * sect_size) (current_byte s) sect_size ;;;
    modify (fun s => set_byte (current_byte s + 1) s)).

(** [libc.writev] of the four one-sector pieces at the page starts *)
Definition writev_4 : M io Z :=
  for_each (seq 0 4) (fun j => in_buffer (Z.of_nat j * page_size) sect_size) ;;;
  let* s := get in
  let '(n, d) := dev_write (dev s) (pos s) (4 * sect_size)
      (fun i => mem s (i / sect_size * page_size + i mod sect_size)) in
  put (Io (mem s) d (pos s + Z.max 0 n) (current_byte s)) ;;;
  check_transfer n (4 * sect_size).

Definition prepare_and_write (a size : Z) : M io unit :=
  prepare_buffer a size ;;; write a size ;;; mret tt.

Definition write_pattern : M io unit :=
  for_each (seq 1 (Z.to_nat (page_size / sect_size) - 1)) (fun i =>
    prepare_and_write (Z.of_nat i * sect_size) page_size) ;;;
  prepare_and_write (page_size / 2) (page_size + page_size / 2) ;;;
  prepare_and_write sect_size (page_size * 2 + sect_size) ;;;
  for_each (seq 0 4) (fun j => prepare_buffer (Z.of_nat j * page_size) sect_size) ;;;
  writev_4 ;;;
  memset 0 255 sect_size ;;;
  write 0 sect_size ;;; mret tt.

(** One iteration of the [while True] loop: [true] is the [break]. *)
Definition verify_step (expected_end_sector sector : Z) : M io bool :=
  read 0 sect_size ;;;
  let* s := get in
  memset page_size (current_byte s) sect_size ;;;
  let* r := memcmp 0 page_size sect_size in
  if r =? 0 then
    modify (fun s => set_byte (current_byte s + 1) s) ;;; mret false
  else if (expected_end_sector =? 0) || (sector =? expected_end_sector) then
    memset page_size 255 sect_size ;;;
    let* r := memcmp 0 page_size sect_size in
    if r =? 0 then mret true else raise (PlainException "Does not verify")
  else raise (PlainException "Does not verify").

(** The loop, with fuel; [None] when the fuel runs out. *)
Fixpoint verify_loop (fuel : nat) (expected_end_sector sector : Z) : M io (option unit) :=
  match fuel with
  | O => mret None
  | S fuel =>
      let* stop := verify_step expected_end_sector sector in
      if (stop : bool) then mret (Some tt)
      else verify_loop fuel expected_end_sector (sector + 1)
  end.

(** Enough iterations to read to the end of the device. *)
Definition verify_fuel (d : D) : nat := S (Z.to_nat (dev_size d / sect_size)).

Definition verify_pattern : M io (option unit) :=
  let* s := get in
  put (Io (mem s) (dev s) 0 0) ;;;
  verify_loop (verify_fuel (dev s)) (current_byte s) 0.

Definition main (mode_verify : bool) : M io (option unit) :=
  if mode_verify then verify_pattern
  else write_pattern ;;; verify_pattern.

(** A new process: a fresh buffer, the device just opened, the global at 0. *)
Definition start (buf : Z -> Z) (d : D) : io := Io buf d 0 0.

(** What [verify] accepts: [n] sectors numbered from 0, then the end marker. *)
Definition numbered_sectors (d : D) (n : Z) : Prop :=
  forall i, 0 <= i < n * sect_size -> dev_byte d i = (i / sect_size) mod 256.
Definition end_marker (d : D) (n : Z) : Prop :=
  forall i, n * sect_size <= i < (n + 1) * sect_size -> dev_byte d i = 255.
Definition holds_pattern (d : D) (n : Z) : Prop :=
  0 <= n /\ n mod 256 <> 255 /\ (n + 1) * sect_size <= dev_size d /\
  numbered_sectors d n /\ end_marker d n.

(** The number of sectors [write_pattern] writes before the marker, for pages
    of [s] sectors. *)
Definition pattern_sectors (s : Z) : Z := (s - 1) * s + (s + s / 2) + (2 * s + 1) + 4.
End misaligned_bio.
Arguments io D : clear implicits.

(** ** Lemmas *)

Section theory.
Context {D : Type} `{!BlockDevice D, !BlockDeviceLaws D}.
Context (s : Z) (s_pos : 0 < s).
Local Abbreviation page := (512 * s).
Implicit Types (st : io D) (d : D).

Definition no_error : exn -> io D -> Prop := fun _ _ => False.

Lemma wp_in_buffer a n Q E st : 0 <= a -> a + n <= 8 * page ->
  Q tt st -> wp (in_buffer page a n) Q E st.
Proof.
  intros Ha Hn HQ. unfold in_buffer, buffer_size.
  rewrite (proj2 (Z.leb_le 0 a)), (proj2 (Z.leb_le _ _)) by lia. done.
Qed.

Lemma wp_memset a b n Q E st : 0 <= a -> a + n <= 8 * page ->
  Q tt (set_mem (fun x => if decide (a <= x < a + n) then b mod 256 else mem st x) st) ->
  wp (memset page a b n) Q E st.
Proof. intros Ha Hn HQ. apply wp_bind, wp_in_buffer; [done..|]. by apply wp_modify. Qed.

(** [prepare_buffer] numbers the sectors of its range and touches nothing else. *)
Lemma wp_prepare_buffer a (k : Z) st : 0 <= a -> 0 <= k -> a + 512 * k <= 8 * page ->
  wp (prepare_buffer page a (512 * k)) (fun _ st' =>
    current_byte st' = current_byte st + k /\ dev st' = dev st /\ pos st' = pos st /\
    forall x, mem st' x = if decide (a <= x < a + 512 * k)
                          then (current_byte st + (x - a) / 512) mod 256 else mem st x)
    no_error st.
Proof.
  intros Ha Hk Hb. unfold prepare_buffer, sect_size.
  rewrite Z.mul_comm, Z.div_mul by lia. rewrite (Z.mul_comm k).
  eapply wp_mono; [apply (wp_for_each _ _ (fun done st' =>
    let j := Z.of_nat (length done) in
    current_byte st' = current_byte st + j /\ dev st' = dev st /\ pos st' = pos st /\
    forall x, mem st' x = if decide (a <= x < a + 512 * j)
                          then (current_byte st + (x - a) / 512) mod 256 else mem st x))
    | |done].
  - simpl. split_and!; [lia|done|done|]. intros x. by rewrite decide_False by lia.
  - intros dn x todo st' [-> Hlt]%seq_visit (Hc & Hd & Hp & Hm). simpl.
    apply wp_bind, wp_get, wp_bind, wp_memset; [lia..|]. apply wp_modify. simpl.
    rewrite length_app, Nat2Z.inj_add. simpl. split_and!; [lia|done|done|].
    intros x. rewrite Hm, Hc. repeat case_decide; try lia. f_equal. f_equal.
    apply Z.div_unique with (x - a - 512 * Z.of_nat (length dn)); lia.
  - simpl. rewrite length_seq, Z2Nat.id by lia. done.
Qed.

(** The invariant of [write_pattern]: [n] numbered sectors are on the device. *)
Definition written (sz n : Z) (st : io D) : Prop :=
  current_byte st = n /\ pos st = 512 * n /\ dev_size (dev st) = sz /\ 0 <= n /\
  numbered_sectors (dev st) n.

Lemma wp_dev_write n f Q st :
  0 <= pos st -> 0 < n -> pos st + n <= dev_size (dev st) ->
  (forall d', dev_size d' = dev_size (dev st) ->
    (forall i, dev_byte d' i = if decide (pos st <= i < pos st + n) then f (i - pos st)
                               else dev_byte (dev st) i) ->
    Q n (Io (mem st) d' (pos st + n) (current_byte st))) ->
  wp (let '(r, d) := dev_write (dev st) (pos st) n f in
      put (Io (mem st) d (pos st + Z.max 0 r) (current_byte st)) ;;; check_transfer r n)
     Q no_error st.
Proof.
  intros Hp Hn Hf HQ. destruct (dev_write_fits (dev st) (pos st) n f) as (Hr & Hs & Hb); [lia..|].
  destruct (dev_write (dev st) (pos st) n f) as [r d']. simpl in *. subst r.
  apply wp_bind, wp_put. unfold check_transfer.
  rewrite (proj2 (Z.eqb_neq n (-1))), Z.eqb_refl by lia. simpl. apply wp_ret.
  rewrite Z.max_r by lia. by apply HQ.
Qed.

Lemma numbered_extend n k p f d d' : 0 <= n -> 0 < k -> p = 512 * n ->
  numbered_sectors d n ->
  (forall i, dev_byte d' i = if decide (p <= i < p + 512 * k) then f (i - p) else dev_byte d i) ->
  (forall i, 0 <= i < 512 * k -> f i = (n + i / 512) mod 256) ->
  numbered_sectors d' (n + k).
Proof.
  intros Hn Hk -> Hnum Hd Hf i Hi. unfold sect_size in *. rewrite Hd.
  case_decide as Hr.
  - rewrite Hf by lia. f_equal. apply Z.div_unique with (i mod 512).
    { left. apply Z.mod_pos_bound. lia. }
    replace (i - 512 * n) with (i + (- n) * 512) by lia.
    rewrite Z.div_add by lia. pose proof (Z.div_mod i 512). lia.
  - apply Hnum. unfold sect_size. lia.
Qed.

(** A prepared range of [k] sectors, written in one bio at any sector offset. *)
Lemma wp_prepare_and_write sz n a k size st :
  size = 512 * k -> 0 <= a -> 0 < k -> a + 512 * k <= 8 * page ->
  512 * (n + k) <= sz -> written sz n st ->
  wp (prepare_and_write page a size) (fun _ => written sz (n + k)) no_error st.
Proof.
  intros -> Ha Hk Hb Hsz (Hc & Hp & Hds & Hn & Hnum). unfold prepare_and_write.
  apply wp_bind. eapply wp_mono; [apply wp_prepare_buffer; lia| |done].
  intros _ st1 (Hc1 & Hd1 & Hp1 & Hm1). apply wp_bind, wp_bind, wp_in_buffer; [lia..|].
  apply wp_bind, wp_get. apply wp_dev_write; rewrite ?Hp1, ?Hd1; [lia..|].
  intros d' Hds' Hbytes. apply wp_ret. split_and!; simpl; [lia..|].
  apply (numbered_extend n k (pos st) (fun i => mem st1 (a + i)) (dev st1));
    [lia|lia|done| |rewrite Hd1; exact Hbytes|].
  - by rewrite Hd1.
  - intros i Hi. simpl. rewrite Hm1, decide_True, Hc by lia. f_equal. f_equal. f_equal. lia.
Qed.

Lemma memcmp_diff_0 f a b n : memcmp_diff f a b n = 0 <->
  forall i, 0 <= i < n -> f (a + i) = f (b + i).
Proof.
  unfold memcmp_diff. assert (forall l, foldr (fun i r =>
      let d := f (a + Z.of_nat i) - f (b + Z.of_nat i) in if d =? 0 then r else d) 0 l = 0
    <-> forall i, i ∈ l -> f (a + Z.of_nat i) = f (b + Z.of_nat i)) as ->.
  { induction l as [|x l IH]; simpl; [split; [set_solver|done]|].
    destruct (Z.eqb_spec (f (a + Z.of_nat x) - f (b + Z.of_nat x)) 0) as [E|E].
    - rewrite IH. split; [|set_solver]. intros Hl i [->|Hi]%elem_of_cons; [lia|auto].
    - split; [lia|]. intros Hl. specialize (Hl x (list_elem_of_here _ _)). lia. }
  split; intros Hl i Hi.
  - specialize (Hl (Z.to_nat i)). rewrite elem_of_seq, Z2Nat.id in Hl by lia. apply Hl. lia.
  - apply elem_of_seq in Hi. apply Hl. lia.
Qed.

Lemma wp_memcmp a b n Q E st : 0 <= a -> a + n <= 8 * page -> 0 <= b -> b + n <= 8 * page ->
  Q (memcmp_diff (mem st) a b n) st -> wp (memcmp page a b n) Q E st.
Proof.
  intros. unfold memcmp. apply wp_bind, wp_in_buffer; [lia..|].
  by apply wp_bind, wp_in_buffer; [lia..|].
Qed.

(** *** Writing *)

(** The four separate sectors of the bio with holes. *)
Lemma wp_prepare_holes n st : current_byte st = n ->
  wp (for_each (seq 0 4) (fun j => prepare_buffer page (Z.of_nat j * page) sect_size))
    (fun _ st' => current_byte st' = n + 4 /\ dev st' = dev st /\ pos st' = pos st /\
      forall i, 0 <= i < 512 * 4 ->
        mem st' (i / 512 * page + i mod 512) = (n + i / 512) mod 256)
    no_error st.
Proof.
  intros Hc. eapply wp_mono; [apply (wp_for_each _ _ (fun done st' =>
    let k := Z.of_nat (length done) in
    current_byte st' = n + k /\ dev st' = dev st /\ pos st' = pos st /\
    forall j r, 0 <= j < k -> 0 <= r < 512 -> mem st' (j * page + r) = (n + j) mod 256))
    | |done].
  - simpl. split_and!; [lia|done..|]. lia.
  - intros dn x todo st' [-> Hlt]%seq_visit (Hc' & Hd & Hp & Hm). simpl.
    set (k := Z.of_nat (length dn)) in *. unfold sect_size.
    eapply wp_mono; [apply (wp_prepare_buffer (k * page) 1); nia| |done].
    intros _ st2 (Hc2 & Hd2 & Hp2 & Hm2). rewrite length_app, Nat2Z.inj_add.
    simpl. fold k. split_and!; [lia|congruence|congruence|].
    intros j r Hj Hr. rewrite Hm2. case_decide as Hin.
    + assert (j = k) as -> by nia. rewrite Hc'. f_equal.
      rewrite (Z.div_small (k * page + r - k * page)) by lia. lia.
    + apply Hm; [|done]. nia.
  - intros _ st' (Hc' & Hd & Hp & Hm). simpl in *. split_and!; [lia|done|done|].
    intros i Hi. apply Hm; [|apply Z.mod_pos_bound; lia].
    split; [apply Z.div_pos; lia|apply Z.div_lt_upper_bound; lia].
Qed.

Lemma wp_writev sz n st st1 :
  512 * (n + 4) <= sz -> written sz n st -> current_byte st1 = n + 4 -> dev st1 = dev st ->
  pos st1 = pos st ->
  (forall i, 0 <= i < 512 * 4 -> mem st1 (i / 512 * page + i mod 512) = (n + i / 512) mod 256) ->
  wp (writev_4 page) (fun _ => written sz (n + 4)) no_error st1.
Proof.
  intros Hsz (Hc & Hp & Hds & Hn & Hnum) Hc1 Hd1 Hp1 Hm.
  unfold writev_4. apply wp_bind.
  eapply wp_mono; [apply (wp_for_each _ _ (fun _ st' => st' = st1)); [done|]| |done].
  { intros dn x todo st' [-> Hlt]%seq_visit ->. simpl.
    apply wp_in_buffer; unfold sect_size; [nia..|done]. }
  intros _ st' ->. apply wp_bind, wp_get. unfold sect_size.
  apply wp_dev_write; rewrite ?Hp1, ?Hd1; [lia..|]. intros d' Hds' Hbytes.
  split_and!; simpl; [lia..|].
  apply (numbered_extend n 4 (pos st) (fun i => mem st1 (i / 512 * page + i mod 512)) (dev st));
    [lia|lia|done|done|exact Hbytes|done].
Qed.

Lemma wp_write_marker sz n st : 512 * (n + 1) <= sz -> written sz n st ->
  wp (memset page 0 255 sect_size ;;; write page 0 sect_size ;;; mret tt)
    (fun _ st' => current_byte st' = n /\ dev_size (dev st') = sz /\
      numbered_sectors (dev st') n /\ end_marker (dev st') n) no_error st.
Proof.
  intros Hsz (Hc & Hp & Hds & Hn & Hnum). unfold sect_size.
  apply wp_bind, wp_memset; [lia..|]. apply wp_bind, wp_bind, wp_in_buffer; [lia..|].
  apply wp_bind, wp_get. apply wp_dev_write; simpl; rewrite ?Hp; [lia..|].
  intros d' Hds' Hbytes. apply wp_ret. simpl. split_and!; [done|lia| |].
  - intros i Hi. unfold sect_size in *. rewrite Hbytes, decide_False by lia. apply Hnum.
    unfold sect_size. lia.
  - intros i Hi. unfold sect_size in *. rewrite Hbytes, decide_True by lia.
    by rewrite decide_True by lia.
Qed.

Lemma wp_write_pattern (h : Z) st : s = 2 * h -> 1 <= h ->
  pos st = 0 -> current_byte st = 0 ->
  (pattern_sectors s + 1) * sect_size <= dev_size (dev st) ->
  wp (write_pattern page) (fun _ st' =>
    current_byte st' = pattern_sectors s /\ dev_size (dev st') = dev_size (dev st) /\
    numbered_sectors (dev st') (pattern_sectors s) /\
    end_marker (dev st') (pattern_sectors s)) no_error st.
Proof.
  intros Hs Hh Hp Hc Hsz. set (sz := dev_size (dev st)) in *.
  unfold pattern_sectors, sect_size in *.
  assert (s / 2 = h) as Hhalf by (rewrite Hs, Z.mul_comm, Z.div_mul; lia).
  assert (page / 2 = 512 * h) as Hpage2.
  { rewrite Hs. replace (512 * (2 * h)) with (512 * h * 2) by lia. apply Z.div_mul. lia. }
  rewrite Hhalf in *. unfold write_pattern. rewrite Hpage2.
  apply wp_bind. unfold sect_size at 1. rewrite (Z.mul_comm 512 s), Z.div_mul by lia.
  rewrite (Z.mul_comm s 512).
  eapply wp_mono; [apply (wp_for_each _ _ (fun done st' =>
    written sz (Z.of_nat (length done) * s) st'))| |done].
  { simpl. split_and!; [lia|lia|done|done|]. intros i Hi. unfold sect_size in Hi. lia. }
  { intros dn x todo st' [-> Hlt]%seq_visit Hw. eapply wp_mono;
      [eapply (wp_prepare_and_write sz (Z.of_nat (length dn) * s) _ s);
        [done|..|exact Hw]; unfold sect_size; nia| |done].
    simpl. intros [] s2. rewrite length_app. simpl.
    by replace (Z.of_nat (length dn + 1) * s) with (Z.of_nat (length dn) * s + s) by lia. }
  intros [] st1 Hw1. rewrite length_seq in Hw1.
  replace (Z.of_nat (Z.to_nat s - 1) * s) with ((s - 1) * s) in Hw1 by nia.
  apply wp_bind. eapply wp_mono;
    [eapply (wp_prepare_and_write sz _ _ (s + h)); [| | | | |exact Hw1]; nia| |done].
  intros [] st2 Hw2.
  apply wp_bind. unfold sect_size at 1 2. eapply wp_mono;
    [eapply (wp_prepare_and_write sz _ _ (2 * s + 1)); [| | | | |exact Hw2]; nia| |done].
  intros [] st3 Hw3. apply wp_bind. eapply wp_mono;
    [apply wp_prepare_holes; apply Hw3| |done].
  intros [] st4 (Hc4 & Hd4 & Hp4 & Hm4). apply wp_bind. eapply wp_mono;
    [eapply (wp_writev sz _ st3); [|exact Hw3|done..]; nia| |done].
  intros r5 st5 Hw5. eapply wp_mono; [eapply (wp_write_marker sz); [|exact Hw5]; nia| |done].
  simpl. intros r6 st6. done.
Qed.

(** *** Reading back *)

Definition sector_is d (j b : Z) : Prop :=
  forall i, 512 * j <= i < 512 * (j + 1) -> dev_byte d i = b.

Lemma wp_read_first Q E st : 0 <= pos st ->
  (pos st + 512 <= dev_size (dev st) -> forall f,
    (forall i, 0 <= i < 512 -> f i = dev_byte (dev st) (pos st + i)) ->
    Q 512 (Io f (dev st) (pos st + 512) (current_byte st))) ->
  (dev_size (dev st) < pos st + 512 -> forall e st', E e st') ->
  wp (read page 0 sect_size) Q E st.
Proof.
  intros Hp HQ HE. unfold read, sect_size. apply wp_bind, wp_in_buffer; [lia..|].
  apply wp_bind, wp_get. destruct (decide (pos st + 512 <= dev_size (dev st))) as [Hf|Hf].
  - destruct (dev_read_fits (dev st) (pos st) 512) as [Hr Hb]; [lia..|].
    destruct (dev_read (dev st) (pos st) 512) as [r f]. simpl in *. subst r.
    apply wp_bind, wp_put, wp_ret. apply (HQ Hf). intros i Hi.
    rewrite decide_True by lia. rewrite Z.sub_0_r. by apply Hb.
  - pose proof (dev_read_end (dev st) (pos st) 512) as Hr.
    destruct (dev_read (dev st) (pos st) 512) as [r f]. simpl in Hr.
    apply wp_bind, wp_put. unfold check_transfer.
    assert (negb (r =? 512) = true) as -> by (apply negb_true_iff, Z.eqb_neq, Hr; lia).
    case_match; apply HE; lia.
Qed.

(** One iteration: continue on the expected sector, stop on a marker. *)
Lemma wp_verify_step e j st :
  current_byte st = j -> pos st = 512 * j -> 0 <= j ->
  wp (verify_step page e j)
    (fun stop st' => dev st' = dev st /\ 512 * (j + 1) <= dev_size (dev st) /\
      if (stop : bool) then ~ sector_is (dev st) j (j mod 256) /\ sector_is (dev st) j 255 /\
           (e = 0 \/ j = e)
      else sector_is (dev st) j (j mod 256) /\ pos st' = 512 * (j + 1) /\
           current_byte st' = j + 1)
    (fun _ _ => 512 * (j + 1) <= dev_size (dev st) ->
      ~ sector_is (dev st) j (j mod 256) /\
      ~ (sector_is (dev st) j 255 /\ (e = 0 \/ j = e))) st.
Proof.
  intros Hc Hp Hj. unfold verify_step. apply wp_bind, wp_read_first; [lia| |intros; lia].
  intros Hf f Hread. rewrite Hp in *. apply wp_bind, wp_get. cbn [current_byte].
  rewrite Hc. apply wp_bind, wp_memset; unfold sect_size; [lia..|]. cbn [mem].
  apply wp_bind, wp_memcmp; [lia..|]. cbn [mem set_mem].
  assert (Hcmp : forall b (g : Z -> Z), (forall x, 0 <= x < 512 -> g x = f x) ->
    (forall x, page <= x < page + 512 -> g x = b) ->
    memcmp_diff g 0 page 512 = 0 <-> sector_is (dev st) j b).
  { intros b g Hg1 Hg2. rewrite memcmp_diff_0. split; intros Hs i Hi.
    - specialize (Hs (i - 512 * j)). rewrite Hg1, Hread, Hg2 in Hs by lia.
      rewrite <-Hs by lia. f_equal. lia.
    - rewrite Hg1, Hread, Hg2 by lia. apply Hs. lia. }
  match goal with |- context [memcmp_diff ?g 0 _ _] => pose proof (Hcmp (j mod 256) g) as H1;
    destruct (Z.eqb_spec (memcmp_diff g 0 page 512) 0) as [E|E] end.
  - apply wp_bind, wp_modify, wp_ret. cbn. split_and!; [done|lia| |lia|lia].
    apply H1; [| |done]; intros x Hx; by rewrite ?decide_False, ?decide_True by lia.
  - assert (~ sector_is (dev st) j (j mod 256)) as Hno.
    { rewrite <-H1; [done|..]; intros x Hx; by rewrite ?decide_False, ?decide_True by lia. }
    destruct ((e =? 0) || (j =? e)) eqn:He.
    + apply wp_bind, wp_memset; [lia..|]. apply wp_bind, wp_memcmp; [lia..|]. cbn [mem set_mem].
      match goal with |- context [memcmp_diff ?g 0 _ _] => pose proof (Hcmp 255 g) as H2;
        destruct (Z.eqb_spec (memcmp_diff g 0 page 512) 0) as [E2|E2] end.
      * apply wp_ret. cbn. split_and!; [done|lia|done| |].
        { apply H2; [| |done]; intros x Hx; by rewrite ?decide_False, ?decide_True by lia. }
        apply orb_true_iff in He as [He%Z.eqb_eq|He%Z.eqb_eq]; auto.
      * intros _. split; [done|]. rewrite <-H2; [tauto|..];
          intros x Hx; by rewrite ?decide_False, ?decide_True by lia.
    + intros _. split; [done|]. apply orb_false_iff in He as [He1%Z.eqb_neq He2%Z.eqb_neq].
      intros [_ [|]]; congruence.
Qed.

(** What the loop accepts from sector [j] on. *)
Definition accepts d (e j n : Z) : Prop :=
  j <= n /\ 512 * (n + 1) <= dev_size d /\
  (forall k, j <= k < n -> sector_is d k (k mod 256)) /\
  ~ sector_is d n (n mod 256) /\ sector_is d n 255 /\ (e = 0 \/ n = e).

(** The loop returns for every device, and ends normally on what it accepts. *)
Lemma wp_verify_loop fuel e j st :
  current_byte st = j -> pos st = 512 * j -> 0 <= j ->
  dev_size (dev st) / 512 - j < Z.of_nat fuel ->
  512 * j <= dev_size (dev st) ->
  wp (verify_loop page fuel e j)
    (fun r st' => r = Some tt /\ dev st' = dev st /\ exists n, accepts (dev st) e j n)
    (fun _ _ => ~ exists n, accepts (dev st) e j n) st.
Proof.
  revert j st. induction fuel as [|fuel IH]; intros j st Hc Hp Hj Hf Hsz.
  { assert (j <= dev_size (dev st) / 512) by (apply Z.div_le_lower_bound; lia). lia. }
  cbn [verify_loop]. apply wp_bind.
  eapply wp_mono; [by apply (wp_verify_step e j)|..]; simpl.
  - intros [] st' (Hd & Hle & Hst).
    + apply wp_ret. destruct Hst as (Hno & Hyes & He). split_and!; [done..|].
      exists j. split_and!; [lia|done| |done..]. lia.
    + destruct Hst as (Hs & Hp' & Hc').
      eapply wp_mono; [apply (IH (j + 1)); [done..|lia| |]|..]; rewrite ?Hd; [lia|lia|..].
      * intros r st2 (-> & -> & n & Hn). split_and!; [done..|]. exists n.
        destruct Hn as (? & ? & Hk & ? & ? & ?). split_and!; try done; [lia|].
        intros k Hkn. destruct (decide (k = j)) as [->|]; [done|]. apply Hk. lia.
      * intros _ _ Hno [n Hn]. apply Hno. exists n.
        destruct Hn as (? & ? & Hk & Hns & ? & ?). split_and!; try done.
        { destruct (decide (n = j)) as [->|]; [by destruct Hns|lia]. }
        intros k Hkn. apply Hk. lia.
  - intros _ _ Hno [n (Hjn & Hn & Hk & Hns & Hs & He)]. destruct Hno as [Hno1 Hno2]; [lia|].
    destruct (decide (n = j)) as [->|]; [by apply Hno2|]. apply Hno1, Hk. lia.
Qed.

Lemma wp_verify_pattern st : 0 <= dev_size (dev st) ->
  wp (verify_pattern page)
    (fun r st' => r = Some tt /\ dev st' = dev st /\
      exists n, accepts (dev st) (current_byte st) 0 n)
    (fun _ _ => ~ exists n, accepts (dev st) (current_byte st) 0 n) st.
Proof.
  intros Hsz. unfold verify_pattern. apply wp_bind, wp_get, wp_bind, wp_put.
  apply (wp_verify_loop _ _ 0 (Io (mem st) (dev st) 0 0)); simpl; try done.
  unfold verify_fuel, sect_size. assert (0 <= dev_size (dev st) / 512) by (apply Z.div_pos; lia).
  lia.
Qed.

Lemma accepts_pattern d n : accepts d 0 0 n <-> holds_pattern d n.
Proof.
  unfold accepts, holds_pattern, numbered_sectors, end_marker, sector_is, sect_size.
  split.
  - intros (H0 & Hsz & Hk & Hns & Hs & _). split_and!; [done| |lia| |].
    + intros Hm. apply Hns. by rewrite Hm.
    + intros i Hi. apply (Hk (i / 512)); pose proof (Z.div_mod i 512);
        pose proof (Z.mod_pos_bound i 512); [|lia].
      split; [apply Z.div_pos; lia|apply Z.div_lt_upper_bound; lia].
    + intros i Hi. apply Hs. lia.
  - intros (H0 & Hm & Hsz & Hnum & Hend). split_and!; [done|lia| | | |by left].
    + intros k Hk i Hi. rewrite Hnum by lia. f_equal.
      symmetry. apply Z.div_unique with (i - 512 * k); lia.
    + intros Hs. apply Hm. rewrite <-(Hs (512 * n)), Hend by lia. done.
    + intros i Hi. apply Hend. lia.
Qed.

Lemma holds_accepts d n : holds_pattern d n -> accepts d n 0 n.
Proof.
  intros Hp. apply accepts_pattern in Hp as (?&?&?&?&?&?). split_and!; auto.
Qed.
End theory.

(** ** A concrete device *)

Record disk := Disk { disk_size : Z; disk_bytes : Z -> Z }.
#[export] Instance disk_device : BlockDevice disk := {|
  dev_size := disk_size;
  dev_byte := disk_bytes;
  dev_write d p n f :=
    if decide (p + n <= disk_size d) then
      (n, Disk (disk_size d) (fun i => if decide (p <= i < p + n) then f (i - p) else disk_bytes d i))
    else (-1, d);
  dev_read d p n :=
    if decide (p + n <= disk_size d) then (n, fun i => disk_bytes d (p + i)) else (-1, fun _ => 0)
|}.
#[export] Instance disk_device_laws : BlockDeviceLaws disk.
Proof.
  split; simpl.
  - intros d p n f Hp Hn Hle. by rewrite decide_True.
  - intros d p n Hp Hn Hle. by rewrite decide_True.
  - intros d p n Hp Hn Hlt. rewrite decide_False by lia. simpl. lia.
Qed.

(** ** Properties *)

(** a verify run returns for every device contents: it ends normally
    exactly when the device holds, for some [n], the sectors numbered 0 to
    [n - 1] followed by an end marker; it raises on anything else, and the
    loop never exhausts its fuel. *)
Theorem verify_accepts_exactly_the_pattern {D} `{!BlockDevice D, !BlockDeviceLaws D}
    (s : Z) (buf : Z -> Z) (d : D) :
  0 < s -> 0 <= dev_size d ->
  (fst (main (512 * s) true (start buf d)) = Ok (Some tt) <-> exists n, holds_pattern d n) /\
  fst (main (512 * s) true (start buf d)) <> Ok None.
Proof.
  intros Hs Hd. pose proof (wp_verify_pattern s Hs (start buf d) Hd) as Hv.
  setoid_rewrite <-accepts_pattern. unfold wp in Hv. simpl in *.
  destruct (verify_pattern (512 * s) (start buf d)) as [[r|e] st']; simpl.
  - destruct Hv as (-> & _ & Hn). done.
  - split; [|done]. split; [done|]. by intros Hn%Hv.
Qed.

(** a write run on a large enough device, for any even number [s] of
    sectors per page, neither faults nor raises: it leaves the numbered sectors
    and the end marker, its own check succeeds, and so does every later verify
    run on the resulting device.  The one condition is that the number of the
    marker's sector is not 255 modulo 256, which is so for 4 KiB pages. *)
Theorem write_then_verify {D} `{!BlockDevice D, !BlockDeviceLaws D}
    (h : Z) (buf : Z -> Z) (d : D) :
  let s := 2 * h in
  1 <= h -> pattern_sectors s mod 256 <> 255 ->
  (pattern_sectors s + 1) * sect_size <= dev_size d ->
  exists st', main (512 * s) false (start buf d) = (Ok (Some tt), st') /\
    holds_pattern (dev st') (pattern_sectors s) /\
    forall buf', fst (main (512 * s) true (start buf' (dev st'))) = Ok (Some tt).
Proof.
  intros s Hh Hm Hsz. assert (0 < s) as Hs by lia.
  assert (0 <= pattern_sectors s) as HN.
  { unfold pattern_sectors. assert (0 <= s / 2) by (apply Z.div_pos; lia). nia. }
  assert (wp (main (512 * s) false) (fun r st' => r = Some tt /\
    dev_size (dev st') = dev_size d /\
    holds_pattern (dev st') (pattern_sectors s)) no_error (start buf d)) as Hw.
  { simpl. apply wp_bind.
    eapply wp_mono; [apply (wp_write_pattern s Hs h); done| |done].
    intros r0 st1 (Hc & Hd & Hnum & Hend). simpl in Hd. unfold sect_size in Hsz.
    assert (holds_pattern (dev st1) (pattern_sectors s)) as Hp.
    { split_and!; try done. unfold sect_size. lia. }
    eapply wp_mono; [apply (wp_verify_pattern s Hs); lia|..].
    - intros r st2 (-> & -> & _). done.
    - intros e st2 Hno. apply Hno. exists (pattern_sectors s).
      rewrite Hc. by apply holds_accepts. }
  unfold wp in Hw. destruct (main (512 * s) false (start buf d)) as [[r|e] st']; [|done].
  destruct Hw as (-> & Hd & Hp). exists st'. split_and!; [done..|]. intros buf'.
  pose proof (wp_verify_pattern s Hs (start buf' (dev st'))) as Hv. simpl in Hv.
  unfold wp in Hv. unfold sect_size in Hsz. specialize (Hv ltac:(lia)). simpl.
  destruct (verify_pattern (512 * s) (start buf' (dev st'))) as [[r|e] st2]; simpl in *.
  - by destruct Hv as [-> _].
  - destruct Hv. exists (pattern_sectors s). by apply accepts_pattern.
Qed.

(** ** Witnesses *)

Lemma verify_accepts_exactly_the_pattern_witness :
  let d := Disk 1024 (fun i => if decide (i < 512) then 0 else 255) in
  fst (main (512 * 8) true (start (fun _ => 0) d)) = Ok (Some tt) <->
  exists n, holds_pattern d n.
Proof.
  intros d. refine (proj1 (verify_accepts_exactly_the_pattern 8 (fun _ => 0) d _ _)).
  - lia.
  - vm_compute. discriminate.
Defined.

Lemma write_then_verify_witness :
  exists st', main (512 * 8) false (start (fun _ => 0) (Disk 65536 (fun _ => 7))) =
    (Ok (Some tt), st') /\ holds_pattern (dev st') 89.
Proof.
  destruct (write_then_verify 4 (fun _ => 0) (Disk 65536 (fun _ => 7))) as (st' & H1 & H2 & _).
  - lia.
  - vm_compute. discriminate.
  - vm_compute. discriminate.
  - exists st'. split; [exact H1|exact H2].
Defined.
