(* ===== verification/TargetHelpers.v ===== *)
(** * Small target helpers (src/target/data_generator.py, stress-al.py,
    mem_alloc.py, unusual_bios.py)

    Byte streams are lists of byte values.  [os.write]'s result is the
    kernel's: an argument of [stress_al]. *)

From S2P Require Import Prelude.
#[local] Open Scope Z_scope.

(** ** data_generator.py *)

(** [x * n] on byte strings *)
Fixpoint bytes_repeat (n : nat) (l : list Z) : list Z :=
  match n with O => [] | S n => l ++ bytes_repeat n l end.

(** [i.to_bytes(n, byteorder='big')] *)
Fixpoint to_bytes_big (n : nat) (i : Z) : list Z :=
  match n with
  | O => []
  | S n => to_bytes_big n (i / 256) ++ [i mod 256]
  end.
Definition from_bytes_big (l : list Z) : Z := foldl (fun acc b => acc * 256 + b) 0 l.

Definition label_bytes (label : list Z) : list Z := take 8 (bytes_repeat 8 label).

(** The bytes written for [--label label --bytes n] *)
Definition generate (label : list Z) (n : Z) : list Z :=
  concat (map (fun i => label_bytes label ++ to_bytes_big 8 (Z.of_nat i))
              (seq 0 (Z.to_nat (n / 16)))).

(** ** stress-al.py *)

Definition al_buf_len : Z := 24.
Definition al_extent_len : Z := 4 * 1024 * 1024.

(** The offsets of the writes, from [offset] on: [w_len i] is the result of the
    [i]-th [os.write], which raises when it is negative. *)
Fixpoint stress_al_loop (w_len : nat -> Z) (ixs : list nat) (offset : Z) : res (list Z) :=
  match ixs with
  | [] => Ok []
  | i :: ixs =>
      if w_len i <? 0 then Raise (OSError "write failed")
      else
        let offset' := offset + w_len i in
        let* l := stress_al_loop w_len ixs (offset' + (al_extent_len - w_len i)) in
        Ok (offset :: l)
  end.
(** [for i in range(1, nr_writes)] *)
Definition stress_al (w_len : nat -> Z) (nr_writes : nat) : res (list Z) :=
  stress_al_loop w_len (seq 1 (nr_writes - 1)) 0.

(** ** mem_alloc.py *)

Definition chunk_kib : Z := 64.
(** The chunk sizes allocated for [--alloc-kib k] *)
Definition mem_alloc (alloc_kib : Z) : list Z :=
  let chunk_count := alloc_kib / chunk_kib in
  chunk_kib * 1024 :: repeat (chunk_kib * 1024) (Z.to_nat (chunk_count - 1)).

(** ** unusual_bios.py *)

Definition BLKDISCARD : Z := Z.shiftl 18 8 + 119.
Definition BLKSECDISCARD : Z := Z.shiftl 18 8 + 125.
Definition BLKZEROUT : Z := Z.shiftl 18 8 + 127.

(** The requests issued, in order, as request code and the two fields of
    [IOCTL_range]; a nonzero result raises. *)
Definition unusual_bios (ioctl : Z -> Z * Z -> Z) (size : Z) : res (list (Z * (Z * Z))) :=
  map_res [(BLKZEROUT, (0 * size, 1 * size)); (BLKDISCARD, (1 * size, 2 * size))]
    (fun '(request, range) =>
       if ioctl request range =? 0 then Ok (request, range)
       else Raise (OSError "libc.ioctl")).

(** ** Lemmas *)

Lemma length_bytes_repeat n l : length (bytes_repeat n l) = (n * length l)%nat.
Proof. induction n as [|n IH]; [done|]. simpl. by rewrite length_app, IH. Qed.

Lemma length_to_bytes_big n i : length (to_bytes_big n i) = n.
Proof. revert i. induction n as [|n IH]; intros i; [done|]. simpl. rewrite length_app, IH. simpl. lia. Qed.

Lemma from_bytes_big_snoc l b : from_bytes_big (l ++ [b]) = from_bytes_big l * 256 + b.
Proof. unfold from_bytes_big. by rewrite foldl_app. Qed.

Lemma from_to_bytes_big n i : 0 <= i < 256 ^ Z.of_nat n -> from_bytes_big (to_bytes_big n i) = i.
Proof.
  revert i. induction n as [|n IH]; intros i Hi; [simpl in *; cbn; lia|].
  cbn [to_bytes_big]. rewrite from_bytes_big_snoc, IH.
  - pose proof (Z.div_mod i 256). lia.
  - rewrite Nat2Z.inj_succ, Z.pow_succ_r in Hi by lia.
    split; [apply Z.div_pos; lia|apply Z.div_lt_upper_bound; lia].
Qed.

Lemma length_label_bytes label : label <> [] -> length (label_bytes label) = 8%nat.
Proof.
  intros Hl. unfold label_bytes. rewrite length_take, length_bytes_repeat.
  destruct label; [done|]. simpl length. lia.
Qed.

(** Blocks of equal length in a concatenation *)
Lemma concat_block {A B} (k : nat) (f : B -> list A) (l : list B) (i : nat) b :
  (forall x, length (f x) = k) -> l !! i = Some b ->
  take k (drop (k * i) (concat (map f l))) = f b.
Proof.
  intros Hf. revert i. induction l as [|x l IH]; intros i; [done|].
  destruct i as [|i]; simpl.
  - intros [= ->]. rewrite Nat.mul_0_r, drop_0. by rewrite take_app_length'.
  - intros Hi. rewrite drop_app_ge by (rewrite Hf; lia). rewrite Hf.
    replace (k * S i - k)%nat with (k * i)%nat by lia. by apply IH.
Qed.

Lemma length_concat_blocks {A B} (k : nat) (f : B -> list A) (l : list B) :
  (forall x, length (f x) = k) -> length (concat (map f l)) = (k * length l)%nat.
Proof.
  intros Hf. induction l as [|x l IH]; simpl; [lia|]. rewrite length_app, Hf, IH. lia.
Qed.

Lemma stress_al_offsets w_len ixs offset : (forall i, 0 <= w_len i) ->
  stress_al_loop w_len ixs offset =
    Ok (map (fun j => offset + Z.of_nat j * al_extent_len) (seq 0 (length ixs))).
Proof.
  intros Hw. revert offset. induction ixs as [|i ixs IH]; intros offset; [done|].
  simpl. rewrite (proj2 (Z.ltb_ge _ _)) by apply Hw. rewrite IH. mred.
  f_equal. f_equal; [lia|]. rewrite <-seq_shift, map_map. apply map_ext. intros j. lia.
Qed.

(** ** Properties *)

(** for a non-empty label the generator writes exactly the byte count
    rounded down to a multiple of 16, in 16-byte blocks: block [i] is the
    repeated label's first eight bytes followed by [i], which the last eight
    bytes decode to again, so no two blocks are equal. *)
Theorem generated_blocks_are_numbered (label : list Z) (n : Z) (i : nat) :
  label <> [] -> n < 2 ^ 68 -> Z.of_nat i < n / 16 ->
  let block i := take 16 (drop (16 * i) (generate label n)) in
  length (generate label n) = Z.to_nat (16 * (n / 16)) /\
  block i = label_bytes label ++ to_bytes_big 8 (Z.of_nat i) /\
  from_bytes_big (drop 8 (block i)) = Z.of_nat i /\
  (forall j, Z.of_nat j < n / 16 -> block i = block j -> i = j).
Proof.
  intros Hl Hn Hi block.
  set (f := fun i : nat => label_bytes label ++ to_bytes_big 8 (Z.of_nat i)).
  assert (forall x, length (f x) = 16%nat) as Hf.
  { intros x. unfold f. by rewrite length_app, length_label_bytes, length_to_bytes_big. }
  assert (n / 16 <= 2 ^ 64) as Hmax by (apply Z.div_le_upper_bound; lia).
  assert (forall j, Z.of_nat j < n / 16 -> block j = f j) as Hb.
  { intros j Hj. apply (concat_block 16 f _ j j Hf). apply lookup_seq. lia. }
  assert (forall j, Z.of_nat j < n / 16 -> from_bytes_big (drop 8 (block j)) = Z.of_nat j) as Hd.
  { intros j Hj. rewrite Hb by done. unfold f.
    rewrite drop_app_length' by by rewrite length_label_bytes.
    apply from_to_bytes_big. simpl. lia. }
  split_and!.
  - unfold generate. rewrite (length_concat_blocks 16 f _ Hf), length_seq. lia.
  - by apply Hb.
  - by apply Hd.
  - intros j Hj E. apply Nat2Z.inj. rewrite <-(Hd i), <-(Hd j) by done. by rewrite E.
Qed.

(** however short its writes are, [stress_al] writes at consecutive
    activity log extent boundaries, in [nr_writes - 1] different extents: one
    fewer than the [writes] argument's help text says. *)
Theorem stress_al_extents (w_len : nat -> Z) (nr_writes : nat) :
  (forall i, 0 <= w_len i) ->
  exists offsets, stress_al w_len nr_writes = Ok offsets /\
    length offsets = (nr_writes - 1)%nat /\
    map (fun o => o / al_extent_len) offsets = map Z.of_nat (seq 0 (nr_writes - 1)) /\
    forall o, o ∈ offsets -> o mod al_extent_len = 0.
Proof.
  intros Hw. unfold stress_al. rewrite stress_al_offsets, length_seq by done.
  eexists. split; [done|]. rewrite length_map, length_seq, map_map. split_and!; [done| |].
  - apply map_ext. intros j. rewrite Z.add_0_l. by apply Z.div_mul.
  - intros o (j & -> & _)%list_elem_of_fmap. rewrite Z.add_0_l. by apply Z.mod_mul.
Qed.

(** ** Witnesses *)

Lemma generated_blocks_are_numbered_witness :
  take 16 (drop (16 * 2) (generate [65] 50)) = [65;65;65;65;65;65;65;65;0;0;0;0;0;0;0;2].
Proof.
  refine (proj1 (proj2 (generated_blocks_are_numbered [65] 50 2 _ _ _))).
  - discriminate.
  - reflexivity.
  - reflexivity.
Defined.

Lemma stress_al_extents_witness :
  exists offsets, stress_al (fun _ => 24) 4 = Ok offsets /\ length offsets = 3%nat.
Proof.
  destruct (stress_al_extents (fun _ => 24) 4) as (l & H1 & H2 & _); [intros i; lia|].
  exists l. split; [exact H1|exact H2].
Defined.
