(* ===== verification/Host.v ===== *)
(** * Hosts (src/python/drbdtest.py, [Host])

    Running commands on a host over SSH.  The SSH server is an argument: what
    it answers may depend on everything sent before.  The state keeps the
    commands sent, with their standard input, and the attribute
    [_drbdmeta_uuid_options] that disktools.py caches on the host. *)

From S2P Require Import Prelude PyStr Dict.

(** ** Python's [shlex.quote] *)

(** The ASCII characters of [[\w@%+=:,./-]] *)
Definition shell_safe (c : ascii) : bool :=
  let n := code c in
  ((48 <=? n) && (n <=? 57) || (65 <=? n) && (n <=? 90) || (97 <=? n) && (n <=? 122))%N%bool ||
  scontains c "_@%+=:,./-".

(** A single quote becomes single quote, double-quoted single quote, single quote. *)
Definition quoted_quote : string :=
  String quote1 (String quote2 (String quote1 (String quote2 (String quote1 EmptyString)))).

Definition shlex_quote (s : string) : string :=
  if decide (s = EmptyString) then String quote1 (String quote1 EmptyString)
  else if sall shell_safe s then s
  else String quote1 (replace quote1 quoted_quote s +:+ String quote1 EmptyString).

(** ** Commands *)

(** [drbd_version_tuple] *)
Definition version_tuple : Type := Z * Z * Z.
Definition version_ltb (a b : version_tuple) : bool :=
  let '(a1, a2, a3) := a in
  let '(b1, b2, b3) := b in
  (a1 <? b1)%Z || ((a1 =? b1)%Z && ((a2 <? b2)%Z || ((a2 =? b2)%Z && (a3 <? b3)%Z))).
Definition version_geb (a b : version_tuple) : bool := negb (version_ltb a b).
Definition drbd9 : version_tuple := (9, 0, 0)%Z.

(** What the commands need to know of a [Host] *)
Record host_info := HostInfo {
  h_name : string;
  h_hostname : string;
  h_volume_group : string;
  h_netns : option string;
  h_version : version_tuple;
  h_config_dir : string;
  h_addr : string;
  h_addrs : list string;
  h_os : string * string;
  h_windows : bool
}.

Record sent := Sent { s_host : string; s_command : string; s_stdin : option string }.
Record env := Env { sent_log : list sent; uuid_options : gmap string bool }.

(** The answer to a command, given the commands before it: an exit status and
    the output, or the exception that interrupts the call. *)
Class SshServer := ssh : list sent -> sent -> res (Z * string).

Section run.
Context `{SshServer}.

Definition ssh_run (s : sent) : M env (Z * string) := fun e =>
  (ssh (sent_log e) s, Env (sent_log e ++ [s]) (uuid_options e)).

Definition command_string (h : host_info) (quote ignore_netns : bool) (cmd : list string) : string :=
  let cmd_string := if quote then join " " (map shlex_quote cmd) else join " " cmd in
  match h_netns h with
  | Some netns =>
      if negb ignore_netns && negb (bool_decide (netns = EmptyString)) then
        "ip netns exec " +:+ netns +:+ " " +:+ cmd_string
      else cmd_string
  | None => cmd_string
  end.

(** [Host.run]; the streams that only receive log output are left out. *)
Definition run_with (h : host_info) (quote catch return_stdout ignore_netns : bool)
    (stdin : option string) (cmd : list string) : M env (option string) :=
  let cmd_string := command_string h quote ignore_netns cmd in
  let* r := ssh_run (Sent (h_name h) cmd_string stdin) in
  let '(result, stdout) := r in
  when (negb (result =? 0)%Z)
    (if catch then let* _ := lift (py_index cmd 0) in mret tt
     else raise (CalledProcessError result cmd_string)) ;;;
  mret (if return_stdout then Some (strip stdout) else None).

(** The usual calls: [run(cmd)], [run(cmd, return_stdout=True)],
    [run(cmd, stdin=...)] *)
Definition run (h : host_info) (cmd : list string) : M env unit :=
  let* _ := run_with h true false false false None cmd in mret tt.
Definition run_out (h : host_info) (cmd : list string) : M env string :=
  let* o := run_with h true false true false None cmd in mret (default EmptyString o).
Definition run_in (h : host_info) (cmd : list string) (stdin : string) : M env unit :=
  let* _ := run_with h true false false false (Some stdin) cmd in mret tt.

(** [run_helper] of a script whose text is [helper] *)
Definition install_helper (h : host_info) (helper target_path : string) : M env unit :=
  run_in h ["bash"; "-c"; "cat > " +:+ target_path +:+ " && chmod +x " +:+ target_path] helper.
Definition run_helper (h : host_info) (helper helper_name : string) (args : list string) : M env unit :=
  let target_path := "/tmp/" +:+ helper_name in
  install_helper h helper target_path ;;;
  run h (target_path :: args).
End run.

(** ** fio *)

(** The command of [fio_file], for the native name of the file; later keys
    replace earlier ones. *)
Definition fio_arg_dict (native_filename : string) (base_args kwargs : dict string string) :
    dict string string :=
  let escaped := replace ":"%char (String backslash ":") native_filename in
  foldl (fun d '(k, v) => d_set k v d) [("filename", escaped)] (base_args ++ kwargs).
Definition fio_cmd (windows : bool) (native_filename : string) (base_args kwargs : dict string string) :
    list string :=
  ["fio"; "--output-format=json"; "--max-jobs=16"; "--name=test"] ++
  map (fun '(key, value) => "--" +:+ key +:+ "=" +:+ value) (fio_arg_dict native_filename base_args kwargs) ++
  (if windows then ["--thread"] else []).

(** The parameters of [Volume.write] *)
Definition fio_write_args : dict string string := [("verify", "md5"); ("do_verify", "0"); ("rw", "write")].
Definition fio_verify_args : dict string string := [("verify", "md5"); ("verify_only", "1"); ("rw", "read")].
Definition fio_write_small_args : dict string string :=
  fio_write_args ++ [("size", "4K"); ("randrepeat", "0")].

(** ** The kernel log check of [teardown] *)

Definition dmesg_patterns : list string := ["BUG:"; "INFO:"; "ASSERTION"; "general protection fault"].
Definition line_is_bad (line : string) : bool := existsb (fun p => has_sub p line) dmesg_patterns.
(** The result of [teardown] on the captured log [text] *)
Definition teardown_ok (validate_dmesg : bool) (text : string) : bool :=
  if validate_dmesg then forallb (fun line => negb (line_is_bad line)) (str_split "010"%char text)
  else true.

(** ** The words of a command line

    The quoting rules of a POSIX shell, on the characters it gives no other
    meaning to; [None] when another character or an open quote is left. *)

Inductive quoting := Unquoted | Single | Double.

Fixpoint sh_go (m : quoting) (cur : option string) (s : string) : option (list string) :=
  match s with
  | EmptyString =>
      match m with Unquoted => Some (option_list cur) | _ => None end
  | String c s =>
      let add := Some (default EmptyString cur +:+ String c EmptyString) in
      match m with
      | Unquoted =>
          if decide (c = " "%char) then app (option_list cur) <$> sh_go Unquoted None s
          else if decide (c = quote1) then sh_go Single (Some (default EmptyString cur)) s
          else if decide (c = quote2) then sh_go Double (Some (default EmptyString cur)) s
          else if shell_safe c then sh_go Unquoted add s
          else None
      | Single => if decide (c = quote1) then sh_go Unquoted cur s else sh_go Single add s
      | Double =>
          if decide (c = quote2) then sh_go Unquoted cur s
          else if scontains c (String backslash "$`!") then None
          else sh_go Double add s
      end
  end.
Definition sh_words (s : string) : option (list string) := sh_go Unquoted None s.

(** ** Lemmas: quoting *)

Lemma sh_go_safe w cur rest : sall shell_safe w = true -> w <> EmptyString ->
  sh_go Unquoted cur (w +:+ rest) = sh_go Unquoted (Some (default EmptyString cur +:+ w)) rest.
Proof.
  revert cur. induction w as [|c w IH]; intros cur Hw Hne; [done|]. cbn [sall] in Hw.
  apply andb_true_iff in Hw as [Hc Hw]. rewrite sapp_cons. cbn [sh_go].
  rewrite !decide_False, Hc by (intros ->; by vm_compute in Hc).
  destruct w as [|c' w]; [done|]. rewrite IH by done. cbn [from_option id]. by rewrite sapp_assoc, sapp_cons, sapp_nil.
Qed.

Lemma sh_go_quoted_quote cur rest :
  sh_go Single (Some cur) (quoted_quote +:+ rest) = sh_go Single (Some (cur +:+ String quote1 EmptyString)) rest.
Proof. reflexivity. Qed.

Lemma sh_go_single w cur rest :
  sh_go Single (Some cur) (replace quote1 quoted_quote w +:+ String quote1 rest) =
  sh_go Unquoted (Some (cur +:+ w)) rest.
Proof.
  revert cur. induction w as [|c w IH]; intros cur.
  - cbn. by rewrite sapp_nil_r.
  - cbn [replace]. destruct (decide (quote1 = c)) as [<-|Hc].
    + rewrite sapp_assoc. etrans; [exact (sh_go_quoted_quote cur _)|].
      rewrite IH. by rewrite sapp_assoc, sapp_cons, sapp_nil.
    + rewrite sapp_assoc, sapp_cons, sapp_nil. cbn [sh_go]. rewrite decide_False by congruence. cbn [from_option id].
      rewrite IH. by rewrite sapp_assoc, sapp_cons, sapp_nil.
Qed.

(** A quoted word is read back as one word. *)
Lemma sh_go_quote w rest :
  sh_go Unquoted None (shlex_quote w +:+ rest) = sh_go Unquoted (Some w) rest.
Proof.
  unfold shlex_quote. case_decide as Hw; [by subst|]. destruct (sall shell_safe w) eqn:Hs.
  - rewrite sh_go_safe by done. cbn [from_option id]. by rewrite sapp_nil.
  - rewrite sapp_cons, sapp_assoc, sapp_cons, sapp_nil. cbn [sh_go]. rewrite decide_False, decide_True by done.
    cbn [from_option id]. rewrite sh_go_single. by rewrite sapp_nil.
Qed.

Lemma sh_words_join l : sh_words (join " " (map shlex_quote l)) = Some l.
Proof.
  unfold sh_words. induction l as [|w l IH]; [done|]. destruct l as [|w' l].
  - cbn [map join]. rewrite <-(sapp_nil_r (shlex_quote w)), sh_go_quote. done.
  - cbn [map] in *. rewrite join_cons, sh_go_quote, sapp_cons, sapp_nil. cbn [sh_go].
    rewrite decide_True by done. by rewrite IH.
Qed.

Lemma sh_words_safe_prefix ws s l : Forall (fun w => sall shell_safe w = true /\ w <> EmptyString) ws ->
  sh_words s = Some l -> sh_words (foldr (fun w s => w +:+ " " +:+ s) s ws) = Some (ws ++ l).
Proof.
  intros Hws Hs. induction Hws as [|w ws [Hw Hne] _ IH]; [done|]. cbn [foldr]. unfold sh_words in *.
  rewrite sh_go_safe by done. rewrite sapp_cons, !sapp_nil. cbn [sh_go from_option id]. rewrite decide_True by done.
  by rewrite IH.
Qed.

(** ** Lemmas: commands *)

Section run_theory.
Context `{SshServer}.

Definition netns_prefix (h : host_info) (ignore_netns : bool) : list string :=
  match h_netns h with
  | Some netns => if negb ignore_netns && negb (bool_decide (netns = EmptyString))
                  then ["ip"; "netns"; "exec"; netns] else []
  | None => []
  end.

Lemma command_words h ignore_netns cmd :
  (forall netns, h_netns h = Some netns -> sall shell_safe netns = true) ->
  sh_words (command_string h true ignore_netns cmd) = Some (netns_prefix h ignore_netns ++ cmd).
Proof.
  intros Hn. unfold command_string, netns_prefix. destruct (h_netns h) as [netns|]; [|apply sh_words_join].
  destruct (negb ignore_netns && negb (bool_decide (netns = EmptyString))) eqn:Hb; [|apply sh_words_join].
  apply andb_true_iff in Hb as [_ Hne%negb_true_iff%bool_decide_eq_false].
  rewrite <-(sh_words_safe_prefix ["ip"; "netns"; "exec"; netns] (join " " (map shlex_quote cmd)) cmd).
  - done.
  - repeat constructor; try done. by apply Hn.
  - apply sh_words_join.
Qed.

Definition sent_run (h : host_info) (cmd : list string) : sent :=
  Sent (h_name h) (command_string h true false cmd) None.
Definition push (s : sent) (e : env) : env := Env (sent_log e ++ [s]) (uuid_options e).

(** Running commands one after the other, up to the first one that fails *)
Inductive runs (h : host_info) : list (list string) -> env -> res unit -> env -> Prop :=
| runs_nil e : runs h [] e (Ok tt) e
| runs_ok cmd cmds e out r e' :
    ssh (sent_log e) (sent_run h cmd) = Ok (0%Z, out) ->
    runs h cmds (push (sent_run h cmd) e) r e' -> runs h (cmd :: cmds) e r e'
| runs_fail cmd cmds e x :
    (forall out, ssh (sent_log e) (sent_run h cmd) <> Ok (0%Z, out)) ->
    runs h (cmd :: cmds) e (Raise x) (push (sent_run h cmd) e).

(** What [run] does, by the answer *)
Lemma run_with_answer h quote catch return_stdout ignore_netns stdin cmd e :
  let s := Sent (h_name h) (command_string h quote ignore_netns cmd) stdin in
  run_with h quote catch return_stdout ignore_netns stdin cmd e =
  (match ssh (sent_log e) s with
   | Ok (code, out) =>
       if (code =? 0)%Z || (catch && negb (bool_decide (cmd = []))) then
         Ok (if return_stdout then Some (strip out) else None)
       else if catch then Raise IndexError else Raise (CalledProcessError code (s_command s))
   | Raise x => Raise x
   end, Env (sent_log e ++ [s]) (uuid_options e)).
Proof.
  intros s. unfold run_with, ssh_run. mred. fold s. destruct (ssh _ s) as [[code out]|x]; [|done].
  unfold when. destruct (code =? 0)%Z; [done|]. simpl. destruct catch; [|done]. by destruct cmd.
Qed.

Lemma run_answer h cmd e :
  run h cmd e =
  (match ssh (sent_log e) (sent_run h cmd) with
   | Ok (code, _) => if (code =? 0)%Z then Ok tt
                     else Raise (CalledProcessError code (s_command (sent_run h cmd)))
   | Raise x => Raise x
   end, push (sent_run h cmd) e).
Proof.
  unfold run. mred. rewrite run_with_answer. fold (sent_run h cmd).
  destruct (ssh _ _) as [[code out]|x]; [|done]. simpl. by destruct (code =? 0)%Z.
Qed.

Lemma run_out_answer h cmd e :
  run_out h cmd e =
  (match ssh (sent_log e) (sent_run h cmd) with
   | Ok (code, out) => if (code =? 0)%Z then Ok (strip out)
                       else Raise (CalledProcessError code (s_command (sent_run h cmd)))
   | Raise x => Raise x
   end, push (sent_run h cmd) e).
Proof.
  unfold run_out. mred. rewrite run_with_answer. fold (sent_run h cmd).
  destruct (ssh _ _) as [[code out]|x]; [|done]. simpl. by destruct (code =? 0)%Z.
Qed.

Lemma run_in_answer h cmd stdin e :
  let s := Sent (h_name h) (command_string h true false cmd) (Some stdin) in
  run_in h cmd stdin e =
  (match ssh (sent_log e) s with
   | Ok (code, _) => if (code =? 0)%Z then Ok tt else Raise (CalledProcessError code (s_command s))
   | Raise x => Raise x
   end, push s e).
Proof.
  intros s. unfold run_in. mred. rewrite run_with_answer. fold s.
  destruct (ssh _ _) as [[code out]|x]; [|done]. simpl. by destruct (code =? 0)%Z.
Qed.

(** One [run], then the rest: the pattern of most operations *)
Lemma runs_cons h cmd cmds (k : M env unit) e :
  (forall e, runs h cmds e (fst (k e)) (snd (k e))) ->
  let m := run h cmd ;;; k in runs h (cmd :: cmds) e (fst (m e)) (snd (m e)).
Proof.
  intros Hk m. unfold m. mred. rewrite run_answer.
  destruct (ssh (sent_log e) (sent_run h cmd)) as [[code out]|x] eqn:Hs.
  - destruct (code =? 0)%Z eqn:Hc; simpl.
    + apply Z.eqb_eq in Hc as ->. by eapply runs_ok.
    + apply runs_fail. intros out'. rewrite Hs. intros [= -> _]. done.
  - apply runs_fail. intros out'. by rewrite Hs.
Qed.
Lemma runs_one h cmd e : runs h [cmd] e (fst (run h cmd e)) (snd (run h cmd e)).
Proof.
  pose proof (runs_cons h cmd [] (mret tt) e (fun e => runs_nil h e)) as Hr.
  assert (Heq : (run h cmd ;;; mret tt) e = run h cmd e).
  { mred. destruct (run h cmd e) as [[[]|x] e']; done. }
  simpl in Hr. by rewrite Heq in Hr.
Qed.

(** The commands sent are a prefix of the list, all of it on success. *)
Lemma runs_prefix h cmds e r e' : runs h cmds e r e' ->
  exists k, sent_log e' = sent_log e ++ take k (map (sent_run h) cmds) /\
    uuid_options e' = uuid_options e /\ (r = Ok tt -> take k (map (sent_run h) cmds) = map (sent_run h) cmds).
Proof.
  induction 1 as [e|cmd cmds e out r e' _ _ (k & IHl & IHo & IHr)|cmd cmds e x _].
  - exists 0. simpl. by rewrite app_nil_r.
  - exists (S k). simpl in *. rewrite IHl, <-app_assoc. split_and!; [done..|]. intros Hr. by rewrite IHr.
  - exists 1. simpl. by rewrite take_0.
Qed.
End run_theory.

(** ** Lemmas: fio *)

Lemma d_get_set_all (l d : dict string string) k : NoDup (d_keys l) ->
  d_get k (foldl (fun d '(k, v) => d_set k v d) d l) =
  match d_get k l with Some v => Some v | None => d_get k d end.
Proof. apply (d_get_update_all (fun v (_ : option string) => v)). Qed.
Lemma d_NoDup_set_all (l d : dict string string) : NoDup (d_keys d) ->
  NoDup (d_keys (foldl (fun d '(k, v) => d_set k v d) d l)).
Proof. apply (d_NoDup_update_all (fun v (_ : option string) => v)). Qed.

(** ** Lemmas: substrings *)

Lemma has_sub_spec sub s : has_sub sub s = true <-> exists a b, s = a +:+ sub +:+ b.
Proof.
  split.
  - induction s as [|c s IH]; cbn [has_sub]; rewrite orb_true_iff; intros [H|H]; try done.
    + apply startswith_spec in H as [t Ht]. by exists EmptyString, t.
    + apply startswith_spec in H as [t Ht]. by exists EmptyString, t.
    + destruct (IH H) as (a & b & ->). by exists (String c a), b.
  - intros (a & b & ->). induction a as [|c a IH].
    + rewrite sapp_nil. destruct (sub +:+ b) eqn:E; cbn [has_sub]; apply orb_true_iff; left;
        apply startswith_spec; exists b; by rewrite E.
    + rewrite sapp_cons. cbn [has_sub]. by rewrite IH, orb_true_r.
Qed.

(** A prefix without the separator lies before it. *)
Lemma prefix_before sep (p x t b : string) : scontains sep p = false ->
  x +:+ String sep t = p +:+ b -> exists b', x = p +:+ b'.
Proof.
  revert p. induction x as [|c x IH]; intros [|d p] Hp Heq; rewrite ?sapp_nil, ?sapp_cons in Heq.
  - by exists EmptyString.
  - simplify_eq. cbn [scontains] in Hp. by rewrite bool_decide_true in Hp.
  - by exists (String c x).
  - injection Heq as -> Heq. cbn [scontains] in Hp. apply orb_false_iff in Hp as [_ Hp].
    destruct (IH p Hp Heq) as [b' ->]. by exists b'.
Qed.

Lemma has_sub_line sep p x t : scontains sep p = false -> p <> EmptyString ->
  has_sub p (x +:+ String sep t) = has_sub p x || has_sub p t.
Proof.
  intros Hp Hne. apply eq_true_iff_eq. rewrite orb_true_iff, !has_sub_spec. split.
  - intros (a & b & Heq). revert a Heq. induction x as [|c x IH]; intros a Heq.
    + rewrite sapp_nil in Heq. destruct a as [|d a].
      * destruct p as [|d p]; [done|]. rewrite sapp_nil, sapp_cons in Heq. simplify_eq.
        cbn [scontains] in Hp. by rewrite bool_decide_true in Hp.
      * rewrite sapp_cons in Heq. simplify_eq. right. by exists a, b.
    + destruct a as [|d a].
      * rewrite sapp_nil in Heq. destruct (prefix_before _ _ _ _ _ Hp Heq) as [b' ->].
        left. by exists EmptyString, b'.
      * rewrite !sapp_cons in Heq. injection Heq as -> Heq. destruct (IH a Heq) as [(a' & b' & ->)|Hr]; [|by right].
        left. exists (String d a'), b'. by rewrite sapp_cons.
  - intros [(a & b & ->)|(a & b & ->)].
    + exists a, (b +:+ String sep t). by rewrite !sapp_assoc.
    + exists (x +:+ String sep a), b. by rewrite sapp_assoc, sapp_cons.
Qed.

(** Searching every line is searching the whole text. *)
Lemma existsb_lines sep p s : scontains sep p = false -> p <> EmptyString ->
  existsb (has_sub p) (str_split sep s) = has_sub p s.
Proof.
  intros Hp Hne. rewrite <-(join_split sep s) at 2. destruct (str_split sep s) as [|x l]; [by destruct p|].
  revert x. induction l as [|y l IH]; intros x; [apply orb_false_r|].
  rewrite join_cons, sapp_cons, sapp_nil, has_sub_line by done. cbn [existsb] in *. by rewrite <-IH.
Qed.

(** ** Properties *)

(** C24: whatever the words of a command are, spaces, quotes, empty words or
    special characters included, [run] sends exactly one command line, and a
    shell splits it into these words, after the words that enter the network
    namespace if there is one; the call succeeds when the status is 0, or when
    told to catch the failure, and then returns the stripped output if asked
    to. *)
Theorem run_delivers_the_command `{SshServer} h catch return_stdout ignore_netns stdin cmd e code out :
  (forall netns, h_netns h = Some netns -> sall shell_safe netns = true) -> cmd <> [] ->
  exists line, sh_words line = Some (netns_prefix h ignore_netns ++ cmd) /\
    (ssh (sent_log e) (Sent (h_name h) line stdin) = Ok (code, out) ->
     run_with h true catch return_stdout ignore_netns stdin cmd e =
     (if (code =? 0)%Z || catch then Ok (if return_stdout then Some (strip out) else None)
      else Raise (CalledProcessError code line),
      Env (sent_log e ++ [Sent (h_name h) line stdin]) (uuid_options e))).
Proof.
  intros Hn Hc. exists (command_string h true ignore_netns cmd). split; [by apply command_words|].
  intros Hs. rewrite run_with_answer, Hs. rewrite (bool_decide_false (cmd = [])) by done.
  simpl. rewrite andb_true_r. destruct (code =? 0)%Z; [done|]. by destruct catch.
Qed.

(** in the command line of [fio_file] every parameter is given once; the
    caller's keyword arguments win over the base arguments, and both over the
    file name, whose colons are escaped. *)
Theorem fio_parameters_are_given_once windows native_filename base_args kwargs key :
  NoDup (d_keys base_args) -> NoDup (d_keys kwargs) ->
  let d := fio_arg_dict native_filename base_args kwargs in
  NoDup (d_keys d) /\
  d_get key d =
    match d_get key kwargs, d_get key base_args with
    | Some v, _ => Some v
    | None, Some v => Some v
    | None, None =>
        if decide (key = "filename") then Some (replace ":"%char (String backslash ":") native_filename)
        else None
    end /\
  forall v, d_get key d = Some v -> ("--" +:+ key +:+ "=" +:+ v) ∈ fio_cmd windows native_filename base_args kwargs.
Proof.
  intros Hb Hk d. split_and!.
  - apply d_NoDup_set_all. apply NoDup_singleton.
  - unfold d, fio_arg_dict. rewrite foldl_app, !d_get_set_all by done.
    destruct (d_get key kwargs); [done|]. destruct (d_get key base_args); [done|]. simpl.
    by destruct (decide (key = "filename")).
  - intros v Hv. unfold fio_cmd. rewrite !elem_of_app. right; left. apply list_elem_of_fmap.
    exists (key, v). split; [done|]. by apply d_get_elem.
Qed.

(** the check of the kernel log, which looks at one line at a time, fails
    exactly when it is asked for and one of the messages occurs anywhere in
    the captured text. *)
Theorem teardown_checks_the_whole_log validate_dmesg text :
  teardown_ok validate_dmesg text =
  negb (validate_dmesg && existsb (fun p => has_sub p text) dmesg_patterns).
Proof.
  unfold teardown_ok. destruct validate_dmesg; [|done].
  unfold dmesg_patterns. cbn [andb existsb].
  rewrite <-!(existsb_lines "010"%char _ text) by done.
  induction (str_split "010"%char text) as [|line l IH]; [done|]. cbn [forallb existsb]. rewrite IH.
  unfold line_is_bad, dmesg_patterns. cbn [existsb].
  destruct (has_sub "BUG:" line), (has_sub "INFO:" line), (has_sub "ASSERTION" line),
    (has_sub "general protection fault" line); simpl; rewrite ?orb_true_r; try done;
  rewrite ?orb_false_r; done.
Qed.

(** ** Witnesses *)

#[local] Instance silent_server : SshServer := fun _ _ => Ok (0%Z, EmptyString).
Definition demo_host : host_info :=
  HostInfo "node1" "node1.example" "scratch" (Some "ns1") (9, 2, 5)%Z "/var/lib/drbd-test"
    "10.0.0.1" ["10.0.0.1"; "10.1.0.1"] ("ubuntu", "22.04") false.

Lemma run_delivers_the_command_witness :
  exists line, sh_words line = Some ["ip"; "netns"; "exec"; "ns1"; "echo"; "it's"; ""; "$HOME a"] /\
    run_with demo_host true false true false None ["echo"; "it's"; ""; "$HOME a"] (Env [] ∅) =
    (Ok (Some ""), Env [Sent "node1" line None] ∅).
Proof.
  destruct (run_delivers_the_command demo_host false true false None ["echo"; "it's"; ""; "$HOME a"]
    (Env [] ∅) 0 EmptyString) as (line & Hw & Hr).
  - intros netns [= <-]. reflexivity.
  - discriminate.
  - exists line. split; [exact Hw|]. exact (Hr eq_refl).
Defined.

Lemma fio_parameters_are_given_once_witness :
  d_get "size" (fio_arg_dict "c:x" fio_write_small_args [("size", "8K"); ("bs", "4K")]) = Some "8K".
Proof.
  exact (proj1 (proj2 (fio_parameters_are_given_once false "c:x" fio_write_small_args
    [("size", "8K"); ("bs", "4K")] "size" ltac:(by apply (bool_decide_unpack _); vm_compute)
    ltac:(by apply (bool_decide_unpack _); vm_compute)))).
Defined.
