(* ===== verification/HostSetup.v ===== *)
(** * Setting up a host (src/python/drbdtest.py, linuxplatformhelper.py, windowsplatformhelper.py)

    The constructor of [Host]: which system the host runs, the version of DRBD
    on it, its addresses and its network namespace, and taking DRBD and the
    changes of the framework off it again.  The texts that the commands print
    are read with the regular expressions of the code, written as scanners:
    every repetition in them is followed by a character that it cannot match,
    so that the longest match is the only one. *)

From S2P Require Import Prelude PyStr Dict Host.

(** ** Scanners *)

(** The longest prefix of characters of a class *)
Fixpoint span (p : ascii -> bool) (s : string) : string * string :=
  match s with
  | String c s' => if p c then let '(t, r) := span p s' in (String c t, r) else (EmptyString, s)
  | EmptyString => (EmptyString, EmptyString)
  end.
(** The same, for at least one character *)
Definition span1 (p : ascii -> bool) (s : string) : option (string * string) :=
  let '(t, r) := span p s in if decide (t = EmptyString) then None else Some (t, r).
Definition is_alpha (c : ascii) : bool :=
  let n := code (to_lower c) in (97 <=? n)%N && (n <=? 122)%N.
(** [\w] *)
Definition is_word (c : ascii) : bool := is_alpha c || is_digit c || bool_decide (c = "_"%char).
Definition is_hex (c : ascii) : bool := scontains c "0123456789abcdefABCDEF".

(** [re.search(r'^\s*\d+:\s+(\w+)\s+inet\s+([\d\.]+)/(\d+)', line)] *)
Definition parse_addr_line (line : string) : option (string * string * string) :=
  let '(_, s) := span is_space line in
  '(_, s) ← span1 is_digit s;
  s ← strip_prefix ":" s;
  '(_, s) ← span1 is_space s;
  '(devname, s) ← span1 is_word s;
  '(_, s) ← span1 is_space s;
  s ← strip_prefix "inet" s;
  '(_, s) ← span1 is_space s;
  '(addr, s) ← span1 (fun c => is_digit c || bool_decide (c = "."%char)) s;
  s ← strip_prefix "/" s;
  '(prefix, _) ← span1 is_digit s;
  Some (devname, addr, prefix).

(** [re.match(r'version: ([^ -]+).*', version_line).group(1)] *)
Definition parse_version_line (line : string) : option string :=
  s ← strip_prefix "version: " line;
  fst <$> span1 (fun c => negb (scontains c " -")) s.
(** [re.match(r'(?:srcversion|GIT-hash): ([0-9A-Fa-f]+).*', git_hash_line).group(1)] *)
Definition parse_hash_line (line : string) : option string :=
  s ← match strip_prefix "srcversion" line with Some s => Some s | None => strip_prefix "GIT-hash" line end;
  s ← strip_prefix ": " s;
  fst <$> span1 is_hex s.
(** [re.match(r'([0-9]+)\.([0-9]+)\.([0-9]+).*', version)] and the three [int]s *)
Definition parse_version_tuple (version : string) : res version_tuple :=
  let no_match := AttributeError "'NoneType' object has no attribute 'group'" in
  let* m := res_of_option no_match
    ('(a, s) ← span1 is_digit version;
     s ← strip_prefix "." s;
     '(b, s) ← span1 is_digit s;
     s ← strip_prefix "." s;
     '(c, _) ← span1 is_digit s;
     Some (a, b, c)) in
  let '(a, b, c) := m in
  let* x := py_int a in let* y := py_int b in let* z := py_int c in
  Ok (x, y, z).
(** The attribute of a match, when there is one *)
Definition group {A} (o : option A) : res A :=
  res_of_option (AttributeError "'NoneType' object has no attribute 'group'") o.

(** ** The host under construction *)

Record setup := Setup {
  s_env : env;
  s_info : host_info;
  s_backend : string;
  s_backing : string;
  s_version : option string;
  s_git_hash : option string;
  (** [netdevs]: the address and the prefix of each device *)
  s_netdevs : dict string (string * string)
}.

Definition set_info (f : host_info -> host_info) : M setup unit :=
  modify (fun s => Setup (s_env s) (f (s_info s)) (s_backend s) (s_backing s) (s_version s) (s_git_hash s) (s_netdevs s)).
Definition set_backends (backend backing : string) : M setup unit :=
  modify (fun s => Setup (s_env s) (s_info s) backend backing (s_version s) (s_git_hash s) (s_netdevs s)).
Definition set_version (v : string) : M setup unit :=
  modify (fun s => Setup (s_env s) (s_info s) (s_backend s) (s_backing s) (Some v) (s_git_hash s) (s_netdevs s)).
Definition set_git_hash (v : string) : M setup unit :=
  modify (fun s => Setup (s_env s) (s_info s) (s_backend s) (s_backing s) (s_version s) (Some v) (s_netdevs s)).
Definition set_netdev (devname addr prefix : string) : M setup unit :=
  modify (fun s => Setup (s_env s) (s_info s) (s_backend s) (s_backing s) (s_version s) (s_git_hash s)
    (d_set devname (addr, prefix) (s_netdevs s))).

Definition with_hostname (v : string) (h : host_info) : host_info :=
  HostInfo (h_name h) v (h_volume_group h) (h_netns h) (h_version h) (h_config_dir h) (h_addr h) (h_addrs h) (h_os h) (h_windows h).
Definition with_netns (v : string) (h : host_info) : host_info :=
  HostInfo (h_name h) (h_hostname h) (h_volume_group h) (Some v) (h_version h) (h_config_dir h) (h_addr h) (h_addrs h) (h_os h) (h_windows h).
Definition with_version (v : version_tuple) (h : host_info) : host_info :=
  HostInfo (h_name h) (h_hostname h) (h_volume_group h) (h_netns h) v (h_config_dir h) (h_addr h) (h_addrs h) (h_os h) (h_windows h).
Definition with_config_dir (v : string) (h : host_info) : host_info :=
  HostInfo (h_name h) (h_hostname h) (h_volume_group h) (h_netns h) (h_version h) v (h_addr h) (h_addrs h) (h_os h) (h_windows h).
Definition with_addr (v : string) (h : host_info) : host_info :=
  HostInfo (h_name h) (h_hostname h) (h_volume_group h) (h_netns h) (h_version h) (h_config_dir h) v (h_addrs h) (h_os h) (h_windows h).
Definition with_addrs (v : list string) (h : host_info) : host_info :=
  HostInfo (h_name h) (h_hostname h) (h_volume_group h) (h_netns h) (h_version h) (h_config_dir h) (h_addr h) v (h_os h) (h_windows h).
Definition with_os (v : string * string) (h : host_info) : host_info :=
  HostInfo (h_name h) (h_hostname h) (h_volume_group h) (h_netns h) (h_version h) (h_config_dir h) (h_addr h) (h_addrs h) v (h_windows h).
Definition with_windows (v : bool) (h : host_info) : host_info :=
  HostInfo (h_name h) (h_hostname h) (h_volume_group h) (h_netns h) (h_version h) (h_config_dir h) (h_addr h) (h_addrs h) (h_os h) v.

Definition truthy_str (o : option string) : bool :=
  match o with Some s => negb (bool_decide (s = EmptyString)) | None => false end.

Section setup.
Context `{SshServer}.

Definition on_host {A} (m : host_info -> M env A) : M setup A := fun s =>
  let '(r, e) := m (s_info s) (s_env s) in
  (r, Setup e (s_info s) (s_backend s) (s_backing s) (s_version s) (s_git_hash s) (s_netdevs s)).
Definition do_run (cmd : list string) : M setup unit := on_host (fun h => run h cmd).
Definition do_run_out (cmd : list string) : M setup string := on_host (fun h => run_out h cmd).
Definition do_run_init_net (cmd : list string) : M setup unit :=
  on_host (fun h => let* _ := run_with h true false false true None cmd in mret tt).

(** [get_platform_helper]: whether the host runs Windows.  The exit status of
    the command does not matter. *)
Definition get_platform_helper : M setup bool :=
  let* r := on_host (fun h => ssh_run (Sent (h_name h) "uname" None)) in
  let uname := upper (strip (snd r)) in
  if bool_decide (uname = "LINUX") then mret false
  else if startswith "CYGWIN" uname then mret true
  else raise (RuntimeError ("Unsupported platform: " +:+ uname)).

(** *** Linux *)

Definition linux_read_drbd_version : M setup unit :=
  do_run ["bash"; "-c"; "cat /proc/drbd > /dev/kmsg || modprobe drbd"] ;;;
  let* out := do_run_out ["cat"; "/proc/drbd"] in
  let proc_drbd_lines := splitlines out in
  let* version_line := lift (py_index proc_drbd_lines 0) in
  let* git_hash_line := lift (py_index proc_drbd_lines 1) in
  let* v := lift (group (parse_version_line version_line)) in
  set_version v ;;;
  let* h := lift (group (parse_hash_line git_hash_line)) in
  set_git_hash (lower h) ;;;
  let* t := lift (parse_version_tuple v) in
  set_info (with_version t).

(** The values after the word [src] *)
Fixpoint src_addrs (route_words : list string) : list string :=
  match route_words with
  | key :: (value :: _) as rest => if decide (key = "src") then value :: src_addrs rest else src_addrs rest
  | _ => []
  end.
Definition get_default_addr : M setup string :=
  let* route_out := do_run_out ["ip"; "-4"; "route"; "get"; "1"] in
  match src_addrs (str_split " " (strip route_out)) with
  | [a] => mret a
  | _ => raise (RuntimeError ("Default route does not contain src address: " +:+ route_out))
  end.

(** One line of [ip -oneline addr show] *)
Definition add_address (multi_paths : bool) (line : string) : M setup unit :=
  match parse_addr_line line with
  | None => mret tt
  | Some (devname, addr, prefix) =>
      let* h := gets s_info in
      if decide (addr = "127.0.0.1" \/ addr = h_addr h) then mret tt
      else
        when multi_paths (set_info (with_addrs (h_addrs h ++ [addr]))) ;;;
        set_netdev devname addr prefix
  end.

Definition script (lines : list string) : list string := ["bash"; "--norc"; "-xec"; join newline lines].
Definition init_iptables : list string := script
  ["iptables -F drbd-test-input || iptables -N drbd-test-input";
   "iptables -F drbd-test-output || iptables -N drbd-test-output";
   "iptables -I INPUT -j drbd-test-input";
   "iptables -I OUTPUT -j drbd-test-output"].
Definition cleanup_iptables : list string := script
  ["iptables -D INPUT -j drbd-test-input";
   "iptables -D OUTPUT -j drbd-test-output";
   "iptables -F drbd-test-input && iptables -X drbd-test-input || true";
   "iptables -F drbd-test-output && iptables -X drbd-test-output || true"].

(** The commands of [ensure_netdev] for one device; the second may fail. *)
Definition move_cmd (devname netns : string) : list string := ["ip"; "link"; "set"; "dev"; devname; "netns"; netns].
Definition ip_base (netns : option string) : list string :=
  match netns with Some n => ["ip"; "-netns"; n] | None => ["ip"] end.
Definition addr_cmd (netns : option string) (devname addr prefix : string) : list string :=
  ip_base netns ++ ["addr"; "add"; addr +:+ "/" +:+ prefix; "dev"; devname].
Definition up_cmd (netns : option string) (devname : string) : list string :=
  ip_base netns ++ ["link"; "set"; "dev"; devname; "up"].
Definition ensure_netdev (netns : option string) : M setup unit :=
  let netns := if truthy_str netns then netns else None in
  let* devs := gets s_netdevs in
  for_each devs (fun '(devname, (addr, prefix)) =>
    match netns with
    | Some n => do_run_init_net (move_cmd devname n)
    | None => mret tt
    end ;;;
    except_called (do_run_init_net (addr_cmd netns devname addr prefix)) (fun _ => mret tt) ;;;
    do_run_init_net (up_cmd netns devname)).

(** The part of [init_host] for a network name space *)
Definition enter_netns (netns : string) : M setup unit :=
  let* devs := gets s_netdevs in
  when (bool_decide (devs = [])) (raise (RuntimeError "%s is missing additional netdevs to namespace")) ;;;
  set_info (with_addrs []) ;;;
  do_run ["ip"; "netns"; "add"; netns] ;;;
  for_each (d_values devs) (fun '(address, _) =>
    let* h := gets s_info in set_info (with_addrs (h_addrs h ++ [address]))) ;;;
  let* h := gets s_info in
  when (length (h_addrs h) <? 1) (raise (RuntimeError "%s has namespaced address")) ;;;
  do_run init_iptables ;;;
  set_info (with_netns netns) ;;;
  ensure_netdev (Some netns).

Definition drbd_config_dir_linux_default : string := "/var/lib/drbd-test".
Definition linux_init_host (storage_backend backing_device : string) (multi_paths : bool) (netns : option string) :
    M setup unit :=
  set_backends storage_backend backing_device ;;;
  set_info (with_config_dir drbd_config_dir_linux_default) ;;;
  let* os := do_run_out ["bash"; "-c"; ". /etc/os-release ; echo $ID ; echo $VERSION_ID"] in
  match splitlines os with
  | [os_id; os_version_id] => set_info (with_os (os_id, os_version_id))
  | _ => raise (ValueError "values to unpack")
  end ;;;
  let* addr := get_default_addr in
  set_info (with_addr addr) ;;;
  set_info (with_addrs [addr]) ;;;
  let* addresses := do_run_out ["ip"; "-oneline"; "addr"; "show"] in
  for_each (splitlines addresses) (add_address multi_paths) ;;;
  let* devs := gets s_netdevs in
  let* h := gets s_info in
  when (multi_paths && bool_decide (devs = [])) (raise (RuntimeError (h_name h +:+ " has no additional address"))) ;;;
  when (truthy_str netns) (enter_netns (default EmptyString netns)) ;;;
  do_run init_iptables.

(** Each of the transports may be missing. *)
Definition linux_rmmod : M setup unit :=
  let* h := gets s_info in
  let try_run cmd := try_except (do_run cmd) (fun _ => mret tt) in
  when (version_geb (h_version h) drbd9)
    (try_run ["rmmod"; "drbd_transport_tcp"] ;;;
     try_run ["rmmod"; "drbd_transport_lb-tcp"] ;;;
     try_run ["rmmod"; "drbd_transport_rdma"]) ;;;
  except_called (do_run ["rmmod"; "drbd"]) (fun e =>
    on_host (fun h => let* _ := run_with h true true false false None
                                  ["cat"; "/sys/kernel/debug/drbd/reference_counts"] in mret tt) ;;;
    raise e).

(** [cleanup_framework]; the copy of the log in a file is left out. *)
Definition linux_cleanup_framework : M setup unit :=
  let* _ := do_run_out ["journalctl"; "-u"; "tlshd"; "-b"; "0"; "-q"] in
  do_run cleanup_iptables.

(** *** Windows *)

Definition drbd_config_dir_windows_default : string := "/cygdrive/c/WinDRBD/var/lib/drbd-test".
Definition default_gateway_query : string :=
  "(Get-NetIPConfiguration | Where-Object { $_.IPv4DefaultGateway } | Select-Object -First 1).IPv4Address.IPAddress".
Definition windows_init_host (multi_paths : bool) (netns : option string) : M setup unit :=
  when multi_paths (raise (RuntimeError "multi_paths not supported on Windows (is True)")) ;;;
  when (truthy_str netns)
    (raise (RuntimeError ("netns not supported on Windows (is " +:+ default EmptyString netns +:+ ")"))) ;;;
  set_backends "storage-spaces" "scratch" ;;;
  set_info (with_config_dir drbd_config_dir_windows_default) ;;;
  let* uname := do_run_out ["uname"] in
  let* version := lift (py_index (str_split "_" uname) 1) in
  set_info (with_os ("Windows", version)) ;;;
  let* addr := do_run_out ["powershell"; "-command"; default_gateway_query] in
  set_info (with_addr (strip addr)) ;;;
  set_info (with_addrs [strip addr]).

Definition windows_version_line (l : string) : M setup unit :=
  let a := str_split "=" l in
  let* key := lift (py_index a 0) in
  when (bool_decide (key = "DRBD_KERNEL_VERSION")) (let* v := lift (py_index a 1) in set_version v) ;;;
  when (bool_decide (key = "WINDRBD_VERSION")) (let* v := lift (py_index a 1) in set_git_hash v).
Definition windows_read_drbd_version : M setup unit :=
  let* out := do_run_out ["drbdadm"; "--version"] in
  for_each (splitlines out) windows_version_line ;;;
  let* v := gets s_version in
  let* v := lift (res_of_option (AttributeError "'Host' object has no attribute 'drbd_version'") v) in
  let* t := lift (parse_version_tuple v) in
  set_info (with_version t).

(** *** The constructor *)

Definition read_drbd_version : M setup unit :=
  let* h := gets s_info in if h_windows h then windows_read_drbd_version else linux_read_drbd_version.
Definition init_host (storage_backend backing_device : string) (multi_paths : bool) (netns : option string) :
    M setup unit :=
  let* h := gets s_info in
  if h_windows h then windows_init_host multi_paths netns
  else linux_init_host storage_backend backing_device multi_paths netns.
(** What [cleanup_framework] of the helper takes back *)
Definition helper_cleanup_framework : M setup unit :=
  let* h := gets s_info in when (negb (h_windows h)) linux_cleanup_framework.

Definition global_config (config_dir job : string) : string :=
  "global { usage-count no; }" +:+ newline +:+ "include " +:+ dquoted (config_dir +:+ "/" +:+ job +:+ "*") +:+ ";" +:+ newline.

(** [Host.__init__]; opening the connection and starting the copy of the kernel
    log are left out. *)
Definition host_init (job storage_backend backing_device : string) (multi_paths : bool) (netns : option string) :
    M setup unit :=
  let* windows := get_platform_helper in
  set_info (with_windows windows) ;;;
  read_drbd_version ;;;
  let* h := gets s_info in
  let* name := do_run_out (if version_ltb (h_version h) drbd9 then ["hostname"] else ["hostname"; "-f"]) in
  set_info (with_hostname name) ;;;
  init_host storage_backend backing_device multi_paths netns ;;;
  let* h := gets s_info in
  do_run ["mkdir"; "-p"; h_config_dir h] ;;;
  on_host (fun h => run_in h ["bash"; "-c"; "cat > " +:+ h_config_dir h +:+ "/" +:+ job +:+ ".conf"]
    (global_config (h_config_dir h) job)).

(** The host when the constructor begins to set it up *)
Definition new_setup (e : env) (name volume_group : string) : setup :=
  Setup e (HostInfo name EmptyString volume_group None (0, 0, 0)%Z EmptyString EmptyString []
    (EmptyString, EmptyString) false) EmptyString EmptyString None None [].
End setup.

(** ** Lemmas: scanners *)

(** The text does not go on with a character of the class *)
Definition ends (p : ascii -> bool) (t : string) : Prop := match t with String c _ => p c = false | EmptyString => True end.

Lemma span_app p s t : sall p s = true -> ends p t -> span p (s +:+ t) = (s, t).
Proof.
  induction s as [|c s IH]; intros Hs Ht.
  - rewrite sapp_nil. destruct t as [|c t]; [done|]. cbn in *. by rewrite Ht.
  - rewrite sapp_cons. cbn in *. apply andb_true_iff in Hs as [-> Hs]. by rewrite IH.
Qed.
Lemma span_ends p t : ends p t -> span p t = (EmptyString, t).
Proof. apply (span_app p EmptyString). done. Qed.
Lemma span1_app p s t : sall p s = true -> s <> EmptyString -> ends p t -> span1 p (s +:+ t) = Some (s, t).
Proof. intros Hs Hne Ht. unfold span1. by rewrite span_app, decide_False. Qed.
Lemma span1_all p s : sall p s = true -> s <> EmptyString -> span1 p s = Some (s, EmptyString).
Proof. intros Hs Hne. rewrite <-(sapp_nil_r s) at 1. by apply span1_app. Qed.

(** A character of one class ends a run of another. *)
Lemma ends_digits p n t : (forall c, is_digit c = true -> p c = false) -> ends p (str_nat n +:+ t).
Proof.
  intros Hp. pose proof (str_nat_digits n) as Hd. destruct (str_nat n) as [|c s] eqn:Hn.
  - rewrite str_nat_N in Hn. by apply pretty_N_nonempty in Hn.
  - cbn in Hd. apply andb_true_iff in Hd as [Hc _]. by apply Hp.
Qed.
Lemma str_nat_ne n : str_nat n <> EmptyString.
Proof. rewrite str_nat_N. apply pretty_N_nonempty. Qed.

Create HintDb scan.
#[local] Hint Resolve str_nat_digits str_nat_ne : scan.

(** *** The lines of [ip -oneline addr show] *)

Inductive ip_line :=
| Inet (index : nat) (devname addr prefix rest : string)
| Inet6 (index : nat) (devname rest : string).
Definition is_addr_char (c : ascii) : bool := is_digit c || bool_decide (c = "."%char).
Definition ip_line_wf (l : ip_line) : Prop :=
  match l with
  | Inet _ d a p r => (sall is_word d = true /\ d <> EmptyString) /\ (sall is_addr_char a = true /\ a <> EmptyString) /\
      (sall is_digit p = true /\ p <> EmptyString) /\ ends is_digit r
  | Inet6 _ d _ => sall is_word d = true /\ d <> EmptyString
  end.
Definition addr_text (l : ip_line) : string :=
  match l with
  | Inet i d a p r => str_nat i +:+ ": " +:+ d +:+ "    inet " +:+ a +:+ "/" +:+ p +:+ r
  | Inet6 i d r => str_nat i +:+ ": " +:+ d +:+ "    inet6 " +:+ r
  end.
Definition addr_of (l : ip_line) : option (string * string * string) :=
  match l with Inet _ d a p _ => Some (d, a, p) | Inet6 _ _ _ => None end.

Lemma ends_word d t : sall is_word d = true -> d <> EmptyString -> ends is_space (d +:+ t).
Proof.
  destruct d as [|c d]; [done|]. cbn. intros [Hc _]%andb_true_iff _. unfold is_word, is_alpha, is_digit, digit_val in Hc.
  by destruct c as [[] [] [] [] [] [] [] []].
Qed.
Lemma ends_addr a t : sall is_addr_char a = true -> a <> EmptyString -> ends is_space (a +:+ t).
Proof.
  destruct a as [|c a]; [done|]. cbn. intros [Hc _]%andb_true_iff _. unfold is_addr_char, is_digit, digit_val in Hc.
  by destruct c as [[] [] [] [] [] [] [] []].
Qed.

Lemma parse_addr_text l : ip_line_wf l -> parse_addr_line (addr_text l) = addr_of l.
Proof.
  destruct l as [i d a p r|i d r]; unfold parse_addr_line, addr_text, addr_of.
  - intros ([Hd Hdn] & [Ha Han] & [Hp Hpn] & Hr).
    rewrite span_ends by apply ends_digits, is_digit_not_space.
    rewrite span1_app by (done || auto with scan). cbn [mbind option_bind].
    change (": " +:+ ?x) with (":" +:+ " " +:+ x). rewrite strip_prefix_app. cbn [mbind option_bind].
    rewrite (span1_app is_space " ") by (done || by apply ends_word). cbn [mbind option_bind].
    rewrite span1_app by done. cbn [mbind option_bind].
    change ("    inet " +:+ ?x) with ("    " +:+ "inet" +:+ " " +:+ x).
    rewrite (span1_app is_space "    ") by done. cbn [mbind option_bind]. rewrite strip_prefix_app. cbn [mbind option_bind].
    rewrite (span1_app is_space " ") by (done || by apply ends_addr). cbn [mbind option_bind].
    rewrite span1_app by done. cbn [mbind option_bind]. rewrite strip_prefix_app. cbn [mbind option_bind].
    by rewrite span1_app.
  - intros [Hd Hdn].
    rewrite span_ends by apply ends_digits, is_digit_not_space.
    rewrite span1_app by (done || auto with scan). cbn [mbind option_bind].
    change (": " +:+ ?x) with (":" +:+ " " +:+ x). rewrite strip_prefix_app. cbn [mbind option_bind].
    rewrite (span1_app is_space " ") by (done || by apply ends_word). cbn [mbind option_bind].
    rewrite span1_app by done. cbn [mbind option_bind].
    change ("    inet6 " +:+ ?x) with ("    " +:+ "inet" +:+ "6 " +:+ x).
    rewrite (span1_app is_space "    ") by done. cbn [mbind option_bind]. by rewrite strip_prefix_app.
Qed.

(** *** Versions *)

Definition version_text (a b c : nat) (ext : string) : string :=
  str_nat a +:+ "." +:+ str_nat b +:+ "." +:+ str_nat c +:+ ext.
Lemma parse_version_text a b c ext : ends is_digit ext ->
  parse_version_tuple (version_text a b c ext) = Ok (Z.of_nat a, Z.of_nat b, Z.of_nat c).
Proof.
  intros He. unfold parse_version_tuple, version_text.
  rewrite span1_app by (done || auto with scan). cbn [mbind option_bind]. rewrite strip_prefix_app. cbn [mbind option_bind].
  rewrite span1_app by (done || auto with scan). cbn [mbind option_bind]. rewrite strip_prefix_app. cbn [mbind option_bind].
  rewrite span1_app by (done || auto with scan). cbn [res_of_option mbind res_bind option_bind].
  rewrite !py_int_str_nat. done.
Qed.
Definition version_char (c : ascii) : bool := negb (scontains c " -").
Lemma digits_version_chars n : sall version_char (str_nat n) = true.
Proof.
  eapply sall_impl; [|apply str_nat_digits]. intros c. unfold is_digit, digit_val, version_char.
  by destruct c as [[] [] [] [] [] [] [] []].
Qed.
Lemma parse_version_line_text a b c ext tail : sall version_char ext = true -> ends version_char tail ->
  parse_version_line ("version: " +:+ version_text a b c ext +:+ tail) = Some (version_text a b c ext).
Proof.
  intros He Ht. unfold parse_version_line. rewrite strip_prefix_app. cbn [mbind option_bind].
  fold version_char. rewrite span1_app; [done| | |done].
  - unfold version_text. by rewrite !sall_app, !digits_version_chars, He.
  - unfold version_text. pose proof (str_nat_ne a). by destruct (str_nat a).
Qed.
Lemma parse_hash_line_text kind hash rest : kind ∈ ["srcversion"; "GIT-hash"] -> sall is_hex hash = true ->
  hash <> EmptyString -> ends is_hex rest -> parse_hash_line (kind +:+ ": " +:+ hash +:+ rest) = Some hash.
Proof.
  intros Hk Hh Hne Hr. unfold parse_hash_line.
  assert (Hs : match strip_prefix "srcversion" (kind +:+ ": " +:+ hash +:+ rest) with Some s => Some s
               | None => strip_prefix "GIT-hash" (kind +:+ ": " +:+ hash +:+ rest) end = Some (": " +:+ hash +:+ rest)).
  { apply elem_of_cons in Hk as [->|[->|[]%elem_of_nil]%elem_of_cons]; [by rewrite strip_prefix_app|].
    destruct (strip_prefix "srcversion" _) as [t|] eqn:Ht; [by apply strip_prefix_Some in Ht|]. by rewrite strip_prefix_app. }
  rewrite Hs. cbn [mbind option_bind]. rewrite strip_prefix_app. cbn [mbind option_bind]. by rewrite span1_app.
Qed.

(** *** The default route *)

Lemma src_addrs_none ws : "src" ∉ ws -> src_addrs ws = [].
Proof.
  induction ws as [|k ws IH]; [done|]. intros [Hk Hws]%not_elem_of_cons. destruct ws as [|v ws]; [done|].
  cbn [src_addrs]. rewrite decide_False by done. by apply IH.
Qed.
Lemma src_addrs_one pre a post : "src" ∉ pre -> "src" ∉ a :: post -> src_addrs (pre ++ "src" :: a :: post) = [a].
Proof.
  induction pre as [|k pre IH]; intros Hpre Hpost.
  - cbn [app src_addrs]. rewrite decide_True by done. f_equal. exact (src_addrs_none (a :: post) Hpost).
  - apply not_elem_of_cons in Hpre as [Hk Hpre]. cbn [app].
    assert (Hs : src_addrs (k :: pre ++ "src" :: a :: post) = src_addrs (pre ++ "src" :: a :: post)).
    { destruct pre as [|k' pre]; cbn [app src_addrs]; by rewrite (decide_False (P := k = "src")). }
    rewrite Hs. by apply IH.
Qed.

(** ** Lemmas: the state *)

Definition with_env (e : env) (s : setup) : setup :=
  Setup e (s_info s) (s_backend s) (s_backing s) (s_version s) (s_git_hash s) (s_netdevs s).
Definition any_error (e : exn) (s : setup) : Prop := True.

Section wp.
Context `{SshServer}.
Implicit Types (s : setup).

Lemma wp_on_host {A} (m : host_info -> M env A) (Q : A -> setup -> Prop) s :
  (forall a e, m (s_info s) (s_env s) = (Ok a, e) -> Q a (with_env e s)) -> wp (on_host m) Q any_error s.
Proof. intros HQ. unfold wp, on_host. destruct (m _ _) as [[a|x] e] eqn:Hm; [by apply HQ|done]. Qed.
Lemma do_run_answer cmd s :
  do_run cmd s =
  (match ssh (sent_log (s_env s)) (sent_run (s_info s) cmd) with
   | Ok (code, _) => if (code =? 0)%Z then Ok tt else Raise (CalledProcessError code (s_command (sent_run (s_info s) cmd)))
   | Raise x => Raise x
   end, with_env (push (sent_run (s_info s) cmd) (s_env s)) s).
Proof. unfold do_run, on_host. by rewrite run_answer. Qed.
Lemma wp_do_run cmd (Q : unit -> setup -> Prop) s : (forall e, Q tt (with_env e s)) -> wp (do_run cmd) Q any_error s.
Proof. intros HQ. apply wp_on_host. intros [] e _. apply HQ. Qed.
(** The answer to a command, when it is always the same *)
Definition answers (h : host_info) (cmd : list string) (out : string) : Prop :=
  forall log, ssh log (sent_run h cmd) = Ok (0%Z, out).
Lemma wp_do_run_out cmd out (Q : string -> setup -> Prop) s : answers (s_info s) cmd out ->
  Q (strip out) (with_env (push (sent_run (s_info s) cmd) (s_env s)) s) -> wp (do_run_out cmd) Q any_error s.
Proof. intros Ha HQ. apply wp_on_host. intros a e. rewrite run_out_answer, Ha. by intros [= <- <-]. Qed.
Lemma wp_any_out cmd (Q : string -> setup -> Prop) s : (forall out e, Q out (with_env e s)) -> wp (do_run_out cmd) Q any_error s.
Proof. intros HQ. apply wp_on_host. intros a e _. apply HQ. Qed.
End wp.

(** *** Addresses *)

(** The addresses besides the default one *)
Definition other_addresses (default_addr : string) (lines : list ip_line) : list (string * string * string) :=
  filter (fun l => snd (fst l) <> "127.0.0.1" /\ snd (fst l) <> default_addr) (omap addr_of lines).
Definition netdevs_from (d : dict string (string * string)) (l : list (string * string * string)) : dict string (string * string) :=
  foldl (fun d '(dev, a, p) => d_set dev (a, p) d) d l.
Definition addr_list (multi_paths : bool) (l : list (string * string * string)) : list string :=
  if multi_paths then map (fun x => snd (fst x)) l else [].

Lemma add_addresses multi_paths lines s : Forall ip_line_wf lines ->
  for_each (map addr_text lines) (add_address multi_paths) s =
  (Ok tt, Setup (s_env s)
    (with_addrs (h_addrs (s_info s) ++ addr_list multi_paths (other_addresses (h_addr (s_info s)) lines)) (s_info s))
    (s_backend s) (s_backing s) (s_version s) (s_git_hash s)
    (netdevs_from (s_netdevs s) (other_addresses (h_addr (s_info s)) lines))).
Proof.
  intros Hl. revert s. induction Hl as [|l lines Hw _ IH]; intros s.
  - destruct s as [e [] ? ? ? ? ?]. cbn. unfold addr_list, with_addrs. cbn. by destruct multi_paths; rewrite app_nil_r.
  - cbn [map for_each]. mred. unfold add_address at 1. rewrite parse_addr_text by done. unfold other_addresses. cbn [omap list_omap].
    destruct (addr_of l) as [[[d a] p]|]; [|exact (IH s)].
    rewrite filter_cons. cbn [fst snd]. unfold gets. mred.
    destruct (decide (a = "127.0.0.1" \/ a = h_addr (s_info s))) as [Hd|Hd].
    + rewrite decide_False by tauto. exact (IH s).
    + rewrite decide_True by tauto. destruct multi_paths; cbn [when]; unfold set_info, set_netdev, modify; mred.
      * rewrite IH. cbn. do 2 f_equal. by rewrite <-app_assoc.
      * by rewrite IH.
Qed.

(** *** Initialising a Linux host *)

Section linux.
Context `{SshServer}.

(** The state changes in the commands that were sent, only. *)
Definition only_env (s s' : setup) : Prop := exists e, s' = with_env e s.
#[export] Instance only_env_preorder : PreOrder only_env.
Proof.
  split; [intros s; exists (s_env s); by destruct s|].
  intros s s1 s2 [e1 ->] [e2 ->]. by exists e2.
Qed.
Lemma keeps_on_host {A} (m : host_info -> M env A) : keeps only_env (on_host m).
Proof. intros s. unfold on_host. destruct (m _ _) as [r e]. by exists e. Qed.
Lemma keeps_ensure_netdev netns : keeps only_env (ensure_netdev netns).
Proof.
  unfold ensure_netdev. generalize (if truthy_str netns then netns else None). intros ns.
  apply keeps_bind; [exact _|apply keeps_gets; exact _|intros devs]. apply keeps_for_each; [exact _|].
  intros [d [a p]] _. apply keeps_bind; [exact _|destruct ns; [apply keeps_on_host|apply keeps_ret; exact _]|intros _].
  apply keeps_bind; [exact _| |intros _; apply keeps_on_host].
  apply keeps_called; [exact _|apply keeps_on_host|intros _; apply keeps_ret; exact _].
Qed.
Lemma wp_only_env {A} (m : M setup A) (Q : A -> setup -> Prop) s :
  keeps only_env m -> (forall a e, Q a (with_env e s)) -> wp m Q any_error s.
Proof. intros Hm HQ. eapply wp_keeps; [exact Hm| |done]. intros a s' [e ->]. apply HQ. Qed.

(** The addresses in the name space, from the last loop of [init_host] *)
Lemma wp_add_all (l : list (string * string)) (Q : unit -> setup -> Prop) s :
  Q tt (Setup (s_env s) (with_addrs (h_addrs (s_info s) ++ map fst l) (s_info s)) (s_backend s) (s_backing s)
          (s_version s) (s_git_hash s) (s_netdevs s)) ->
  wp (for_each l (fun '(address, _) =>
    let* h := gets s_info in set_info (with_addrs (h_addrs h ++ [address])))) Q any_error s.
Proof.
  revert s. induction l as [|[a p] l IH]; intros s HQ.
  - destruct s as [e [] ? ? ? ? ?]. cbn in *. by rewrite app_nil_r in HQ.
  - cbn [for_each]. apply wp_bind, wp_bind, wp_gets, wp_modify, IH. cbn in *. by rewrite <-app_assoc.
Qed.
Lemma wp_enter_netns netns (Q : unit -> setup -> Prop) s :
  (s_netdevs s <> [] -> forall e, Q tt (Setup e (with_netns netns (with_addrs (map fst (d_values (s_netdevs s))) (s_info s)))
     (s_backend s) (s_backing s) (s_version s) (s_git_hash s) (s_netdevs s))) ->
  wp (enter_netns netns) Q any_error s.
Proof.
  intros HQ. apply wp_bind, wp_gets, wp_bind. destruct (bool_decide _) eqn:Hd; [done|].
  apply bool_decide_eq_false in Hd. specialize (HQ Hd).
  apply wp_ret, wp_bind, wp_modify, wp_bind, wp_do_run. intros e1. apply wp_bind, wp_add_all, wp_bind, wp_gets, wp_bind.
  destruct (_ <? 1); [done|]. apply wp_ret, wp_bind, wp_do_run. intros e2. apply wp_bind, wp_modify.
  apply wp_only_env; [apply keeps_ensure_netdev|]. intros [] e3. apply HQ.
Qed.
End linux.

(** ** Properties *)

(** C29: on a host whose addresses are [lines], [init_host] finds the default
    address and the other ones: [addrs] has the default one first and, with
    multiple paths, the other_addresses in order; in a network name space it has those
    of the devices that were moved there, and there is at least one. *)
Theorem init_host_finds_the_addresses `{SshServer} lines pre default_addr post out route_out backend backing
    multi_paths netns s s' :
  Forall ip_line_wf lines -> splitlines (strip out) = map addr_text lines ->
  strip route_out = join " " (pre ++ "src" :: default_addr :: post) ->
  Forall (fun w => scontains " "%char w = false) (pre ++ "src" :: default_addr :: post) ->
  "src" ∉ pre -> "src" ∉ default_addr :: post ->
  answers (s_info s) ["ip"; "-oneline"; "addr"; "show"] out ->
  answers (s_info s) ["ip"; "-4"; "route"; "get"; "1"] route_out ->
  s_netdevs s = [] -> h_netns (s_info s) = None ->
  linux_init_host backend backing multi_paths netns s = (Ok tt, s') ->
  let found := other_addresses default_addr lines in
  s_netdevs s' = netdevs_from [] found /\
  h_addrs (s_info s') =
    (if truthy_str netns then map fst (d_values (netdevs_from [] found)) else default_addr :: addr_list multi_paths found) /\
  h_netns (s_info s') = (if truthy_str netns then netns else None) /\
  (multi_paths || truthy_str netns = true -> found <> []).
Proof.
  intros Hl Hout Hroute Hws Hpre Hpost Haddr Hget Hdevs Hns Hrun found.
  pattern s'. eapply (wp_elim _ _ any_error); [|exact Hrun].
  unfold linux_init_host. apply wp_bind, wp_modify, wp_bind, wp_modify, wp_bind, wp_any_out. intros os e1.
  apply wp_bind. destruct (splitlines os) as [|os_id [|os_version [|]]]; try done. apply wp_modify.
  apply wp_bind. unfold get_default_addr. apply wp_bind. eapply wp_do_run_out; [exact Hget|].
  rewrite strip_idem, Hroute, split_join, src_addrs_one by (done || by destruct pre). apply wp_ret.
  apply wp_bind, wp_modify, wp_bind, wp_modify, wp_bind. eapply wp_do_run_out; [exact Haddr|].
  rewrite Hout. apply wp_bind. unfold wp at 1. rewrite add_addresses by done. cbn. fold found. rewrite Hdevs.
  apply wp_bind, wp_gets, wp_bind, wp_gets. cbn [s_netdevs s_info].
  apply wp_bind. destruct (multi_paths && _) eqn:Hm; [done|]. apply wp_ret, wp_bind.
  assert (Hnone : multi_paths = true -> found <> []).
  { intros ->. cbn in Hm. apply bool_decide_eq_false in Hm. by intros ->. }
  destruct (truthy_str netns) eqn:Ht; cbn [when].
  - destruct netns as [ns|]; [|done]. apply wp_enter_netns. intros Hf e. apply wp_do_run. intros e'. cbn in Hf |- *.
    split_and!; [done..|]. intros _. by intros ->.
  - apply wp_ret, wp_do_run. intros e. split_and!; [done..|]. by rewrite orb_false_r.
Qed.

(** when the host answers with the version file of DRBD, its version and
    the hash of its source, in either of the two spellings, are recorded. *)
Theorem drbd_version_is_read `{SshServer} a b c ext tail kind hash rest more out out0 s :
  sall version_char ext = true -> ends is_digit ext -> ends version_char tail ->
  kind ∈ ["srcversion"; "GIT-hash"] -> sall is_hex hash = true -> hash <> EmptyString -> ends is_hex rest ->
  splitlines (strip out) =
    ("version: " +:+ version_text a b c ext +:+ tail) :: (kind +:+ ": " +:+ hash +:+ rest) :: more ->
  answers (s_info s) ["bash"; "-c"; "cat /proc/drbd > /dev/kmsg || modprobe drbd"] out0 ->
  answers (s_info s) ["cat"; "/proc/drbd"] out ->
  exists e, linux_read_drbd_version s =
    (Ok tt, Setup e (with_version (Z.of_nat a, Z.of_nat b, Z.of_nat c) (s_info s)) (s_backend s) (s_backing s)
      (Some (version_text a b c ext)) (Some (lower hash)) (s_netdevs s)).
Proof.
  intros He Hd Ht Hk Hh Hne Hr Hout H0 H1. eexists. unfold linux_read_drbd_version, do_run, do_run_out, on_host. mred.
  rewrite run_answer, H0. cbn [s_info s_env Z.eqb]. rewrite run_out_answer, H1. cbn [s_info s_env Z.eqb].
  rewrite Hout. unfold lift. rewrite (py_index_nat _ 0), (py_index_nat _ 1). cbn [lookup list_lookup res_of_option].
  rewrite parse_version_line_text, parse_hash_line_text by done. cbn [group res_of_option]. unfold set_version, set_git_hash, set_info, modify.
  rewrite parse_version_text by done. reflexivity.
Qed.

(** [rmmod] takes out the transports first when there are any to expect;
    that one of them is not loaded, or fails to go, does not matter: it ends
    well exactly when [rmmod drbd] does and fails with its status otherwise,
    after it has asked for the reference counts. *)
Theorem rmmod_fails_only_for_drbd `{SshServer} s :
  let h := s_info s in
  let transports := if version_geb (h_version h) drbd9 then
      [["rmmod"; "drbd_transport_tcp"]; ["rmmod"; "drbd_transport_lb-tcp"]; ["rmmod"; "drbd_transport_rdma"]] else [] in
  let log := sent_log (s_env s) ++ map (sent_run h) transports in
  let s' := snd (linux_rmmod s) in
  match ssh log (sent_run h ["rmmod"; "drbd"]) with
  | Ok (code, _) =>
      if (code =? 0)%Z then
        fst (linux_rmmod s) = Ok tt /\ sent_log (s_env s') = log ++ [sent_run h ["rmmod"; "drbd"]]
      else
        sent_log (s_env s') = log ++ map (sent_run h) [["rmmod"; "drbd"]; ["cat"; "/sys/kernel/debug/drbd/reference_counts"]] /\
        ((exists r, ssh (log ++ [sent_run h ["rmmod"; "drbd"]])
            (sent_run h ["cat"; "/sys/kernel/debug/drbd/reference_counts"]) = Ok r) ->
         fst (linux_rmmod s) = Raise (CalledProcessError code (s_command (sent_run h ["rmmod"; "drbd"]))))
  | Raise e => fst (linux_rmmod s) <> Ok tt
  end.
Proof.
  intros h transports log s'.
  assert (Htry : forall cmd s, try_except (do_run cmd) (fun _ => mret tt) s = (Ok tt, with_env (push (sent_run (s_info s) cmd) (s_env s)) s)).
  { intros cmd s0. unfold try_except. rewrite do_run_answer. by destruct (ssh _ _) as [[code out]|x]; [destruct (code =? 0)%Z|]. }
  assert (Hrest : exists e, sent_log e = log /\ linux_rmmod s =
    except_called (do_run ["rmmod"; "drbd"]) (fun e =>
      on_host (fun h => let* _ := run_with h true true false false None
                                    ["cat"; "/sys/kernel/debug/drbd/reference_counts"] in mret tt) ;;;
      raise e) (with_env e s)).
  { unfold linux_rmmod, gets, when. mred. fold h. unfold log, transports. destruct (version_geb (h_version h) drbd9).
    - rewrite !Htry. eexists. split; [|reflexivity]. cbn. by rewrite <-!app_assoc.
    - exists (s_env s). split; [by rewrite app_nil_r|]. by destruct s. }
  destruct Hrest as (e & He & Hr). subst s'. rewrite Hr. unfold except_called, try_except. rewrite do_run_answer.
  cbn [s_env s_info with_env]. fold h. rewrite He.
  set (cat := on_host _). set (last := with_env _ _).
  assert (Hend : forall x, fst ((cat ;;; raise x) last) <> Ok tt) by (intros x; mred; by destruct (cat last) as [[]]).
  destruct (ssh log (sent_run h ["rmmod"; "drbd"])) as [[code out]|x]; [|destruct x; (done || apply Hend)].
  destruct (code =? 0)%Z; [by rewrite <-He|]. mred. clear Hend. subst cat. unfold on_host, last. cbn [s_info s_env with_env]. fold h. mred.
  rewrite run_with_answer. cbn [push sent_log]. rewrite He. fold (sent_run h ["cat"; "/sys/kernel/debug/drbd/reference_counts"]).
  destruct (ssh (log ++ _) _) as [[c o]|x]; cbn [andb negb orb].
  - rewrite orb_true_r. cbn. split; [by rewrite <-app_assoc|done].
  - cbn. split; [by rewrite <-app_assoc|]. by intros [r Hx].
Qed.

(** ** Witnesses *)

Definition demo_setup : setup := new_setup (Env [] ∅) "alpha" "vg".
Definition demo_lines : list ip_line :=
  [Inet 1 "lo" "127.0.0.1" "8" " scope host lo"; Inet6 1 "lo" "::1/128 scope host";
   Inet 2 "ens3" "10.0.0.1" "24" " brd 10.0.0.255"; Inet 3 "ens4" "10.1.0.1" "24" EmptyString].
Definition demo_route : string := "1.0.0.0 via 10.0.0.254 dev ens3 src 10.0.0.1 uid 0".
Definition demo_proc_drbd : string :=
  "version: 9.2.13-rc.1 (api:2/proto:118-122)" +:+ newline +:+ "GIT-hash: 0A1b2c build by lbtest" +:+ newline.
#[local] Instance demo_server : SshServer := fun _ s =>
  let sends cmd := bool_decide (s_command s = join " " (map shlex_quote cmd)) in
  Ok (0%Z, if sends ["ip"; "-oneline"; "addr"; "show"] then join newline (map addr_text demo_lines)
           else if sends ["ip"; "-4"; "route"; "get"; "1"] then demo_route
           else if sends ["cat"; "/proc/drbd"] then demo_proc_drbd
           else "debian" +:+ newline +:+ "12").

Lemma init_host_finds_the_addresses_witness :
  h_addrs (s_info (snd (linux_init_host "lvm" "/dev/vdb" true None demo_setup))) = ["10.0.0.1"; "10.1.0.1"].
Proof.
  apply (init_host_finds_the_addresses demo_lines ["1.0.0.0"; "via"; "10.0.0.254"; "dev"; "ens3"] "10.0.0.1" ["uid"; "0"]
    (join newline (map addr_text demo_lines)) demo_route "lvm" "/dev/vdb" true None demo_setup).
  - repeat constructor; discriminate.
  - vm_compute. reflexivity.
  - vm_compute. reflexivity.
  - repeat constructor.
  - apply (bool_decide_unpack _). vm_compute. exact I.
  - apply (bool_decide_unpack _). vm_compute. exact I.
  - intros log. vm_compute. reflexivity.
  - intros log. vm_compute. reflexivity.
  - reflexivity.
  - reflexivity.
  - vm_compute. reflexivity.
Defined.

Lemma drbd_version_is_read_witness :
  exists e, linux_read_drbd_version demo_setup =
    (Ok tt, Setup e (with_version (9, 2, 13)%Z (s_info demo_setup)) EmptyString EmptyString (Some "9.2.13") (Some "0a1b2c") []).
Proof.
  apply (drbd_version_is_read 9 2 13 EmptyString "-rc.1 (api:2/proto:118-122)" "GIT-hash" "0A1b2c" " build by lbtest" []
    demo_proc_drbd ("debian" +:+ newline +:+ "12") demo_setup).
  all: try (vm_compute; reflexivity).
  - right. left.
  - discriminate.
Defined.
