(* ===== verification/VersionCheck.v ===== *)
(** * The versions of DRBD in a cluster (src/python/drbdtest.py)

    [validate_drbd_versions] compares the version found on each host with the
    one expected there, which may be a pattern of the shell, and the sources of
    the hosts that should have the same; [write_drbd_versions_meta] records
    what was found.  The matching of [fnmatch.fnmatchcase] is modelled, too. *)

From S2P Require Import Prelude PyStr Dict Json Host.

(** ** Shell patterns *)

Inductive token :=
| TStar
| TAny
| TChar (c : ascii)
| TSet (negated : bool) (stuff : string).

(** The elements of a set, from left to right: a range, or one character *)
Fixpoint in_set (fuel : nat) (c : ascii) (stuff : string) : bool :=
  match fuel, stuff with
  | S fuel, String a (String d (String b rest) as rest1) =>
      if decide (d = "-"%char) then ((code a <=? code c) && (code c <=? code b))%N || in_set fuel c rest
      else bool_decide (c = a) || in_set fuel c rest1
  | S fuel, String a rest => bool_decide (c = a) || in_set fuel c rest
  | _, _ => false
  end.
Definition set_matches (negated : bool) (stuff : string) (c : ascii) : bool :=
  xorb negated (in_set (slen stuff) c stuff).

(** The text up to a closing bracket, and the rest *)
Fixpoint until_bracket (s : string) : option (string * string) :=
  match s with
  | String c s' => if decide (c = "]"%char) then Some (EmptyString, s')
                   else (fun '(t, r) => (String c t, r)) <$> until_bracket s'
  | EmptyString => None
  end.
(** The set after an opening bracket; a closing bracket right at the start of
    the set belongs to it. *)
Definition read_set (s : string) : option (bool * string * string) :=
  let '(negated, s) := match s with
                       | String c s' => if decide (c = "!"%char) then (true, s') else (false, s)
                       | EmptyString => (false, s)
                       end in
  match s with
  | String c s' =>
      if decide (c = "]"%char) then (fun '(t, r) => (negated, String c t, r)) <$> until_bracket s'
      else (fun '(t, r) => (negated, t, r)) <$> until_bracket s
  | EmptyString => None
  end.
Fixpoint tokens (fuel : nat) (pat : string) : list token :=
  match fuel, pat with
  | S fuel, String c pat =>
      if decide (c = "*"%char) then TStar :: tokens fuel pat
      else if decide (c = "?"%char) then TAny :: tokens fuel pat
      else if decide (c = "["%char) then
        match read_set pat with
        | Some (negated, stuff, pat) => TSet negated stuff :: tokens fuel pat
        | None => TChar c :: tokens fuel pat
        end
      else TChar c :: tokens fuel pat
  | _, _ => []
  end.

Definition token_matches (t : token) (c : ascii) : bool :=
  match t with
  | TStar | TAny => true
  | TChar d => bool_decide (c = d)
  | TSet negated stuff => set_matches negated stuff c
  end.
Fixpoint glob (p : list token) (s : string) : bool :=
  match p with
  | [] => bool_decide (s = EmptyString)
  | TStar :: p =>
      (fix star (s : string) : bool :=
         glob p s || match s with String _ s => star s | EmptyString => false end) s
  | t :: p => match s with String c s => token_matches t c && glob p s | EmptyString => false end
  end.
(** [fnmatch.fnmatchcase(name, pat)] *)
Definition fnmatchcase (name pat : string) : bool := glob (tokens (slen pat) pat) name.

(** ** Checking the hosts *)

Record checked_host := CheckedHost {
  c_info : host_info;
  drbd_version : string;
  drbd_git_hash : string;
  has_other_version : bool
}.
Definition set_text (o : option string) : option string :=
  match o with Some s => if decide (s = EmptyString) then None else Some s | None => None end.

Section versions.
Context (version version_other : option string).

(** What is expected on a host, and whether its source is compared *)
Definition expectation (h : checked_host) : option (string * bool) :=
  match set_text version_other with
  | Some v => if has_other_version h then Some (v, false)
              else (fun v => (v, true)) <$> set_text version
  | None => (fun v => (v, true)) <$> set_text version
  end.
Fixpoint check_versions (hosts : list checked_host) (git_hashes : list string) : res (list string) :=
  match hosts with
  | [] => Ok git_hashes
  | h :: hosts =>
      match expectation h with
      | None => check_versions hosts git_hashes
      | Some (expect_version, same_source) =>
          let git_hashes := if same_source && negb (bool_decide (drbd_git_hash h ∈ git_hashes))
                            then git_hashes ++ [drbd_git_hash h] else git_hashes in
          if fnmatchcase (drbd_version h) expect_version then check_versions hosts git_hashes
          else Raise (RuntimeError (h_name (c_info h) +:+ ": expect DRBD version '" +:+ expect_version +:+
                                    "'; found '" +:+ drbd_version h +:+ "'"))
      end
  end.
Definition validate_drbd_versions (hosts : list checked_host) : res unit :=
  let* git_hashes := check_versions hosts [] in
  if 1 <? length git_hashes then
    Raise (RuntimeError ("Differing git hashes found for DRBD version '" +:+ default "None" version +:+ "'"))
  else Ok tt.
End versions.

(** ** Recording them *)

Section meta.
Context `{SshServer} (helper : string).

(** [run_helper(..., return_stdout=True)] of the script with the text [helper] *)
Definition run_helper_out (h : host_info) (helper_name : string) (args : list string) : M env string :=
  install_helper h helper ("/tmp/" +:+ helper_name) ;;;
  run_out h (("/tmp/" +:+ helper_name) :: args).
Definition host_entry (h : checked_host) : M env json :=
  let* pkg := except_called (run_helper_out (c_info h) "installed-drbd-package" []) (fun _ => mret EmptyString) in
  mret (JObj [("version", JStr (drbd_version h)); ("git_hash", JStr (drbd_git_hash h)); ("package", JStr pkg)]).
(** The text that is written *)
Definition write_drbd_versions_meta (hosts : list checked_host) : M env string :=
  let* data := fold_each hosts (fun d h => let* e := host_entry h in mret (d_set (h_name (c_info h)) e d)) [] in
  mret (dumps (JObj data)).
End meta.

(** ** What a pattern means *)

Inductive matches : list token -> string -> Prop :=
| matches_nil : matches [] EmptyString
| matches_star p a s : matches p s -> matches (TStar :: p) (a +:+ s)
| matches_one t p c s : t <> TStar -> token_matches t c = true -> matches p s -> matches (t :: p) (String c s).

Lemma glob_star p s : glob (TStar :: p) s = glob p s || match s with String _ s => glob (TStar :: p) s | EmptyString => false end.
Proof. by destruct s. Qed.
Lemma glob_one t p s : t <> TStar ->
  glob (t :: p) s = match s with String c s => token_matches t c && glob p s | EmptyString => false end.
Proof. by destruct t. Qed.
#[export] Instance token_eq_dec : EqDecision token.
Proof. solve_decision. Defined.

Lemma glob_spec p s : glob p s = true <-> matches p s.
Proof.
  split.
  - revert s. induction p as [|t p IH]; intros s Hg.
    { apply bool_decide_eq_true in Hg as ->. constructor. }
    destruct (decide (t = TStar)) as [->|Ht].
    + induction s as [|c s IHs]; rewrite glob_star in Hg; apply orb_true_iff in Hg as [Hg|Hg].
      * apply (matches_star p EmptyString), IH, Hg.
      * done.
      * apply (matches_star p EmptyString), IH, Hg.
      * apply IHs in Hg. inversion Hg as [|? a s' Hm|]; subst; [|done]. by apply (matches_star p (String c a)).
    + rewrite glob_one in Hg by done. destruct s as [|c s]; [done|]. apply andb_true_iff in Hg as [Hc Hg].
      constructor; [done|done|by apply IH].
  - induction 1 as [|p a s _ IH|t p c s Ht Hc _ IH]; [done| |].
    + induction a as [|c a IHa]; rewrite glob_star; [by rewrite sapp_nil, IH|]. rewrite sapp_cons, IHa. apply orb_true_r.
    + by rewrite glob_one, Hc.
Qed.

(** A character with no meaning of its own *)
Definition plain (c : ascii) : bool := negb (scontains c "*?[").
Lemma tokens_plain s pat fuel : sall plain s = true -> tokens (slen s + fuel) (s +:+ pat) = map TChar (chars s) ++ tokens fuel pat.
Proof.
  revert fuel. induction s as [|c s IH]; intros fuel; [done|]. cbn [sall]. intros [Hc Hs]%andb_true_iff. rewrite sapp_cons.
  change (slen (String c s) + fuel) with (S (slen s + fuel)). cbn [tokens chars map app]. unfold plain in Hc. cbn in Hc.
  rewrite negb_true_iff, !orb_false_iff, !bool_decide_eq_false in Hc. destruct Hc as (H1 & H2 & H3 & _).
  rewrite !decide_False by congruence. by rewrite IH.
Qed.
Lemma matches_chars s p t : matches (map TChar (chars s) ++ p) t <-> exists r, t = s +:+ r /\ matches p r.
Proof.
  split.
  - revert t. induction s as [|c s IH]; intros t Hm; [by exists t|]. cbn in Hm. inversion Hm as [| |? ? d t' _ Hd Hm']; subst.
    cbn in Hd. apply bool_decide_eq_true in Hd as ->. apply IH in Hm' as (r & -> & Hr). by exists r.
  - intros (r & -> & Hr). induction s as [|c s IH]; [done|]. rewrite sapp_cons. cbn. constructor; [done|by apply bool_decide_eq_true|done].
Qed.

(** What the loop over the hosts finds *)
Section check.
Context (version version_other : option string).

Definition as_expected (h : checked_host) : Prop :=
  forall v same, expectation version version_other h = Some (v, same) -> matches (tokens (slen v) v) (drbd_version h).
Definition compared (h : checked_host) : Prop := exists v, expectation version version_other h = Some (v, true).

Lemma check_versions_spec hosts l : NoDup l ->
  match check_versions version version_other hosts l with
  | Ok l' => NoDup l' /\ (forall h, h ∈ hosts -> as_expected h) /\
             forall x, x ∈ l' <-> x ∈ l \/ exists h, h ∈ hosts /\ compared h /\ drbd_git_hash h = x
  | Raise _ => exists h, h ∈ hosts /\ ~ as_expected h
  end.
Proof.
  revert l. induction hosts as [|h hosts IH]; intros l Hl.
  { cbn. split_and!; [done|by intros h ?%elem_of_nil|]. intros x. split; [by left|]. by intros [?|(h & ?%elem_of_nil & _)]. }
  cbn [check_versions]. destruct (expectation version version_other h) as [[v same]|] eqn:He.
  2: { assert (Hh : as_expected h /\ ~ compared h) by (split; [intros v s; congruence|intros [v Hv]; congruence]).
       specialize (IH l Hl). destruct (check_versions _ _ _ l) as [l'|]; [destruct IH as (H1 & H2 & H3)|set_solver].
       split_and!; [done|set_solver|]. intros x. rewrite H3. set_solver. }
  set (l1 := if same && _ then _ else l).
  assert (H1 : NoDup l1 /\ forall x, x ∈ l1 <-> x ∈ l \/ (same = true /\ drbd_git_hash h = x)).
  { unfold l1. destruct same; cbn [andb]; [|set_solver]. destruct (decide (drbd_git_hash h ∈ l)) as [Hin|Hin].
    - rewrite bool_decide_true by done. cbn. split; [done|]. intros x. split; [by left|]. by intros [?|[_ <-]].
    - rewrite bool_decide_false by done. cbn. split; [apply NoDup_app; split_and!; [done|set_solver|apply NoDup_singleton]|set_solver]. }
  destruct H1 as [Hl1 Hin1]. destruct (fnmatchcase (drbd_version h) v) eqn:Hm.
  - assert (Hh : as_expected h) by (intros v' s' Hv; rewrite He in Hv; injection Hv as <- <-; by apply glob_spec).
    assert (Hc : compared h <-> same = true) by (split; [intros [v' Hv']; congruence|intros ->; by exists v]).
    specialize (IH l1 Hl1). destruct (check_versions _ _ _ l1) as [l'|]; [destruct IH as (H1 & H2 & H3)|set_solver].
    split_and!; [done|set_solver|]. intros x. rewrite H3, Hin1. set_solver.
  - exists h. split; [by left|]. intros Hh. specialize (Hh v same He). apply glob_spec in Hh. unfold fnmatchcase in Hm. congruence.
Qed.
End check.

(** The entry of a host, for the package that was found *)
Definition entry_of (h : checked_host) (pkg : string) : json :=
  JObj [("version", JStr (drbd_version h)); ("git_hash", JStr (drbd_git_hash h)); ("package", JStr pkg)].
Definition c_name (h : checked_host) : string := h_name (c_info h).

Definition recorded (hosts : list checked_host) (d : dict string json) : Prop :=
  d_keys d = map c_name hosts /\ Forall (fun p => exists h pkg, snd p = entry_of h pkg) d /\
  forall h, h ∈ hosts -> exists pkg, d_get (c_name h) d = Some (entry_of h pkg).
Lemma recorded_step hosts d h pkg : c_name h ∉ map c_name hosts -> recorded hosts d ->
  recorded (hosts ++ [h]) (d_set (c_name h) (entry_of h pkg) d).
Proof.
  intros Hn (Hk & Hf & Hg). split_and!.
  - rewrite d_keys_set, Hk, decide_False, map_app by (by rewrite ?Hk). done.
  - apply d_set_Forall; [done|]. by exists h, pkg.
  - intros h' [Hh| ->%list_elem_of_singleton]%elem_of_app.
    + destruct (Hg h' Hh) as [pkg' Hp]. exists pkg'. rewrite d_get_set, decide_False; [done|]. intros Heq. apply Hn.
      rewrite <-Heq. apply list_elem_of_fmap. by exists h'.
    + exists pkg. by rewrite d_get_set, decide_True.
Qed.
Lemma entries_wf d : NoDup (d_keys d) -> Forall (fun p => exists h pkg, snd p = entry_of h pkg) d -> json_wf (JObj d).
Proof.
  intros Hn Hf. split; [done|]. clear Hn. induction Hf as [|[k j] d (h & pkg & Hj) _ IH]; [done|]. cbn in Hj |- *. subst j. split; [|done].
  split; [|done]. apply (bool_decide_unpack _). vm_compute. exact I.
Qed.

(** ** Properties *)

(** a pattern without special characters stands for itself, and one with
    an asterisk at its end, as in [9.2.*], for all versions that begin with
    the rest; in general the matcher finds whether the text can be divided
    among the parts of the pattern. *)
Theorem version_patterns name s :
  (fnmatchcase name s = true <-> matches (tokens (slen s) s) name) /\
  (sall plain s = true ->
   (fnmatchcase name s = true <-> name = s) /\
   (fnmatchcase name (s +:+ "*") = true <-> startswith s name = true)).
Proof.
  split; [apply glob_spec|]. intros Hs. split; unfold fnmatchcase; rewrite glob_spec.
  - pose proof (tokens_plain s EmptyString 0 Hs) as Ht. rewrite sapp_nil_r, Nat.add_0_r in Ht. rewrite Ht, matches_chars. split.
    + intros (r & -> & Hr). inversion Hr. by rewrite sapp_nil_r.
    + intros ->. exists EmptyString. split; [by rewrite sapp_nil_r|constructor].
  - rewrite slen_app, tokens_plain by done. rewrite matches_chars, startswith_spec. split.
    + intros (r & -> & _). by exists r.
    + intros [r ->]. exists r. split; [done|]. rewrite <-(sapp_nil_r r). constructor. constructor.
Qed.

(** C37: the check passes exactly when every host from which a version is
    expected has a version that matches, and no two hosts from which the
    common version is expected have different sources. *)
Theorem validation_accepts_the_expected_versions version version_other hosts :
  validate_drbd_versions version version_other hosts = Ok tt <->
  (forall h, h ∈ hosts -> as_expected version version_other h) /\
  (forall h h', h ∈ hosts -> h' ∈ hosts -> compared version version_other h -> compared version version_other h' ->
     drbd_git_hash h = drbd_git_hash h').
Proof.
  pose proof (check_versions_spec version version_other hosts [] (NoDup_nil_2)) as Hs. unfold validate_drbd_versions.
  destruct (check_versions version version_other hosts []) as [l|e]; mred.
  2: { split; [done|]. intros [Hall _]. destruct Hs as (h & Hh & Hn). by destruct Hn; apply Hall. }
  destruct Hs as (Hnd & Hall & Hl). destruct (1 <? length l) eqn:Hlen.
  - split; [done|]. intros [_ Heq]. destruct l as [|x [|y l]]; [done..|].
    assert (Hx : x ∈ x :: y :: l) by by left. assert (Hy : y ∈ x :: y :: l) by by right; left.
    apply Hl in Hx as [[]%elem_of_nil|(h & Hh & Hc & <-)]. apply Hl in Hy as [[]%elem_of_nil|(h' & Hh' & Hc' & <-)].
    exfalso. rewrite (Heq h h') in Hnd by done. apply NoDup_cons in Hnd as [Hnd _]. by apply Hnd; left.
  - split; [|done]. intros _. split; [done|]. intros h h' Hh Hh' Hc Hc'.
    assert (Hx : drbd_git_hash h ∈ l) by (apply Hl; right; by exists h). assert (Hy : drbd_git_hash h' ∈ l) by (apply Hl; right; by exists h').
    destruct l as [|x [|y l]]; [by apply elem_of_nil in Hx| |done]. apply list_elem_of_singleton in Hx as ->. by apply list_elem_of_singleton in Hy as ->.
Qed.

(** the record of the versions can be read back: it has an entry for each
    host, in order, with the version and the source found there, whether the
    package could be asked for or not. *)
Theorem versions_record_is_readable `{SshServer} helper hosts e t e' :
  NoDup (map (fun h => h_name (c_info h)) hosts) ->
  write_drbd_versions_meta helper hosts e = (Ok t, e') ->
  exists l, loads t = Ok (JObj l) /\ map fst l = map (fun h => h_name (c_info h)) hosts /\
    forall h, h ∈ hosts -> exists entry, json_key (h_name (c_info h)) (JObj l) = Ok entry /\
      json_key "version" entry = Ok (JStr (drbd_version h)) /\ json_key "git_hash" entry = Ok (JStr (drbd_git_hash h)).
Proof.
  intros Hnd Hw. unfold write_drbd_versions_meta in Hw.
  assert (Hwp : wp (fold_each hosts (fun d h => let* e := host_entry helper h in mret (d_set (h_name (c_info h)) e d)) [])
                  (fun d _ => recorded hosts d) (fun _ _ => True) e).
  { apply wp_fold_each with (I := fun visited d _ => recorded visited d).
    - split_and!; [done|constructor|by intros h ?%elem_of_nil].
    - intros visited d h todo s -> Hr. apply wp_bind. unfold host_entry. apply wp_bind.
      assert (Hn : c_name h ∉ map c_name visited).
      { change (NoDup (map c_name (visited ++ h :: todo))) in Hnd. rewrite map_app in Hnd. apply NoDup_app in Hnd as (_ & Hd & _). intros Hin. apply (Hd _ Hin). by left. }
      unfold wp at 1. destruct (except_called _ _ s) as [[pkg|x] s1]; [|done]. by apply wp_ret, wp_ret, recorded_step. }
  unfold wp in Hwp. revert Hw Hwp. mred. destruct (fold_each _ _ _ e) as [[d|x] e1]; [|done].
  intros [= <- _] (Hk & Hf & Hg). exists d. split_and!; [|done|].
  - refine (loads_dumps (JObj d) (entries_wf d _ Hf)). by rewrite Hk.
  - intros h Hh. destruct (Hg h Hh) as [pkg Hp]. exists (entry_of h pkg). split; [|done].
    cbn [json_key]. unfold c_name in Hp. by rewrite Hp.
Qed.

(** ** Witnesses *)

Definition demo_checked (name version hash : string) (other : bool) : checked_host :=
  CheckedHost (HostInfo name name "vg" None (9, 2, 5)%Z "/var/lib/drbd-test" EmptyString [] (EmptyString, EmptyString) false) version hash other.
Definition demo_hosts : list checked_host :=
  [demo_checked "a" "9.2.5" "0a1b" false; demo_checked "b" "9.2.5" "0a1b" false; demo_checked "c" "8.4.11" "77aa" true].
Example demo_validation : validate_drbd_versions (Some "9.2.*") (Some "8.4.1[0-9]") demo_hosts = Ok tt.
Proof. vm_compute. reflexivity. Qed.

Lemma version_patterns_witness : fnmatchcase "9.2.5-rc.1" ("9.2." +:+ "*") = true.
Proof. destruct (version_patterns "9.2.5-rc.1" "9.2.") as [_ H]. apply H; vm_compute; reflexivity. Defined.

#[local] Instance demo_server : SshServer := fun _ s => Ok (if bool_decide (s_host s = "c") then 1%Z else 0%Z, "drbd-9.2.5-1").
Lemma versions_record_is_readable_witness :
  exists l, loads (match fst (write_drbd_versions_meta "#!/bin/bash" demo_hosts (Env [] ∅)) with Ok t => t | Raise _ => EmptyString end) = Ok (JObj l) /\
    map fst l = ["a"; "b"; "c"].
Proof.
  destruct (versions_record_is_readable "#!/bin/bash" demo_hosts (Env [] ∅)
    (match fst (write_drbd_versions_meta "#!/bin/bash" demo_hosts (Env [] ∅)) with Ok t => t | Raise _ => EmptyString end)
    (snd (write_drbd_versions_meta "#!/bin/bash" demo_hosts (Env [] ∅)))) as (l & Hl & Hm & _).
  - apply (bool_decide_unpack _). vm_compute. exact I.
  - vm_compute. reflexivity.
  - exists l. split; [exact Hl|exact Hm].
Defined.
