(* ===== verification/Disktools.v ===== *)
(** * Storage pools and volumes (src/python/disktools.py)

    The four storage backends, the device mapper layers on top of them and the
    arguments of [create-md], as the commands they run on the host.  Sizes are
    the strings the commands receive. *)

From S2P Require Import Prelude PyStr Dict Host.
From Stdlib Require Import QArith.
#[local] Open Scope Z_scope.

(** ** Data *)

(** A pool; the host it lives on is an argument of its operations. *)
Inductive pool :=
| LvmPool (thin : bool) (discard_granularity : option Z)
| StorageSpacesPool (thin : bool) (backing_device : string)
| RawPool (backing_device : string)
| ZfsPool (thin : bool) (discard_granularity : option Z).

(** The two subclasses of [DeviceMapperTarget] *)
Inductive dm_kind := DelayVolume (delay_ms : Z) | EmulatedBlockSizeVolume (logical_block_size : Z).

Inductive disk_vol :=
| LvmVolume (name lv lvsize : string)
| StorageSpacesVolume (name lv : string)
| RawVolume (backing_device guid device_path start part_number : string)
| ZfsVolume (dataset_name : string)
| DeviceMapper (kind : dm_kind) (device_name sectors : string) (backing_volume : disk_vol).

Definition dm_type (k : dm_kind) : string :=
  match k with DelayVolume _ => "delay" | EmulatedBlockSizeVolume _ => "ebs" end.

Definition volume_path (v : disk_vol) : string :=
  match v with
  | LvmVolume _ lv _ => lv
  | StorageSpacesVolume _ lv => lv
  | RawVolume _ _ device_path _ _ => device_path
  | ZfsVolume dataset_name => "/dev/zvol/" +:+ dataset_name
  | DeviceMapper _ device_name _ _ => "/dev/mapper/" +:+ device_name
  end.

(** ** Sizes *)

Definition size_exponent (unit : ascii) : option Z :=
  d_get unit [("K", 1); ("M", 2); ("G", 3); ("T", 4); ("P", 5)]%char.

(** [StorageSpacesVolume.size_in_bytes] *)
Definition size_in_bytes (size_str : string) : res Z :=
  match srev size_str with
  | EmptyString => py_int EmptyString
  | String last rest =>
      let unit := to_upper last in
      if is_digit unit then py_int size_str
      else
        let* size_int := py_int (srev rest) in
        match size_exponent unit with
        | Some exponent => Ok (size_int * 1024 ^ exponent)
        | None => Raise (ValueError ("Invalid storage size unit in " +:+ size_str))
        end
  end.

Section disktools.
Context `{SshServer}.
(** [uuid.uuid5(uuid.NAMESPACE_URL, name)], and the [data_percent] field of the
    first volume in the JSON report of [lvs] *)
Context (uuid5 : string -> string) (lvs_data_percent : string -> res Q).

(** ** Metadata *)

Definition drbdmeta_supports_uuid_options (h : host_info) : M env bool :=
  let* cached := gets (fun e => uuid_options e !! h_name h) in
  match cached with
  | Some b => mret b
  | None =>
      let* out := run_out h ["bash"; "-c";
        "drbdmeta - v09 /dev/null internal create-md 3 --initial-current-uuid 2>&1 || true"] in
      let b := has_sub "requires an argument" out in
      modify (fun e => Env (sent_log e) (<[h_name h := b]> (uuid_options e))) ;;;
      mret b
  end.

(** The keyword arguments of [create_md] about UUIDs and flags *)
Record md_flags := MdFlags {
  initial_current_uuid : option string;
  consistent : bool;
  uptodate : bool;
  peers_outdated : bool;
  rotate_uuids : bool
}.
Definition truthy (o : option string) : bool :=
  if o is Some s then negb (bool_decide (s = EmptyString)) else false.
Definition any_flag (f : md_flags) : bool :=
  truthy (initial_current_uuid f) || consistent f || uptodate f || peers_outdated f || rotate_uuids f.

(** [create_md], up to the call of [drbdadm] with the list it returns *)
Definition create_md (h : host_info) (resource_name : string) (volume_number : nat) (max_peers : Z)
    (bitmap_block_size : option Z) (f : md_flags) : M env (list string) :=
  let args := ["create-md"; "--force"; resource_name +:+ "/" +:+ str_nat volume_number] in
  let args := if version_geb (h_version h) drbd9
              then args ++ ["--max-peers=" +:+ str_int max_peers] else args in
  let* args :=
    match bitmap_block_size with
    | Some b => py_assert (version_geb (h_version h) (9, 3, 0)) ;;;
                mret (args ++ ["--bitmap-block-size=" +:+ str_int b])
    | None => mret args
    end in
  when (any_flag f)
    (let* b := drbdmeta_supports_uuid_options h in
     if (b : bool) then mret tt else raise (RuntimeError ("drbdmeta on " +:+ h_name h +:+
       " does not support --initial-current-uuid and related options"))) ;;;
  mret (args ++
    (if truthy (initial_current_uuid f)
     then ["--initial-current-uuid=" +:+ default EmptyString (initial_current_uuid f)] else []) ++
    (if consistent f then ["--consistent"] else []) ++
    (if uptodate f then ["--uptodate"] else []) ++
    (if peers_outdated f then ["--peers-outdated"] else []) ++
    (if rotate_uuids f then ["--rotate-uuids"] else [])).

(** ** Pools *)

Definition create_storage_pool (h : host_info) (backend backing_device : string) (thin : bool)
    (discard_granularity : option Z) : M env pool :=
  if decide (backend = "lvm") then
    run h ["vgcreate"; h_volume_group h; backing_device] ;;;
    when thin
      (let extra_args := match discard_granularity with
                         | Some g => if g =? 0 then [] else ["--chunksize"; str_int g +:+ "B"]
                         | None => []
                         end in
       run h (["lvcreate"; h_volume_group h; "--thinpool"; "drbdthinpool"; "--extents"; "100%FREE"]
              ++ extra_args)) ;;;
    mret (LvmPool thin discard_granularity)
  else if decide (backend = "raw") then
    if thin then raise (ValueError "raw storage pool does not support thin provisioning")
    else mret (RawPool backing_device)
  else if decide (backend = "zfs") then
    run h ["zpool"; "create"; h_volume_group h; backing_device] ;;;
    mret (ZfsPool thin discard_granularity)
  else if decide (backend = "storage-spaces") then mret (StorageSpacesPool thin backing_device)
  else raise (NotImplementedError ("backend " +:+ dquoted backend +:+ " not implemented")).

Definition remove_pool (h : host_info) (p : pool) : M env unit :=
  match p with
  | LvmPool _ _ => run h ["vgremove"; "-y"; h_volume_group h]
  | StorageSpacesPool _ _ => mret tt
  | RawPool backing_device => run h ["wipefs"; "-a"; backing_device]
  | ZfsPool _ _ => run h ["zpool"; "destroy"; h_volume_group h]
  end.

(** ** Volumes *)

Definition new_lvm_volume (h : host_info) (name size : string) (thin : bool) : M env disk_vol :=
  let lv := "/dev/" +:+ h_volume_group h +:+ "/" +:+ name in
  let lvcreate_args :=
    (if thin then ["--virtualsize"; size; "--thin"; h_volume_group h +:+ "/drbdthinpool"]
     else ["--size"; size; h_volume_group h]) ++ ["--wipesignatures"; "y"; "--yes"] in
  run h (["lvcreate"; "--name"; name] ++ lvcreate_args) ;;;
  mret (LvmVolume name lv size).

Definition new_storage_spaces_volume (h : host_info) (name size : string) (thin : bool)
    (backing_device : string) : M env disk_vol :=
  let thin_param := if thin then "thin" else "thick" in
  let* bytes := lift (size_in_bytes size) in
  run h ["./linstor-wmi-helper"; "virtual-disk"; "create"; backing_device; name; str_int bytes; thin_param] ;;;
  let* line := run_out h ["bash"; "-c"; "./linstor-wmi-helper virtual-disk list " +:+ name +:+ " 2>&1"] in
  let* field := lift (py_index (str_split "009"%char line) 4) in
  mret (StorageSpacesVolume name (replace "}"%char EmptyString (replace "{"%char EmptyString field))).

Definition refresh_partitions (h : host_info) (backing_device : string) : M env unit :=
  run h ["partx"; "--update"; backing_device] ;;;
  run h ["udevadm"; "trigger"] ;;;
  run h ["udevadm"; "settle"].

Definition new_raw_volume (h : host_info) (backing_device name size : string)
    (max_size : option string) : M env disk_vol :=
  let guid := uuid5 name in
  let device_path := "/dev/disk/by-partuuid/" +:+ guid in
  let start := if truthy max_size then "-" +:+ default EmptyString max_size else "0" in
  run h ["sgdisk"; "--new=0:" +:+ start +:+ ":+" +:+ size; "--partition-guid=0:" +:+ guid; backing_device] ;;;
  refresh_partitions h backing_device ;;;
  let* part_number := run_out h ["partx"; "--show"; "--output"; "NR"; "--noheadings"; device_path] in
  mret (RawVolume backing_device guid device_path start (strip part_number)).

Definition new_zfs_volume (h : host_info) (name size : string) (thin : bool)
    (discard_granularity : option Z) : M env disk_vol :=
  let dataset_name := h_volume_group h +:+ "/" +:+ name in
  let extra_args := (if thin then ["-s"] else []) ++
    match discard_granularity with Some g => ["-o"; "volblocksize=" +:+ str_int g] | None => [] end in
  run h (["zfs"; "create"; "-V"; size; dataset_name] ++ extra_args) ;;;
  run h ["udevadm"; "trigger"] ;;;
  run h ["udevadm"; "settle"] ;;;
  mret (ZfsVolume dataset_name).

(** [storage_pool.create_disk] *)
Definition pool_create_disk (h : host_info) (p : pool) (name size : string) (max_size : option string) :
    M env disk_vol :=
  match p with
  | LvmPool thin _ => new_lvm_volume h name size thin
  | StorageSpacesPool thin backing_device => new_storage_spaces_volume h name size thin backing_device
  | RawPool backing_device => new_raw_volume h backing_device name size max_size
  | ZfsPool thin discard_granularity => new_zfs_volume h name size thin discard_granularity
  end.

(** *** Device mapper layers *)

Definition dm_table (k : dm_kind) (sectors backing_path : string) : string :=
  "0 " +:+ sectors +:+ " " +:+ dm_type k +:+ " " +:+ backing_path +:+ " 0 " +:+
  match k with
  | DelayVolume delay_ms => str_int delay_ms
  | EmulatedBlockSizeVolume logical_block_size => str_int (Z.quot logical_block_size 512)
  end.

Definition new_device_mapper (h : host_info) (name : string) (backing_volume : disk_vol) (k : dm_kind) :
    M env disk_vol :=
  let device_name := name +:+ "-" +:+ dm_type k in
  let* sectors := run_out h ["blockdev"; "--getsz"; volume_path backing_volume] in
  run_in h ["dmsetup"; "create"; device_name] (dm_table k sectors (volume_path backing_volume)) ;;;
  mret (DeviceMapper k device_name sectors backing_volume).

(** [create_disk] of the module, for the pool of the host *)
Definition create_disk (h : host_info) (p : pool) (name size : string) (max_size : option string)
    (delay_ms logical_block_size : option Z) : M env disk_vol :=
  let* v := pool_create_disk h p name size max_size in
  let* v := match delay_ms with
            | Some d => new_device_mapper h name v (DelayVolume d)
            | None => mret v
            end in
  match logical_block_size with
  | Some b => new_device_mapper h name v (EmulatedBlockSizeVolume b)
  | None => mret v
  end.

(** [DelayVolume.set_delay_ms] *)
Definition set_delay_ms (h : host_info) (delay_ms : Z) (v : disk_vol) : M env disk_vol :=
  match v with
  | DeviceMapper (DelayVolume _) device_name sectors backing_volume =>
      let k := DelayVolume delay_ms in
      run_in h ["dmsetup"; "reload"; device_name] (dm_table k sectors (volume_path backing_volume)) ;;;
      run h ["dmsetup"; "suspend"; device_name] ;;;
      run h ["dmsetup"; "resume"; device_name] ;;;
      mret (DeviceMapper k device_name sectors backing_volume)
  | _ => raise (AttributeError "set_delay_ms")
  end.

(** *** Operations on volumes *)

Fixpoint remove (h : host_info) (v : disk_vol) : M env unit :=
  match v with
  | LvmVolume _ lv _ => run h ["lvremove"; "--force"; lv]
  | StorageSpacesVolume name _ => run h ["./linstor-wmi-helper"; "virtual-disk"; "delete"; name]
  | RawVolume backing_device _ _ _ part_number =>
      run h ["sgdisk"; "--delete=" +:+ part_number; backing_device]
  | ZfsVolume dataset_name => run h ["zfs"; "destroy"; dataset_name]
  | DeviceMapper _ device_name _ backing_volume =>
      run h ["dmsetup"; "remove"; device_name] ;;;
      remove h backing_volume
  end.

Definition resize (h : host_info) (size : string) (v : disk_vol) : M env unit :=
  match v with
  | LvmVolume _ lv _ => run h ["lvresize"; "-L"; size; lv]
  | StorageSpacesVolume name _ =>
      let* bytes := lift (size_in_bytes size) in
      run h ["./linstor-wmi-helper"; "virtual-disk"; "resize"; name; str_int bytes]
  | RawVolume backing_device guid _ start part_number =>
      let* _ := run_out h ["sgdisk"; "--delete=" +:+ part_number;
        "--new=" +:+ part_number +:+ ":" +:+ start +:+ ":+" +:+ size;
        "--partition-guid=" +:+ part_number +:+ ":" +:+ guid; backing_device] in
      refresh_partitions h backing_device
  | ZfsVolume dataset_name => run h ["zfs"; "set"; "volsize=" +:+ size; dataset_name]
  | DeviceMapper _ _ _ _ => raise (NotImplementedError "delay storage volume does not implement resize")
  end.

(** [used / volsize * 100] from the output of [zfs get] *)
Definition zfs_fill (out : string) : res Q :=
  let field (i : Z) := let* line := py_index (splitlines out) i in
                       let* w := py_index (words line) 2 in py_int w in
  let* used := field 0 in
  let* volsize := field 1 in
  if volsize =? 0 then Raise ZeroDivisionError
  else Ok (inject_Z used / inject_Z volsize * 100)%Q.

Fixpoint fill_percentage (h : host_info) (v : disk_vol) : M env Q :=
  match v with
  | LvmVolume _ lv _ =>
      let* json_str := run_out h ["lvs"; "--reportformat"; "json"; lv] in
      lift (lvs_data_percent json_str)
  | StorageSpacesVolume _ _ =>
      raise (NotImplementedError "storage pool storage volume does not support fill_percentage (yet)")
  | RawVolume _ _ _ _ _ => raise (NotImplementedError "raw storage volume does not support fill_percentage")
  | ZfsVolume dataset_name =>
      let* out := run_out h ["zfs"; "get"; "-Hp"; "used,volsize"; dataset_name] in
      lift (zfs_fill out)
  | DeviceMapper _ _ _ backing_volume => fill_percentage h backing_volume
  end.

Definition snapshot (h : host_info) (name_ext : string) (v : disk_vol) : M env string :=
  match v with
  | LvmVolume name lv lvsize =>
      let* devicesfile := run_with h true true true false None
        ["lvmconfig"; "--typeconfig=full"; "devices/use_devicesfile"] in
      let extra_config :=
        if decide (devicesfile = Some "use_devicesfile=1") then
          "devices { search_for_devnames = " +:+ dquoted "none" +:+ " }"
        else "devices { filter=[" +:+ dquoted "r|^/dev/drbd.*|" +:+ "] }" in
      run h ["lvcreate"; "--config"; extra_config; "--snapshot"; "--name"; name +:+ "-" +:+ name_ext;
             "--size"; lvsize; lv] ;;;
      mret ("/dev/" +:+ h_volume_group h +:+ "/" +:+ name +:+ "-" +:+ name_ext)
  | ZfsVolume dataset_name =>
      run h ["zfs"; "set"; "snapdev=visible"; dataset_name] ;;;
      run h ["zfs"; "snapshot"; dataset_name +:+ "@" +:+ name_ext] ;;;
      mret ("/dev/zvol/" +:+ dataset_name +:+ "@" +:+ name_ext)
  | _ => raise (AttributeError "snapshot")
  end.
End disktools.

(** ** Lemmas: sizes *)

Lemma to_upper_not_digit c : is_digit c = false -> is_digit (to_upper c) = false.
Proof.
  intros Hc. unfold to_upper. destruct (_ && _)%N eqn:Hl; [|done].
  apply andb_true_iff in Hl as [H1%N.leb_le H2%N.leb_le]. unfold is_digit, digit_val, code in *.
  rewrite N_ascii_embedding by lia. rewrite (proj2 (Z.leb_gt _ 57)) by lia. by rewrite andb_false_r.
Qed.

Lemma to_upper_digit c : is_digit c = true -> to_upper c = c.
Proof.
  intros Hc. unfold to_upper. destruct (_ && _)%N eqn:Hl; [|done].
  apply andb_true_iff in Hl as [H1%N.leb_le _]. exfalso. unfold is_digit, digit_val in Hc.
  rewrite (proj2 (Z.leb_gt (Z.of_N (code c)) 57)) in Hc by lia. by rewrite andb_false_r in Hc.
Qed.

Lemma srev_snoc s c : srev (s +:+ String c EmptyString) = String c (srev s).
Proof. by rewrite srev_append. Qed.

(** ** Lemmas: operations *)

Section theory.
Context `{SshServer}.

Fixpoint remove_commands (v : disk_vol) : list (list string) :=
  match v with
  | LvmVolume _ lv _ => [["lvremove"; "--force"; lv]]
  | StorageSpacesVolume name _ => [["./linstor-wmi-helper"; "virtual-disk"; "delete"; name]]
  | RawVolume backing_device _ _ _ part_number => [["sgdisk"; "--delete=" +:+ part_number; backing_device]]
  | ZfsVolume dataset_name => [["zfs"; "destroy"; dataset_name]]
  | DeviceMapper _ device_name _ backing_volume =>
      ["dmsetup"; "remove"; device_name] :: remove_commands backing_volume
  end.

Lemma remove_runs h v e : runs h (remove_commands v) e (fst (remove h v e)) (snd (remove h v e)).
Proof.
  revert e. induction v as [| | | |k device_name sectors v IH]; intros e; try apply runs_one.
  by apply (runs_cons h _ _ (remove h v)).
Qed.

(** The device mapper layers of a volume, outermost first, and what is below *)
Fixpoint dm_layers (v : disk_vol) : list (dm_kind * string) :=
  match v with
  | DeviceMapper k device_name _ backing_volume => (k, device_name) :: dm_layers backing_volume
  | _ => []
  end.
Fixpoint dm_base (v : disk_vol) : disk_vol :=
  match v with DeviceMapper _ _ _ backing_volume => dm_base backing_volume | _ => v end.
(** What is sent to set the layers up *)
Fixpoint dm_setup (h : host_info) (v : disk_vol) : list sent :=
  match v with
  | DeviceMapper k device_name sectors backing_volume =>
      dm_setup h backing_volume ++
      [sent_run h ["blockdev"; "--getsz"; volume_path backing_volume];
       Sent (h_name h) (command_string h true false ["dmsetup"; "create"; device_name])
         (Some (dm_table k sectors (volume_path backing_volume)))]
  | _ => []
  end.

Lemma remove_commands_layers v : remove_commands v =
  map (fun l => ["dmsetup"; "remove"; snd l]) (dm_layers v) ++ remove_commands (dm_base v).
Proof. induction v as [| | | |k device_name sectors v IH]; try done. simpl. by rewrite IH. Qed.

Lemma new_device_mapper_ok h name v k e v' e' : new_device_mapper h name v k e = (Ok v', e') ->
  exists sectors, v' = DeviceMapper k (name +:+ "-" +:+ dm_type k) sectors v /\
    sent_log e' = sent_log e ++ drop (length (dm_setup h v)) (dm_setup h v').
Proof.
  unfold new_device_mapper. mred. rewrite run_out_answer.
  destruct (ssh _ _) as [[code out]|x]; [|done]. destruct (code =? 0); [|done].
  rewrite run_in_answer. destruct (ssh _ _) as [[code' out']|x]; [|done].
  destruct (code' =? 0); [|done]. intros [= <- <-]. eexists. split; [done|].
  cbn [dm_setup]. rewrite drop_app_length. simpl. by rewrite <-app_assoc.
Qed.

Lemma pool_create_disk_base uuid5 h p name size max_size e v e' :
  pool_create_disk uuid5 h p name size max_size e = (Ok v, e') -> dm_layers v = [] /\ dm_base v = v.
Proof.
  destruct p; cbn [pool_create_disk].
  - unfold new_lvm_volume. mred. destruct (run _ _ _) as [[|] ?]; [|done]. by intros [= <- _].
  - unfold new_storage_spaces_volume. mred. destruct (lift _ _) as [[|] ?]; [|done].
    destruct (run _ _ _) as [[|] ?]; [|done]. destruct (run_out _ _ _) as [[|] ?]; [|done].
    destruct (lift _ _) as [[|] ?]; [|done]. by intros [= <- _].
  - unfold new_raw_volume. mred. destruct (run _ _ _) as [[|] ?]; [|done].
    destruct (refresh_partitions _ _ _) as [[|] ?]; [|done].
    destruct (run_out _ _ _) as [[|] ?]; [|done]. by intros [= <- _].
  - unfold new_zfs_volume. mred. destruct (run _ _ _) as [[|] ?]; [|done].
    destruct (run _ _ _) as [[|] ?]; [|done]. destruct (run _ _ _) as [[|] ?]; [|done]. by intros [= <- _].
Qed.

(** The layers asked for, innermost first *)
Definition requested_layers (delay_ms logical_block_size : option Z) : list dm_kind :=
  option_list (DelayVolume <$> delay_ms) ++ option_list (EmulatedBlockSizeVolume <$> logical_block_size).

Lemma create_disk_ok uuid5 h p name size max_size delay_ms logical_block_size e v e' :
  create_disk uuid5 h p name size max_size delay_ms logical_block_size e = (Ok v, e') ->
  exists e1, pool_create_disk uuid5 h p name size max_size e = (Ok (dm_base v), e1) /\
    dm_layers v = reverse (map (fun k => (k, name +:+ "-" +:+ dm_type k))
                               (requested_layers delay_ms logical_block_size)) /\
    sent_log e' = sent_log e1 ++ dm_setup h v.
Proof.
  unfold create_disk, requested_layers. mred.
  destruct (pool_create_disk _ _ _ _ _ _ e) as [[base|] e1] eqn:Hb; [|done].
  destruct (pool_create_disk_base _ _ _ _ _ _ _ _ _ Hb) as [Hl Hbase].
  assert (Hs : dm_setup h base = []) by (by destruct base).
  destruct delay_ms as [d|]; [destruct (new_device_mapper _ _ base _ e1) as [[v1|] e2] eqn:Hd; [|done]|];
    destruct logical_block_size as [b|]; cbn [option_list fmap option_fmap option_map app map].
  - intros (s2 & -> & Hl2)%new_device_mapper_ok. apply new_device_mapper_ok in Hd as (s1 & -> & Hl1).
    exists e1. cbn [dm_layers dm_base dm_setup] in *. rewrite Hs in Hl1, Hl2 |- *. rewrite Hl.
    simpl in *. rewrite Hl2, Hl1, Hbase. by rewrite <-app_assoc.
  - intros [= <- <-]. apply new_device_mapper_ok in Hd as (s1 & -> & Hl1).
    exists e1. cbn [dm_layers dm_base dm_setup] in *. rewrite Hs in Hl1 |- *. rewrite Hl.
    simpl in *. by rewrite Hl1, Hbase.
  - intros (s2 & -> & Hl2)%new_device_mapper_ok.
    exists e1. cbn [dm_layers dm_base dm_setup] in *. rewrite Hs in Hl2 |- *. rewrite Hl.
    simpl in *. by rewrite Hl2, Hbase.
  - intros [= <- <-]. exists e1. split_and!; [by rewrite Hbase|by rewrite Hl|by rewrite Hs, app_nil_r].
Qed.

(** The probe of drbdmeta: one command, and only the first time *)
Lemma supports_uuid_options_ok h e b e' : drbdmeta_supports_uuid_options h e = (Ok b, e') ->
  uuid_options e' !! h_name h = Some b /\
  (uuid_options e !! h_name h = Some b /\ e' = e \/ uuid_options e !! h_name h = None).
Proof.
  unfold drbdmeta_supports_uuid_options, gets, modify. mred.
  destruct (uuid_options e !! h_name h) as [b'|] eqn:Hc.
  - intros [= <- <-]. naive_solver.
  - destruct (run_out _ _ _) as [[out|] e1]; [|done]. intros [= <- <-]. simpl.
    rewrite lookup_insert_eq. naive_solver.
Qed.

Definition flag_args (f : md_flags) : list string :=
  (if truthy (initial_current_uuid f)
   then ["--initial-current-uuid=" +:+ default EmptyString (initial_current_uuid f)] else []) ++
  (if consistent f then ["--consistent"] else []) ++
  (if uptodate f then ["--uptodate"] else []) ++
  (if peers_outdated f then ["--peers-outdated"] else []) ++
  (if rotate_uuids f then ["--rotate-uuids"] else []).

Lemma flag_args_known f a : a ∈ flag_args f ->
  a ∈ ["--consistent"; "--uptodate"; "--peers-outdated"; "--rotate-uuids"] ++
    map (fun u => "--initial-current-uuid=" +:+ u) (option_list (initial_current_uuid f)) /\ any_flag f = true.
Proof.
  unfold flag_args, any_flag. rewrite !elem_of_app, !orb_true_iff.
  intros [Ha|[Ha|[Ha|[Ha|Ha]]]]; (case_match; [apply list_elem_of_singleton in Ha as ->|by apply elem_of_nil in Ha]).
  - destruct (initial_current_uuid f); [|done]. split; [right; left|tauto].
  - split; [left; left|tauto].
  - split; [left; right; left|tauto].
  - split; [left; do 2 right; left|tauto].
  - split; [left; do 3 right; left|tauto].
Qed.

Lemma create_md_ok h resource_name volume_number max_peers bitmap_block_size f e args e' :
  create_md h resource_name volume_number max_peers bitmap_block_size f e = (Ok args, e') ->
  drop 3 args = (if version_geb (h_version h) drbd9 then ["--max-peers=" +:+ str_int max_peers] else []) ++
    option_list ((fun b => "--bitmap-block-size=" +:+ str_int b) <$> bitmap_block_size) ++ flag_args f /\
  (bitmap_block_size <> None -> version_geb (h_version h) (9, 3, 0) = true) /\
  (any_flag f = true -> uuid_options e' !! h_name h = Some true) /\
  (any_flag f = false \/ uuid_options e !! h_name h <> None -> e' = e).
Proof.
  unfold create_md, when, py_assert. fold (flag_args f). mred. intros Hc.
  assert (Hb : bitmap_block_size <> None -> version_geb (h_version h) (9, 3, 0) = true).
  { intros Hne. destruct bitmap_block_size; [|done]. by destruct (version_geb (h_version h) (9, 3, 0)). }
  assert (Hf : args = (["create-md"; "--force"; resource_name +:+ "/" +:+ str_nat volume_number] ++
      (if version_geb (h_version h) drbd9 then ["--max-peers=" +:+ str_int max_peers] else []) ++
      option_list ((fun b => "--bitmap-block-size=" +:+ str_int b) <$> bitmap_block_size) ++ flag_args f) /\
      if any_flag f then drbdmeta_supports_uuid_options h e = (Ok true, e') else e' = e).
  { destruct bitmap_block_size as [b|]; [rewrite (Hb ltac:(done)) in Hc|];
      (destruct (any_flag f);
        [destruct (drbdmeta_supports_uuid_options h e) as [[[]|x] e1]; [|done..]|]);
      injection Hc as <- <-; by destruct (version_geb (h_version h) drbd9). }
  destruct Hf as [-> Hf]. split; [done|]. split; [done|]. destruct (any_flag f); [|naive_solver].
  apply supports_uuid_options_ok in Hf. naive_solver.
Qed.
End theory.

(** ** Properties *)

(** [create_md] never gives drbdmeta an option it does not know: a limit
    on the peers needs DRBD 9, a bitmap block size DRBD 9.3, and the options
    about UUIDs a drbdmeta whose probe succeeded; every option asked for is
    passed on, or the call fails. The host is probed only if its answer is not
    yet known. *)
Theorem create_md_passes_known_options `{SshServer} h resource_name volume_number max_peers
    bitmap_block_size f e args e' :
  create_md h resource_name volume_number max_peers bitmap_block_size f e = (Ok args, e') ->
  let uuid_args := ["--consistent"; "--uptodate"; "--peers-outdated"; "--rotate-uuids"] ++
    map (fun u => "--initial-current-uuid=" +:+ u) (option_list (initial_current_uuid f)) in
  (forall a, a ∈ drop 3 args ->
    (a = "--max-peers=" +:+ str_int max_peers /\ version_geb (h_version h) drbd9 = true) \/
    ((exists b, bitmap_block_size = Some b /\ a = "--bitmap-block-size=" +:+ str_int b) /\
     version_geb (h_version h) (9, 3, 0) = true) \/
    (a ∈ uuid_args /\ uuid_options e' !! h_name h = Some true)) /\
  (forall b, bitmap_block_size = Some b -> ("--bitmap-block-size=" +:+ str_int b) ∈ args) /\
  (consistent f = true -> "--consistent" ∈ args) /\ (uptodate f = true -> "--uptodate" ∈ args) /\
  (peers_outdated f = true -> "--peers-outdated" ∈ args) /\
  (rotate_uuids f = true -> "--rotate-uuids" ∈ args) /\
  (forall u, initial_current_uuid f = Some u -> u <> EmptyString ->
    ("--initial-current-uuid=" +:+ u) ∈ args) /\
  (any_flag f = false \/ uuid_options e !! h_name h <> None -> e' = e).
Proof.
  intros Hc uuid_args. destruct (create_md_ok _ _ _ _ _ _ _ _ _ Hc) as (Hd & Hb & Hu & He).
  assert (Hin : forall a, a ∈ drop 3 args -> a ∈ args).
  { intros a Ha. rewrite <-(take_drop 3 args). apply elem_of_app. by right. }
  assert (Hflag : forall a, a ∈ flag_args f -> a ∈ uuid_args /\ any_flag f = true) by apply flag_args_known.
  assert (Hfin : forall a, a ∈ flag_args f -> a ∈ args).
  { intros a Ha. apply Hin. rewrite Hd, !elem_of_app. auto. }
  split_and!; [| |intros Hfl; apply Hfin; unfold flag_args; rewrite Hfl, !elem_of_app, !elem_of_cons; tauto..| |exact He].
  - intros a Ha. rewrite Hd, !elem_of_app in Ha. destruct Ha as [Ha|[Ha|Ha]].
    + left. destruct (version_geb (h_version h) drbd9); [|by apply elem_of_nil in Ha].
      by apply list_elem_of_singleton in Ha.
    + right; left. destruct bitmap_block_size as [b|]; [|by apply elem_of_nil in Ha].
      apply list_elem_of_singleton in Ha. eauto.
    + right; right. destruct (Hflag a Ha). auto.
  - intros b ->. apply Hin. rewrite Hd, !elem_of_app. right; left. by apply list_elem_of_singleton.
  - intros u Hu' Hne. apply Hfin. unfold flag_args. rewrite Hu'. simpl. rewrite bool_decide_false by done.
    set_solver.
Qed.

(** [create_disk] stacks the layers asked for, the delay below the block
    size emulation, on the volume the pool creates: each is set up on the path
    of the one below. [remove] takes the layers down outermost first and the
    volume last, and stops at the first command that fails, so that nothing
    is removed below a layer that is still there. *)
Theorem create_disk_then_remove `{SshServer} uuid5 h p name size max_size delay_ms logical_block_size e v e' :
  create_disk uuid5 h p name size max_size delay_ms logical_block_size e = (Ok v, e') ->
  (exists e1, pool_create_disk uuid5 h p name size max_size e = (Ok (dm_base v), e1) /\
    dm_layers v = reverse (map (fun k => (k, name +:+ "-" +:+ dm_type k))
                               (requested_layers delay_ms logical_block_size)) /\
    sent_log e' = sent_log e1 ++ dm_setup h v) /\
  forall e2, runs h
    (map (fun l => ["dmsetup"; "remove"; snd l]) (dm_layers v) ++ remove_commands (dm_base v))
    e2 (fst (remove h v e2)) (snd (remove h v e2)).
Proof.
  intros Hc. split; [by eapply create_disk_ok|]. intros e2. rewrite <-remove_commands_layers. apply remove_runs.
Qed.

(** A size is a number of bytes, or a number and a binary unit in either
    case; any other unit is a [ValueError]. *)
Theorem size_in_bytes_units n unit : is_digit unit = false ->
  size_in_bytes (str_nat n) = Ok (Z.of_nat n) /\
  size_in_bytes (str_nat n +:+ String unit EmptyString) =
    match size_exponent (to_upper unit) with
    | Some exponent => Ok (Z.of_nat n * 1024 ^ exponent)
    | None => Raise (ValueError ("Invalid storage size unit in " +:+ str_nat n +:+ String unit EmptyString))
    end.
Proof.
  intros Hu. unfold size_in_bytes. split.
  - pose proof (str_nat_digits n) as Hd. rewrite <-sall_srev in Hd.
    destruct (srev (str_nat n)) as [|c s] eqn:Hs.
    + apply (f_equal srev) in Hs. rewrite srev_involutive in Hs. exfalso.
      pose proof (isdecimal_str_nat n) as Hi. by rewrite Hs in Hi.
    + cbn [sall] in Hd. apply andb_true_iff in Hd as [Hc _].
      rewrite to_upper_digit, Hc by done. apply py_int_str_nat.
  - rewrite srev_snoc, to_upper_not_digit by done. rewrite srev_involutive, py_int_str_nat. mred. done.
Qed.

(** ** Witnesses *)

#[local] Instance demo_server : SshServer := fun _ s =>
  Ok (0, if startswith "bash -c 'drbdmeta" (s_command s) then "option requires an argument" else "2048 ").
Definition plain_host : host_info :=
  HostInfo "node1" "node1.example" "scratch" None (9, 3, 0) "/var/lib/drbd-test" "10.0.0.1" ["10.0.0.1"]
    ("ubuntu", "22.04") false.
Definition demo_flags : md_flags := MdFlags None true false false false.

Lemma create_md_passes_known_options_witness :
  exists args e', create_md plain_host "res" 0 3 (Some 65536) demo_flags (Env [] ∅) = (Ok args, e') /\
    args = ["create-md"; "--force"; "res/0"; "--max-peers=3"; "--bitmap-block-size=65536"; "--consistent"] /\
    (consistent demo_flags = true -> "--consistent" ∈ args).
Proof.
  eexists _, _. split; [reflexivity|]. split; [reflexivity|].
  eapply (create_md_passes_known_options plain_host "res" 0 3 (Some 65536) demo_flags (Env [] ∅)).
  reflexivity.
Defined.

Lemma create_disk_then_remove_witness :
  exists v e', create_disk (fun _ => "guid") plain_host (LvmPool true None) "disk0" "10M" None (Some 100) (Some 4096)
      (Env [] ∅) = (Ok v, e') /\
    map snd (dm_layers v) = ["disk0-ebs"; "disk0-delay"] /\
    forall e2, runs plain_host
      (map (fun l => ["dmsetup"; "remove"; snd l]) (dm_layers v) ++ remove_commands (dm_base v))
      e2 (fst (remove plain_host v e2)) (snd (remove plain_host v e2)).
Proof.
  eexists _, _. split; [reflexivity|]. split; [reflexivity|].
  eapply (create_disk_then_remove (fun _ => "guid") plain_host (LvmPool true None) "disk0" "10M" None (Some 100)
    (Some 4096) (Env [] ∅)). reflexivity.
Defined.

Example size_in_bytes_of_10g : size_in_bytes (str_nat 10 +:+ "g") = Ok (10 * 1024 ^ 3).
Proof. exact (proj2 (size_in_bytes_units 10 "g" eq_refl)). Defined.
