(* ===== verification/World.v ===== *)
(** * The objects of a test (src/python/drbdtest.py)

    The classes [Host], [Volume], [Node] and [Resource] as records in a heap:
    an object is a position in its list, so that the sharing between Python
    objects is sharing of positions.  Also the commands sent so far. *)

From S2P Require Import Prelude PyStr OrderedSet Host Disktools.

Record host := NewHost {
  info : host_info;
  storage_backend : string;
  backing_device : string;
  port : nat;
  minors : nat;
  storage_pool : option pool
}.

Record volume := NewVolume {
  v_volume : nat;
  v_minor : nat;
  v_node : nat;
  disk_volume : option disk_vol;
  meta_volume : option disk_vol;
  v_tiebreaker : option bool
}.

Record node := NewNode {
  n_host : nat;
  n_resource : nat;
  n_port : nat;
  n_disks : list nat;
  n_id : nat;
  n_connections : oset (nat * nat);
  fencing_mode : string;
  config_changed : bool
}.

Record resource := NewResource {
  r_name : string;
  r_net_options : string;
  r_disk_options : string;
  r_resource_options : string;
  r_handlers : string;
  r_nodes : oset nat;
  num_volumes : nat;
  transport : option string;
  r_tls : string;
  forbidden_patterns : oset string
}.

Record world := World {
  w_env : env;
  w_hosts : list host;
  w_nodes : list node;
  w_volumes : list volume;
  w_resources : list resource
}.

(** The module's global variables; [memlimit] is not defined at first. *)
Record globals := Globals {
  proxy_enable : bool;
  lz4_enable : bool;
  zstd_enable : Z;
  memlimit : option Z
}.

(** ** Access *)

Definition no_host : host :=
  NewHost (HostInfo EmptyString EmptyString EmptyString None (0, 0, 0)%Z EmptyString EmptyString []
    (EmptyString, EmptyString) false) EmptyString EmptyString 0 0 None.
Definition no_node : node := NewNode 0 0 0 [] 0 os_empty EmptyString false.
Definition no_volume : volume := NewVolume 0 0 0 None None None.
Definition no_resource : resource :=
  NewResource EmptyString EmptyString EmptyString EmptyString EmptyString os_empty 0 None EmptyString os_empty.

(** The object at a position; positions are always those of objects that exist. *)
Definition host_at (w : world) (h : nat) : host := default no_host (w_hosts w !! h).
Definition node_at (w : world) (n : nat) : node := default no_node (w_nodes w !! n).
Definition volume_at (w : world) (v : nat) : volume := default no_volume (w_volumes w !! v).
Definition resource_at (w : world) (r : nat) : resource := default no_resource (w_resources w !! r).
Definition node_host (w : world) (n : nat) : host := host_at w (n_host (node_at w n)).
Definition node_info (w : world) (n : nat) : host_info := info (node_host w n).

(** ** Update *)

(** The same objects after other commands *)
Definition put_env (e : env) (w : world) : world := World e (w_hosts w) (w_nodes w) (w_volumes w) (w_resources w).
Definition on_env {A} (m : M env A) : M world A :=
  zoom w_env (fun e w => World e (w_hosts w) (w_nodes w) (w_volumes w) (w_resources w)) m.
Definition set_host (h : nat) (f : host -> host) : M world unit :=
  modify (fun w => World (w_env w) (alter f h (w_hosts w)) (w_nodes w) (w_volumes w) (w_resources w)).
Definition set_node (n : nat) (f : node -> node) : M world unit :=
  modify (fun w => World (w_env w) (w_hosts w) (alter f n (w_nodes w)) (w_volumes w) (w_resources w)).
Definition set_volume (v : nat) (f : volume -> volume) : M world unit :=
  modify (fun w => World (w_env w) (w_hosts w) (w_nodes w) (alter f v (w_volumes w)) (w_resources w)).
Definition set_resource (r : nat) (f : resource -> resource) : M world unit :=
  modify (fun w => World (w_env w) (w_hosts w) (w_nodes w) (w_volumes w) (alter f r (w_resources w))).

(** New objects: the position is that of the next free place. *)
Definition new_node (x : node) : M world nat := fun w =>
  (Ok (length (w_nodes w)),
   World (w_env w) (w_hosts w) (w_nodes w ++ [x]) (w_volumes w) (w_resources w)).
Definition new_volume (x : volume) : M world nat := fun w =>
  (Ok (length (w_volumes w)),
   World (w_env w) (w_hosts w) (w_nodes w) (w_volumes w ++ [x]) (w_resources w)).
Definition new_resource (x : resource) : M world nat := fun w =>
  (Ok (length (w_resources w)),
   World (w_env w) (w_hosts w) (w_nodes w) (w_volumes w) (w_resources w ++ [x])).

(** ** Fields *)

Definition set_port (p : nat) (h : host) : host :=
  NewHost (info h) (storage_backend h) (backing_device h) p (minors h) (storage_pool h).
Definition set_minors (m : nat) (h : host) : host :=
  NewHost (info h) (storage_backend h) (backing_device h) (port h) m (storage_pool h).
Definition set_pool (p : option pool) (h : host) : host :=
  NewHost (info h) (storage_backend h) (backing_device h) (port h) (minors h) p.
Definition set_disks (l : list nat) (n : node) : node :=
  NewNode (n_host n) (n_resource n) (n_port n) l (n_id n) (n_connections n) (fencing_mode n) (config_changed n).
Definition set_connections (c : oset (nat * nat)) (n : node) : node :=
  NewNode (n_host n) (n_resource n) (n_port n) (n_disks n) (n_id n) c (fencing_mode n) (config_changed n).
Definition set_fencing (m : string) (n : node) : node :=
  NewNode (n_host n) (n_resource n) (n_port n) (n_disks n) (n_id n) (n_connections n) m (config_changed n).
Definition set_changed (b : bool) (n : node) : node :=
  NewNode (n_host n) (n_resource n) (n_port n) (n_disks n) (n_id n) (n_connections n) (fencing_mode n) b.
Definition set_disk_volume (d : option disk_vol) (v : volume) : volume :=
  NewVolume (v_volume v) (v_minor v) (v_node v) d (meta_volume v) (v_tiebreaker v).
Definition set_meta_volume (d : option disk_vol) (v : volume) : volume :=
  NewVolume (v_volume v) (v_minor v) (v_node v) (disk_volume v) d (v_tiebreaker v).
Definition set_v_tiebreaker (b : option bool) (v : volume) : volume :=
  NewVolume (v_volume v) (v_minor v) (v_node v) (disk_volume v) (meta_volume v) b.
Definition set_r_nodes (s : oset nat) (r : resource) : resource :=
  NewResource (r_name r) (r_net_options r) (r_disk_options r) (r_resource_options r) (r_handlers r) s
    (num_volumes r) (transport r) (r_tls r) (forbidden_patterns r).
Definition set_num_volumes (k : nat) (r : resource) : resource :=
  NewResource (r_name r) (r_net_options r) (r_disk_options r) (r_resource_options r) (r_handlers r) (r_nodes r)
    k (transport r) (r_tls r) (forbidden_patterns r).
Definition set_r_name (s : string) (r : resource) : resource :=
  NewResource s (r_net_options r) (r_disk_options r) (r_resource_options r) (r_handlers r) (r_nodes r)
    (num_volumes r) (transport r) (r_tls r) (forbidden_patterns r).
Definition set_r_options (net disk res handlers : string) (r : resource) : resource :=
  NewResource (r_name r) net disk res handlers (r_nodes r) (num_volumes r) (transport r) (r_tls r) (forbidden_patterns r).

Definition set_forbidden (p : oset string) (r : resource) : resource :=
  NewResource (r_name r) (r_net_options r) (r_disk_options r) (r_resource_options r) (r_handlers r) (r_nodes r)
    (num_volumes r) (transport r) (r_tls r) p.

(** The patterns no resource may report at first *)
Definition default_patterns : oset string :=
  snd (os_update ["connection:Timeout"; "connection:ProtocolError"; "disk:Failed"; "peer-disk:Failed"] os_empty).

(** ** Derived attributes *)

(** [volume.disk] and [volume.meta] *)
Definition disk (v : volume) : option string := volume_path <$> disk_volume v.
Definition meta (v : volume) : option string := volume_path <$> meta_volume v.

(** [device] and [device_for_config] of the platform helpers; the device name
    on Windows is asked from the host and not used in the configuration. *)
Definition linux_device (v : volume) : string := "/dev/drbd" +:+ str_nat (v_minor v).
Definition device_for_config (w : world) (v : volume) : string :=
  if h_windows (node_info w (v_node v)) then "minor " +:+ str_nat (v_minor v) else linux_device v.
