(* ===== verification/Config.v ===== *)
(** * The configuration file (src/python/drbdtest.py, [ConfigBlock] and
    [Node.config])

    [ConfigBlock] keeps the stack of open blocks in a class variable and writes
    as it goes; here it is a state.  The specification is a tree of blocks and
    lines with a printer: the theorems relate the two, and say what the tree
    of a node's configuration contains. *)

From S2P Require Import Prelude PyStr Dict OrderedSet Host Disktools World.

(** ** [data % args] without arguments *)

Definition is_flag (c : ascii) : bool := scontains c "-+ #0".
Definition is_length (c : ascii) : bool := scontains c "hlL".
Fixpoint skip_while (p : ascii -> bool) (s : string) : string :=
  match s with String c s' => if p c then skip_while p s' else s | EmptyString => EmptyString end.
(** A conversion after its percent sign: flags, width, precision and length *)
Definition skip_spec (s : string) : string :=
  let s := skip_while is_digit (skip_while is_flag s) in
  let s := match s with String "."%char s' => skip_while is_digit s' | _ => s end in
  match s with String c s' => if is_length c then s' else s | EmptyString => EmptyString end.

Fixpoint py_format_go (fuel : nat) (s : string) : res string :=
  match fuel with
  | O => Ok EmptyString
  | S fuel =>
      match s with
      | EmptyString => Ok EmptyString
      | String "%"%char s =>
          match skip_spec s with
          | EmptyString => Raise (ValueError "incomplete format")
          | String "%"%char s' => let* r := py_format_go fuel s' in Ok (String "%"%char r)
          | String _ _ => Raise (TypeError "not enough arguments for format string")
          end
      | String c s => let* r := py_format_go fuel s in Ok (String c r)
      end
  end.
(** [s % ()] *)
Definition py_format (s : string) : res string := py_format_go (S (slen s)) s.

(** ** [ConfigBlock] *)

Definition INDENT : string := "     ".
Fixpoint indents (n : nat) : string :=
  match n with O => EmptyString | S n => INDENT +:+ indents n end.

Record block := ConfigBlock { b_id : nat; b_indent : string }.

(** The stack holds the blocks' identities, the newest first, above the string
    ["top"]; [text] is the list the destination function appends to. *)
Record cfg := Cfg { stack : list nat; next_block : nat; text : list string }.
Definition cfg_start : cfg := Cfg [] 0 [].

Definition write_no_indent (content : string) : M cfg unit :=
  modify (fun s => Cfg (stack s) (next_block s) (text s ++ [content])).

(** [block.write(data)] *)
Definition write (b : block) (data : string) : M cfg unit :=
  let* content := lift (py_format data) in
  let content := b_indent b +:+ INDENT +:+ content in
  let content := if endswith newline content then content else content +:+ newline in
  write_no_indent content.

(** [__init__] and [__enter__]; the stack of the code also holds ["top"]. *)
Definition enter_block (t : string) : M cfg block :=
  let* s := get in
  let b := ConfigBlock (next_block s)
             (match stack s with [] => EmptyString | l => indents (S (length l)) end) in
  put (Cfg (b_id b :: stack s) (S (next_block s)) (text s)) ;;;
  write_no_indent (b_indent b +:+ t +:+ " {" +:+ newline) ;;;
  mret b.

(** [__exit__] *)
Definition exit_block (b : block) : M cfg unit :=
  write_no_indent (b_indent b +:+ "}" +:+ newline +:+ newline) ;;;
  let* s := get in
  match stack s with
  | top :: l => put (Cfg l (next_block s) (text s)) ;;; py_assert (bool_decide (top = b_id b))
  | [] => raise AssertionError
  end.

(** [with ConfigBlock(t=t) as b: body b] *)
Definition with_block (t : string) (body : block -> M cfg unit) : M cfg unit := fun s =>
  match enter_block t s with
  | (Ok b, s) =>
      let '(r, s) := body b s in
      let '(r', s) := exit_block b s in
      (match r' with Ok _ => r | Raise e => Raise e end, s)
  | (Raise e, s) => (Raise e, s)
  end.

(** ** [Node.config] *)

Section config.
Context (g : globals) (w : world).

Definition addr_line (n : nat) (addr : string) : string :=
  "host " +:+ h_name (node_info w n) +:+ " address " +:+ addr +:+ ":" +:+ str_nat (n_port (node_at w n)) +:+ ";".

Definition first_addr (n : nat) : res string := py_index (h_addrs (node_info w n)) 0.

Definition proxy_header (n : nat) : string :=
  "host " +:+ h_name (node_info w n) +:+ " address 127.0.0.1:" +:+ str_nat (n_port (node_at w n)) +:+
  " via proxy on " +:+ h_name (node_info w n).

Definition config_proxy_host (self n : nat) : M cfg unit :=
  let port_inside := str_nat (n_port (node_at w self)) in
  with_block (proxy_header n) (fun N =>
    write N ("inside 127.0.0.2:" +:+ port_inside +:+ ";") ;;;
    let* addr := lift (first_addr n) in
    write N ("outside ipv4 " +:+ addr +:+ ":" +:+ port_inside +:+ ";")).

Definition config_one_connection (self n1 n2 : nat) : M cfg unit :=
  with_block "connection" (fun _ =>
    if proxy_enable g then
      config_proxy_host self n1 ;;;
      config_proxy_host self n2 ;;;
      with_block "net" (fun NET_OPTS => write NET_OPTS "protocol A;")
    else
      with_block "net" (fun _ => mret tt) ;;;
      for_each (zip (h_addrs (node_info w n1)) (h_addrs (node_info w n2))) (fun '(a1, a2) =>
        with_block "path" (fun path =>
          write path (addr_line n1 a1) ;;;
          write path (addr_line n2 a2)))).

(** The pairs of [_config_conns_9]: each node with the nodes after it *)
Fixpoint later_pairs (l : list nat) : list (nat * nat) :=
  match l with
  | [] => []
  | n1 :: l => map (fun n2 => (n1, n2)) l ++ later_pairs l
  end.
Definition config_conns_9 (self : nat) : M cfg unit :=
  for_each (later_pairs (items (r_nodes (resource_at w (n_resource (node_at w self))))))
    (fun '(n1, n2) => config_one_connection self n1 n2).

Definition or_default (o : option string) (d : string) : string :=
  match o with Some s => if decide (s = EmptyString) then d else s | None => d end.

Definition config_volume (index : nat) (v : volume) : M cfg unit :=
  with_block ("volume " +:+ str_nat index) (fun V =>
    write V ("device " +:+ device_for_config w v +:+ ";") ;;;
    write V ("disk " +:+ or_default (disk v) "none" +:+ ";") ;;;
    when (truthy (disk v)) (write V ("meta-disk " +:+ or_default (meta v) "internal" +:+ ";")) ;;;
    match v_tiebreaker v with
    | Some b => write V ("tiebreaker " +:+ (if b then "yes" else "no") +:+ ";")
    | None => mret tt
    end).

Definition config_host (self n : nat) : M cfg unit :=
  with_block ("on " +:+ h_hostname (node_info w n)) (fun N =>
    (if version_geb (h_version (node_info w self)) drbd9 then
       write N ("node-id " +:+ str_nat (n_id (node_at w n)) +:+ ";")
     else
       write N ("address " +:+ h_addr (node_info w n) +:+ ":" +:+ str_nat (n_port (node_at w n)) +:+ ";")) ;;;
    for_each (enumerate (n_disks (node_at w n))) (fun '(index, v) => config_volume index (volume_at w v))).

Definition config_disk_block (self : nat) (r : resource) : M cfg unit :=
  let x := node_info w self in
  let fencing := fencing_mode (node_at w self) in
  with_block "disk" (fun b =>
    write b "disk-flushes no;" ;;;
    write b "md-flushes no;" ;;;
    when (negb (has_sub "c-min-rate" (r_disk_options r)) && bool_decide (h_os x = ("ubuntu", "18.04")))
      (write b "c-min-rate 0;") ;;;
    when (negb (bool_decide (fencing = EmptyString)) && version_ltb (h_version x) drbd9)
      (write b ("fencing " +:+ fencing +:+ ";")) ;;;
    write b (r_disk_options r)).

Definition config_net_block (self : nat) (r : resource) : M cfg unit :=
  let fencing := fencing_mode (node_at w self) in
  with_block "net" (fun net =>
    when (truthy (transport r))
      (write net ("transport " +:+ dquoted (default EmptyString (transport r)) +:+ ";")) ;;;
    when (bool_decide (r_tls r = "yes")) (write net ("tls " +:+ r_tls r +:+ ";")) ;;;
    when (negb (bool_decide (fencing = EmptyString)) && version_geb (h_version (node_info w self)) drbd9)
      (write net ("fencing " +:+ fencing +:+ ";")) ;;;
    write net (r_net_options r)).

Definition config_proxy_block : M cfg unit :=
  with_block "proxy" (fun proxy =>
    when (proxy_enable g)
      ((if lz4_enable g then with_block "plugin" (fun p => write p "lz4;")
        else if (zstd_enable g =? 0)%Z then mret tt
        else with_block "plugin" (fun p => write p ("zstd levels " +:+ str_int (zstd_enable g) +:+ ";"))) ;;;
       try_except
         (match memlimit g with
          | Some m => if (m =? 0)%Z then mret tt else write proxy ("memlimit " +:+ str_int m +:+ ";")
          | None => raise (PlainException "NameError")
          end) (fun _ => mret tt))).

Definition config_body (self : nat) : M cfg unit :=
  let r := resource_at w (n_resource (node_at w self)) in
  with_block ("resource " +:+ r_name r) (fun _ =>
    with_block "handlers" (fun handlers => write handlers (r_handlers r)) ;;;
    with_block "options" (fun res_options => write res_options (r_resource_options r)) ;;;
    config_disk_block self r ;;;
    config_net_block self r ;;;
    config_proxy_block ;;;
    for_each (items (r_nodes r)) (config_host self) ;;;
    (if version_geb (h_version (node_info w self)) drbd9 then config_conns_9 self else mret tt)).

(** [config], and the [ConfigBlock] state it leaves.  Inside an open block the
    destination function is that of the outer block, and [config]'s own list
    stays empty. *)
Definition config_run (self : nat) (s : cfg) : res string * cfg :=
  let '(r, s') := config_body self s in
  ((let* _ := r in
    Ok (match stack s with
        | [] => join EmptyString (drop (length (text s)) (text s'))
        | _ => EmptyString
        end)), s').
Definition config (self : nat) : res string := fst (config_run self cfg_start).
End config.

(** ** The specification: a tree and its printer *)

#[local] Set Warnings "-register-all".
(** A line is what its expression evaluates to, before formatting. *)
Inductive cfg_item :=
| Line (data : res string)
| Block (name : string) (body : list cfg_item).

Definition block_indent (depth : nat) : string :=
  match depth with O => EmptyString | _ => indents (S depth) end.

Definition print_line (indent data : string) : string :=
  let content := indent +:+ INDENT +:+ data in
  if endswith newline content then content else content +:+ newline.

(** The pieces written for an item with [depth] blocks open, the innermost one
    having the given indentation *)
Fixpoint print_item (depth : nat) (indent : string) (i : cfg_item) : res (list string) :=
  match i with
  | Line data =>
      let* d := data in
      let* content := py_format d in
      Ok [print_line indent content]
  | Block name body =>
      let ind := block_indent depth in
      let* inner :=
        (fix print_items (l : list cfg_item) : res (list string) :=
           match l with
           | [] => Ok []
           | i :: l => let* a := print_item (S depth) ind i in
                       let* b := print_items l in Ok (a ++ b)
           end) body in
      Ok ((ind +:+ name +:+ " {" +:+ newline) :: inner ++ [ind +:+ "}" +:+ newline +:+ newline])
  end.
Fixpoint print_items (depth : nat) (indent : string) (l : list cfg_item) : res (list string) :=
  match l with
  | [] => Ok []
  | i :: l => let* a := print_item depth indent i in
              let* b := print_items depth indent l in Ok (a ++ b)
  end.

Section tree.
Context (g : globals) (w : world).

Definition proxy_host_item (self n : nat) : cfg_item :=
  Block (proxy_header w n)
    [Line (Ok ("inside 127.0.0.2:" +:+ str_nat (n_port (node_at w self)) +:+ ";"));
     Line (let* addr := first_addr w n in
           Ok ("outside ipv4 " +:+ addr +:+ ":" +:+ str_nat (n_port (node_at w self)) +:+ ";"))].
Definition path_item (n1 n2 : nat) (a : string * string) : cfg_item :=
  Block "path" [Line (Ok (addr_line w n1 (fst a))); Line (Ok (addr_line w n2 (snd a)))].
Definition connection_item (self : nat) (p : nat * nat) : cfg_item :=
  let '(n1, n2) := p in
  Block "connection"
    (if proxy_enable g then
       [proxy_host_item self n1; proxy_host_item self n2; Block "net" [Line (Ok "protocol A;")]]
     else
       Block "net" [] :: map (path_item n1 n2) (zip (h_addrs (node_info w n1)) (h_addrs (node_info w n2)))).

Definition volume_item (p : nat * nat) : cfg_item :=
  let v := volume_at w (snd p) in
  Block ("volume " +:+ str_nat (fst p))
    ([Line (Ok ("device " +:+ device_for_config w v +:+ ";"));
      Line (Ok ("disk " +:+ or_default (disk v) "none" +:+ ";"))] ++
     (if truthy (disk v) then [Line (Ok ("meta-disk " +:+ or_default (meta v) "internal" +:+ ";"))] else []) ++
     match v_tiebreaker v with
     | Some b => [Line (Ok ("tiebreaker " +:+ (if b then "yes" else "no") +:+ ";"))]
     | None => []
     end).
Definition host_item (self n : nat) : cfg_item :=
  Block ("on " +:+ h_hostname (node_info w n))
    (Line (Ok (if version_geb (h_version (node_info w self)) drbd9
               then "node-id " +:+ str_nat (n_id (node_at w n)) +:+ ";"
               else "address " +:+ h_addr (node_info w n) +:+ ":" +:+ str_nat (n_port (node_at w n)) +:+ ";"))
     :: map volume_item (enumerate (n_disks (node_at w n)))).

Definition disk_item (self : nat) (r : resource) : cfg_item :=
  let x := node_info w self in
  let fencing := fencing_mode (node_at w self) in
  Block "disk"
    ([Line (Ok "disk-flushes no;"); Line (Ok "md-flushes no;")] ++
     (if negb (has_sub "c-min-rate" (r_disk_options r)) && bool_decide (h_os x = ("ubuntu", "18.04"))
      then [Line (Ok "c-min-rate 0;")] else []) ++
     (if negb (bool_decide (fencing = EmptyString)) && version_ltb (h_version x) drbd9
      then [Line (Ok ("fencing " +:+ fencing +:+ ";"))] else []) ++
     [Line (Ok (r_disk_options r))]).
Definition net_item (self : nat) (r : resource) : cfg_item :=
  let fencing := fencing_mode (node_at w self) in
  Block "net"
    ((if truthy (transport r)
      then [Line (Ok ("transport " +:+ dquoted (default EmptyString (transport r)) +:+ ";"))] else []) ++
     (if bool_decide (r_tls r = "yes") then [Line (Ok ("tls " +:+ r_tls r +:+ ";"))] else []) ++
     (if negb (bool_decide (fencing = EmptyString)) && version_geb (h_version (node_info w self)) drbd9
      then [Line (Ok ("fencing " +:+ fencing +:+ ";"))] else []) ++
     [Line (Ok (r_net_options r))]).
Definition proxy_item : cfg_item :=
  Block "proxy"
    (if proxy_enable g then
       (if lz4_enable g then [Block "plugin" [Line (Ok "lz4;")]]
        else if (zstd_enable g =? 0)%Z then []
        else [Block "plugin" [Line (Ok ("zstd levels " +:+ str_int (zstd_enable g) +:+ ";"))]]) ++
       match memlimit g with
       | Some m => if (m =? 0)%Z then [] else [Line (Ok ("memlimit " +:+ str_int m +:+ ";"))]
       | None => []
       end
     else []).

Definition config_tree (self : nat) : cfg_item :=
  let r := resource_at w (n_resource (node_at w self)) in
  Block ("resource " +:+ r_name r)
    ([Block "handlers" [Line (Ok (r_handlers r))];
      Block "options" [Line (Ok (r_resource_options r))];
      disk_item self r; net_item self r; proxy_item] ++
     map (host_item self) (items (r_nodes r)) ++
     (if version_geb (h_version (node_info w self)) drbd9
      then map (connection_item self) (later_pairs (items (r_nodes r))) else [])).
End tree.

(** ** Lemmas: formatting *)

Lemma py_format_plain s : scontains "%"%char s = false -> py_format s = Ok s.
Proof.
  unfold py_format. intros Hs.
  assert (Hgo : forall n, slen s < n -> py_format_go n s = Ok s); [|apply Hgo; lia].
  induction s as [|c s IH]; intros [|n] Hn; try (simpl in Hn; lia); [done|].
  cbn [scontains] in Hs. apply orb_false_iff in Hs as [Hc%bool_decide_eq_false Hs].
  assert (Hstep : py_format_go (S n) (String c s) = let* r := py_format_go n s in Ok (String c r)).
  { destruct c as [[] [] [] [] [] [] [] []]; done. }
  rewrite Hstep, IH; [done|done|]. unfold slen in *. simpl in Hn. lia.
Qed.

Lemma py_format_bad pre c post : scontains "%"%char pre = false ->
  scontains c "%-+ #0123456789.hlL" = false ->
  py_format (pre +:+ String "%"%char (String c post)) =
    Raise (TypeError "not enough arguments for format string").
Proof.
  intros Hpre Hc. unfold py_format.
  assert (Hlast : forall n, py_format_go (S n) (String "%"%char (String c post)) =
    Raise (TypeError "not enough arguments for format string")).
  { intros n. cbn [py_format_go]. destruct c as [[] [] [] [] [] [] [] []]; done. }
  assert (Hgo : forall n, slen pre < n -> py_format_go n (pre +:+ String "%"%char (String c post)) =
    Raise (TypeError "not enough arguments for format string"));
    [|apply Hgo; rewrite slen_app; unfold slen; simpl; lia].
  induction pre as [|d pre IH]; intros [|n] Hn; try (simpl in Hn; lia); [apply Hlast|].
  cbn [scontains] in Hpre. apply orb_false_iff in Hpre as [Hd%bool_decide_eq_false Hpre].
  rewrite sapp_cons.
  assert (Hstep : py_format_go (S n) (String d (pre +:+ String "%"%char (String c post))) =
    let* r := py_format_go n (pre +:+ String "%"%char (String c post)) in Ok (String d r)).
  { destruct d as [[] [] [] [] [] [] [] []]; done. }
  rewrite Hstep, IH; [done|done|]. unfold slen in *. simpl in Hn. lia.
Qed.

Lemma pretty_N_plain (n : N) : scontains "%"%char (pretty n) = false.
Proof. by apply (sall_contains is_digit); [apply pretty_N_digits|]. Qed.
Lemma str_int_plain z : scontains "%"%char (str_int z) = false.
Proof.
  destruct z as [|p|p]; [done|apply (pretty_N_plain (N.pos p))|].
  change (str_int (Z.neg p)) with ("-" +:+ pretty (N.pos p)). rewrite scontains_app.
  by rewrite pretty_N_plain.
Qed.

(** ** Lemmas: the writer prints the tree *)

(** Run with [d] open blocks, [m] restores the stack and writes what the
    printer says, or raises the same exception. *)
Definition prints (d : nat) (indent : string) (m : M cfg unit) (l : list cfg_item) : Prop :=
  forall s, length (stack s) = d ->
  exists r n txt, m s = (r, Cfg (stack s) n (text s ++ txt)) /\
    match print_items d indent l with Ok p => r = Ok tt /\ txt = p | Raise e => r = Raise e end.

Lemma print_items_app d indent l1 l2 : print_items d indent (l1 ++ l2) =
  let* a := print_items d indent l1 in let* b := print_items d indent l2 in Ok (a ++ b).
Proof.
  induction l1 as [|i l1 IH]; simpl; mred; [by destruct (print_items d indent l2)|].
  destruct (print_item d indent i) as [a|e]; [|done]. rewrite IH. mred.
  destruct (print_items d indent l1); [|done]. destruct (print_items d indent l2); [|done].
  by rewrite app_assoc.
Qed.

Lemma print_block_item d indent name body : print_item d indent (Block name body) =
  let* inner := print_items (S d) (block_indent d) body in
  Ok ((block_indent d +:+ name +:+ " {" +:+ newline) :: inner ++
      [block_indent d +:+ "}" +:+ newline +:+ newline]).
Proof.
  assert (Hin : (fix print_items (l : list cfg_item) : res (list string) :=
      match l with
      | [] => Ok []
      | i :: l => let* a := print_item (S d) (block_indent d) i in
                  let* b := print_items l in Ok (a ++ b)
      end) body = print_items (S d) (block_indent d) body).
  { induction body as [|i l IH]; [done|]. cbn [print_items]. by rewrite <-IH. }
  cbn [print_item]. by rewrite Hin.
Qed.

Lemma prints_ret d indent : prints d indent (mret tt) [].
Proof. intros s _. exists (Ok tt), (next_block s), []. rewrite app_nil_r. by destruct s. Qed.

Lemma prints_bind d indent m1 m2 l1 l2 : prints d indent m1 l1 -> prints d indent m2 l2 ->
  prints d indent (m1 ;;; m2) (l1 ++ l2).
Proof.
  intros H1 H2 s Hd. destruct (H1 s Hd) as (r1 & n1 & t1 & E1 & P1). mred. rewrite E1.
  rewrite print_items_app. destruct (print_items d indent l1) as [p1|e1].
  - destruct P1 as [-> ->]. destruct (H2 (Cfg (stack s) n1 (text s ++ p1)) Hd) as (r2 & n2 & t2 & E2 & P2).
    rewrite E2. exists r2, n2, (p1 ++ t2). cbn [text stack]. rewrite app_assoc. split; [done|]. mred.
    destruct (print_items d indent l2) as [p2|e2]; [|done]. by destruct P2 as [-> ->].
  - subst r1. exists (Raise e1), n1, t1. done.
Qed.

Lemma prints_when d indent b m l : (b = true -> prints d indent m l) ->
  prints d indent (when b m) (if b then l else []).
Proof. intros Hm. destruct b; [by apply Hm|apply prints_ret]. Qed.

Lemma prints_lift_write d b (r : res string) : prints d (b_indent b) (lift r ≫= write b) [Line r].
Proof.
  intros s _. destruct r as [data|e].
  - unfold lift, write. mred. cbn [print_items print_item]. mred. destruct (py_format data) as [content|e].
    + eexists (Ok tt), _, _. split; [reflexivity|]. done.
    + exists (Raise e), (next_block s), []. rewrite app_nil_r. by destruct s.
  - exists (Raise e), (next_block s), []. rewrite app_nil_r. by destruct s.
Qed.
Lemma prints_write d b data : prints d (b_indent b) (write b data) [Line (Ok data)].
Proof. exact (prints_lift_write d b (Ok data)). Qed.

Lemma prints_for_each {A} d indent (l : list A) body it :
  (forall x, prints d indent (body x) [it x]) -> prints d indent (for_each l body) (map it l).
Proof.
  intros Hb. induction l as [|x l IH]; [apply prints_ret|].
  apply (prints_bind d indent (body x) (for_each l body) [it x] (map it l) (Hb x) IH).
Qed.

Lemma prints_block d indent t body l :
  (forall b, b_indent b = block_indent d -> prints (S d) (block_indent d) (body b) l) ->
  prints d indent (with_block t body) [Block t l].
Proof.
  intros Hb s Hd. unfold with_block, enter_block, get, put, write_no_indent, modify. mred.
  set (b := ConfigBlock (next_block s) (match stack s with [] => EmptyString | l0 => indents (S (length l0)) end)).
  cbn [stack next_block text].
  assert (Hi : b_indent b = block_indent d).
  { subst d. unfold b, block_indent. simpl. by destruct (stack s). }
  rewrite Hi. edestruct (Hb b Hi) as (r & n & txt & E & P); [|rewrite E]; [simpl; congruence|].
  unfold exit_block, write_no_indent, modify, get, put, py_assert. mred. cbn [stack next_block text].
  rewrite bool_decide_true by done. mred. eexists _, n, _. rewrite Hi. split.
  - rewrite <-!app_assoc. reflexivity.
  - change (print_items d indent [Block t l]) with
      (let* a := print_item d indent (Block t l) in let* b := Ok [] in Ok (a ++ b)).
    rewrite print_block_item. mred. destruct (print_items (S d) (block_indent d) l) as [p|e]; [|done].
    destruct P as [-> ->]. split; [done|]. rewrite app_nil_r. done.
Qed.

Lemma prints_if d indent (b : bool) m1 m2 l1 l2 : prints d indent m1 l1 -> prints d indent m2 l2 ->
  prints d indent (if b then m1 else m2) (if b then l1 else l2).
Proof. by destruct b. Qed.

(** A write the printer accepts is not caught. *)
Lemma prints_try d indent m h l p : prints d indent m l -> print_items d indent l = Ok p ->
  prints d indent (try_except m h) l.
Proof.
  intros Hm Hp s Hd. destruct (Hm s Hd) as (r & n & txt & E & P). unfold try_except. rewrite E.
  rewrite Hp in P |- *. destruct P as [-> ->]. eauto 10.
Qed.

Section prints_config.
Context (g : globals) (w : world) (d : nat).

Lemma prints_proxy_host indent self n :
  prints d indent (config_proxy_host w self n) [proxy_host_item w self n].
Proof.
  apply prints_block. intros b <-. apply (prints_bind _ _ _ _ [_] [_]); [apply prints_write|].
  pose proof (prints_lift_write (S d) b (let* addr := first_addr w n in
    Ok ("outside ipv4 " +:+ addr +:+ ":" +:+ str_nat (n_port (node_at w self)) +:+ ";"))) as Hw.
  intros s Hs. specialize (Hw s Hs). revert Hw. unfold lift. mred. by destruct (first_addr w n).
Qed.

Lemma prints_path indent n1 n2 a :
  prints d indent (with_block "path" (fun path =>
    write path (addr_line w n1 (fst a)) ;;; write path (addr_line w n2 (snd a)))) [path_item w n1 n2 a].
Proof.
  apply prints_block. intros b <-. apply (prints_bind _ _ _ _ [_] [_]); apply prints_write.
Qed.

Lemma prints_volume indent index v :
  prints d indent (config_volume w index (volume_at w v)) [volume_item w (index, v)].
Proof.
  apply prints_block. intros b <-. cbn [app].
  apply (prints_bind _ _ _ _ [_] (_ :: _)); [apply prints_write|].
  apply (prints_bind _ _ _ _ [_] (_ ++ _)); [apply prints_write|].
  apply prints_bind; [apply prints_when; intros; apply prints_write|].
  cbn [snd]. destruct (v_tiebreaker (volume_at w v)); [apply prints_write|apply prints_ret].
Qed.

Lemma prints_disk_block indent self r :
  prints d indent (config_disk_block w self r) [disk_item w self r].
Proof.
  apply prints_block. intros b <-.
  apply (prints_bind _ _ _ _ [_] (_ :: _)); [apply prints_write|].
  apply (prints_bind _ _ _ _ [_] (_ ++ _)); [apply prints_write|].
  apply prints_bind; [apply prints_when; intros; apply prints_write|].
  apply prints_bind; [apply prints_when; intros; apply prints_write|]. apply prints_write.
Qed.

Lemma prints_net_block indent self r :
  prints d indent (config_net_block w self r) [net_item w self r].
Proof.
  apply prints_block. intros b <-.
  apply prints_bind; [apply prints_when; intros; apply prints_write|].
  apply prints_bind; [apply prints_when; intros; apply prints_write|].
  apply prints_bind; [apply prints_when; intros; apply prints_write|]. apply prints_write.
Qed.
End prints_config.

Section prints_config2.
Context (g : globals) (w : world) (d : nat).

Lemma prints_connection indent self p :
  prints d indent (let '(n1, n2) := p in config_one_connection g w self n1 n2) [connection_item g w self p].
Proof.
  destruct p as [n1 n2]. apply prints_block. intros b <-. destruct (proxy_enable g).
  - apply (prints_bind _ _ _ _ [_] (_ :: _)); [apply prints_proxy_host|].
    apply (prints_bind _ _ _ _ [_] [_]); [apply prints_proxy_host|].
    apply prints_block. intros b' <-. apply prints_write.
  - apply (prints_bind _ _ _ _ [_]); [apply prints_block; intros; apply prints_ret|].
    apply prints_for_each. intros [a1 a2]. exact (prints_path w (S d) _ n1 n2 (a1, a2)).
Qed.

Lemma prints_host indent self n : prints d indent (config_host w self n) [host_item w self n].
Proof.
  apply prints_block. intros b <-. apply (prints_bind _ _ _ _ [_]).
  - destruct (version_geb _ _); apply prints_write.
  - apply prints_for_each. intros [index v]. apply prints_volume.
Qed.

Lemma prints_proxy_block indent : prints d indent (config_proxy_block g) [proxy_item g].
Proof.
  apply prints_block. intros b <-. apply prints_when. intros _. apply prints_bind.
  - apply prints_if; [|apply prints_if; [apply prints_ret|]];
      apply prints_block; intros b' <-; apply prints_write.
  - destruct (memlimit g) as [m|]; [|intros s Hs; exact (prints_ret (S d) EmptyString s Hs)].
    destruct (m =? 0)%Z; [intros s Hs; exact (prints_ret (S d) EmptyString s Hs)|].
    eapply prints_try; [apply prints_write|]. cbn [print_items print_item]. mred.
    rewrite py_format_plain; [reflexivity|].
    rewrite scontains_app, scontains_app, str_int_plain. reflexivity.
Qed.
End prints_config2.

Lemma prints_config_body g w d indent self :
  prints d indent (config_body g w self) [config_tree g w self].
Proof.
  apply prints_block. intros b <-. cbn [app].
  do 2 (apply (prints_bind _ _ _ _ [_]); [apply prints_block; intros b' <-; apply prints_write|]).
  apply (prints_bind _ _ _ _ [_]); [apply prints_disk_block|].
  apply (prints_bind _ _ _ _ [_]); [apply prints_net_block|].
  apply (prints_bind _ _ _ _ [_]); [apply prints_proxy_block|].
  apply prints_bind; [apply prints_for_each; intros; apply prints_host|].
  apply prints_if; [|apply prints_ret]. apply prints_for_each. intros p. apply prints_connection.
Qed.

(** ** Lemmas: what can fail *)

(** No line of the item fails or contains a percent sign. *)
Fixpoint plain_item (i : cfg_item) : bool :=
  match i with
  | Line (Ok data) => negb (scontains "%"%char data)
  | Line (Raise _) => false
  | Block _ body => forallb plain_item body
  end.

Lemma plain_item_prints i : plain_item i = true -> forall d indent, exists p, print_item d indent i = Ok p.
Proof.
  revert i. fix IH 1. intros [[data|e]|name body]; cbn [plain_item]; intros Hp d indent; [|done|].
  - exists [print_line indent data]. cbn [print_item]. mred. rewrite py_format_plain; [done|].
    by apply negb_true_iff.
  - rewrite print_block_item.
    assert (Hb : forall ind, exists p, print_items (S d) ind body = Ok p).
    { clear - IH Hp. induction body as [|i l IHl]; intros ind; [by exists []|].
      cbn [forallb] in Hp. apply andb_true_iff in Hp as [Hi Hl]. cbn [print_items].
      destruct (IH i Hi (S d) ind) as [a ->]. destruct (IHl Hl ind) as [c ->]. mred. eauto. }
    destruct (Hb (block_indent d)) as [p ->]. mred. eauto.
Qed.

Lemma elem_of_later_pairs l a b : (a, b) ∈ later_pairs l -> a ∈ l /\ b ∈ l.
Proof.
  induction l as [|n l IH]; [by intros ?%elem_of_nil|]. cbn [later_pairs].
  intros [Hin|Hin]%elem_of_app.
  - apply list_elem_of_fmap in Hin as (m & [= <- <-] & Hm). set_solver.
  - apply IH in Hin. set_solver.
Qed.

Lemma later_pairs_total l a b : a ∈ l -> b ∈ l -> a <> b -> (a, b) ∈ later_pairs l \/ (b, a) ∈ later_pairs l.
Proof.
  induction l as [|n l IH]; [by intros ?%elem_of_nil|]. cbn [later_pairs]. rewrite !elem_of_app.
  intros [->|Ha]%elem_of_cons [->|Hb]%elem_of_cons Hne; [done|..].
  - left; left. by apply list_elem_of_fmap_2.
  - right; left. by apply list_elem_of_fmap_2.
  - destruct (IH Ha Hb Hne); auto.
Qed.

Lemma later_pairs_once l : NoDup l -> NoDup (later_pairs l) /\
  forall a b, (a, b) ∈ later_pairs l -> ((b, a) ∉ later_pairs l) /\ a <> b.
Proof.
  induction 1 as [|n l Hn Hl [IHn IH]]; [split; [constructor|by intros a b ?%elem_of_nil]|].
  cbn [later_pairs]. split.
  - apply NoDup_app. split; [|split; [|done]].
    + apply NoDup_fmap_2; [|done]. by intros x y [= ->].
    + intros [a b] Hin Hab. apply list_elem_of_fmap in Hin as (m & [= -> ->] & Hm).
      by apply elem_of_later_pairs in Hab as [? _].
  - intros a b. rewrite !elem_of_app. intros [Hin|Hin].
    + apply list_elem_of_fmap in Hin as (m & [= -> ->] & Hm). split; [|by intros ->].
      intros [Hin|Hin].
      * apply list_elem_of_fmap in Hin as (m' & [= -> <-] & Hm'). done.
      * by apply elem_of_later_pairs in Hin as [_ ?].
    + destruct (IH a b Hin) as [Hba Hne]. split; [|done]. intros [Hin'|Hin']; [|done].
      apply list_elem_of_fmap in Hin' as (m & [= -> ->] & Hm).
      by apply elem_of_later_pairs in Hin as [_ ?].
Qed.

(** ** Lemmas: the whole file *)

Lemma config_body_prints g w self s : exists r n txt,
  config_body g w self s = (r, Cfg (stack s) n (text s ++ txt)) /\
  match print_item (length (stack s)) EmptyString (config_tree g w self) with
  | Ok p => r = Ok tt /\ txt = p
  | Raise e => r = Raise e
  end.
Proof.
  destruct (prints_config_body g w (length (stack s)) EmptyString self s eq_refl) as (r & n & txt & E & P).
  exists r, n, txt. split; [done|]. cbn [print_items] in P. revert P. mred.
  destruct (print_item _ _ _) as [p|e]; [|done]. by rewrite app_nil_r.
Qed.

Lemma config_is_printed g w self :
  config g w self = (let* pieces := print_item 0 EmptyString (config_tree g w self) in Ok (join EmptyString pieces)).
Proof.
  destruct (config_body_prints g w self cfg_start) as (r & n & txt & E & P). unfold config, config_run.
  rewrite E. cbn [fst stack text cfg_start length drop app] in *. destruct (print_item _ _ _) as [p|e].
  - by destruct P as [-> ->].
  - by subst r.
Qed.

(** ** Properties *)

(** C4: started outside any block, [config] returns what the printer makes of
    the configuration tree of the node, or raises the exception of its first
    bad line; started inside open blocks it appends that text to the output of
    the outermost one. In all cases the stack of open blocks is as it was. *)
Theorem config_prints_the_tree g w self s :
  let printed := print_item (length (stack s)) EmptyString (config_tree g w self) in
  let '(r, s') := config_run g w self s in
  stack s' = stack s /\
  (stack s = [] -> r = (let* pieces := printed in Ok (join EmptyString pieces))) /\
  forall pieces, printed = Ok pieces -> text s' = text s ++ pieces.
Proof.
  intros printed. destruct (config_body_prints g w self s) as (r & n & txt & E & P). unfold config_run, printed.
  rewrite E. cbn [stack text]. split; [done|]. destruct (print_item _ _ _) as [p|e].
  - destruct P as [-> ->]. split; [|by intros ? [= ->]]. intros ->. mred. by rewrite drop_app_length.
  - subst r. by split.
Qed.

(** [config] always succeeds when no line it writes contains a percent
    sign; but a handler or an option with one is used as a format string, and
    an option such as [on-no-data %p] makes it raise. *)
Theorem config_fails_on_percent g w self r : resource_at w (n_resource (node_at w self)) = r ->
  (plain_item (config_tree g w self) = true -> exists t, config g w self = Ok t) /\
  (forall pre c post, r_handlers r = pre +:+ String "%"%char (String c post) ->
    scontains "%"%char pre = false -> scontains c "%-+ #0123456789.hlL" = false ->
    config g w self = Raise (TypeError "not enough arguments for format string")).
Proof.
  intros Hr. rewrite config_is_printed. split.
  - intros Hp. destruct (plain_item_prints _ Hp 0 EmptyString) as [p ->]. mred. eauto.
  - intros pre c post Hh Hpre Hcc. unfold config_tree. rewrite Hr, print_block_item. cbn [app print_items].
    rewrite print_block_item. cbn [print_items print_item]. mred. by rewrite Hh, py_format_bad.
Qed.

(** the configuration of a DRBD 9 node has, after its five option
    sections, one section per node of the resource in order, with the node's
    id and its volumes numbered from 0, and then one connection section for
    each unordered pair of nodes, never both ways around nor of a node with
    itself; before DRBD 9 it has no connection sections. *)
Theorem config_connects_every_pair_once g w self :
  let r := resource_at w (n_resource (node_at w self)) in
  let l := items (r_nodes r) in
  NoDup l ->
  exists options conns,
    config g w self = (let* pieces := print_item 0 EmptyString (Block ("resource " +:+ r_name r)
        (options ++ map (host_item w self) l ++ map (connection_item g w self) conns)) in
      Ok (join EmptyString pieces)) /\
    length options = 5 /\
    (version_geb (h_version (node_info w self)) drbd9 = false -> conns = []) /\
    (version_geb (h_version (node_info w self)) drbd9 = true ->
     NoDup conns /\
     (forall a b, (a, b) ∈ conns -> a ∈ l /\ b ∈ l /\ a <> b /\ (b, a) ∉ conns) /\
     (forall a b, a ∈ l -> b ∈ l -> a <> b -> (a, b) ∈ conns \/ (b, a) ∈ conns)).
Proof.
  intros r l Hl. rewrite config_is_printed. unfold config_tree. fold r. fold l.
  exists [Block "handlers" [Line (Ok (r_handlers r))]; Block "options" [Line (Ok (r_resource_options r))];
    disk_item w self r; net_item w self r; proxy_item g],
    (if version_geb (h_version (node_info w self)) drbd9 then later_pairs l else []).
  destruct (version_geb _ _) eqn:Hv; split_and!; try done. intros _.
  destruct (later_pairs_once l Hl) as [Hnd Honce]. split_and!; [done| |by apply later_pairs_total].
  intros a b Hab. destruct (Honce a b Hab). destruct (elem_of_later_pairs l a b Hab). done.
Qed.

(** ** Witnesses *)

Definition demo_info (name addr : string) : host_info :=
  HostInfo name (name +:+ ".example") "scratch" None (9, 2, 5)%Z "/var/lib/drbd-test" addr [addr]
    ("ubuntu", "22.04") false.
Definition demo_config_world (handlers : string) : world :=
  World (Env [] ∅)
    [NewHost (demo_info "a" "10.0.0.1") "lvm" "/dev/vdb" 78 1 None;
     NewHost (demo_info "b" "10.0.0.2") "lvm" "/dev/vdb" 78 1 None]
    [NewNode 0 0 77 [0] 0 os_empty EmptyString true; NewNode 1 0 77 [1] 1 os_empty EmptyString true]
    [NewVolume 0 1 0 (Some (LvmVolume "r-disk0" "/dev/scratch/r-disk0" "10M")) None None;
     NewVolume 0 1 1 None None None]
    [NewResource "r" EmptyString EmptyString EmptyString handlers (os_init (Some [0; 1])) 1 None "no" default_patterns].
Definition demo_globals : globals := Globals false false 0 None.

Lemma config_fails_on_percent_witness :
  (exists t, config demo_globals (demo_config_world EmptyString) 0 = Ok t) /\
  config demo_globals (demo_config_world "fence-peer %s;") 0 =
    Raise (TypeError "not enough arguments for format string").
Proof.
  split.
  - apply (proj1 (config_fails_on_percent demo_globals (demo_config_world EmptyString) 0 _ eq_refl)). reflexivity.
  - eapply (proj2 (config_fails_on_percent demo_globals (demo_config_world "fence-peer %s;") 0 _ eq_refl)
      "fence-peer " "s"%char ";"); reflexivity.
Defined.

Lemma config_connects_every_pair_once_witness :
  exists options conns, length options = 5 /\
    config demo_globals (demo_config_world EmptyString) 0 =
      (let* pieces := print_item 0 EmptyString
         (Block "resource r" (options ++ map (host_item (demo_config_world EmptyString) 0) [0; 1] ++
           map (connection_item demo_globals (demo_config_world EmptyString) 0) conns)) in
       Ok (join EmptyString pieces)).
Proof.
  destruct (config_connects_every_pair_once demo_globals (demo_config_world EmptyString) 0) as (o & c & H1 & H2 & _).
  - apply (bool_decide_unpack _). vm_compute. exact I.
  - exists o, c. split; [exact H2|exact H1].
Defined.
