(* ===== verification/Collections.v ===== *)
(** * Collections of test objects (src/python/drbdtest.py)

    [Collection] and its subclasses are proved against the interface of the
    ordered set: any implementation that satisfies [OrderedSetSpec] will do.
    The class test of the assertions is the typing of the model; the other
    half, that all members belong to one resource, is modelled.  Also here: the
    event filters of the subclasses, and the function [connections]. *)

From S2P Require Import Prelude PyStr Dict OrderedSet.

Section collection.
Context {K T R : Type} `{EqDecision K} `{EqDecision R} `{!OrderedSetOps K T}.
Context (resource : K -> R).

(** ** Operations *)

(** [same_resource(members)] of the collection with the members [s] *)
Definition same_resource (members : list K) (s : T) : bool :=
  match elems s with
  | k :: _ => forallb (fun m => bool_decide (resource m = resource k)) members
  | [] =>
      match members with
      | m0 :: ms => forallb (fun m => bool_decide (resource m = resource m0)) ms
      | [] => true
      end
  end.

(** [__init__]: the assertion is made once for each member. *)
Definition coll_init (members : list K) : res T :=
  let s := osNew members in
  if forallb (fun _ => same_resource members s) members then Ok s else Raise AssertionError.

Definition coll_add (member : K) : M T unit :=
  let* ok := gets (same_resource [member]) in
  py_assert ok ;;;
  modify (osAdd member).

Definition coll_remove (member : K) : M T unit :=
  let* ok := gets (same_resource [member]) in
  py_assert ok ;;;
  let* b := gets (osContains member) in
  when b (osRemove member).

Definition coll_extend (members : list K) : M T unit :=
  for_each members (fun _ => let* ok := gets (same_resource members) in py_assert ok) ;;;
  modify (osUpdate members).

Definition coll_difference (members : list K) (s : T) : res T :=
  if forallb (fun _ => same_resource members s) members
  then coll_init (elems (osDifference members s)) else Raise AssertionError.

Definition coll_len (s : T) : nat := length (elems s).
Definition coll_getitem (index : Z) (s : T) : res K := py_index (elems s) index.
Definition coll_getslice (lo hi : option Z) (s : T) : res T := coll_init (py_slice lo hi (elems s)).

Definition coll_pop : M T K :=
  let* n := gets coll_len in
  if decide (n = 0) then raise (RuntimeError "Can't pop if empty")
  else
    let* member := (fun s => (coll_getitem 0 s, s)) in
    coll_remove member ;;;
    mret member.

(** [Collection.property]: the union of a property of the members *)
Definition coll_property {J} (prop : J -> list K) (members : list J) : res T :=
  let* s := coll_init [] in
  let '(r, s) := for_each members (fun m => coll_extend (prop m)) s in
  let* _ := r in Ok s.
End collection.

(** ** Event filters *)

(** [filters[name].append(f)], creating the list for a new name *)
Definition add_filter (filters : dict string (list (list string))) (name : string) (f : list string) :
    dict string (list (list string)) :=
  d_set name (default [] (d_get name filters) ++ [f]) filters.

Section filters.
Context {V : Type} (node_name : V -> string) (filter_of : V -> list string).
(** The loops of [Volumes.event], [Connections.event] and [PeerDevices.event] *)
Definition event_filters (members : list V) : dict string (list (list string)) :=
  foldl (fun d m => add_filter d (node_name m) (filter_of m)) [] members.
End filters.

(** The filter of a member; a volume is its node's name and its number, a
    connection the first node's name, whether its DRBD is version 9, and the
    id of the second node. *)
Definition volume_filter (v : string * nat) : list string := ["volume:" +:+ str_nat (snd v)].
Definition connection_filter (c : string * (bool * nat)) : list string :=
  if fst (snd c) then ["peer-node-id:" +:+ str_nat (snd (snd c))] else [].
Definition peer_device_filter (p : string * (bool * nat) * nat) : list string :=
  let '(c, volume) := p in ("volume:" +:+ str_nat volume) :: connection_filter c.

Definition volumes_event (members : list (string * nat)) : dict string (list (list string)) :=
  event_filters fst volume_filter members.
Definition connections_event (members : list (string * (bool * nat))) : dict string (list (list string)) :=
  event_filters fst connection_filter members.
Definition peer_devices_event (members : list (string * (bool * nat) * nat)) :
    dict string (list (list string)) :=
  event_filters (fun p => fst (fst p)) peer_device_filter members.

(** [Resource.logscan]: the filters it passes on *)
Definition logscan_filters (n_resources : nat) (resource_name : string)
    (filters : dict string (list (list string))) : dict string (list (list string)) :=
  if decide (1 < n_resources) then
    map (fun '(node_name, node_filters) =>
      (node_name, map (fun filter_set => ("name:" +:+ resource_name) :: filter_set) node_filters)) filters
  else filters.

(** ** [connections] *)

Section connections.
Context {N T R : Type} `{EqDecision N} `{EqDecision R} `{!OrderedSetOps (N * N) T}.
Context (resource : N -> R) (nodes_of : R -> list N).

(** [Connection(n1, n2)] *)
Definition new_connection (n1 n2 : N) : res (N * N) :=
  if decide (resource n1 = resource n2) then Ok (n1, n2) else Raise AssertionError.
Definition connection_resource (c : N * N) : R := resource (fst c).

(** [from_node and from_nodes] *)
Definition both {A} (x : option N) (l : option (list A)) : bool :=
  match x, l with Some _, Some (_ :: _) => true | _, _ => false end.

(** The nodes the arguments select *)
Definition select_nodes (from_node to_node : option N) (from_nodes to_nodes : option (list N)) :
    res (list N * list N) :=
  if both from_node from_nodes then Raise (RuntimeError "both from_node and from_nodes specified") else
  let from_nodes := match from_node with Some n => Some [n] | None => from_nodes end in
  if both to_node to_nodes then Raise (RuntimeError "both to_node and to_nodes specified") else
  let to_nodes := match to_node with Some n => Some [n] | None => to_nodes end in
  let all_of (l : list N) := match l with n :: _ => nodes_of (resource n) | [] => [] end in
  match from_nodes, to_nodes with
  | None, None => Raise (RuntimeError "neither from nor to specified")
  | _, _ =>
      let from_nodes := match from_nodes with Some l => l | None => all_of (default [] to_nodes) end in
      let to_nodes := match to_nodes with Some l => l | None => all_of from_nodes end in
      Ok (from_nodes, to_nodes)
  end.

Definition add_connections (from_nodes to_nodes : list N) : M T unit :=
  for_each from_nodes (fun from_n =>
    for_each to_nodes (fun to_n =>
      if decide (from_n = to_n) then mret tt
      else let* c := lift (new_connection from_n to_n) in coll_add connection_resource c)).

Definition add_reversed : M T unit :=
  let* l := gets elems in
  let* rev := lift (map_res l (fun c => new_connection (snd c) (fst c))) in
  coll_extend connection_resource rev.

Definition connections (from_node to_node : option N) (from_nodes to_nodes : option (list N)) (bidir : bool) :
    res T :=
  let* nodes := select_nodes from_node to_node from_nodes to_nodes in
  let* cs := coll_init connection_resource [] in
  let '(r, cs) := (add_connections (fst nodes) (snd nodes) ;;; when bidir add_reversed) cs in
  let* _ := r in Ok cs.
End connections.

(** ** Lemmas: collections *)

Section collection_theory.
Context {K T R : Type} `{EqDecision K} `{EqDecision R} `{!OrderedSetOps K T, !OrderedSetSpec K T}.
Context (resource : K -> R).

(** All items belong to one resource. *)
Definition shares (l : list K) : bool :=
  match l with k :: l => forallb (fun m => bool_decide (resource m = resource k)) l | [] => true end.
Definition coll_wf (s : T) : Prop := osGood s /\ shares (elems s) = true.

Lemma shares_spec l : shares l = true <-> forall a b, a ∈ l -> b ∈ l -> resource a = resource b.
Proof.
  destruct l as [|k l]; simpl; [split; [intros _ ? ? ?%elem_of_nil; done|done]|].
  rewrite forallb_forall. setoid_rewrite bool_decide_eq_true. setoid_rewrite <-list_elem_of_In. split.
  - intros Hl a b [->|Ha]%elem_of_cons [->|Hb]%elem_of_cons; try rewrite (Hl a) by done;
      try rewrite (Hl b) by done; done.
  - intros Hl x Hx. apply Hl; [by right|by left].
Qed.

Lemma shares_sub l l' : (forall a, a ∈ l -> a ∈ l') -> shares l' = true -> shares l = true.
Proof. rewrite !shares_spec. naive_solver. Qed.

Lemma same_resource_shares members s : coll_wf s ->
  same_resource resource members s = shares (elems s ++ members).
Proof.
  intros [_ Hs]. unfold same_resource, shares in *. destruct (elems s) as [|k l]; [done|].
  simpl. by rewrite forallb_app, Hs.
Qed.

Lemma forallb_const {A} (b : bool) (l : list A) : forallb (fun _ => b) l = bool_decide (l = []) || b.
Proof. destruct b; induction l as [|x l IH]; simpl; try done. by rewrite IH, orb_true_r. Qed.

Lemma coll_init_spec members :
  (exists s, coll_init resource members = Ok s /\ coll_wf s /\ elems s = aset_union members [] /\
     shares members = true) \/
  (coll_init resource members = Raise AssertionError /\ shares members = false).
Proof.
  unfold coll_init. destruct (spec_new (T := T) members) as [Hg He].
  assert (Hsame : same_resource resource members (osNew members : T) = shares members).
  { unfold same_resource. rewrite He. destruct members as [|k ms]; [done|].
    assert (Hhd : exists l, aset_union (k :: ms) [] = k :: l).
    { rewrite aset_union_cons. change (aset_add k []) with [k]. generalize ([] : list K).
      clear. induction ms as [|m ms IH]; intros l; [by exists l|]. rewrite aset_union_cons. unfold aset_add.
      case_decide; [apply IH|]. apply (IH (l ++ [m])). }
    destruct Hhd as [l ->]. simpl. by rewrite bool_decide_true. }
  rewrite forallb_const, Hsame. destruct (shares members) eqn:Hsh.
  - rewrite orb_true_r. left. eexists. split; [done|]. split_and!; [|done|done]. split; [done|].
    rewrite He. eapply shares_sub; [|exact Hsh]. intros a [Ha|Ha]%aset_union_elem; [done|].
    by apply elem_of_nil in Ha.
  - destruct members as [|k ms]; [done|]. rewrite bool_decide_false by done. by right.
Qed.

(** The operations as a step, with the result they have on the abstract list *)
Inductive coll_op := CAdd (m : K) | CRemove (m : K) | CExtend (ms : list K) | CPop.
Definition coll_step (o : coll_op) : M T (option K) :=
  match o with
  | CAdd m => coll_add resource m ;;; mret None
  | CRemove m => coll_remove resource m ;;; mret None
  | CExtend ms => coll_extend resource ms ;;; mret None
  | CPop => let* m := coll_pop resource in mret (Some m)
  end.
Definition list_step (o : coll_op) (l : list K) : res (option K * list K) :=
  match o with
  | CAdd m => if shares (l ++ [m]) then Ok (None, aset_add m l) else Raise AssertionError
  | CRemove m => if shares (l ++ [m]) then Ok (None, aset_discard m l) else Raise AssertionError
  | CExtend ms => if shares (l ++ ms) then Ok (None, aset_union ms l) else Raise AssertionError
  | CPop => match l with
            | [] => Raise (RuntimeError "Can't pop if empty")
            | m :: l => Ok (Some m, l)
            end
  end.

Lemma coll_add_run m s : coll_wf s ->
  coll_add resource m s = if shares (elems s ++ [m]) then (Ok tt, osAdd m s) else (Raise AssertionError, s).
Proof.
  intros Hs. unfold coll_add, gets, modify, py_assert. mred. rewrite same_resource_shares by done.
  by destruct (shares _).
Qed.

Lemma coll_remove_run m s : coll_wf s ->
  coll_remove resource m s =
  if shares (elems s ++ [m]) then
    (Ok tt, if decide (m ∈ elems s) then osDiscard m s else s) else (Raise AssertionError, s).
Proof.
  intros Hs. unfold coll_remove, gets, py_assert, when. mred. rewrite same_resource_shares by done.
  destruct (shares _); [|done]. simpl. rewrite spec_contains by apply Hs.
  destruct (decide (m ∈ elems s)) as [Hm|Hm].
  - rewrite bool_decide_true by done. rewrite spec_remove by apply Hs. by rewrite decide_True.
  - by rewrite bool_decide_false.
Qed.

Lemma coll_extend_run ms s : coll_wf s ->
  coll_extend resource ms s =
  if shares (elems s ++ ms) then (Ok tt, osUpdate ms s) else (Raise AssertionError, s).
Proof.
  intros Hs. unfold coll_extend, modify. mred.
  assert (Hloop : forall l, for_each l (fun _ : K => let* ok := gets (same_resource resource ms) in py_assert ok) s =
    if bool_decide (l = []) || shares (elems s ++ ms) then (Ok tt, s) else (Raise AssertionError, s)).
  { induction l as [|x l IH]; [done|]. rewrite bool_decide_false by done. cbn [for_each].
    unfold gets, py_assert in *. mred. rewrite same_resource_shares in * by done. mred.
    destruct (shares (elems s ++ ms)); simpl; [|done]. rewrite orb_true_r in IH. exact IH. }
  rewrite Hloop. destruct ms as [|m ms].
  - rewrite app_nil_r. destruct Hs as [_ ->]. done.
  - rewrite bool_decide_false by done. simpl. by destruct (shares (elems s ++ m :: ms)).
Qed.

Lemma coll_step_wf o s : coll_wf s ->
  match list_step o (elems s) with
  | Ok (r, l) => exists s', coll_step o s = (Ok r, s') /\ coll_wf s' /\ elems s' = l
  | Raise x => coll_step o s = (Raise x, s)
  end.
Proof.
  intros Hs. pose proof Hs as [Hg Hsh]. destruct o as [m|m|ms|]; cbn [coll_step list_step]; mred.
  - rewrite coll_add_run by done. destruct (shares (elems s ++ [m])) eqn:Hm; [|done].
    destruct (spec_add m s Hg) as [Hg' He]. exists (osAdd m s). split_and!; [done| |done].
    split; [done|]. rewrite He. eapply shares_sub; [|exact Hm]. intros a [->|Ha]%aset_add_elem; set_solver.
  - rewrite coll_remove_run by done. destruct (shares (elems s ++ [m])) eqn:Hm; [|done].
    destruct (decide (m ∈ elems s)) as [Hin|Hin].
    + destruct (spec_discard m s Hg) as [Hg' He]. eexists. split_and!; [done| |done]. split; [done|].
      rewrite He. eapply shares_sub; [|exact Hsh]. intros a Ha. by apply list_elem_of_filter in Ha as [_ ?].
    + exists s. split_and!; [done..|]. by rewrite aset_discard_notin.
  - rewrite coll_extend_run by done. destruct (shares (elems s ++ ms)) eqn:Hm; [|done].
    destruct (spec_update ms s Hg) as [Hg' He]. eexists. split_and!; [done| |done]. split; [done|].
    rewrite He. eapply shares_sub; [|exact Hm]. intros a Ha%aset_union_elem. set_solver.
  - unfold coll_pop, gets, coll_len. mred. destruct (elems s) as [|k l] eqn:He; [done|]. cbn [length].
    rewrite decide_False by done. unfold coll_getitem. rewrite (py_index_nat (elems s) 0), He. cbn.
    assert (Hk : shares (elems s ++ [k]) = true).
    { eapply shares_sub; [|rewrite <-He in Hsh; exact Hsh]. rewrite He. set_solver. }
    rewrite coll_remove_run, Hk by done. rewrite decide_True by (rewrite He; left).
    destruct (spec_discard k s Hg) as [Hg' He']. eexists. split_and!; [done| |].
    + split; [done|]. rewrite He', He. eapply shares_sub; [|exact Hsh].
      intros a Ha. by apply list_elem_of_filter in Ha as [_ ?].
    + rewrite He', He. pose proof (spec_nodup s Hg) as Hnd. rewrite He in Hnd.
      apply NoDup_cons in Hnd as [Hkl _]. unfold aset_discard. rewrite filter_cons_False by naive_solver.
      by apply aset_discard_notin.
Qed.
End collection_theory.

(** ** Lemmas: event filters *)

Section filter_theory.
Context {V : Type} (node_name : V -> string) (filter_of : V -> list string).

Definition members_on (node : string) (members : list V) : list V :=
  filter (fun m => node_name m = node) members.

Lemma event_filters_get node members :
  d_get node (event_filters node_name filter_of members) =
  match members_on node members with [] => None | ms => Some (map filter_of ms) end.
Proof.
  unfold event_filters. induction members as [|m ms IH] using rev_ind; [done|].
  rewrite foldl_snoc. unfold add_filter at 1. rewrite d_get_set.
  unfold members_on in *. rewrite filter_app. cbn [filter list_filter].
  destruct (decide (node_name m = node)) as [Hn|Hn].
  - rewrite decide_True by done. subst node. rewrite IH. destruct (filter _ ms) as [|x l]; [done|].
    simpl. by rewrite map_app.
  - rewrite decide_False by congruence. by rewrite app_nil_r.
Qed.

Lemma d_get_map_values (f : list (list string) -> list (list string)) (node : string) d :
  d_get node (map (fun '(n, l) => (n, f l)) d) = f <$> d_get node d.
Proof. induction d as [|[n l] d IH]; [done|]. simpl. by case_decide. Qed.
End filter_theory.

(** ** Lemmas: connections *)

Section connections_theory.
Context {N T R : Type} `{EqDecision N} `{EqDecision R}.
Context `{!OrderedSetOps (N * N) T, !OrderedSetSpec (N * N) T}.
Context (resource : N -> R) (r : R).

Local Abbreviation cres := (connection_resource resource).
(** All connections of the collection are within the resource [r]. *)
Definition within (l : list (N * N)) : Prop := forall c, c ∈ l -> cres c = r.

Lemma within_shares l : within l -> shares cres l = true.
Proof. intros Hl. apply shares_spec. intros a b Ha Hb. by rewrite (Hl a), (Hl b). Qed.

Definition pairs_with (from_n : N) (to_nodes : list N) : list (N * N) :=
  map (pair from_n) (filter (fun to_n => from_n <> to_n) to_nodes).
Definition pairs (from_nodes to_nodes : list N) : list (N * N) :=
  concat (map (fun from_n => pairs_with from_n to_nodes) from_nodes).

Lemma elem_of_pairs a b from_nodes to_nodes :
  (a, b) ∈ pairs from_nodes to_nodes <-> a ∈ from_nodes /\ b ∈ to_nodes /\ a <> b.
Proof.
  unfold pairs. rewrite list_elem_of_In, in_concat. split.
  - intros (l & Hl & Hin). apply in_map_iff in Hl as (n & <- & Hn). unfold pairs_with in Hin.
    apply in_map_iff in Hin as (m & [= <- <-] & Hm).
    apply list_elem_of_In, list_elem_of_filter in Hm as [? ?]. split_and!; [by apply list_elem_of_In|done..].
  - intros (Ha & Hb & Hne). exists (pairs_with a to_nodes). split.
    + apply in_map_iff. exists a. split; [done|by apply list_elem_of_In].
    + apply in_map_iff. exists b. split; [done|]. by apply list_elem_of_In, list_elem_of_filter.
Qed.

Lemma aset_union_app (l1 l2 l : list (N * N)) :
  aset_union (l1 ++ l2) l = aset_union l2 (aset_union l1 l).
Proof. unfold aset_union. apply foldl_app. Qed.

Lemma add_one c (s : T) : coll_wf cres s -> within (elems s) -> cres c = r ->
  exists s', coll_add cres c s = (Ok tt, s') /\ coll_wf cres s' /\ elems s' = aset_add c (elems s).
Proof.
  intros Hs Hw Hc. pose proof (coll_step_wf cres (CAdd c) s Hs) as Hstep. cbn [list_step] in Hstep.
  rewrite within_shares in Hstep.
  - destruct Hstep as (s' & Hrun & Hs' & He). exists s'. split_and!; [|done..].
    cbn [coll_step] in Hrun. revert Hrun. mred.
    destruct (coll_add cres c s) as [[[]|x] s1]; [|done]. by intros [= ->].
  - intros c' [Hc'| ->%list_elem_of_singleton]%elem_of_app; [by apply Hw|done].
Qed.

Lemma add_connections_inner from_n to_nodes (s : T) : coll_wf cres s -> within (elems s) ->
  resource from_n = r -> (forall n, n ∈ to_nodes -> resource n = r) ->
  exists s', for_each to_nodes (fun to_n => if decide (from_n = to_n) then mret tt
      else let* c := lift (new_connection resource from_n to_n) in coll_add cres c) s = (Ok tt, s') /\
    coll_wf cres s' /\ within (elems s') /\ elems s' = aset_union (pairs_with from_n to_nodes) (elems s).
Proof.
  intros Hs Hw Hf. revert s Hs Hw. induction to_nodes as [|n l IH]; intros s Hs Hw Ht; [by exists s|].
  unfold pairs_with. cbn [filter list_filter]. destruct (decide (from_n = n)) as [->|Hne].
  - rewrite decide_False by naive_solver. erewrite for_each_ok by (by rewrite decide_True).
    apply IH; [done..|]. intros n' Hn'. apply Ht. by right.
  - rewrite decide_True by done. destruct (add_one (from_n, n) s Hs Hw Hf) as (s1 & Hadd & Hs1 & He1).
    erewrite for_each_ok.
    2:{ rewrite decide_False by done. unfold lift, new_connection. mred.
        rewrite decide_True by (rewrite Hf; symmetry; apply Ht; by left). exact Hadd. }
    destruct (IH s1) as (s' & Hrun & Hs' & Hw' & He'); [done| | |].
    + intros c Hc. rewrite He1 in Hc. apply aset_add_elem in Hc as [-> |Hc]; [done|by apply Hw].
    + intros n' Hn'. apply Ht. by right.
    + exists s'. split_and!; [exact Hrun|done..|]. rewrite He', He1. done.
Qed.

Lemma add_connections_run from_nodes to_nodes (s : T) : coll_wf cres s -> within (elems s) ->
  (forall n, n ∈ from_nodes ++ to_nodes -> resource n = r) ->
  exists s', add_connections resource from_nodes to_nodes s = (Ok tt, s') /\
    coll_wf cres s' /\ within (elems s') /\ elems s' = aset_union (pairs from_nodes to_nodes) (elems s).
Proof.
  unfold add_connections. revert s. induction from_nodes as [|f l IH]; intros s Hs Hw Hn; [by exists s|].
  destruct (add_connections_inner f to_nodes s) as (s1 & Hrun1 & Hs1 & Hw1 & He1); [done|done|..].
  { apply Hn. set_solver. } { intros n Hin. apply Hn. set_solver. }
  erewrite for_each_ok by exact Hrun1.
  destruct (IH s1) as (s' & Hrun & Hs' & Hw' & He'); [done..| |].
  { intros n Hin. apply Hn. set_solver. }
  exists s'. split_and!; [exact Hrun|done..|]. rewrite He', He1. unfold pairs. cbn [map concat]. by rewrite aset_union_app.
Qed.

Lemma map_res_reversed (l : list (N * N)) : (forall c, c ∈ l -> resource (fst c) = r /\ resource (snd c) = r) ->
  map_res l (fun c => new_connection resource (snd c) (fst c)) = Ok (map (fun c => (snd c, fst c)) l).
Proof.
  induction l as [|[a b] l IH]; intros Hl; [done|]. cbn [map_res fst snd]. mred. unfold new_connection at 1.
  destruct (Hl (a, b)) as [Ha Hb]; [by left|]. simpl in Ha, Hb. rewrite decide_True by congruence.
  rewrite IH; [done|]. intros c Hc. apply Hl. by right.
Qed.
End connections_theory.

(** ** Properties *)

(** a collection whose members belong to one resource stays so, without
    duplicates, under every operation; each operation has the effect of the
    operation on a list of distinct items, [pop] takes the oldest member, and
    a member of another resource is refused, leaving the collection as it
    was. *)
Theorem collection_operations {K T R} `{EqDecision K} `{EqDecision R}
    `{!OrderedSetOps K T, !OrderedSetSpec K T} (resource : K -> R) (o : coll_op (K := K)) (s : T) :
  coll_wf resource s ->
  NoDup (elems s) /\
  match list_step resource o (elems s) with
  | Ok (r, l) => exists s', coll_step resource o s = (Ok r, s') /\ coll_wf resource s' /\ elems s' = l
  | Raise x => coll_step resource o s = (Raise x, s)
  end.
Proof. intros Hs. split; [by apply spec_nodup, Hs|by apply coll_step_wf]. Qed.

(** the filters of an event list, under the name of each node, exactly
    the filters of the members on that node, in order; with several resources
    the name of the resource is added to every one of them. *)
Theorem event_filters_group_by_node {V} (node_name : V -> string) (filter_of : V -> list string) members
    n_resources resource_name node :
  d_get node (logscan_filters n_resources resource_name (event_filters node_name filter_of members)) =
  match members_on node_name node members with
  | [] => None
  | ms => Some (map (fun m => (if decide (1 < n_resources) then ["name:" +:+ resource_name] else []) ++
                              filter_of m) ms)
  end.
Proof.
  unfold logscan_filters. case_decide.
  - rewrite (d_get_map_values (map (cons ("name:" +:+ resource_name)))), event_filters_get.
    destruct (members_on _ _ _) as [|m ms]; [done|]. simpl. by rewrite map_map.
  - by rewrite event_filters_get.
Qed.

(** among nodes of one resource, [connections] returns the connections
    from every selected first node to every other selected second node, each
    once, and with [bidir] their reverses too. *)
Theorem connections_are_the_selected_pairs {N T R} `{EqDecision N} `{EqDecision R}
    `{!OrderedSetOps (N * N) T, !OrderedSetSpec (N * N) T} (resource : N -> R) nodes_of r
    from_node to_node from_nodes to_nodes bidir F G :
  select_nodes resource nodes_of from_node to_node from_nodes to_nodes = Ok (F, G) ->
  (forall n, n ∈ F ++ G -> resource n = r) ->
  exists cs : T, connections resource nodes_of from_node to_node from_nodes to_nodes bidir = Ok cs /\
    NoDup (elems cs) /\
    forall a b, (a, b) ∈ elems cs <->
      a <> b /\ ((a ∈ F /\ b ∈ G) \/ (bidir = true /\ b ∈ F /\ a ∈ G)).
Proof.
  intros Hsel Hn. unfold connections. rewrite Hsel. mred.
  destruct (coll_init_spec (T := T) (connection_resource resource) []) as [(s0 & -> & Hs0 & He0 & _)|[_ ?]]; [|done].
  simpl in He0. assert (Hw0 : within resource r (elems s0)) by (rewrite He0; intros ? ?%elem_of_nil; done).
  destruct (add_connections_run resource r F G s0 Hs0 Hw0 Hn) as (s1 & H1 & Hs1 & Hw1 & He1).
  cbn [fst snd]. rewrite H1. rewrite He0 in He1.
  assert (Hin1 : forall a b, (a, b) ∈ elems s1 <-> a ∈ F /\ b ∈ G /\ a <> b).
  { intros a b. rewrite He1, aset_union_elem, elem_of_pairs. set_solver. }
  destruct bidir; simpl.
  - unfold add_reversed, gets, lift. mred. rewrite (map_res_reversed resource r).
    + rewrite coll_extend_run by done. rewrite within_shares with (r := r).
      * destruct (spec_update (map (fun c => (snd c, fst c)) (elems s1)) s1) as [Hg He]; [apply Hs1|].
        eexists. split; [done|]. split; [by apply spec_nodup|]. intros a b.
        rewrite He, aset_union_elem, Hin1, list_elem_of_fmap. split.
        -- intros [([x y] & [= -> ->] & Hxy%Hin1)|Hab]; naive_solver.
        -- intros (Hne & [Hab|(_ & Hb & Ha)]); [naive_solver|]. left. exists (b, a). split; [done|].
           apply Hin1. naive_solver.
      * intros [a b] [Hab|Hab]%elem_of_app; [by apply Hw1|].
        apply list_elem_of_fmap in Hab as ([x y] & [= -> ->] & Hxy%Hin1). apply Hn. set_solver.
    + intros [a b] Hab%Hin1. split; apply Hn; set_solver.
  - exists s1. split; [done|]. split; [apply spec_nodup, Hs1|]. intros a b. rewrite Hin1. naive_solver.
Qed.

(** ** Witnesses *)

Lemma collection_operations_witness :
  exists s', coll_step (T := oset nat) (fun _ => tt) (CExtend [1; 2; 1]) os_empty = (Ok None, s') /\
    coll_wf (fun _ => tt) s' /\ elems s' = [1; 2].
Proof.
  refine (proj2 (collection_operations (fun _ : nat => tt) (CExtend [1; 2; 1]) (os_empty : oset nat) _)).
  split; [exact os_empty_wf|reflexivity].
Defined.

Lemma connections_are_the_selected_pairs_witness :
  exists cs : oset (nat * nat),
    connections (fun _ => tt) (fun _ => [0; 1; 2]) (Some 1) None None None true = Ok cs /\
    NoDup (elems cs).
Proof.
  destruct (connections_are_the_selected_pairs (T := oset (nat * nat)) (fun _ : nat => tt) (fun _ => [0; 1; 2]) tt
    (Some 1) None None None true [1] [0; 1; 2]) as (cs & H1 & H2 & _).
  - reflexivity.
  - intros n _. reflexivity.
  - exists cs. split; [exact H1|exact H2].
Defined.
