(* ===== verification/Cluster.v ===== *)
(** * Resources, nodes and volumes (src/python/drbdtest.py)

    Creating a resource on the hosts of the cluster, adding disks to it, and
    the bookkeeping of the configuration files.  The job name, the global
    variables and the function [uuid5] of disktools.py are arguments. *)

From S2P Require Import Prelude PyStr Dict OrderedSet Host Disktools World Config Collections.

Section cluster.
Context `{SshServer} (g : globals) (job : string) (uuid5 : string -> string).

(** ** Hosts *)

Definition next_minor (h : nat) : M world nat :=
  set_host h (fun x => set_minors (S (minors x)) x) ;;;
  gets (fun w => minors (host_at w h)).

Definition next_port (h : nat) : M world nat :=
  let* p := gets (fun w => port (host_at w h)) in
  set_host h (fun x => set_port (S (port x)) x) ;;;
  mret p.

Definition host_create_storage_pool (h : nat) (thin : bool) (discard_granularity : option Z) : M world unit :=
  let* x := gets (fun w => host_at w h) in
  match storage_pool x with
  | Some _ => raise (RuntimeError "storage pool already created")
  | None =>
      let* p := on_env (create_storage_pool (info x) (storage_backend x) (backing_device x) thin
                          discard_granularity) in
      set_host h (set_pool (Some p))
  end.

Definition host_remove_storage_pool (h : nat) : M world unit :=
  let* x := gets (fun w => host_at w h) in
  match storage_pool x with
  | None => raise (RuntimeError "no storage pool to remove")
  | Some p => on_env (remove_pool (info x) p) ;;; set_host h (set_pool None)
  end.

Definition cluster_create_storage_pool (thin : bool) (discard_granularity : option Z) : M world unit :=
  let* hs := gets w_hosts in
  for_each (seq 0 (length hs)) (fun h => host_create_storage_pool h thin discard_granularity).
Definition cluster_remove_storage_pool : M world unit :=
  let* hs := gets w_hosts in
  for_each (seq 0 (length hs)) host_remove_storage_pool.

(** ** Nodes *)

(** [self.resource.nodes.add(self)] *)
Definition add_to_nodes (r n : nat) : M world unit := fun w =>
  let '(res, s) := coll_add (fun n => n_resource (node_at w n)) n (r_nodes (resource_at w r)) in
  let '(_, w) := set_resource r (set_r_nodes s) w in (res, w).

(** [node0.connections.add(Connection(node0, node1))] *)
Definition add_connection (n0 n1 : nat) : M world unit := fun w =>
  let res_of n := n_resource (node_at w n) in
  match new_connection res_of n0 n1 with
  | Ok c =>
      let '(r, s) := coll_add (connection_resource res_of) c (n_connections (node_at w n0)) in
      let '(_, w) := set_node n0 (set_connections s) w in (r, w)
  | Raise e => (Raise e, w)
  end.

(** [init_node] of the platform helper *)
Definition init_node (h p : nat) : M world unit :=
  let* x := gets (fun w => info (host_at w h)) in
  when (h_windows x)
    (on_env (run x ["netsh"; "advfirewall"; "firewall"; "add"; "rule"; "name=DRBDTest" +:+ str_nat p;
                    "protocol=tcp"; "dir=in"; "localport=" +:+ str_nat p; "action=allow"])).

(** [Node.__init__] *)
Definition node_init (h r p : nat) : M world unit :=
  let* k := gets (fun w => length (elems (r_nodes (resource_at w r)))) in
  let* n := new_node (NewNode h r p [] k os_empty EmptyString true) in
  add_to_nodes r n ;;;
  init_node h p.

(** [Cluster.create_resource] *)
Definition create_resource (name : string) (transport : option string) (tls : string) : M world nat :=
  let* r := new_resource (NewResource name EmptyString EmptyString EmptyString EmptyString os_empty 0
                            transport tls default_patterns) in
  let* hs := gets w_hosts in
  for_each (seq 0 (length hs)) (fun h =>
    let* p := next_port h in
    node_init h r p) ;;;
  let* ns := gets (fun w => elems (r_nodes (resource_at w r))) in
  for_each ns (fun node0 =>
    for_each ns (fun node1 =>
      if decide (node0 = node1) then mret tt else add_connection node0 node1)) ;;;
  mret r.

(** ** Configuration files *)

Definition drbd_config_file_path (w : world) (n : nat) : string :=
  h_config_dir (node_info w n) +:+ "/" +:+ job +:+ "-" +:+
  r_name (resource_at w (n_resource (node_at w n))) +:+ ".res".
Definition drbd_global_config_file_path (x : host_info) : string :=
  h_config_dir x +:+ "/" +:+ job +:+ ".conf".

(** [update_config]; the copy of the file in the log directory is left out. *)
Definition update_config (n : nat) : M world unit :=
  let* w := get in
  when (config_changed (node_at w n))
    (set_node n (set_changed false) ;;;
     let* t := lift (config g w n) in
     on_env (run_in (node_info w n) ["bash"; "-c"; "cat > " +:+ drbd_config_file_path w n] t)).

(** [Node.run] *)
Definition node_run (n : nat) (cmd : list string) : M world unit :=
  update_config n ;;;
  let* x := gets (fun w => node_info w n) in
  on_env (run x cmd).
Definition drbdadm (n : nat) (cmd : list string) : M world unit :=
  let* x := gets (fun w => node_info w n) in
  node_run n (["drbdadm"; "-c"; drbd_global_config_file_path x; "-v"] ++ cmd).

Definition touch_config (r : nat) : M world unit :=
  let* ns := gets (fun w => elems (r_nodes (resource_at w r))) in
  for_each ns (fun n => set_node n (set_changed true)).

(** The property setters of [Resource] *)
Definition set_options (r : nat) (net disk res handlers : string) : M world unit :=
  set_resource r (set_r_options net disk res handlers) ;;; touch_config r.
Definition set_fencing_mode (n : nat) (mode : string) : M world unit :=
  set_node n (fun x => set_changed true (set_fencing mode x)).
Definition resource_set_fencing_mode (r : nat) (mode : string) : M world unit :=
  let* ns := gets (fun w => elems (r_nodes (resource_at w r))) in
  for_each ns (fun n => set_fencing_mode n mode).
Definition set_tiebreaker (v : nat) (b : option bool) : M world unit :=
  set_volume v (set_v_tiebreaker b) ;;;
  let* r := gets (fun w => n_resource (node_at w (v_node (volume_at w v)))) in
  touch_config r.
Definition add_node (r n : nat) : M world unit := add_to_nodes r n ;;; touch_config r.
Definition remove_node (r n : nat) : M world unit :=
  (fun w =>
     let '(res, s) := coll_remove (fun n => n_resource (node_at w n)) n (r_nodes (resource_at w r)) in
     let '(_, w) := set_resource r (set_r_nodes s) w in (res, w)) ;;;
  touch_config r.

(** ** Disks *)

Definition next_volume (r : nat) : M world nat :=
  let* k := gets (fun w => num_volumes (resource_at w r)) in
  set_resource r (set_num_volumes (S k)) ;;;
  mret k.

(** The disk creation arguments *)
Record disk_args := DiskArgs {
  meta_size : option string;
  max_size : option string;
  delay_ms : option Z;
  logical_block_size : option Z;
  zero_out : bool
}.

(** [Volume.__init__] for a given volume number *)
Definition volume_init (n volume_number : nat) (minor : option nat) : M world nat :=
  let* m := match minor with
            | Some m => mret m
            | None => let* h := gets (fun w => n_host (node_at w n)) in next_minor h
            end in
  new_volume (NewVolume volume_number m n None None None).

(** [Volume.create_disks] *)
Definition volume_create_disk (v : nat) (suffix size : string) (max_size : option string) (a : disk_args) :
    M world disk_vol :=
  let* w := get in
  let x := volume_at w v in
  let n := node_at w (v_node x) in
  let lv := r_name (resource_at w (n_resource n)) +:+ suffix +:+ str_nat (v_volume x) in
  let h := host_at w (n_host n) in
  match storage_pool h with
  | Some p => on_env (create_disk uuid5 (info h) p lv size max_size (delay_ms a) (logical_block_size a))
  | None => raise (AttributeError "create_disk")
  end.
Definition create_disks (v : nat) (size : string) (a : disk_args) : M world unit :=
  let* d := volume_create_disk v "-disk" size (max_size a) a in
  set_volume v (set_disk_volume (Some d)) ;;;
  when (truthy (meta_size a))
    (let* d := volume_create_disk v "-meta" (default EmptyString (meta_size a)) None a in
     set_volume v (set_meta_volume (Some d))).

(** [Node.add_disk] *)
Definition node_add_disk (n volume_number : nat) (size : option string) (a : disk_args) : M world nat :=
  let* x := gets (fun w => node_host w n) in
  let* h := gets (fun w => n_host (node_at w n)) in
  when (bool_decide (storage_pool x = None)) (host_create_storage_pool h false None) ;;;
  let* disks := gets (fun w => n_disks (node_at w n)) in
  let* minor := gets (fun w => (fun v => v_minor (volume_at w v)) <$> disks !! volume_number) in
  let* v := volume_init n volume_number minor in
  match size with
  | Some size =>
      create_disks v size a ;;;
      when (zero_out a)
        (let* d := gets (fun w => disk (volume_at w v)) in
         node_run n ["blkdiscard"; "-z"; default "None" d])
  | None => mret tt
  end ;;;
  set_node n (fun x => set_changed true
    (set_disks (if decide (length (n_disks x) <= volume_number) then n_disks x ++ [v]
                else <[volume_number := v]> (n_disks x)) x)) ;;;
  mret v.

(** [Volume.create_md] *)
Definition volume_create_md (v : nat) (max_peers : option Z) (bitmap_block_size : option Z) (f : md_flags) :
    M world unit :=
  let* w := get in
  let x := volume_at w v in
  let r := resource_at w (n_resource (node_at w (v_node x))) in
  let max_peers := match max_peers with
                   | Some m => m
                   | None => Z.max 1 (Z.of_nat (length (elems (r_nodes r))) - 1)
                   end in
  let* args := on_env (create_md (node_info w (v_node x)) (r_name r) (v_volume x) max_peers
                         bitmap_block_size f) in
  drbdadm (v_node x) args.

(** [Resource.add_disk] *)
Definition add_disk (r : nat) (size : string) (diskful_nodes : option (list nat)) (max_peers : option Z)
    (bitmap_block_sizes : list (nat * Z)) (a : disk_args) (f : md_flags) : M world nat :=
  let* volume_number := next_volume r in
  let* ns := gets (fun w => elems (r_nodes (resource_at w r))) in
  let* diskful_volumes := map_each ns (fun n =>
    if match diskful_nodes with Some l => bool_decide (n ∈ l) | None => true end then
      let* v := node_add_disk n volume_number (Some size) a in mret [v]
    else
      let* _ := node_add_disk n volume_number None (DiskArgs None None None None false) in mret []) in
  for_each (concat diskful_volumes) (fun v =>
    let* n := gets (fun w => v_node (volume_at w v)) in
    volume_create_md v max_peers (d_get n bitmap_block_sizes) f) ;;;
  mret volume_number.

(** [Node.remove_disks] and [Resource.remove_storage_pool] *)
Definition remove_disks (n : nat) : M world unit :=
  let* disks := gets (fun w => n_disks (node_at w n)) in
  let* x := gets (fun w => node_info w n) in
  for_each disks (fun v =>
    let* d := gets (fun w => volume_at w v) in
    match disk_volume d with Some d => on_env (remove x d) | None => mret tt end ;;;
    match meta_volume d with Some d => on_env (remove x d) | None => mret tt end) ;;;
  set_node n (set_disks []).

Definition remove_storage_pool (r : nat) : M world unit :=
  let* ns := gets (fun w => elems (r_nodes (resource_at w r))) in
  for_each ns remove_disks ;;;
  set_resource r (set_num_volumes 0) ;;;
  cluster_remove_storage_pool.
End cluster.

(** ** Lemmas: creating a resource *)

(** Calls on the environment leave the objects alone. *)
Definition same_objects (w w' : world) : Prop :=
  w_hosts w' = w_hosts w /\ w_nodes w' = w_nodes w /\ w_volumes w' = w_volumes w /\
  w_resources w' = w_resources w.
#[export] Instance same_objects_preorder : PreOrder same_objects.
Proof. split; [by intros w|]. unfold same_objects. intros a b c. naive_solver congruence. Qed.
Lemma keeps_on_env {A} (m : M env A) : keeps same_objects (on_env m).
Proof. intros w. unfold on_env, zoom. by destruct (m (w_env w)). Qed.
#[export] Hint Resolve keeps_on_env : keeps.

(** Ends in a state of [Q], or raises an exception, which only happens if [X] *)
Definition ok_or {A} (X : Prop) (m : M world A) (Q : A -> world -> Prop) (w : world) : Prop :=
  wp m Q (fun _ _ => X) w.

Lemma ok_or_bind {A B} X (m : M world A) (f : A -> M world B) Q w :
  ok_or X m (fun a => ok_or X (f a) Q) w -> ok_or X (m ≫= f) Q w.
Proof. apply wp_bind. Qed.
Lemma ok_or_mono {A} X (m : M world A) (Q Q' : A -> world -> Prop) w :
  ok_or X m Q w -> (forall a w', Q a w' -> Q' a w') -> ok_or X m Q' w.
Proof. intros Hm HQ. by eapply wp_mono; [exact Hm| |]. Qed.
Lemma ok_or_keeps {A} (m : M world A) w : keeps same_objects m ->
  ok_or True m (fun _ w' => same_objects w w') w.
Proof. intros Hm. unfold ok_or, wp. specialize (Hm w). by destruct (m w) as [[]]. Qed.

Section create_theory.
Context `{SshServer} (w0 : world) (name : string) (tr : option string) (tls : string).

Local Abbreviation H0 := (length (w_hosts w0)).
Local Abbreviation N0 := (length (w_nodes w0)).
Local Abbreviation r0 := (length (w_resources w0)).

(** Only the platform helper for Windows runs a command, which may fail. *)
Definition some_windows : Prop := exists i, i < H0 /\ h_windows (info (host_at w0 i)) = true.
Local Abbreviation if_ok := (ok_or some_windows).

(** The node created on host [i] *)
Definition fresh_node (i : nat) : node :=
  NewNode i r0 (port (host_at w0 i)) [] i os_empty EmptyString true.
Definition fresh_resource (s : oset nat) : resource :=
  NewResource name EmptyString EmptyString EmptyString EmptyString s 0 tr tls default_patterns.
Definition ports_taken (k : nat) : list host :=
  imap (fun i x => if decide (i < k) then set_port (S (port x)) x else x) (w_hosts w0).

(** The objects once the first [k] hosts have their node *)
Definition hosts_done (k : nat) (w : world) : Prop :=
  w_hosts w = ports_taken k /\ w_nodes w = w_nodes w0 ++ map fresh_node (seq 0 k) /\
  w_volumes w = w_volumes w0 /\
  exists s, w_resources w = w_resources w0 ++ [fresh_resource s] /\ osGood s /\ elems s = seq N0 k.

Lemma ports_taken_at k i : i < H0 -> default no_host (ports_taken k !! i) =
  if decide (i < k) then set_port (S (port (host_at w0 i))) (host_at w0 i) else host_at w0 i.
Proof.
  intros Hi. unfold ports_taken, host_at. rewrite list_lookup_imap.
  destruct (w_hosts w0 !! i) as [x|] eqn:Hx; [done|]. by apply lookup_ge_None in Hx; lia.
Qed.

Lemma ports_taken_S k : k < H0 ->
  alter (fun x => set_port (S (port x)) x) k (ports_taken k) = ports_taken (S k).
Proof.
  intros Hk. apply list_eq. intros i. unfold ports_taken. rewrite list_lookup_imap.
  destruct (decide (i = k)) as [->|Hne].
  - rewrite list_lookup_alter_eq, list_lookup_imap. destruct (w_hosts w0 !! k); [|done]. simpl.
    rewrite decide_False, decide_True by lia. done.
  - rewrite list_lookup_alter_ne, list_lookup_imap by done. destruct (w_hosts w0 !! i); [|done]. simpl.
    f_equal. destruct (decide (i < k)), (decide (i < S k)); try lia; done.
Qed.

Lemma node_on_host k w : hosts_done k w -> k < H0 ->
  if_ok (let* p := next_port k in node_init k r0 p) (fun _ => hosts_done (S k)) w.
Proof.
  intros (Hh & Hn & Hv & s & Hr & Hg & He) Hk.
  assert (Hp : port (host_at w k) = port (host_at w0 k)).
  { unfold host_at at 1. rewrite Hh, ports_taken_at by done. by rewrite decide_False by lia. }
  assert (Hres : resource_at w r0 = fresh_resource s).
  { unfold resource_at. by rewrite Hr, lookup_app_r, Nat.sub_diag by lia. }
  apply ok_or_bind. unfold next_port, if_ok, wp, gets, set_host, modify. mred. cbn [fst snd].
  rewrite Hp. set (w1 := World _ _ _ _ _). unfold node_init, new_node, gets. mred.
  assert (Hlen : length (w_nodes w1) = N0 + k).
  { unfold w1. cbn [w_nodes]. by rewrite Hn, length_app, length_map, length_seq. }
  change (resource_at w1 r0) with (resource_at w r0). rewrite Hres. cbn [r_nodes fresh_resource].
  rewrite He, length_seq. fold (fresh_node k). set (n := length (w_nodes w1)) in *.
  replace (NewNode k r0 (port (host_at w0 k)) [] k os_empty EmptyString true) with (fresh_node k) by done.
  set (w2 := World _ _ _ _ _). unfold add_to_nodes.
  change (resource_at w2 r0) with (resource_at w r0). rewrite Hres. cbn [r_nodes fresh_resource].
  assert (Hn2 : w_nodes w2 = w_nodes w0 ++ map fresh_node (seq 0 (S k))).
  { unfold w2, w1. cbn [w_nodes]. rewrite Hn, seq_S, map_app, <-app_assoc. done. }
  assert (Hnode : forall m, m ∈ seq N0 (S k) -> n_resource (node_at w2 m) = r0).
  { intros m Hm%elem_of_seq. unfold node_at. rewrite Hn2, lookup_app_r by lia.
    rewrite list_lookup_fmap, lookup_seq_lt by lia. done. }
  assert (Hsh : shares (fun n => n_resource (node_at w2 n)) (elems s ++ [n]) = true).
  { apply shares_spec. rewrite He. replace (seq N0 k ++ [n]) with (seq N0 (S k)).
    - intros a b Ha Hb. by rewrite !Hnode.
    - rewrite seq_S. f_equal. f_equal. done. }
  rewrite (coll_add_run (fun n => n_resource (node_at w2 n)) n s).
  2:{ split; [done|]. eapply shares_sub; [|exact Hsh]. set_solver. }
  rewrite Hsh. destruct (spec_add n s Hg) as [Hg' He'].
  unfold set_resource, modify. set (w3 := World _ _ _ _ _).
  assert (Hdone : hosts_done (S k) w3).
  { unfold hosts_done, w3. cbn [w_hosts w_nodes w_volumes w_resources]. split_and!.
    - unfold w2, w1. cbn [w_hosts]. by rewrite Hh, ports_taken_S.
    - exact Hn2.
    - done.
    - exists (osAdd n s). split_and!; [|done|].
      + unfold w2, w1. cbn [w_resources]. rewrite Hr.
        rewrite alter_app_r_alt by lia. by rewrite Nat.sub_diag.
      + rewrite He', He. unfold aset_add. rewrite decide_False.
        * rewrite seq_S. by rewrite Hlen.
        * rewrite elem_of_seq. lia. }
  unfold init_node, gets, when. mred.
  assert (Hi : info (host_at w3 k) = info (host_at w0 k)).
  { destruct Hdone as (Hh3 & _). unfold host_at at 1. rewrite Hh3, ports_taken_at by done.
    by rewrite decide_True by lia. }
  rewrite Hi. destruct (h_windows (info (host_at w0 k))) eqn:Hwin; [|done].
  pose proof (keeps_on_env (run (info (host_at w0 k)) ["netsh"; "advfirewall"; "firewall"; "add"; "rule";
    "name=DRBDTest" +:+ str_nat (port (host_at w0 k)); "protocol=tcp"; "dir=in";
    "localport=" +:+ str_nat (port (host_at w0 k)); "action=allow"]) w3) as (E1 & E2 & E3 & E4).
  destruct (on_env _ w3) as [[[]|x] w4]; [|by exists k].
  cbn [snd] in *. unfold hosts_done in *. by rewrite E1, E2, E3, E4.
Qed.

(** The objects once the connections in [P] exist *)
Definition meshed (P : nat -> nat -> Prop) (w : world) : Prop :=
  w_hosts w = ports_taken H0 /\ w_volumes w = w_volumes w0 /\
  (exists s, w_resources w = w_resources w0 ++ [fresh_resource s] /\ osGood s /\ elems s = seq N0 H0) /\
  exists conns, w_nodes w = w_nodes w0 ++ map (fun i => set_connections (conns i) (fresh_node i)) (seq 0 H0) /\
    forall i, i < H0 -> osGood (conns i) /\
      forall c, c ∈ elems (conns i) <-> exists j, j < H0 /\ c = (N0 + i, N0 + j) /\ P i j.

Lemma meshed_ext P Q w : (forall i j, i < H0 -> j < H0 -> P i j <-> Q i j) -> meshed P w -> meshed Q w.
Proof.
  intros HPQ (Hh & Hv & Hr & conns & Hn & Hc). unfold meshed. split_and!; [done..|]. exists conns.
  split; [done|]. intros i Hi. destruct (Hc i Hi) as [Hg He]. split; [done|]. intros c. rewrite He.
  split; intros (j & Hj & Heq & Hp); exists j; (split_and!; [done..|]); by apply HPQ.
Qed.

Lemma alter_map_seq (f : node -> node) (h : nat -> node) l n i : i < n ->
  alter f (length l + i) (l ++ map h (seq 0 n)) =
  l ++ map (fun a => if decide (a = i) then f (h a) else h a) (seq 0 n).
Proof.
  intros Hi. rewrite alter_app_r. f_equal. apply list_eq. intros a.
  rewrite (list_lookup_fmap (fun a => if decide (a = i) then f (h a) else h a)).
  destruct (decide (a = i)) as [->|Hne].
  - rewrite list_lookup_alter_eq, list_lookup_fmap, lookup_seq_lt by lia. simpl. by rewrite decide_True.
  - rewrite list_lookup_alter_ne, list_lookup_fmap by done.
    destruct (decide (a < n)); [rewrite lookup_seq_lt by lia; simpl; by rewrite decide_False|].
    by rewrite lookup_seq_ge by lia.
Qed.

Lemma mesh_step P i j w : meshed P w -> i < H0 -> j < H0 ->
  if_ok (add_connection (N0 + i) (N0 + j)) (fun _ => meshed (fun a b => P a b \/ (a = i /\ b = j))) w.
Proof.
  intros (Hh & Hv & Hr & conns & Hn & Hc) Hi Hj.
  assert (Hnode : forall a, a < H0 -> node_at w (N0 + a) = set_connections (conns a) (fresh_node a)).
  { intros a Ha. unfold node_at. rewrite Hn, lookup_app_r by lia.
    replace (N0 + a - N0) with a by lia. rewrite list_lookup_fmap, lookup_seq_lt by lia. done. }
  unfold ok_or, wp, add_connection, new_connection. rewrite !Hnode by done.
  cbn [n_resource set_connections fresh_node n_connections]. rewrite decide_True by done.
  set (res_of := fun n => n_resource (node_at w n)). set (c := (N0 + i, N0 + j)).
  assert (Hres : forall i c, i < H0 -> c ∈ elems (conns i) -> connection_resource res_of c = r0).
  { intros a c' Ha Hin. apply (Hc a Ha) in Hin as (b & _ & -> & _).
    unfold connection_resource, res_of. cbn [fst]. by rewrite Hnode. }
  assert (Hsh : shares (connection_resource res_of) (elems (conns i) ++ [c]) = true).
  { apply (within_shares res_of r0). intros c' [Hin|Hin]%elem_of_app; [by apply (Hres i)|].
    apply list_elem_of_singleton in Hin. subst c'. unfold c, connection_resource, res_of. cbn [fst].
    by rewrite Hnode. }
  rewrite (coll_add_run (connection_resource res_of) c (conns i)).
  2:{ split; [by apply Hc|]. apply (within_shares res_of r0). intros c' Hin. by apply (Hres i). }
  rewrite Hsh. unfold set_node, modify. unfold meshed. cbn [w_hosts w_nodes w_volumes w_resources].
  split_and!; [done..|]. destruct (Hc i Hi) as [Hgi Hei]. destruct (spec_add c (conns i) Hgi) as [Hg' He'].
  exists (fun a => if decide (a = i) then osAdd c (conns i) else conns a). split.
  - rewrite Hn, alter_map_seq by done. f_equal. apply map_ext. intros a.
    destruct (decide (a = i)) as [->|]; done.
  - intros a Ha. destruct (decide (a = i)) as [->|Hne].
    + split; [done|]. intros c'. rewrite He', aset_add_elem, Hei. split.
      * intros [->|(b & Hb & -> & Hp)]; [exists j|exists b]; naive_solver.
      * intros (b & Hb & -> & [Hp|[_ ->]]); [right; eauto|by left].
    + destruct (Hc a Ha) as [Hga Hea]. split; [done|]. intros c'. rewrite Hea.
      split; intros (b & Hb & -> & Hp); exists b; naive_solver.
Qed.

Lemma mesh_all w : hosts_done H0 w ->
  if_ok (for_each (seq N0 H0) (fun node0 => for_each (seq N0 H0) (fun node1 =>
    if decide (node0 = node1) then mret tt else add_connection node0 node1)))
    (fun _ => meshed (fun i j => i <> j)) w.
Proof.
  intros (Hh & Hn & Hv & s & Hr & Hg & He).
  eapply ok_or_mono.
  - apply (wp_for_each _ _ (fun done => meshed (fun i j => i <> j /\ i < length done))).
    + unfold meshed. split_and!; [done..|by exists s|]. exists (fun _ => os_empty). split; [done|].
      intros i Hi. split; [apply os_empty_wf|]. intros c. split; [by intros ?%elem_of_nil|].
      intros (j & _ & _ & _ & Hlt). simpl in Hlt. lia.
    + intros done1 node0 todo w1 Heq Hm. destruct (seq_visit _ _ _ _ _ Heq) as [-> Hk].
      eapply ok_or_mono.
      * apply (wp_for_each _ _ (fun done2 => meshed (fun i j => i <> j /\
          (i < length done1 \/ (i = length done1 /\ j < length done2))))).
        -- eapply meshed_ext; [|exact Hm]. intros i j _ _. simpl. lia.
        -- intros done2 node1 todo2 w2 Heq2 Hm2. destruct (seq_visit _ _ _ _ _ Heq2) as [-> Hk2].
           rewrite length_app. cbn [length]. case_decide.
           ++ eapply meshed_ext; [|exact Hm2]. intros i j _ _. cbv beta. lia.
           ++ eapply ok_or_mono; [by apply mesh_step|]. intros [] w3 Hm3.
              eapply meshed_ext; [|exact Hm3]. intros i j _ _. cbv beta. lia.
      * intros [] w2 Hm2. rewrite length_app. cbn [length]. eapply meshed_ext; [|exact Hm2].
        intros i j _ Hj. cbv beta. rewrite length_seq. lia.
  - intros [] w1 Hm. eapply meshed_ext; [|exact Hm]. intros i j Hi _. simpl. rewrite length_seq. lia.
Qed.

(** The objects after [create_resource] *)
Lemma create_resource_objects :
  if_ok (create_resource name tr tls) (fun r w => r = r0 /\ meshed (fun i j => i <> j) w) w0.
Proof.
  unfold create_resource, new_resource, gets.
  unfold ok_or, wp. mred. set (w1 := World _ _ _ _ _). fold (fresh_resource os_empty) in w1.
  pose proof (wp_for_each (seq 0 H0) (fun h => let* p := next_port h in node_init h r0 p)
    (fun done => hosts_done (length done)) (fun _ _ => some_windows) w1) as Hphase.
  assert (Hp : if_ok (for_each (seq 0 H0) (fun h => let* p := next_port h in node_init h r0 p))
    (fun _ => hosts_done (length (seq 0 H0))) w1).
  { apply Hphase.
    - unfold hosts_done, w1. cbn [w_hosts w_nodes w_volumes w_resources length]. split_and!.
      + unfold ports_taken. apply list_eq. intros i. rewrite list_lookup_imap.
        destruct (w_hosts w0 !! i); [|done]. cbn [fmap option_fmap option_map]. by rewrite decide_False by lia.
      + simpl. by rewrite app_nil_r.
      + done.
      + exists os_empty. split_and!; [done|apply os_empty_wf|done].
    - intros done h todo w Heq Hd. destruct (seq_visit _ _ _ _ _ Heq) as [-> Hk].
      rewrite length_app, Nat.add_1_r. apply node_on_host; [exact Hd|lia]. }
  unfold ok_or, wp in Hp. cbn [w_hosts w1] in *. mred.
  revert Hp. unfold M_bind. mred. destruct (for_each _ _ w1) as [[[]|x] w2]; [|done]. rewrite length_seq. intros Hd.
  pose proof (mesh_all w2 Hd) as Hmesh. destruct Hd as (Hh & Hn & Hv & s & Hr & Hg & He).
  assert (Hns : elems (r_nodes (resource_at w2 r0)) = seq N0 H0).
  { unfold resource_at. rewrite Hr, lookup_app_r, Nat.sub_diag by lia. exact He. }
  rewrite Hns. unfold ok_or, wp in Hmesh. destruct (for_each _ _ w2) as [[[]|x] w3]; [|done]. done.
Qed.
End create_theory.

(** ** Lemmas: adding disks *)

(** A world without what commands, storage pools and configuration files
    change: the commands, the pools, the flag [config_changed], and the disks
    of the volumes. *)
Definition bare_volume (v : volume) : volume := NewVolume (v_volume v) (v_minor v) (v_node v) None None None.
Definition core (w : world) : world :=
  World (Env [] ∅) (map (set_pool None) (w_hosts w)) (map (set_changed false) (w_nodes w))
    (map bare_volume (w_volumes w)) (w_resources w).
Definition same_core (w w' : world) : Prop := core w' = core w.
#[export] Instance same_core_preorder : PreOrder same_core.
Proof. split; [by intros w|]. unfold same_core. intros a b c. congruence. Qed.

Lemma core_host w h : host_at (core w) h = set_pool None (host_at w h).
Proof. unfold host_at, core. cbn [w_hosts]. rewrite list_lookup_fmap. by destruct (w_hosts w !! h). Qed.
Lemma core_node w n : node_at (core w) n = set_changed false (node_at w n).
Proof. unfold node_at, core. cbn [w_nodes]. rewrite list_lookup_fmap. by destruct (w_nodes w !! n). Qed.
Lemma core_volume w v : volume_at (core w) v = bare_volume (volume_at w v).
Proof. unfold volume_at, core. cbn [w_volumes]. rewrite list_lookup_fmap. by destruct (w_volumes w !! v). Qed.

Lemma map_alter_same {A B} (g : A -> B) (f : A -> A) i (l : list A) :
  (forall x, g (f x) = g x) -> map g (alter f i l) = map g l.
Proof.
  intros Hf. revert i. induction l as [|x l IH]; intros [|i]; try done; simpl; [by rewrite Hf|].
  f_equal. apply IH.
Qed.

Lemma keeps_core_set_host h f : (forall x, set_pool None (f x) = set_pool None x) ->
  keeps same_core (set_host h f).
Proof. intros Hf w. unfold same_core, core. simpl. by rewrite map_alter_same. Qed.
Lemma keeps_core_set_node n f : (forall x, set_changed false (f x) = set_changed false x) ->
  keeps same_core (set_node n f).
Proof. intros Hf w. unfold same_core, core. simpl. by rewrite map_alter_same. Qed.
Lemma keeps_core_set_volume v f : (forall x, bare_volume (f x) = bare_volume x) ->
  keeps same_core (set_volume v f).
Proof. intros Hf w. unfold same_core, core. simpl. by rewrite map_alter_same. Qed.
Lemma keeps_core_on_env {A} (m : M env A) : keeps same_core (on_env m).
Proof. intros w. unfold same_core, on_env, zoom. by destruct (m (w_env w)). Qed.
#[export] Hint Resolve keeps_core_set_host keeps_core_set_node keeps_core_set_volume keeps_core_on_env : keeps.

(** One [bind] at a time, with the hints for the rest *)
Ltac solve_keeps :=
  repeat first
    [ apply keeps_bind; [exact _| |intros ?]
    | apply keeps_when; [exact _|]
    | apply keeps_ret; exact _ | apply keeps_raise; exact _ | apply keeps_gets; exact _
    | apply keeps_get; exact _ | apply keeps_lift; exact _
    | apply keeps_core_on_env
    | apply keeps_core_set_host; done | apply keeps_core_set_node; done
    | apply keeps_core_set_volume; done
    | case_match ].

Section disk_theory.
Context `{SshServer} (g : globals) (job : string) (uuid5 : string -> string).

Lemma keeps_create_pool h thin gran : keeps same_core (host_create_storage_pool h thin gran).
Proof. unfold host_create_storage_pool. solve_keeps. Qed.
Lemma keeps_update_config n : keeps same_core (update_config g job n).
Proof. unfold update_config. solve_keeps. Qed.
Lemma keeps_node_run n cmd : keeps same_core (node_run g job n cmd).
Proof. unfold node_run. apply keeps_bind; [exact _|apply keeps_update_config|intros ?]. solve_keeps. Qed.
Lemma keeps_create_disks v size a : keeps same_core (create_disks uuid5 v size a).
Proof.
  assert (Hd : forall suffix size ms, keeps same_core (volume_create_disk uuid5 v suffix size ms a)).
  { intros. unfold volume_create_disk. solve_keeps. }
  unfold create_disks. apply keeps_bind; [exact _|apply Hd|intros ?].
  apply keeps_bind; [exact _|solve_keeps|intros ?]. apply keeps_when; [exact _|].
  apply keeps_bind; [exact _|apply Hd|intros ?]. solve_keeps.
Qed.
Lemma keeps_volume_create_md v mp bbs f : keeps same_core (volume_create_md g job v mp bbs f).
Proof.
  unfold volume_create_md. apply keeps_bind; [exact _|solve_keeps|intros ?].
  apply keeps_bind; [exact _|solve_keeps|intros ?]. unfold drbdadm.
  apply keeps_bind; [exact _|solve_keeps|intros ?]. apply keeps_node_run.
Qed.

(** The effect of [Node.add_disk] on the core *)
Definition core_add_disk (volume_number : nat) (w : world) (n : nat) : world :=
  let x := node_at w n in
  let old := n_disks x !! volume_number in
  let m := match old with
           | Some v => v_minor (volume_at w v)
           | None => S (minors (host_at w (n_host x)))
           end in
  let v := length (w_volumes w) in
  World (w_env w)
    (match old with Some _ => w_hosts w | None => alter (set_minors m) (n_host x) (w_hosts w) end)
    (alter (fun x => set_disks (if decide (length (n_disks x) <= volume_number) then n_disks x ++ [v]
                                else <[volume_number := v]> (n_disks x)) x) n (w_nodes w))
    (w_volumes w ++ [NewVolume volume_number m n None None None])
    (w_resources w).

Lemma ok_or_core {A} (m : M world A) w c : keeps same_core m -> core w = c ->
  ok_or True m (fun _ w' => core w' = c) w.
Proof. intros Hm <-. unfold ok_or, wp. specialize (Hm w). by destruct (m w) as [[]]. Qed.

Lemma set_minors_pool m x : set_pool None (set_minors m x) = set_minors m (set_pool None x).
Proof. done. Qed.
Lemma map_alter {A} (f f' p : A -> A) i (l : list A) : (forall x, p (f x) = f' (p x)) ->
  map p (alter f i l) = alter f' i (map p l).
Proof.
  intros Hf. revert i. induction l as [|x l IH]; intros [|i]; try done; simpl; [by rewrite Hf|].
  f_equal. apply IH.
Qed.

Lemma volume_init_core n vnr w c : core w = c -> n_host (node_at c n) < length (w_hosts c) ->
  let old := n_disks (node_at c n) !! vnr in
  ok_or True (volume_init n vnr ((fun v => v_minor (volume_at w v)) <$> old))
    (fun v w' => v = length (w_volumes c) /\
       let m := match old with Some v => v_minor (volume_at c v)
                | None => S (minors (host_at c (n_host (node_at c n)))) end in
       core w' = World (w_env c)
         (match old with Some _ => w_hosts c
          | None => alter (set_minors m) (n_host (node_at c n)) (w_hosts c) end)
         (w_nodes c) (w_volumes c ++ [NewVolume vnr m n None None None]) (w_resources c)) w.
Proof.
  intros <- Hh old. assert (Hlen : length (w_hosts (core w)) = length (w_hosts w)) by apply length_map.
  rewrite core_node in Hh. cbn [n_host set_changed] in Hh. rewrite Hlen in Hh.
  unfold ok_or, wp, volume_init. destruct old as [v|]; cbn [fmap option_fmap option_map].
  - unfold new_volume. mred. split; [unfold core; cbn [w_volumes]; by rewrite length_map|].
    rewrite core_volume. unfold core. cbn [w_env w_hosts w_nodes w_volumes w_resources].
    by rewrite map_app.
  - unfold gets, next_minor, set_host, modify, new_volume, gets. mred.
    cbn [w_env w_hosts w_nodes w_volumes w_resources].
    split; [unfold core; cbn [w_volumes]; by rewrite length_map|].
    rewrite core_node. cbn [n_host set_changed]. set (h := n_host (node_at w n)) in *.
    rewrite core_host. unfold host_at at 1. cbn [w_hosts]. rewrite list_lookup_alter_eq.
    destruct (lookup_lt_is_Some_2 (w_hosts w) h Hh) as [x Hx].
    assert (Hm : minors (host_at w h) = minors x) by (unfold host_at; by rewrite Hx).
    rewrite Hx. cbn [fmap option_fmap option_map default from_option id minors set_minors set_pool].
    unfold core. cbn [w_env w_hosts w_nodes w_volumes w_resources]. rewrite Hm.
    change (minors (set_pool None (host_at w h))) with (minors (host_at w h)).
    rewrite ?Hm, map_app. f_equal.
    apply list_eq. intros i. rewrite list_lookup_fmap. destruct (decide (i = h)) as [->|Hne].
    + rewrite !list_lookup_alter_eq, list_lookup_fmap, Hx. done.
    + rewrite !list_lookup_alter_ne, list_lookup_fmap by done. done.
Qed.

Lemma node_add_disk_core n vnr size a w :
  n_host (node_at w n) < length (w_hosts w) ->
  ok_or True (node_add_disk g job uuid5 n vnr size a)
    (fun v w' => v = length (w_volumes w) /\ core w' = core_add_disk vnr (core w) n) w.
Proof.
  intros Hh. set (c := core w). assert (Hc : core w = c) by done.
  assert (Hhc : n_host (node_at c n) < length (w_hosts c)).
  { unfold c. rewrite core_node. unfold core. cbn [w_hosts n_host set_changed]. by rewrite length_map. }
  assert (Hv : length (w_volumes w) = length (w_volumes c)) by (unfold c, core; cbn [w_volumes]; by rewrite length_map).
  rewrite Hv. clearbody c.
  unfold node_add_disk. do 2 (apply ok_or_bind; unfold ok_or at 1, wp, gets at 1).
  apply ok_or_bind. eapply ok_or_mono.
  { apply ok_or_core; [|exact Hc]. apply keeps_when; [exact _|apply keeps_create_pool]. }
  clear w Hh Hc Hv. intros [] w Hc. do 2 (apply ok_or_bind; unfold ok_or at 1, wp, gets at 1).
  assert (Hd : n_disks (node_at w n) = n_disks (node_at c n)) by (rewrite <-Hc, core_node; done).
  rewrite Hd. apply ok_or_bind. eapply ok_or_mono; [by apply volume_init_core|].
  intros v w1 (-> & Hc1). clear w Hc Hd. apply ok_or_bind. eapply ok_or_mono.
  { apply ok_or_core; [|exact Hc1]. destruct size; [|apply keeps_ret; exact _].
    apply keeps_bind; [exact _|apply keeps_create_disks|intros ?]. apply keeps_when; [exact _|].
    apply keeps_bind; [exact _|apply keeps_gets; exact _|intros ?]. apply keeps_node_run. }
  clear w1 Hc1. intros [] w Hc. unfold ok_or, wp, set_node, modify. mred. split; [done|].
  unfold core in Hc |- *. cbn [w_env w_hosts w_nodes w_volumes w_resources] in *.
  injection Hc as Henv Hhosts Hnodes Hvols Hres. unfold core_add_disk.
  rewrite Henv, Hhosts, Hvols, Hres. f_equal. rewrite <-Hnodes. apply map_alter. done.
Qed.
End disk_theory.

(** *** The objects after [core_add_disk] *)

Lemma core_add_disk_frame k w n :
  length (w_nodes (core_add_disk k w n)) = length (w_nodes w) /\
  length (w_hosts (core_add_disk k w n)) = length (w_hosts w) /\
  w_resources (core_add_disk k w n) = w_resources w /\
  (forall m, n_host (node_at (core_add_disk k w n) m) = n_host (node_at w m)) /\
  (forall m, m <> n -> node_at (core_add_disk k w n) m = node_at w m) /\
  (forall v, v < length (w_volumes w) -> volume_at (core_add_disk k w n) v = volume_at w v).
Proof.
  unfold core_add_disk, node_at, volume_at. cbn [w_nodes w_hosts w_resources w_volumes].
  rewrite length_alter. split_and!; try done.
  - destruct (_ !! k); [done|]. by rewrite length_alter.
  - intros m. destruct (decide (m = n)) as [->|Hne]; [|by rewrite list_lookup_alter_ne].
    rewrite list_lookup_alter_eq. by destruct (w_nodes w !! n).
  - intros m Hm. by rewrite list_lookup_alter_ne.
  - intros v Hv. by rewrite lookup_app_l.
Qed.

(** The disks of the node, and the new volume *)
Lemma core_add_disk_disks k w n : n < length (w_nodes w) ->
  let L := n_disks (node_at w n) in
  n_disks (node_at (core_add_disk k w n) n) =
    (if decide (length L <= k) then L ++ [length (w_volumes w)] else <[k := length (w_volumes w)]> L) /\
  volume_at (core_add_disk k w n) (length (w_volumes w)) =
    NewVolume k (match L !! k with
                 | Some v => v_minor (volume_at w v)
                 | None => S (minors (host_at w (n_host (node_at w n)))) end) n None None None.
Proof.
  intros Hn L. unfold core_add_disk. cbn [w_nodes w_volumes]. split.
  - unfold L, node_at. cbn [w_nodes]. rewrite list_lookup_alter_eq.
    destruct (lookup_lt_is_Some_2 _ _ Hn) as [x ->]. done.
  - unfold volume_at at 1. cbn [w_volumes]. by rewrite lookup_app_r, Nat.sub_diag by lia.
Qed.

Lemma core_add_disk_minors k w n h :
  minors (host_at (core_add_disk k w n) h) =
  if decide (n_disks (node_at w n) !! k = None /\ h = n_host (node_at w n) /\ h < length (w_hosts w))
  then S (minors (host_at w h)) else minors (host_at w h).
Proof.
  unfold core_add_disk, host_at. cbn [w_hosts]. set (h0 := n_host (node_at w n)).
  destruct (n_disks (node_at w n) !! k) as [v|] eqn:Hv; [by rewrite decide_False by naive_solver|].
  destruct (decide (h = h0)) as [->|Hne].
  - rewrite list_lookup_alter_eq. destruct (w_hosts w !! h0) as [x|] eqn:Hx.
    + rewrite decide_True by (split_and!; [done..|by eapply lookup_lt_Some]). done.
    + rewrite decide_False; [done|]. intros (_ & _ & Hlt). by apply lookup_ge_None in Hx; lia.
  - rewrite list_lookup_alter_ne by done. by rewrite decide_False by naive_solver.
Qed.

(** *** Volume numbers *)

(** The node has [k] volumes, numbered by their position. *)
Definition node_wf (w : world) (n k : nat) : Prop :=
  n < length (w_nodes w) /\ n_host (node_at w n) < length (w_hosts w) /\
  length (n_disks (node_at w n)) = k /\
  forall i v, n_disks (node_at w n) !! i = Some v ->
    v < length (w_volumes w) /\ v_volume (volume_at w v) = i /\ v_node (volume_at w v) = n.

Definition volumes_wf (w : world) (r : nat) : Prop :=
  r < length (w_resources w) /\ osGood (r_nodes (resource_at w r)) /\
  forall n, n ∈ elems (r_nodes (resource_at w r)) -> node_wf w n (num_volumes (resource_at w r)).

Lemma node_wf_core w n k : node_wf (core w) n k <-> node_wf w n k.
Proof.
  unfold node_wf. rewrite core_node. unfold core at 1 2 3. cbn [w_nodes w_hosts w_volumes].
  rewrite !length_map. cbn [n_host n_disks set_changed]. setoid_rewrite core_volume. done.
Qed.

Lemma node_wf_add w n k : node_wf w n k -> node_wf (core_add_disk k w n) n (S k).
Proof.
  intros (Hn & Hh & Hl & Hd). destruct (core_add_disk_frame k w n) as (F1 & F2 & _ & F4 & _ & F6).
  destruct (core_add_disk_disks k w n Hn) as [D1 D2]. rewrite decide_True in D1 by lia.
  unfold node_wf. rewrite F1, F2, F4, D1, length_app, Hl. split_and!; [done..|simpl; lia|].
  assert (Hvl : length (w_volumes (core_add_disk k w n)) = S (length (w_volumes w))).
  { unfold core_add_disk. cbn [w_volumes]. rewrite length_app. simpl. lia. }
  rewrite Hvl. intros i v [Hv|[Hi Hv]]%lookup_app_Some.
  - destruct (Hd i v Hv) as (Hlt & ? & ?). rewrite F6 by done. split_and!; [lia|done..].
  - apply list_lookup_singleton_Some in Hv as [Hi' <-]. rewrite D2. cbn [v_volume v_node].
    split_and!; [lia|lia|done].
Qed.

Lemma node_wf_other w n m k k' : m <> n -> node_wf w m k -> node_wf (core_add_disk k' w n) m k.
Proof.
  intros Hne (Hn & Hh & Hl & Hd). destruct (core_add_disk_frame k' w n) as (F1 & F2 & _ & F4 & F5 & F6).
  unfold node_wf. rewrite F1, F2, F5 by done. split_and!; [done..|]. intros i v Hv.
  destruct (Hd i v Hv) as (Hlt & ? & ?). rewrite F6 by done. split_and!; [|done..].
  unfold core_add_disk. cbn [w_volumes]. rewrite length_app. lia.
Qed.

(** One new volume on each of several nodes *)
Lemma fold_add_disk_wf k l c : NoDup l -> (forall m, m ∈ l -> node_wf c m k) -> forall m,
  (m ∈ l -> node_wf (foldl (core_add_disk k) c l) m (S k)) /\
  (m ∉ l -> forall j, node_wf c m j -> node_wf (foldl (core_add_disk k) c l) m j).
Proof.
  revert c. induction l as [|m0 l IH]; intros c Hl Hc0 m; [split; [by intros ?%elem_of_nil|done]|].
  apply NoDup_cons in Hl as [Hm0 Hl]. cbn [foldl].
  assert (Hc1 : forall m, m ∈ l -> node_wf (core_add_disk k c m0) m k).
  { intros m' Hm'. apply node_wf_other; [by intros ->|]. apply Hc0. by right. }
  destruct (IH _ Hl Hc1 m) as [IH1 IH2]. split.
  - intros [->|Hm]%elem_of_cons; [|by apply IH1]. apply IH2; [done|]. apply node_wf_add, Hc0. by left.
  - intros [Hne Hm]%not_elem_of_cons j Hj. apply IH2; [done|]. by apply node_wf_other.
Qed.

(** *** Minors *)

(** On every host, the minors of the volumes are distinct, and counted. *)
Definition minors_wf (w : world) : Prop :=
  (forall n, n < length (w_nodes w) -> n_host (node_at w n) < length (w_hosts w)) /\
  (forall n i v, n < length (w_nodes w) -> n_disks (node_at w n) !! i = Some v ->
    v < length (w_volumes w) /\ v_minor (volume_at w v) <= minors (host_at w (n_host (node_at w n)))) /\
  (forall n n' i i' v v', n < length (w_nodes w) -> n' < length (w_nodes w) ->
    n_disks (node_at w n) !! i = Some v -> n_disks (node_at w n') !! i' = Some v' ->
    n_host (node_at w n) = n_host (node_at w n') ->
    v_minor (volume_at w v) = v_minor (volume_at w v') -> n = n' /\ i = i').

Lemma minors_wf_core w : minors_wf (core w) <-> minors_wf w.
Proof.
  unfold minors_wf. setoid_rewrite core_node. setoid_rewrite core_host. setoid_rewrite core_volume.
  unfold core. cbn [w_nodes w_hosts w_volumes]. rewrite !length_map. done.
Qed.

(** The places of the new volume and of the others *)
Lemma core_add_disk_lookup k w n i v : n < length (w_nodes w) ->
  n_disks (node_at (core_add_disk k w n) n) !! i = Some v ->
  (v = length (w_volumes w) /\
   (n_disks (node_at w n) !! k = None \/ (i = k /\ is_Some (n_disks (node_at w n) !! k)))) \/
  (n_disks (node_at w n) !! i = Some v /\ (is_Some (n_disks (node_at w n) !! k) -> i <> k)).
Proof.
  intros Hn. destruct (core_add_disk_disks k w n Hn) as [-> _]. set (L := n_disks (node_at w n)).
  case_decide as Hk.
  - pose proof (lookup_ge_None_2 L k Hk) as HN. intros [Hv|[Hi Hv]]%lookup_app_Some.
    + right. split; [done|]. rewrite HN. by intros [].
    + left. apply list_lookup_singleton_Some in Hv as [_ <-]. auto.
  - assert (HS : is_Some (L !! k)) by (apply lookup_lt_is_Some_2; lia).
    intros [(-> & -> & _)|[Hne Hv]]%list_lookup_insert_Some; [left; auto|right]. split; [done|]. by intros _ ->.
Qed.

(** Every volume in place is the new one, or an old one in its old place. *)
Lemma core_add_disk_place k w n m i v : n < length (w_nodes w) -> m < length (w_nodes w) ->
  n_disks (node_at (core_add_disk k w n) m) !! i = Some v ->
  (v = length (w_volumes w) /\ m = n) \/
  (n_disks (node_at w m) !! i = Some v /\ (m = n -> is_Some (n_disks (node_at w n) !! k) -> i <> k)).
Proof.
  intros Hn Hm Hv. destruct (decide (m = n)) as [->|Hne].
  - apply core_add_disk_lookup in Hv; [|done]. naive_solver.
  - destruct (core_add_disk_frame k w n) as (_ & _ & _ & _ & F5 & _). rewrite F5 in Hv by done. naive_solver.
Qed.

(** The new volume is in one place. *)
Lemma core_add_disk_new_once k w n i i' : minors_wf w -> n < length (w_nodes w) ->
  n_disks (node_at (core_add_disk k w n) n) !! i = Some (length (w_volumes w)) ->
  n_disks (node_at (core_add_disk k w n) n) !! i' = Some (length (w_volumes w)) -> i = i'.
Proof.
  intros (_ & Hm & _) Hn. destruct (core_add_disk_disks k w n Hn) as [-> _]. case_decide as Hk.
  - assert (Hend : forall j, (n_disks (node_at w n) ++ [length (w_volumes w)]) !! j =
      Some (length (w_volumes w)) -> j = length (n_disks (node_at w n))).
    { intros j [Hj|[Hj Hjv]]%lookup_app_Some; [destruct (Hm n j _ Hn Hj); lia|].
      apply list_lookup_singleton_Some in Hjv as [? _]. lia. }
    intros Hi Hi'. by rewrite (Hend i Hi), (Hend i' Hi').
  - assert (Hend : forall j, <[k:=length (w_volumes w)]> (n_disks (node_at w n)) !! j =
      Some (length (w_volumes w)) -> j = k).
    { intros j [(-> & _ & _)|[Hne Hj]]%list_lookup_insert_Some; [done|]. destruct (Hm n j _ Hn Hj). lia. }
    intros Hi Hi'. by rewrite (Hend i Hi), (Hend i' Hi').
Qed.

(** An old volume on the same host with the minor of the new one was replaced. *)
Lemma core_add_disk_new_minor k w n m i v : minors_wf w -> n < length (w_nodes w) -> m < length (w_nodes w) ->
  n_disks (node_at w m) !! i = Some v -> n_host (node_at w m) = n_host (node_at w n) ->
  v_minor (volume_at w v) = v_minor (volume_at (core_add_disk k w n) (length (w_volumes w))) ->
  m = n /\ i = k /\ is_Some (n_disks (node_at w n) !! k).
Proof.
  intros (_ & Hm & Hu) Hn Hmn Hv Hhost. destruct (core_add_disk_disks k w n Hn) as [_ ->]. cbn [v_minor].
  destruct (n_disks (node_at w n) !! k) as [v0|] eqn:Hk.
  - intros Heq. destruct (Hu m n i k v v0); naive_solver.
  - intros Heq. destruct (Hm m i v Hmn Hv) as [_ Hle]. rewrite Hhost in Hle. lia.
Qed.

Lemma core_add_disk_counted k w n m i v : minors_wf w -> n < length (w_nodes w) -> m < length (w_nodes w) ->
  n_disks (node_at (core_add_disk k w n) m) !! i = Some v ->
  v < length (w_volumes (core_add_disk k w n)) /\
  v_minor (volume_at (core_add_disk k w n) v) <=
    minors (host_at (core_add_disk k w n) (n_host (node_at w m))).
Proof.
  intros (Hh & Hm & _) Hn Hmn Hv. destruct (core_add_disk_frame k w n) as (_ & _ & _ & _ & _ & F6).
  assert (Hvl : length (w_volumes (core_add_disk k w n)) = S (length (w_volumes w))).
  { unfold core_add_disk. cbn [w_volumes]. rewrite length_app. simpl. lia. }
  rewrite Hvl, core_add_disk_minors. destruct (core_add_disk_place k w n m i v Hn Hmn Hv) as [(-> & ->)|[Hold _]].
  - split; [lia|]. destruct (core_add_disk_disks k w n Hn) as [_ ->]. cbn [v_minor].
    destruct (n_disks (node_at w n) !! k) as [v0|] eqn:Hk.
    + rewrite decide_False by naive_solver. by apply (Hm n k).
    + rewrite decide_True; [done|]. split_and!; [done..|by apply Hh].
  - destruct (Hm m i v Hmn Hold) as [Hlt Hle]. rewrite F6 by done. split; [lia|]. case_decide; lia.
Qed.

Lemma minors_wf_add k w n : minors_wf w -> n < length (w_nodes w) -> minors_wf (core_add_disk k w n).
Proof.
  intros Hw Hn. pose proof Hw as (Hh & Hm & Hu).
  destruct (core_add_disk_frame k w n) as (F1 & F2 & _ & F4 & _ & F6).
  unfold minors_wf. rewrite F1, F2. setoid_rewrite F4. split_and!; [done| |].
  - intros m i v Hmn Hv. by eapply core_add_disk_counted.
  - intros m m' i i' v v' Hmn Hmn' Hv Hv' Hhost Heq.
    destruct (core_add_disk_place k w n m i v Hn Hmn Hv) as [(-> & ->)|[Hold Hik]],
      (core_add_disk_place k w n m' i' v' Hn Hmn' Hv') as [(-> & ->)|[Hold' Hik']].
    + split; [done|]. by eapply core_add_disk_new_once.
    + destruct (Hm m' i' v' Hmn' Hold') as [Hlt' _]. rewrite (F6 v') in Heq by done.
      destruct (core_add_disk_new_minor k w n m' i' v') as (-> & -> & HS); try done.
      by destruct (Hik' eq_refl HS).
    + destruct (Hm m i v Hmn Hold) as [Hlt _]. rewrite (F6 v) in Heq by done.
      destruct (core_add_disk_new_minor k w n m i v) as (-> & -> & HS); try done.
      by destruct (Hik eq_refl HS).
    + destruct (Hm m i v Hmn Hold) as [Hlt _], (Hm m' i' v' Hmn' Hold') as [Hlt' _].
      rewrite !F6 in Heq by done. by eapply Hu.
Qed.

(** *** [Resource.add_disk] *)

Section volumes_theory.
Context `{SshServer} (g : globals) (job : string) (uuid5 : string -> string).

Lemma add_disk_core r size diskful max_peers bbs a f w : volumes_wf w r ->
  ok_or True (add_disk g job uuid5 r size diskful max_peers bbs a f)
    (fun k w' => k = num_volumes (resource_at w r) /\
       core w' = foldl (core_add_disk k) (core (snd (next_volume r w))) (elems (r_nodes (resource_at w r)))) w.
Proof.
  intros (Hr & _ & Hn). set (k := num_volumes (resource_at w r)). set (ns := elems (r_nodes (resource_at w r))).
  unfold add_disk. apply ok_or_bind. unfold ok_or at 1, wp.
  assert (Hnext : next_volume r w = (Ok k, snd (next_volume r w))) by done.
  rewrite Hnext. set (w1 := snd (next_volume r w)).
  assert (Hns : elems (r_nodes (resource_at w1 r)) = ns).
  { unfold w1, next_volume, gets, set_resource, modify, resource_at. mred. cbn [snd w_resources].
    rewrite list_lookup_alter_eq. unfold ns, resource_at. by destruct (w_resources w !! r). }
  assert (Hhosts : forall n, n ∈ ns -> n_host (node_at (core w1) n) < length (w_hosts (core w1))).
  { intros n Hin. rewrite core_node. cbn [n_host set_changed]. unfold core. cbn [w_hosts]. rewrite length_map.
    by destruct (Hn n Hin) as (_ & ? & _). }
  assert (Hframe : forall l c, (forall n, n ∈ ns -> n_host (node_at c n) < length (w_hosts c)) ->
    forall n, n ∈ ns -> n_host (node_at (foldl (core_add_disk k) c l) n) < length (w_hosts (foldl (core_add_disk k) c l))).
  { induction l as [|m l IH]; intros c Hc n Hin; [by apply Hc|]. cbn [foldl]. apply IH; [|done].
    intros n' Hin'. destruct (core_add_disk_frame k c m) as (_ & -> & _ & -> & _). by apply Hc. }
  apply ok_or_bind. unfold ok_or at 1, wp, gets at 1. rewrite Hns. apply ok_or_bind. eapply ok_or_mono.
  - apply (wp_map_each ns _ (fun l w' => core w' = foldl (core_add_disk k) (core w1) l)); [done|].
    intros visited n todo w' Heq Hc. rewrite foldl_app. cbn [foldl].
    assert (Hh : n_host (node_at w' n) < length (w_hosts w')).
    { assert (Hin : n ∈ ns) by (rewrite Heq; set_solver). pose proof (Hframe visited (core w1) Hhosts n Hin) as Hf.
      rewrite <-Hc, core_node in Hf. cbn [n_host set_changed] in Hf. unfold core in Hf. cbn [w_hosts] in Hf.
      by rewrite length_map in Hf. }
    destruct (match diskful with Some l => bool_decide (n ∈ l) | None => true end);
      (apply ok_or_bind; eapply ok_or_mono; [by apply node_add_disk_core|];
       intros v w2 [_ Hw2]; unfold ok_or, wp; simpl; by rewrite Hw2, Hc).
  - intros vs w2 Hw2. apply ok_or_bind. eapply ok_or_mono.
    + apply ok_or_core; [|exact Hw2]. apply keeps_for_each; [exact _|]. intros v _.
      apply keeps_bind; [exact _|apply keeps_gets; exact _|intros n]. apply keeps_volume_create_md.
    + intros [] w3 Hw3. done.
Qed.
End volumes_theory.

(** ** Lemmas: reading the objects *)

Section meshed_theory.
Context `{SshServer}.

Lemma meshed_node w0 name tr tls P w i : meshed w0 name tr tls P w -> i < length (w_hosts w0) ->
  exists c, node_at w (length (w_nodes w0) + i) = set_connections c (fresh_node w0 i) /\ NoDup (elems c) /\
    forall p, p ∈ elems c <-> exists j, j < length (w_hosts w0) /\
      p = (length (w_nodes w0) + i, length (w_nodes w0) + j) /\ P i j.
Proof.
  intros (_ & _ & _ & conns & Hn & Hc) Hi. destruct (Hc i Hi) as [Hg He]. exists (conns i).
  split_and!; [|by apply spec_nodup|exact He]. unfold node_at. rewrite Hn, lookup_app_r by lia.
  replace (length (w_nodes w0) + i - length (w_nodes w0)) with i by lia.
  by rewrite list_lookup_fmap, lookup_seq_lt by lia.
Qed.
Lemma meshed_old_node w0 name tr tls P w n : meshed w0 name tr tls P w -> n < length (w_nodes w0) ->
  node_at w n = node_at w0 n.
Proof.
  intros (_ & _ & _ & conns & Hn & _) Hlt. unfold node_at. by rewrite Hn, lookup_app_l.
Qed.
Lemma meshed_length w0 name tr tls P w : meshed w0 name tr tls P w ->
  length (w_nodes w) = length (w_nodes w0) + length (w_hosts w0) /\ length (w_hosts w) = length (w_hosts w0).
Proof.
  intros (Hh & _ & _ & conns & Hn & _). rewrite Hn, Hh, length_app, length_map, length_seq.
  unfold ports_taken. by rewrite length_imap.
Qed.
Lemma meshed_port w0 name tr tls P w i : meshed w0 name tr tls P w -> i < length (w_hosts w0) ->
  port (host_at w i) = S (port (host_at w0 i)).
Proof.
  intros (Hh & _) Hi. unfold host_at at 1. rewrite Hh, ports_taken_at by done. by rewrite decide_True.
Qed.
End meshed_theory.

(** The ports of the nodes on one host are distinct, and below the next one. *)
Definition ports_wf (w : world) : Prop :=
  (forall n, n < length (w_nodes w) -> n_host (node_at w n) < length (w_hosts w) /\
     n_port (node_at w n) < port (host_at w (n_host (node_at w n)))) /\
  (forall n n', n < length (w_nodes w) -> n' < length (w_nodes w) ->
     n_host (node_at w n) = n_host (node_at w n') -> n_port (node_at w n) = n_port (node_at w n') -> n = n').

(** ** Properties *)

(** C2: [create_resource] fails only if a command on a Windows host does;
    otherwise it makes a new resource with one new node on each host, in the
    order of the hosts: node [i] has the id [i], the host's next port, no
    disks, a configuration still to be written, and exactly one connection to
    each other node of the resource; existing nodes and resources stay as they
    were. *)
Theorem create_resource_makes_a_full_mesh `{SshServer} w name tr tls :
  let H0 := length (w_hosts w) in let N0 := length (w_nodes w) in
  match create_resource name tr tls w with
  | (Ok r, w') =>
      r = length (w_resources w) /\ elems (r_nodes (resource_at w' r)) = seq N0 H0 /\
      r_name (resource_at w' r) = name /\ num_volumes (resource_at w' r) = 0 /\
      (forall i, i < H0 ->
        let n := node_at w' (N0 + i) in
        n_host n = i /\ n_id n = i /\ n_resource n = r /\ n_port n = port (host_at w i) /\
        n_disks n = [] /\ config_changed n = true /\ NoDup (elems (n_connections n)) /\
        forall p, p ∈ elems (n_connections n) <-> exists j, j < H0 /\ p = (N0 + i, N0 + j) /\ i <> j) /\
      (forall n, n < N0 -> node_at w' n = node_at w n) /\
      (forall r', r' < r -> resource_at w' r' = resource_at w r')
  | (Raise _, _) => some_windows w
  end.
Proof.
  intros H0 N0. pose proof (create_resource_objects w name tr tls) as Hc. unfold ok_or, wp in Hc.
  destruct (create_resource name tr tls w) as [[r|x] w']; [|done]. destruct Hc as [-> Hm].
  pose proof Hm as (_ & _ & (s & Hr & Hg & He) & _).
  assert (Hres : resource_at w' (length (w_resources w)) = fresh_resource name tr tls s).
  { unfold resource_at. by rewrite Hr, lookup_app_r, Nat.sub_diag by lia. }
  rewrite Hres. split_and!; [done..| | |].
  - intros i Hi. destruct (meshed_node _ _ _ _ _ _ i Hm Hi) as (c & Hn & Hnd & Hp).
    fold N0 in Hn. rewrite Hn. done.
  - intros n Hn. by eapply meshed_old_node.
  - intros r' Hr'. unfold resource_at. by rewrite Hr, lookup_app_l.
Qed.

(** on every host the ports of its nodes stay distinct, over any number of
    resources. *)
Theorem create_resource_keeps_ports_distinct `{SshServer} w name tr tls r w' :
  ports_wf w -> create_resource name tr tls w = (Ok r, w') -> ports_wf w'.
Proof.
  intros [Hp Hu] Hrun. pose proof (create_resource_objects w name tr tls) as Hc. unfold ok_or, wp in Hc.
  rewrite Hrun in Hc. destruct Hc as [-> Hm]. destruct (meshed_length _ _ _ _ _ _ Hm) as [Hln Hlh].
  assert (Hcase : forall n, n < length (w_nodes w') ->
    (n < length (w_nodes w) /\ node_at w' n = node_at w n) \/
    exists i, n = length (w_nodes w) + i /\ i < length (w_hosts w) /\ n_host (node_at w' n) = i /\
      n_port (node_at w' n) = port (host_at w i)).
  { intros n Hn. destruct (decide (n < length (w_nodes w))) as [Hlt|Hge].
    - left. split; [done|]. by eapply meshed_old_node.
    - right. exists (n - length (w_nodes w)). set (i := n - length (w_nodes w)).
      assert (Hni : n = length (w_nodes w) + i) by lia. assert (Hi : i < length (w_hosts w)) by lia.
      destruct (meshed_node _ _ _ _ _ _ i Hm Hi) as (c & Hc & _). rewrite <-Hni in Hc.
      rewrite Hc. split_and!; done. }
  split.
  - intros n Hn. rewrite Hlh. destruct (Hcase n Hn) as [[Hlt ->]|(i & _ & Hi & Hh & Hport)].
    + destruct (Hp n Hlt) as [Hh Hport]. split; [done|]. rewrite (meshed_port _ _ _ _ _ _ _ Hm Hh). lia.
    + rewrite Hh, Hport. split; [done|]. rewrite (meshed_port _ _ _ _ _ _ _ Hm Hi). lia.
  - intros n n' Hn Hn' Hhost Hport.
    destruct (Hcase n Hn) as [[Hlt E]|(i & -> & Hi & Hh & Hpi)],
      (Hcase n' Hn') as [[Hlt' E']|(i' & -> & Hi' & Hh' & Hpi')].
    + rewrite E, E' in *. by apply Hu.
    + destruct (Hp n Hlt) as [_ Hlt2]. rewrite E in *. rewrite Hh', Hpi' in *. subst i'. lia.
    + destruct (Hp n' Hlt') as [_ Hlt2]. rewrite E' in *. rewrite Hh, Hpi in *. subst i. lia.
    + lia.
Qed.

(** C1: when every node of a resource has the same volumes, numbered by their
    position, a successful [add_disk] returns the next volume number and
    leaves them so, with the new volume on every node, with a disk or not. *)
Theorem add_disk_numbers_the_volumes `{SshServer} g job uuid5 r size diskful_nodes max_peers bbs a f w k w' :
  volumes_wf w r -> add_disk g job uuid5 r size diskful_nodes max_peers bbs a f w = (Ok k, w') ->
  k = num_volumes (resource_at w r) /\ num_volumes (resource_at w' r) = S k /\ volumes_wf w' r /\
  elems (r_nodes (resource_at w' r)) = elems (r_nodes (resource_at w r)).
Proof.
  intros Hwf Hrun. pose proof (add_disk_core g job uuid5 r size diskful_nodes max_peers bbs a f w Hwf) as Hc.
  unfold ok_or, wp in Hc. rewrite Hrun in Hc. destruct Hc as [-> Hc]. destruct Hwf as (Hr & Hg & Hn).
  set (k := num_volumes (resource_at w r)) in *. set (ns := elems (r_nodes (resource_at w r))) in *.
  set (w1 := snd (next_volume r w)) in *.
  assert (Hfold : forall l c, w_resources (foldl (core_add_disk k) c l) = w_resources c).
  { induction l as [|m l IH]; intros c; [done|]. cbn [foldl]. by rewrite IH. }
  assert (Hres : resource_at w' r = set_num_volumes (S k) (resource_at w r)).
  { unfold resource_at. change (w_resources w') with (w_resources (core w')). rewrite Hc, Hfold.
    unfold w1, next_volume, gets, set_resource, modify. mred. cbn [snd]. unfold core. cbn [w_resources].
    rewrite list_lookup_alter_eq. destruct (lookup_lt_is_Some_2 _ _ Hr) as [x ->]. done. }
  rewrite Hres. cbn [num_volumes r_nodes set_num_volumes]. split_and!; [done..| |done].
  unfold volumes_wf. rewrite Hres. cbn [num_volumes r_nodes set_num_volumes]. split_and!.
  - change (w_resources w') with (w_resources (core w')). rewrite Hc, Hfold.
    unfold w1, next_volume, gets, set_resource, modify. mred. cbn [snd]. unfold core. cbn [w_resources].
    by rewrite length_alter.
  - done.
  - intros n Hin. fold ns in Hin. rewrite <-node_wf_core, Hc.
    assert (Hnd : NoDup ns) by by apply spec_nodup.
    refine (proj1 (fold_add_disk_wf k ns (core w1) Hnd _ n) Hin). intros m Hm. apply node_wf_core. exact (Hn m Hm).
Qed.

(** C19: adding a disk to a node, as a new volume or in the place of another,
    keeps the minor numbers of all volumes on a host distinct. *)
Theorem add_disk_keeps_minors_distinct `{SshServer} g job uuid5 n volume_number size a w v w' :
  minors_wf w -> n < length (w_nodes w) ->
  node_add_disk g job uuid5 n volume_number size a w = (Ok v, w') -> minors_wf w'.
Proof.
  intros Hw Hn Hrun.
  pose proof (node_add_disk_core g job uuid5 n volume_number size a w (proj1 Hw n Hn)) as Hc.
  unfold ok_or, wp in Hc. rewrite Hrun in Hc. destruct Hc as [_ Hc].
  rewrite <-minors_wf_core, Hc. apply minors_wf_add; [by apply minors_wf_core|].
  unfold core. cbn [w_nodes]. by rewrite length_map.
Qed.

(** ** Witnesses *)

(** A new resource satisfies the premise of [add_disk_numbers_the_volumes]. *)
Lemma created_volumes_wf `{SshServer} w name tr tls r w' :
  create_resource name tr tls w = (Ok r, w') -> volumes_wf w' r.
Proof.
  intros Hrun. pose proof (create_resource_objects w name tr tls) as Hc. unfold ok_or, wp in Hc.
  rewrite Hrun in Hc. destruct Hc as [-> Hm]. pose proof Hm as (_ & _ & (s & Hr & Hg & He) & _).
  destruct (meshed_length _ _ _ _ _ _ Hm) as [Hln Hlh].
  assert (Hres : resource_at w' (length (w_resources w)) = fresh_resource name tr tls s).
  { unfold resource_at. by rewrite Hr, lookup_app_r, Nat.sub_diag by lia. }
  unfold volumes_wf. rewrite Hres. split_and!; [rewrite Hr, length_app; simpl; lia|done|].
  intros n Hn. cbn [r_nodes fresh_resource] in Hn. rewrite He in Hn. apply elem_of_seq in Hn.
  set (i := n - length (w_nodes w)). assert (Hni : n = length (w_nodes w) + i) by lia.
  assert (Hi : i < length (w_hosts w)) by lia.
  destruct (meshed_node _ _ _ _ _ _ i Hm Hi) as (c & Hc & _). rewrite <-Hni in Hc.
  unfold node_wf. rewrite Hc. split_and!; [lia| |done|done]. cbn [n_host set_connections fresh_node]. lia.
Qed.

#[local] Instance quiet_server : SshServer := fun _ _ => Ok (0%Z, EmptyString).
Definition demo_cluster : world :=
  World (Env [] ∅)
    [NewHost (demo_info "a" "10.0.0.1") "lvm" "/dev/vdb" 77 0 None;
     NewHost (demo_info "b" "10.0.0.2") "lvm" "/dev/vdb" 77 0 None] [] [] [].
Definition demo_resource : world := snd (create_resource "r" None "no" demo_cluster).
Definition demo_args : disk_args := DiskArgs None None None None false.

Lemma create_resource_keeps_ports_distinct_witness :
  exists w', create_resource "r" None "no" demo_cluster = (Ok 0, w') /\ ports_wf w'.
Proof.
  eexists. split; [vm_compute; reflexivity|].
  eapply (create_resource_keeps_ports_distinct demo_cluster "r" None "no" 0).
  - split; [intros n Hn|intros n n' Hn]; simpl in Hn; lia.
  - vm_compute. reflexivity.
Defined.

Lemma add_disk_numbers_the_volumes_witness :
  exists w', add_disk demo_globals "job" (fun s => s) 0 "10M" (Some [0]) None [] demo_args
      (MdFlags None false false false false) demo_resource = (Ok 0, w') /\
    num_volumes (resource_at w' 0) = 1 /\ volumes_wf w' 0.
Proof.
  eexists. split; [vm_compute; reflexivity|].
  refine (let H := add_disk_numbers_the_volumes demo_globals "job" (fun s => s) 0 "10M" (Some [0]) None []
    demo_args (MdFlags None false false false false) demo_resource 0 _ _ _ in
    conj (proj1 (proj2 H)) (proj1 (proj2 (proj2 H)))).
  - apply (created_volumes_wf demo_cluster "r" None "no"). vm_compute. reflexivity.
  - vm_compute. reflexivity.
Defined.

Lemma add_disk_keeps_minors_distinct_witness :
  exists w', node_add_disk demo_globals "job" (fun s => s) 1 0 (Some "10M") demo_args demo_resource = (Ok 0, w') /\
    minors_wf w'.
Proof.
  eexists. split; [vm_compute; reflexivity|].
  eapply (add_disk_keeps_minors_distinct demo_globals "job" (fun s => s) 1 0 (Some "10M") demo_args demo_resource 0).
  - split_and!.
    + intros [|[|n]] Hn; [vm_compute; lia|vm_compute; lia|]. vm_compute in Hn. lia.
    + intros [|[|n]] i v Hn Hv; [done|done|]. vm_compute in Hn. lia.
    + intros [|[|n]] n' i i' v v' Hn Hn' Hv; [done|done|]. vm_compute in Hn. lia.
  - vm_compute. lia.
  - vm_compute. reflexivity.
Defined.
