(* ===== verification/ConfigFiles.v ===== *)
(** * Configuration files follow the objects (src/python/drbdtest.py)

    Every change of a resource marks the configuration of its nodes as changed,
    and running a command on a node writes the file first.  This file proves
    that the bookkeeping works: what a node's file holds, by the log of the
    commands sent, is the configuration of the node unless it is marked. *)

From S2P Require Import Prelude PyStr Dict OrderedSet Host Disktools World Config Collections Cluster.

(** ** The file of a node *)

Section files.
Context `{SshServer} (g : globals) (job : string).

(** What a file holds by the commands sent so far, when a command writes its
    input to the file: the input of the last such command sent to the host,
    if the server says that it succeeded.  One that failed may have written
    anything. *)
Definition written (host line : string) (x : list sent * option string) (s : sent) : list sent * option string :=
  (fst x ++ [s],
   if decide (s_host s = host /\ s_command s = line) then
     match s_stdin s with
     | Some t => match ssh (fst x) s with Ok (code, _) => if (code =? 0)%Z then Some t else None | Raise _ => None end
     | None => snd x
     end
   else snd x).
Definition last_written (host line : string) (log : list sent) : option string :=
  snd (foldl (written host line) ([], None) log).

Definition config_line (w : world) (n : nat) : string :=
  command_string (node_info w n) true false ["bash"; "-c"; "cat > " +:+ drbd_config_file_path job w n].
Definition file_of (w : world) (n : nat) : option string :=
  last_written (h_name (node_info w n)) (config_line w n) (sent_log (w_env w)).

Definition member (w : world) (n : nat) : Prop :=
  n < length (w_nodes w) /\ n ∈ items (r_nodes (resource_at w (n_resource (node_at w n)))).

(** The file of [n] holds its configuration. *)
Definition up_to_date (w : world) (n : nat) : Prop :=
  exists t, config g w n = Ok t /\ file_of w n = Some t.
(** Every file does, unless the node is marked. *)
Definition fresh (w : world) : Prop :=
  forall n, member w n -> config_changed (node_at w n) = false -> up_to_date w n.

(** A node that may be in the resource [r] *)
Definition belongs (w : world) (r n : nat) : Prop :=
  r < length (w_resources w) /\ n < length (w_nodes w) /\ n_resource (node_at w n) = r /\
  n_host (node_at w n) < length (w_hosts w) /\
  forall v, v ∈ n_disks (node_at w n) -> v < length (w_volumes w) /\ v_node (volume_at w v) = n.

(** Every node has its own place: a host and a resource; names are distinct. *)
Definition sites_wf (w : world) : Prop :=
  (forall n, n < length (w_nodes w) ->
     n_host (node_at w n) < length (w_hosts w) /\ n_resource (node_at w n) < length (w_resources w)) /\
  (forall n m, n < length (w_nodes w) -> m < length (w_nodes w) ->
     n_host (node_at w n) = n_host (node_at w m) -> n_resource (node_at w n) = n_resource (node_at w m) -> n = m) /\
  (forall r s, r < length (w_resources w) -> s < length (w_resources w) ->
     r_name (resource_at w r) = r_name (resource_at w s) -> r = s) /\
  (forall h k, h < length (w_hosts w) -> k < length (w_hosts w) ->
     h_name (info (host_at w h)) = h_name (info (host_at w k)) -> h = k).

Definition heap_wf (w : world) : Prop :=
  (forall r n, n ∈ items (r_nodes (resource_at w r)) -> belongs w r n) /\ sites_wf w.
(** Both together: what every operation keeps *)
Definition conf_inv (w : world) : Prop := heap_wf w /\ fresh w.
End files.

(** ** Lemmas: what a configuration reads *)

(** The nodes whose hosts the configuration of [m] names *)
Definition named (w : world) (m n : nat) : Prop :=
  let ns := items (r_nodes (resource_at w (n_resource (node_at w m)))) in
  n = m \/ n ∈ ns \/ exists k v, k ∈ ns /\ v ∈ n_disks (node_at w k) /\ n = v_node (volume_at w v).

(** [w] and [w'] agree on all that the configuration of [m] depends on. *)
Record same_reads (w w' : world) (m : nat) : Prop := SameReads {
  sr_info : forall n, named w m n -> node_info w' n = node_info w n;
  sr_resource : n_resource (node_at w' m) = n_resource (node_at w m);
  sr_port : n_port (node_at w' m) = n_port (node_at w m);
  sr_fencing : fencing_mode (node_at w' m) = fencing_mode (node_at w m);
  sr_options : let r := resource_at w (n_resource (node_at w m)) in
    exists s k p, resource_at w' (n_resource (node_at w m)) =
      NewResource (r_name r) (r_net_options r) (r_disk_options r) (r_resource_options r) (r_handlers r) s k
        (transport r) (r_tls r) p /\ items s = items (r_nodes r);
  sr_nodes : forall n, n ∈ items (r_nodes (resource_at w (n_resource (node_at w m)))) ->
    n_port (node_at w' n) = n_port (node_at w n) /\ n_id (node_at w' n) = n_id (node_at w n) /\
    n_disks (node_at w' n) = n_disks (node_at w n) /\
    forall v, v ∈ n_disks (node_at w n) -> volume_at w' v = volume_at w v
}.

Lemma elem_of_enumerate {A} (l : list A) (p : nat * A) : p ∈ enumerate l -> snd p ∈ l.
Proof. intros (i & x & -> & Hx)%elem_of_lookup_imap. by eapply list_elem_of_lookup_2. Qed.

Lemma map_ext_elem {A B} (f f' : A -> B) l : (forall x, x ∈ l -> f x = f' x) -> map f l = map f' l.
Proof. intros Hf. apply map_ext_in. intros x Hx. by apply Hf, list_elem_of_In. Qed.

Lemma config_ext g w w' m : same_reads w w' m -> config g w' m = config g w m.
Proof.
  intros [Hi Hr Hp Hf (s & k & p & Ho & Hs) Hn]. rewrite !config_is_printed.
  enough (Ht : config_tree g w' m = config_tree g w m) by by rewrite Ht.
  assert (Him : node_info w' m = node_info w m) by (apply Hi; by left).
  assert (Hin : forall n, n ∈ items (r_nodes (resource_at w (n_resource (node_at w m)))) -> node_info w' n = node_info w n).
  { intros n Hn'. apply Hi. right. by left. }
  unfold config_tree. rewrite Hr, Ho. cbn [r_name r_handlers r_resource_options r_nodes]. rewrite Hs, Him.
  assert (Hdisk : forall r, disk_item w' m r = disk_item w m r) by (intros r; unfold disk_item; by rewrite Hf, Him).
  assert (Hnet : forall r, net_item w' m r = net_item w m r) by (intros r; unfold net_item; by rewrite Hf, Him).
  rewrite Hdisk, Hnet. f_equal. apply (f_equal2 app); [done|]. apply (f_equal2 app).
  - apply map_ext_elem. intros n Hmem. destruct (Hn n Hmem) as (Hport & Hid & Hd & Hv). unfold host_item.
    rewrite Him, !Hin, Hport, Hid, Hd by done. do 2 f_equal. apply map_ext_elem. intros [i v] Hiv. apply elem_of_enumerate in Hiv.
    unfold volume_item, device_for_config. cbn [fst snd] in *. rewrite Hv by done. rewrite Hi; [done|].
    right. right. by exists n, v.
  - destruct (version_geb _ _); [|done]. apply map_ext_elem. intros [n1 n2] [H1 H2]%elem_of_later_pairs.
    destruct (Hn n1 H1) as (Hp1 & _). destruct (Hn n2 H2) as (Hp2 & _). unfold connection_item. rewrite !Hin by done.
    destruct (proxy_enable g).
    + unfold proxy_host_item, proxy_header, first_addr. by rewrite ?Him, !Hin, Hp, Hp1, Hp2.
    + f_equal. apply (f_equal (cons _)), map_ext. intros a. unfold path_item, addr_line. by rewrite !Hin, Hp1, Hp2.
Qed.

(** ** Lemmas: what commands send *)

(** The commands sent in between all satisfy [P]. *)
Definition sends (P : sent -> Prop) (e e' : env) : Prop :=
  exists l, sent_log e' = sent_log e ++ l /\ Forall P l.
#[export] Instance sends_preorder P : PreOrder (sends P).
Proof.
  split; [intros e; exists []; by rewrite app_nil_r|].
  intros e1 e2 e3 (l1 & H1 & P1) (l2 & H2 & P2). exists (l1 ++ l2). rewrite H2, H1, app_assoc.
  split; [done|]. by apply Forall_app.
Qed.

(** A command of the storage layer: without input, or of the device mapper *)
Definition storage_cmd (h : host_info) (s : sent) : Prop :=
  s_stdin s = None \/
  s_host s = h_name h /\ exists args, s_command s = command_string h true false ("dmsetup" :: args).

Section storage.
Context `{SshServer} (h : host_info).

Lemma sends_run_with quote catch ret ign cmd :
  keeps (sends (storage_cmd h)) (run_with h quote catch ret ign None cmd).
Proof.
  intros e. rewrite run_with_answer. exists [Sent (h_name h) (command_string h quote ign cmd) None]. split; [done|].
  apply Forall_singleton. by left.
Qed.
Lemma sends_run cmd : keeps (sends (storage_cmd h)) (run h cmd).
Proof. apply keeps_bind; [exact _|apply sends_run_with|intros ?]. apply keeps_ret. exact _. Qed.
Lemma sends_run_out cmd : keeps (sends (storage_cmd h)) (run_out h cmd).
Proof. apply keeps_bind; [exact _|apply sends_run_with|intros ?]. apply keeps_ret. exact _. Qed.
Lemma sends_run_dmsetup args stdin : keeps (sends (storage_cmd h)) (run_in h ("dmsetup" :: args) stdin).
Proof.
  intros e. rewrite run_in_answer. eexists [_]. split; [done|]. apply Forall_singleton. right. split; [done|]. by exists args.
Qed.

Ltac solve_sends :=
  repeat lazymatch goal with
  | |- keeps _ (mbind _ _) => apply keeps_bind; [exact _| |intros ?]
  | |- keeps _ (when _ _) => apply keeps_when; [exact _|]
  | |- keeps _ (mret _) => apply keeps_ret; exact _
  | |- keeps _ (raise _) => apply keeps_raise; exact _
  | |- keeps _ (lift _) => apply keeps_lift; exact _
  | |- keeps _ (gets _) => apply keeps_gets; exact _
  | |- keeps _ (py_assert _) => apply keeps_assert; exact _
  | |- keeps _ (run _ _) => apply sends_run
  | |- keeps _ (run_out _ _) => apply sends_run_out
  | |- keeps _ (run_in _ _ _) => apply sends_run_dmsetup
  | |- keeps _ (refresh_partitions _ _) => unfold refresh_partitions
  | |- keeps _ (modify _) => intros ?; exists []; split; [by rewrite app_nil_r|constructor]
  | |- keeps _ (match _ with _ => _ end) => case_match
  end.

Lemma sends_create_storage_pool backend dev thin gran :
  keeps (sends (storage_cmd h)) (create_storage_pool h backend dev thin gran).
Proof. unfold create_storage_pool. solve_sends. Qed.
Lemma sends_pool_create_disk uuid5 p name size ms : keeps (sends (storage_cmd h)) (pool_create_disk uuid5 h p name size ms).
Proof.
  unfold pool_create_disk, new_lvm_volume, new_storage_spaces_volume, new_raw_volume, new_zfs_volume. cbv zeta. solve_sends.
Qed.
Lemma sends_create_disk uuid5 p name size ms delay lbs :
  keeps (sends (storage_cmd h)) (create_disk uuid5 h p name size ms delay lbs).
Proof.
  unfold create_disk, new_device_mapper. cbv zeta.
  apply keeps_bind; [exact _|apply sends_pool_create_disk|intros v]. solve_sends.
Qed.
Lemma sends_create_md name vnr mp bbs f : keeps (sends (storage_cmd h)) (create_md h name vnr mp bbs f).
Proof. unfold create_md, drbdmeta_supports_uuid_options. cbv zeta. solve_sends. Qed.
End storage.

(** A command line determines its words. *)
Lemma command_string_inj h ign c1 c2 : command_string h true ign c1 = command_string h true ign c2 -> c1 = c2.
Proof.
  assert (Hj : join " " (map shlex_quote c1) = join " " (map shlex_quote c2) -> c1 = c2).
  { intros Hj. pose proof (sh_words_join c1) as H1. rewrite Hj, sh_words_join in H1. by injection H1. }
  unfold command_string. destruct (h_netns h) as [netns|]; [|done].
  destruct (negb ign && _); [|done]. intros Heq%sapp_inv%sapp_inv%sapp_inv. auto.
Qed.

(** ** Lemmas: what an operation on some nodes leaves alone *)

Section frames.
Context `{SshServer} (g : globals) (job : string).

(** A command sent on behalf of the nodes in [P] *)
Definition sent_for (P : nat -> Prop) (w : world) (s : sent) : Prop :=
  (exists h, h < length (w_hosts w) /\ storage_cmd (info (host_at w h)) s) \/
  exists n, P n /\ s_host s = h_name (node_info w n) /\ s_command s = config_line job w n.

Record frame (P : nat -> Prop) (w w' : world) : Prop := Frame {
  fr_hosts : map info (w_hosts w') = map info (w_hosts w);
  fr_length : length (w_nodes w') = length (w_nodes w);
  fr_same : forall n, n_host (node_at w' n) = n_host (node_at w n) /\ n_resource (node_at w' n) = n_resource (node_at w n);
  fr_nodes : forall n, ~ P n -> node_at w' n = node_at w n;
  fr_volumes : length (w_volumes w) <= length (w_volumes w');
  fr_volume : forall v, v < length (w_volumes w) -> volume_at w' v = volume_at w v;
  fr_resources : w_resources w' = w_resources w;
  fr_log : exists l, sent_log (w_env w') = sent_log (w_env w) ++ l /\ Forall (sent_for P w) l
}.

Lemma host_at_info w h : info (host_at w h) = default (info no_host) (map info (w_hosts w) !! h).
Proof. unfold host_at. rewrite list_lookup_fmap. by destruct (w_hosts w !! h). Qed.

Lemma frame_info P w w' : frame P w w' ->
  (forall h, info (host_at w' h) = info (host_at w h)) /\ (forall n, node_info w' n = node_info w n) /\
  length (w_hosts w') = length (w_hosts w) /\ forall n, config_line job w' n = config_line job w n.
Proof.
  intros Hf. assert (Hh : forall h, info (host_at w' h) = info (host_at w h)) by (intros h; by rewrite !host_at_info, (fr_hosts _ _ _ Hf)).
  assert (Hn : forall n, node_info w' n = node_info w n).
  { intros n. unfold node_info, node_host. by rewrite Hh, (proj1 (fr_same _ _ _ Hf n)). }
  split_and!; [done|done| |].
  - pose proof (f_equal length (fr_hosts _ _ _ Hf)) as Hl. by rewrite !length_map in Hl.
  - intros n. unfold config_line, drbd_config_file_path. rewrite Hn, (proj2 (fr_same _ _ _ Hf n)).
    unfold resource_at. by rewrite (fr_resources _ _ _ Hf).
Qed.

Lemma sent_for_frame P w w' s : frame P w w' -> sent_for P w' s -> sent_for P w s.
Proof.
  intros Hf. destruct (frame_info _ _ _ Hf) as (Hh & Hn & Hl & Hc). unfold sent_for.
  intros [(h & Hlt & Hs)|(n & HP & H1 & H2)]; [left; exists h|right; exists n].
  - by rewrite <-Hh, <-Hl.
  - by rewrite <-Hn, <-Hc.
Qed.

#[export] Instance frame_preorder P : PreOrder (frame P).
Proof.
  split.
  - intros w. split; try done. exists []. by rewrite app_nil_r.
  - intros w1 w2 w3 H12 H23. pose proof H12 as [A1 A2 A3 A4 A5 A6 A7 (l1 & A8 & A9)].
    pose proof H23 as [B1 B2 B3 B4 B5 B6 B7 (l2 & B8 & B9)]. split; try congruence.
    + intros n. destruct (A3 n), (B3 n). split; congruence.
    + intros n Hn. rewrite B4, A4; done.
    + lia.
    + intros v Hv. rewrite B6 by lia. by apply A6.
    + exists (l1 ++ l2). rewrite B8, A8, app_assoc. split; [done|]. apply Forall_app. split; [done|].
      eapply Forall_impl; [exact B9|]. intros s. by apply sent_for_frame.
Qed.

Lemma frame_on_env {A} P w0 (m : M env A) h : h < length (w_hosts w0) ->
  keeps (sends (storage_cmd (info (host_at w0 h)))) m -> frame P w0 (snd (on_env m w0)).
Proof.
  intros Hh Hm. unfold on_env, zoom. specialize (Hm (w_env w0)). destruct (m (w_env w0)) as [r e].
  destruct Hm as (l & Hl & HP). split; try done. exists l. split; [done|].
  eapply Forall_impl; [exact HP|]. intros s Hs. left. by exists h.
Qed.

Lemma frame_set_node P n f w : P n ->
  (forall x, n_host (f x) = n_host x /\ n_resource (f x) = n_resource x) -> frame P w (snd (set_node n f w)).
Proof.
  intros HP Hf. unfold set_node, modify. cbn [snd]. split; try done; cbn [w_nodes w_volumes w_env].
  - apply length_alter.
  - intros m. unfold node_at. cbn [w_nodes]. destruct (decide (m = n)) as [->|Hne].
    + rewrite list_lookup_alter_eq. destruct (w_nodes w !! n); [apply Hf|done].
    + by rewrite list_lookup_alter_ne.
  - intros m Hm. unfold node_at. cbn [w_nodes]. rewrite list_lookup_alter_ne; [done|]. by intros ->.
  - exists []. by rewrite app_nil_r.
Qed.

Lemma frame_set_host P h f w : (forall x, info (f x) = info x) -> frame P w (snd (set_host h f w)).
Proof.
  intros Hf. unfold set_host, modify. cbn [snd]. split; try done; cbn [w_hosts w_env].
  - by apply map_alter_same.
  - exists []. by rewrite app_nil_r.
Qed.

Lemma frame_new_volume P x w : frame P w (snd (new_volume x w)).
Proof.
  unfold new_volume. cbn [snd]. split; try done; cbn [w_volumes w_env].
  - rewrite length_app. lia.
  - intros v Hv. unfold volume_at. cbn [w_volumes]. by rewrite lookup_app_l.
  - exists []. by rewrite app_nil_r.
Qed.

(** A volume that is new since [w] may change. *)
Lemma frame_set_volume P v f w w' : length (w_volumes w) <= v -> frame P w w' -> frame P w (snd (set_volume v f w')).
Proof.
  intros Hv [A1 A2 A3 A4 A5 A6 A7 A8]. unfold set_volume, modify. cbn [snd]. split; try done; cbn [w_volumes].
  - by rewrite length_alter.
  - intros u Hu. rewrite <-A6 by done. unfold volume_at. cbn [w_volumes]. rewrite list_lookup_alter_ne; [done|lia].
Qed.
End frames.

(** ** Lemmas: the file of a node after an operation *)

Section inv.
Context `{SshServer} (g : globals) (job : string).

Lemma fold_written h line l x : fst (foldl (written h line) x l) = fst x ++ l.
Proof.
  revert x. induction l as [|s l IH]; intros x; cbn [foldl]; [by rewrite app_nil_r|]. rewrite IH. cbn [written fst]. by rewrite <-app_assoc.
Qed.
Lemma last_written_app h line l l' :
  last_written h line (l ++ l') = snd (foldl (written h line) (l, last_written h line l) l').
Proof.
  unfold last_written. rewrite foldl_app. pose proof (fold_written h line l ([], None)) as Hf.
  destruct (foldl (written h line) ([], None) l) as [k o]. cbn [fst snd app] in *. by rewrite Hf.
Qed.

(** The same for commands whose input has been taken: the server says that they succeeded. *)
Definition input_of (host line : string) (o : option string) (s : sent) : option string :=
  if decide (s_host s = host /\ s_command s = line) then match s_stdin s with Some t => Some t | None => o end else o.
Definition answered (before l : list sent) : Prop :=
  forall l1 s l2, l = l1 ++ s :: l2 -> s_stdin s <> None -> exists out, ssh (before ++ l1) s = Ok (0%Z, out).
Lemma answered_app before l l' : answered before l -> answered (before ++ l) l' -> answered before (l ++ l').
Proof.
  intros H1 H2 l1 s l2 Heq Hs. apply app_eq_inv in Heq as [(k & -> & Heq)|(k & Heq & ->)].
  - destruct k as [|c k]; cbn in Heq; [|injection Heq as <- ->; by apply (H1 l1 s k)].
    destruct (H2 [] s l2 (eq_sym Heq) Hs) as [out Ho]. exists out. by rewrite !app_nil_r in Ho.
  - subst l1. destruct (H2 k s l2 eq_refl Hs) as [out Ho]. exists out. by rewrite app_assoc.
Qed.
Lemma answered_nil before : answered before [].
Proof. by intros [|]. Qed.
Lemma last_written_answered host line before l : answered before l ->
  last_written host line (before ++ l) = foldl (input_of host line) (last_written host line before) l.
Proof.
  rewrite last_written_app. generalize (last_written host line before). revert before.
  induction l as [|s l IH]; intros before o Ha; [done|]. cbn [foldl].
  assert (Hw : written host line (before, o) s = (before ++ [s], input_of host line o s)).
  { unfold written, input_of. cbn [fst snd]. destruct (decide _); [|done]. destruct (s_stdin s) as [t|] eqn:Hs; [|done].
    destruct (Ha [] s l eq_refl) as [out Ho]; [by rewrite Hs|]. rewrite app_nil_r in Ho. by rewrite Ho. }
  rewrite Hw. apply IH. intros l1 s' l2 -> Hs. destruct (Ha (s :: l1) s' l2 eq_refl Hs) as [out Ho]. exists out. by rewrite <-app_assoc.
Qed.

(** Such a command *)
Definition writes (h line : string) (s : sent) : Prop := s_host s = h /\ s_command s = line /\ s_stdin s <> None.
Lemma written_skip h line x l : Forall (fun s => ~ writes h line s) l -> snd (foldl (written h line) x l) = snd x.
Proof.
  intros Hl. revert x. induction Hl as [|s l Hs _ IH]; intros x; [done|]. cbn [foldl]. rewrite IH. unfold written. cbn [snd].
  destruct (decide _) as [[H1 H2]|]; [|done]. destruct (s_stdin s) eqn:Hi; [|done]. destruct Hs. split_and!; [done..|]. by rewrite Hi.
Qed.

(** No two nodes share a file. *)
Lemma lines_distinct w n m : sites_wf w -> n < length (w_nodes w) -> m < length (w_nodes w) ->
  h_name (node_info w n) = h_name (node_info w m) -> config_line job w n = config_line job w m -> n = m.
Proof.
  intros (H1 & H2 & H3 & H4) Hn Hm Hname Hline. destruct (H1 n Hn) as [Hn1 Hn2], (H1 m Hm) as [Hm1 Hm2].
  assert (Hh : n_host (node_at w n) = n_host (node_at w m)) by by apply H4.
  apply H2; [done..|]. apply H3; [done..|]. unfold config_line, drbd_config_file_path, node_info, node_host in Hline.
  rewrite Hh in Hline. apply command_string_inj in Hline. injection Hline as Hline.
  apply sapp_inv, sapp_inv in Hline. apply (sapp_inv "/"), (sapp_inv job), (sapp_inv "-") in Hline. by apply sapp_inv_r in Hline.
Qed.

(** Commands for other nodes do not write the file. *)
Lemma frame_file P w w' m : heap_wf w -> frame job P w w' -> (forall n, P n -> n < length (w_nodes w)) ->
  m < length (w_nodes w) -> n_host (node_at w m) < length (w_hosts w) -> ~ P m ->
  file_of job w' m = file_of job w m.
Proof.
  intros (_ & Hsites) Hf HP Hm Hh Hn. destruct (frame_info _ _ _ _ Hf) as (_ & Hi & _ & Hc).
  unfold file_of. rewrite Hi, Hc. destruct (fr_log _ _ _ _ Hf) as (l & -> & Hl). rewrite last_written_app.
  apply written_skip. eapply Forall_impl; [exact Hl|]. clear l Hl. intros s Hs (H1 & H2 & Hin).
  destruct Hs as [(h & Hlt & [Hno|(H3 & args & H4)])|(n & Hn' & H3 & H4)].
  - done.
  - exfalso. assert (h = n_host (node_at w m)) as -> by (apply Hsites; [done|done|]; by rewrite <-H3, H1).
    unfold config_line in H2. rewrite H4 in H2. by apply command_string_inj in H2.
  - exfalso. apply Hn. assert (n = m) as <-; [|done]. apply (lines_distinct w); [done|by apply HP|done| |]; congruence.
Qed.

Lemma same_info_reads w w' m :
  w_resources w' = w_resources w -> (forall n, node_info w' n = node_info w n) ->
  n_resource (node_at w' m) = n_resource (node_at w m) -> n_port (node_at w' m) = n_port (node_at w m) ->
  fencing_mode (node_at w' m) = fencing_mode (node_at w m) ->
  (forall n, n ∈ items (r_nodes (resource_at w (n_resource (node_at w m)))) ->
    n_port (node_at w' n) = n_port (node_at w n) /\ n_id (node_at w' n) = n_id (node_at w n) /\
    n_disks (node_at w' n) = n_disks (node_at w n) /\
    forall v, v ∈ n_disks (node_at w n) -> volume_at w' v = volume_at w v) -> same_reads w w' m.
Proof.
  intros Hres Hi Hr Hp Hf Hn. split; try done. intros r. unfold r. unfold resource_at at 1. rewrite Hres.
  exists (r_nodes (resource_at w (n_resource (node_at w m)))), (num_volumes (resource_at w (n_resource (node_at w m)))),
    (forbidden_patterns (resource_at w (n_resource (node_at w m)))).
  unfold resource_at. by destruct (default _ _).
Qed.

(** Only the flags [config_changed] differ. *)
Definition marks (w w' : world) : Prop :=
  forall n, set_changed false (node_at w' n) = set_changed false (node_at w n).

Lemma marks_same_reads P w w' m : heap_wf w -> frame job P w w' -> marks w w' -> same_reads w w' m.
Proof.
  intros (Hwf & _) Hf Hm. destruct (frame_info _ _ _ _ Hf) as (_ & Hi & _ & _).
  apply same_info_reads; [apply (fr_resources _ _ _ _ Hf)|done|..].
  1: by apply (f_equal n_resource (Hm m)). 1: by apply (f_equal n_port (Hm m)). 1: by apply (f_equal fencing_mode (Hm m)).
  intros n Hn. split_and!; [by apply (f_equal n_port (Hm n))|by apply (f_equal n_id (Hm n))|by apply (f_equal n_disks (Hm n))|].
  intros v Hv. apply (fr_volume _ _ _ _ Hf). destruct (Hwf _ _ Hn) as (_ & _ & _ & _ & Hd). by apply Hd.
Qed.

Lemma kept_up_to_date w w' m : same_reads w w' m -> file_of job w' m = file_of job w m ->
  up_to_date g job w m -> up_to_date g job w' m.
Proof. intros Hs Hf (t & Ht & Ho). exists t. by rewrite Hf, (config_ext g w w' m Hs). Qed.

Lemma frame_belongs P w w' r n : frame job P w w' -> ~ P n \/ n_disks (node_at w' n) = n_disks (node_at w n) ->
  belongs w r n -> belongs w' r n.
Proof.
  intros Hf Hn (H1 & H2 & H3 & H4 & H5). destruct (frame_info _ _ _ _ Hf) as (_ & _ & Hl & _).
  destruct (fr_same _ _ _ _ Hf n) as [A B]. unfold belongs.
  rewrite A, B, Hl, (fr_length _ _ _ _ Hf), (fr_resources _ _ _ _ Hf). split_and!; try done.
  assert (n_disks (node_at w' n) = n_disks (node_at w n)) as -> by (destruct Hn; [by rewrite (fr_nodes _ _ _ _ Hf)|done]).
  intros v Hv. destruct (H5 v Hv) as [Hlt <-]. rewrite (fr_volume _ _ _ _ Hf) by done.
  split; [|done]. pose proof (fr_volumes _ _ _ _ Hf). lia.
Qed.

(** Files stay apart, since hosts and names of resources stay. *)
Lemma frame_heap_wf P w w' : heap_wf w -> frame job P w w' ->
  (forall n r, P n -> n ∈ items (r_nodes (resource_at w r)) -> belongs w' r n) ->
  (forall n, P n \/ ~ P n) -> heap_wf w'.
Proof.
  intros (H1 & H2) Hf HP HD. destruct (frame_info _ _ _ _ Hf) as (Hh & Hi & Hl & Hc). split.
  - intros r n Hn. unfold resource_at in Hn. rewrite (fr_resources _ _ _ _ Hf) in Hn.
    destruct (HD n) as [Hp|Hp]; [by apply HP|]. eapply frame_belongs; [exact Hf|by left|]. by apply H1.
  - destruct H2 as (S1 & S2 & S3 & S4). unfold sites_wf, resource_at. rewrite Hl, (fr_length _ _ _ _ Hf), (fr_resources _ _ _ _ Hf).
    split_and!; [|intros n m|exact S3|intros h k; rewrite !Hh; apply S4].
    + intros n Hn. destruct (fr_same _ _ _ _ Hf n) as [-> ->]. by apply S1.
    + destruct (fr_same _ _ _ _ Hf n) as [-> ->], (fr_same _ _ _ _ Hf m) as [-> ->]. apply S2.
Qed.

(** An operation on the nodes in [P] keeps the invariant if it leaves these
    marked or current, and changes nothing that the files of the others tell. *)
Lemma inv_frame P w w' : conf_inv g job w -> frame job P w w' ->
  (forall n, P n -> n < length (w_nodes w)) -> (forall n, P n \/ ~ P n) ->
  (forall n r, P n -> n ∈ items (r_nodes (resource_at w r)) -> belongs w' r n) ->
  (forall m, member w m -> ~ P m -> same_reads w w' m) ->
  (forall n, P n -> config_changed (node_at w' n) = true \/ up_to_date g job w' n) -> conf_inv g job w'.
Proof.
  intros [Hwf Hfr] Hf HP HD Hb Hs Hup. split; [by apply (frame_heap_wf P w)|].
  intros n [Hlt Hn] Hch. destruct (HD n) as [Hp|Hp]; [destruct (Hup n Hp); [congruence|done]|].
  rewrite (fr_nodes _ _ _ _ Hf) in Hch, Hn by done. unfold resource_at in Hn. rewrite (fr_resources _ _ _ _ Hf) in Hn.
  rewrite (fr_length _ _ _ _ Hf) in Hlt. destruct (proj1 Hwf _ _ Hn) as (_ & _ & _ & Hh & _).
  apply (kept_up_to_date w); [by apply Hs|by eapply frame_file|by apply Hfr].
Qed.

(** An operation that only rewrites the files of the nodes in [P] *)
Lemma inv_marks P w w' : conf_inv g job w -> frame job P w w' -> marks w w' ->
  (forall n, P n -> n < length (w_nodes w)) -> (forall n, P n \/ ~ P n) ->
  (forall n, P n -> config_changed (node_at w' n) = true \/ up_to_date g job w' n) -> conf_inv g job w'.
Proof.
  intros Hinv Hf Hm HP HD Hup. pose proof (proj1 Hinv) as Hwf. apply (inv_frame P w); try done.
  - intros n r Hn Hin. eapply frame_belongs; [exact Hf|right; apply (f_equal n_disks (Hm n))|]. by apply Hwf.
  - intros m _ _. by eapply marks_same_reads.
Qed.

(** An operation that changes nodes and volumes of the resource [r], and marks them *)
Lemma inv_touched r w w' : conf_inv g job w -> let P n := n ∈ items (r_nodes (resource_at w r)) in
  frame job P w w' -> (forall n, P n -> config_changed (node_at w' n) = true /\ belongs w' r n) -> conf_inv g job w'.
Proof.
  intros Hinv P Hf HP. pose proof (proj1 Hinv) as Hwf. destruct (frame_info _ _ _ _ Hf) as (_ & Hi & _ & _).
  assert (Hone : forall n s, P n -> n ∈ items (r_nodes (resource_at w s)) -> s = r).
  { intros n s Hn Hs. destruct (proj1 Hwf _ _ Hn) as (_ & _ & <- & _). by destruct (proj1 Hwf _ _ Hs) as (_ & _ & <- & _). }
  apply (inv_frame P w); [done..| | | | |].
  - intros n Hn. by apply (proj1 Hwf r n).
  - intros n. unfold P. destruct (decide (n ∈ items (r_nodes (resource_at w r)))); auto.
  - intros n s Hn Hs. rewrite (Hone n s Hn Hs). by apply HP.
  - intros n [_ Hn] Hp.
    assert (Hother : forall m, m ∈ items (r_nodes (resource_at w (n_resource (node_at w n)))) -> ~ P m).
    { intros m Hm Hpm. apply Hp. unfold P. by rewrite <-(Hone m _ Hpm Hm). }
    apply same_info_reads; try done; [apply (fr_resources _ _ _ _ Hf)|by rewrite (fr_nodes _ _ _ _ Hf)..|].
    intros m Hm. rewrite (fr_nodes _ _ _ _ Hf) by (by apply Hother). split_and!; [done..|].
    intros v Hv. apply (fr_volume _ _ _ _ Hf). destruct (proj1 Hwf _ _ Hm) as (_ & _ & _ & _ & Hd). by apply Hd.
  - intros n Hn. left. by apply HP.
Qed.
End inv.

(** ** Lemmas: what the operations write *)

Section writes.
Context `{SshServer} (g : globals) (job : string) (uuid5 : string -> string).

(** From [w0] on, only the nodes in [P] and the volumes made since then change. *)
Definition stays (P : nat -> Prop) (w0 : world) {A} (m : M world A) : Prop :=
  forall w, frame job P w0 w -> frame job P w0 (snd (m w)).

Lemma stays_bind {A B} P w0 (m : M world A) (f : A -> M world B) :
  stays P w0 m -> (forall a, stays P w0 (f a)) -> stays P w0 (m ≫= f).
Proof.
  intros Hm Hf w Hw. unfold mbind; simpl. specialize (Hm w Hw). destruct (m w) as [[a|e] w']; [|done]. by apply Hf.
Qed.
Lemma stays_gets {A} P w0 (f : world -> A) : stays P w0 (gets f).
Proof. by intros w Hw. Qed.
Lemma stays_ret {A} P w0 (a : A) : stays P w0 (mret a).
Proof. by intros w Hw. Qed.
Lemma stays_raise {A} P w0 e : stays P w0 (raise e : M world A).
Proof. by intros w Hw. Qed.
Lemma stays_when P w0 b m : stays P w0 m -> stays P w0 (when b m).
Proof. destruct b; [done|]. intros _. apply stays_ret. Qed.
Lemma stays_trans {A} P w0 (m : M world A) : (forall w, frame job P w0 w -> frame job P w (snd (m w))) -> stays P w0 m.
Proof. intros Hm w Hw. etransitivity; [exact Hw|]. by apply Hm. Qed.

Lemma stays_storage {A} P w0 (m : world -> M env A) h :
  h < length (w_hosts w0) -> (forall x, keeps (sends (storage_cmd (info (host_at w0 h)))) (m x)) ->
  forall x, stays P w0 (on_env (m x)).
Proof.
  intros Hh Hm x. apply stays_trans. intros w Hw. destruct (frame_info _ _ _ _ Hw) as (Hi & _ & Hl & _).
  apply (frame_on_env _ _ _ _ h); [by rewrite Hl|]. by rewrite Hi.
Qed.

Lemma stays_create_pool P w0 h thin gran : h < length (w_hosts w0) -> stays P w0 (host_create_storage_pool h thin gran).
Proof.
  intros Hh. apply stays_trans. intros w Hw. destruct (frame_info _ _ _ _ Hw) as (Hi & _ & Hl & _).
  unfold host_create_storage_pool, gets, raise. mred. destruct (storage_pool (host_at w h)); [reflexivity|].
  pose proof (frame_on_env job P w (create_storage_pool (info (host_at w h)) (storage_backend (host_at w h))
    (backing_device (host_at w h)) thin gran) h) as Hf. rewrite Hl in Hf. specialize (Hf Hh (sends_create_storage_pool _ _ _ _ _)).
  destruct (on_env _ w) as [[p|e] w1]; [|done]. etransitivity; [exact Hf|]. by apply frame_set_host.
Qed.

(** [update_config] writes at most the file of its node. *)
Lemma update_config_frame (P : nat -> Prop) n w : P n -> frame job P w (snd (update_config g job n w)).
Proof.
  intros HP. unfold update_config, get, when. mred. destruct (config_changed (node_at w n)); [|reflexivity].
  pose proof (frame_set_node job P n (set_changed false) w HP (fun x => conj eq_refl eq_refl)) as Hf.
  unfold set_node, modify in *. mred. cbn [snd] in Hf. etransitivity; [exact Hf|]. clear Hf. set (w1 := World _ _ _ _ _).
  unfold lift. destruct (config g w n) as [t|e]; [|reflexivity]. cbn [fst snd].
  assert (Hi : node_info w n = node_info w1 n /\ drbd_config_file_path job w n = drbd_config_file_path job w1 n).
  { assert (Hr : n_host (node_at w1 n) = n_host (node_at w n) /\ n_resource (node_at w1 n) = n_resource (node_at w n)).
    { unfold w1, node_at. cbn [w_nodes]. rewrite list_lookup_alter_eq. by destruct (w_nodes w !! n). }
    unfold node_info, node_host, drbd_config_file_path, node_info, node_host. by destruct Hr as [-> ->]. }
  destruct Hi as [-> ->]. unfold on_env, zoom. rewrite run_in_answer.
  split; try done. eexists [_]. split; [done|]. apply Forall_singleton. right. by exists n.
Qed.

(** When it succeeds, the file is up to date unless the node was not marked. *)
Lemma update_config_writes n w w' : heap_wf w -> n < length (w_nodes w) ->
  update_config g job n w = (Ok tt, w') -> w' = w /\ config_changed (node_at w n) = false \/ up_to_date g job w' n.
Proof.
  intros Hwf Hn Hu. pose proof (update_config_frame (eq n) n w eq_refl) as Hf. rewrite Hu in Hf. cbn [snd] in Hf.
  destruct (frame_info _ _ _ _ Hf) as (_ & Hi & _ & Hc).
  assert (Hm : marks w w').
  { pose proof (keeps_update_config g job n w) as Hk. rewrite Hu in Hk. cbn [snd] in Hk.
    intros m. by rewrite <-!core_node, Hk. }
  unfold update_config, get, when in Hu. revert Hu. mred. destruct (config_changed (node_at w n)); [|intros [= <-]; auto].
  intros Hu. right. unfold set_node, modify, lift in Hu. revert Hu. mred. set (w1 := World _ _ _ _ _).
  destruct (config g w n) as [t|e] eqn:Ht; [|done].
  unfold on_env, zoom. rewrite run_in_answer. cbn [fst snd].
  destruct (ssh _ _) as [[code out]|e] eqn:Hssh; [|done]. destruct (code =? 0)%Z eqn:Hcode; [|done]. intros [= <-].
  exists t. split; [rewrite <-Ht; apply config_ext; by eapply marks_same_reads|].
  unfold file_of. rewrite Hc, Hi. cbn [w_env]. unfold push. cbn [sent_log]. rewrite last_written_app. cbn [foldl].
  unfold written at 1. cbn [fst snd s_host s_command s_stdin]. rewrite decide_True by done. change (w_env w1) with (w_env w) in Hssh |- *. by rewrite Hssh, Hcode.
Qed.

Lemma stays_node_run (P : nat -> Prop) w0 n cmd : P n -> n_host (node_at w0 n) < length (w_hosts w0) ->
  stays P w0 (node_run g job n cmd).
Proof.
  intros HP Hh w Hw. unfold node_run, gets. mred.
  assert (Hu : frame job P w0 (snd (update_config g job n w))) by (etransitivity; [exact Hw|by apply update_config_frame]).
  destruct (update_config g job n w) as [[[]|e] w1]; [|done]. cbn [snd] in Hu.
  destruct (frame_info _ _ _ _ Hu) as (_ & Hi & _ & _). rewrite Hi.
  apply (stays_storage P w0 (fun _ => run (node_info w0 n) cmd) (n_host (node_at w0 n))); [done| |exact w|done].
  intros _. apply sends_run.
Qed.

(** Running commands keeps the files current, even if the command fails, as
    long as the file could be written. *)
Lemma node_run_keeps n cmd w : conf_inv g job w -> member w n ->
  is_ok (fst (update_config g job n w)) = true -> conf_inv g job (snd (node_run g job n cmd w)).
Proof.
  intros Hinv [Hn Hin] Hok. pose proof (proj1 Hinv) as Hwf. destruct (proj1 Hwf _ _ Hin) as (_ & _ & _ & Hh & _).
  assert (HD : forall m, n = m \/ n <> m) by (intros m; destruct (decide (n = m)); auto).
  unfold node_run, gets. mred. destruct (update_config g job n w) as [[[]|e] w1] eqn:Hu; [|done]. clear Hok.
  pose proof (update_config_frame (eq n) n w eq_refl) as Hf. pose proof (keeps_update_config g job n w) as Hk.
  rewrite Hu in Hf, Hk. cbn [snd] in Hf, Hk.
  assert (Hinv1 : conf_inv g job w1).
  { destruct (update_config_writes n w w1 Hwf Hn Hu) as [[-> Hch]|Hup]; [done|].
    apply (inv_marks g job (eq n) w); [done|done|intros m; by rewrite <-!core_node, Hk|by intros ? <-|done|].
    intros ? <-. by right. }
  pose proof (frame_on_env job (fun _ => False) w1 (run (node_info w1 n) cmd) (n_host (node_at w1 n))) as Hf1.
  pose proof (keeps_on_env (run (node_info w1 n) cmd) w1) as Ho.
  destruct (frame_info _ _ _ _ Hf) as (_ & _ & Hl & _). destruct (fr_same _ _ _ _ Hf n) as [Hhost _].
  apply (inv_marks g job (fun _ => False) w1); [done| | |done|auto|done].
  - apply Hf1; [by rewrite Hhost, Hl|]. apply sends_run.
  - intros m. unfold node_at. by destruct Ho as (_ & -> & _).
Qed.
Lemma node_run_inv n cmd w w' : conf_inv g job w -> member w n ->
  node_run g job n cmd w = (Ok tt, w') -> conf_inv g job w'.
Proof.
  intros Hinv Hm Hr. pose proof (node_run_keeps n cmd w Hinv Hm) as Hk. rewrite Hr in Hk. apply Hk.
  revert Hr. unfold node_run. mred. by destruct (update_config g job n w) as [[[]|e] w1].
Qed.

Lemma drbdadm_runs n cmd w : drbdadm g job n cmd w =
  node_run g job n (["drbdadm"; "-c"; drbd_global_config_file_path job (node_info w n); "-v"] ++ cmd) w.
Proof. done. Qed.
Lemma drbdadm_inv n cmd w w' : conf_inv g job w -> member w n ->
  drbdadm g job n cmd w = (Ok tt, w') -> conf_inv g job w'.
Proof. rewrite drbdadm_runs. apply node_run_inv. Qed.

(** *** Adding disks *)

Lemma stays_set_volume P w0 v f : length (w_volumes w0) <= v -> stays P w0 (set_volume v f).
Proof. intros Hv w Hw. by apply frame_set_volume. Qed.

Lemma stays_volume_create_disk P w0 v suffix size ms a : stays P w0 (volume_create_disk uuid5 v suffix size ms a).
Proof.
  apply stays_trans. intros w _. unfold volume_create_disk, get. mred. set (h := n_host _).
  destruct (storage_pool (host_at w h)) as [p|] eqn:Hp; [|reflexivity].
  assert (Hh : h < length (w_hosts w)).
  { destruct (w_hosts w !! h) eqn:Hx; [by eapply lookup_lt_Some|]. unfold host_at in Hp. by rewrite Hx in Hp. }
  apply (frame_on_env _ _ _ _ h Hh). apply sends_create_disk.
Qed.

Lemma stays_create_disks P w0 v size a : length (w_volumes w0) <= v -> stays P w0 (create_disks uuid5 v size a).
Proof.
  intros Hv. unfold create_disks. apply stays_bind; [apply stays_volume_create_disk|intros d].
  apply stays_bind; [by apply stays_set_volume|intros _]. apply stays_when.
  apply stays_bind; [apply stays_volume_create_disk|intros d']. by apply stays_set_volume.
Qed.

(** [volume_init] returns a volume that is new since [w0]. *)
Lemma stays_volume_init {B} P w0 n vnr minor (f : nat -> M world B) :
  (forall v, length (w_volumes w0) <= v -> stays P w0 (f v)) -> stays P w0 (volume_init n vnr minor ≫= f).
Proof.
  intros Hf w Hw.
  assert (Hm : exists v w1, volume_init n vnr minor w = (Ok v, w1) /\ frame job P w0 w1 /\ length (w_volumes w0) <= v).
  { unfold volume_init. destruct minor as [m|].
    - mred. do 2 eexists. split; [reflexivity|]. split; [|by apply (fr_volumes _ _ _ _ Hw)].
      etransitivity; [exact Hw|]. apply (frame_new_volume job P (NewVolume vnr m n None None None) w).
    - unfold gets, next_minor, set_host, modify, gets. mred. do 2 eexists. split; [reflexivity|].
      split; [|cbn [w_volumes]; by apply (fr_volumes _ _ _ _ Hw)].
      set (w1 := World _ (alter _ _ _) _ _ _). etransitivity; [exact Hw|]. transitivity w1.
      + apply (frame_set_host job P (n_host (node_at w n)) (fun x => set_minors (S (minors x)) x) w). done.
      + apply (frame_new_volume job P _ w1). }
  destruct Hm as (v & w1 & Hi & Hw1 & Hv). unfold mbind; simpl. rewrite Hi. by apply Hf.
Qed.

Lemma stays_node_add_disk w0 n vnr size a :
  n_host (node_at w0 n) < length (w_hosts w0) -> stays (eq n) w0 (node_add_disk g job uuid5 n vnr size a).
Proof.
  intros Hh. unfold node_add_disk. apply stays_bind; [apply stays_gets|intros x].
  intros w Hw. unfold gets at 1. mred. revert w Hw.
  enough (Hs : forall h, h = n_host (node_at w0 n) -> stays (eq n) w0 (
    when (bool_decide (storage_pool x = None)) (host_create_storage_pool h false None) ;;;
    let* disks := gets (fun w => n_disks (node_at w n)) in
    let* minor := gets (fun w => (fun v => v_minor (volume_at w v)) <$> disks !! vnr) in
    let* v := volume_init n vnr minor in
    match size with
    | Some size => create_disks uuid5 v size a ;;;
        when (zero_out a) (let* d := gets (fun w => disk (volume_at w v)) in
          node_run g job n ["blkdiscard"; "-z"; default "None" d])
    | None => mret tt
    end ;;;
    set_node n (fun x => set_changed true
      (set_disks (if decide (length (n_disks x) <= vnr) then n_disks x ++ [v] else <[vnr := v]> (n_disks x)) x)) ;;;
    mret v)) by (intros w Hw; apply (Hs (n_host (node_at w n))); [apply (fr_same _ _ _ _ Hw n)|done]).
  intros h ->. apply stays_bind; [apply stays_when; by apply stays_create_pool|intros _].
  do 2 (apply stays_bind; [apply stays_gets|intros ?]). apply stays_volume_init. intros v Hv.
  apply stays_bind; [|intros _; apply stays_bind; [|intros _; apply stays_ret]].
  - destruct size; [|apply stays_ret]. apply stays_bind; [by apply stays_create_disks|intros _].
    apply stays_when, stays_bind; [apply stays_gets|intros ?]. by apply stays_node_run.
  - apply stays_trans. intros w _. by apply frame_set_node.
Qed.

(** [Node.add_disk] marks the node. *)
Lemma node_add_disk_marks n vnr size a w v w' : n < length (w_nodes w) ->
  n_host (node_at w n) < length (w_hosts w) ->
  node_add_disk g job uuid5 n vnr size a w = (Ok v, w') -> config_changed (node_at w' n) = true.
Proof.
  intros Hn Hh Ha. pose proof (stays_node_add_disk w n vnr size a Hh w (reflexivity w)) as Hf. rewrite Ha in Hf.
  apply (fr_length job) in Hf. cbn [snd] in Hf. revert Ha. unfold node_add_disk, gets. mred.
  destruct (when _ _ w) as [[[]|e] w1]; [|done]. destruct (volume_init _ _ _ w1) as [[u|e] w2]; [|done].
  match goal with |- (match ?m with _ => _ end) = _ -> _ => destruct m as [[[]|e] w3]; [|done] end.
  unfold set_node, modify. intros [= <- <-]. cbn [w_nodes] in Hf. rewrite length_alter in Hf.
  unfold node_at. cbn [w_nodes]. rewrite list_lookup_alter_eq.
  destruct (lookup_lt_is_Some_2 (w_nodes w3) n) as [x ->]; [lia|done].
Qed.

Lemma node_add_disk_belongs r n vnr size a w v w' : belongs w r n ->
  node_add_disk g job uuid5 n vnr size a w = (Ok v, w') -> belongs w' r n.
Proof.
  intros (H1 & H2 & H3 & H4 & H5) Ha. pose proof (stays_node_add_disk w n vnr size a H4 w (reflexivity w)) as Hf.
  rewrite Ha in Hf. cbn [snd] in Hf. destruct (frame_info _ _ _ _ Hf) as (_ & _ & Hl & _).
  destruct (fr_same _ _ _ _ Hf n) as [A B].
  pose proof (node_add_disk_core g job uuid5 n vnr size a w H4) as Hc. unfold ok_or, wp in Hc. rewrite Ha in Hc.
  destruct Hc as [-> Hc].
  assert (Hlv : forall w, length (w_volumes w) = length (w_volumes (core w))) by (intros; unfold core; cbn [w_volumes]; by rewrite length_map).
  assert (Hv : forall u, v_node (volume_at w' u) = v_node (volume_at (core w') u)) by (intros u; by rewrite core_volume).
  assert (Hd : n_disks (node_at w' n) = n_disks (node_at (core w') n)) by (by rewrite core_node).
  unfold belongs. rewrite A, B, Hl, (fr_length _ _ _ _ Hf), (fr_resources _ _ _ _ Hf). split_and!; try done.
  assert (Hn : n < length (w_nodes (core w))) by (unfold core; cbn [w_nodes]; by rewrite length_map).
  destruct (core_add_disk_disks vnr (core w) n Hn) as [D1 D2]. rewrite Hd, Hc. rewrite Hc in Hv.
  rewrite D1, (Hlv w'), Hc, core_node. cbn [n_disks set_changed]. intros u Hu.
  assert (length (w_volumes (core_add_disk vnr (core w) n)) = S (length (w_volumes w))) as ->.
  { unfold core_add_disk. cbn [w_volumes]. rewrite length_app, <-Hlv. simpl. lia. }
  rewrite <-Hlv in Hu. assert (Hin : u = length (w_volumes w) \/ u ∈ n_disks (node_at w n)).
  { destruct (decide _) in Hu; [apply elem_of_app in Hu as [Hu|Hu]; [by right|left; by apply list_elem_of_singleton in Hu]|].
    apply list_elem_of_lookup in Hu as [i Hu]. apply list_lookup_insert_Some in Hu as [(_ & <- & _)|(_ & Hu)]; [by left|].
    right. by eapply list_elem_of_lookup_2. }
  rewrite Hv. destruct Hin as [->|Hin].
  - rewrite (Hlv w), D2. cbn [v_node]. rewrite <-Hlv. split; [lia|done].
  - destruct (H5 u Hin) as [Hlt Hnode]. destruct (core_add_disk_frame vnr (core w) n) as (_ & _ & _ & _ & _ & F6).
    rewrite F6 by (by rewrite <-Hlv). rewrite core_volume. split; [lia|done].
Qed.

(** One node of [Resource.add_disk]: the loop's state after it *)
Definition disks_added (r : nat) (w0 : world) (visited : list nat) (vs : list (list nat)) (w : world) : Prop :=
  let ns := items (r_nodes (resource_at w0 r)) in
  frame job (fun n => n ∈ ns) w0 w /\ (forall n, n ∈ ns -> belongs w r n) /\
  (forall n, n ∈ visited -> config_changed (node_at w n) = true) /\
  forall v, v ∈ concat vs -> v < length (w_volumes w) /\ v_node (volume_at w v) ∈ ns.

Lemma disks_added_step r w0 visited vs n vnr size a w v w' diskful :
  n ∈ items (r_nodes (resource_at w0 r)) -> disks_added r w0 visited vs w ->
  node_add_disk g job uuid5 n vnr size a w = (Ok v, w') ->
  disks_added r w0 (visited ++ [n]) (vs ++ [if diskful : bool then [v] else []]) w'.
Proof.
  intros Hn (Hf & Hb & Hc & Hv) Ha. destruct (Hb n Hn) as (B1 & B2 & B3 & B4 & B5).
  pose proof (stays_node_add_disk w n vnr size a B4 w (reflexivity w)) as Hf1. rewrite Ha in Hf1. cbn [snd] in Hf1.
  pose proof (node_add_disk_core g job uuid5 n vnr size a w B4) as Hcore. unfold ok_or, wp in Hcore. rewrite Ha in Hcore.
  destruct Hcore as [Hvl Hcore]. split_and!.
  - etransitivity; [exact Hf|]. destruct Hf1 as [F1 F2 F3 F4 F5 F6 F7 (l & F8 & F9)]. split; try done.
    + intros m Hm. apply F4. by intros <-.
    + exists l. split; [done|]. eapply Forall_impl; [exact F9|]. intros s [Hs|(m & <- & Hs)]; [by left|]. right. by exists n.
  - intros m Hm. destruct (decide (n = m)) as [<-|Hne]; [by eapply node_add_disk_belongs; [apply Hb|]|].
    eapply frame_belongs; [exact Hf1|by left|by apply Hb].
  - intros m [Hm| ->%list_elem_of_singleton]%elem_of_app; [|by eapply node_add_disk_marks].
    destruct (decide (n = m)) as [<-|Hne]; [by eapply node_add_disk_marks|].
    rewrite (fr_nodes _ _ _ _ Hf1) by done. by apply Hc.
  - assert (Hnode : v_node (volume_at w' v) = n /\ v < length (w_volumes w')).
    { assert (Hn' : n < length (w_nodes (core w))) by (unfold core; cbn [w_nodes]; by rewrite length_map).
      destruct (core_add_disk_disks vnr (core w) n Hn') as [_ D2].
      assert (Hl : length (w_volumes (core w)) = v) by (unfold core; cbn [w_volumes]; by rewrite length_map).
      pose proof (core_volume w' v) as Hcv. rewrite Hcore, <-Hl, D2 in Hcv.
      split; [by apply (f_equal v_node) in Hcv; rewrite <-Hl|].
      assert (length (w_volumes w') = length (w_volumes (core w'))) as -> by (unfold core; cbn [w_volumes]; by rewrite length_map).
      rewrite Hcore. unfold core_add_disk. cbn [w_volumes]. rewrite length_app, Hl. simpl. lia. }
    intros u Hu. rewrite concat_app in Hu. apply elem_of_app in Hu as [Hu|Hu].
    + destruct (Hv u Hu) as [Hlt Hin]. rewrite (fr_volume _ _ _ _ Hf1) by done.
      split; [pose proof (fr_volumes _ _ _ _ Hf1); lia|done].
    + assert (u = v) as -> by (destruct diskful; [by apply list_elem_of_singleton in Hu|by apply elem_of_nil in Hu]).
      destruct Hnode as [-> ?]. done.
Qed.

Lemma volume_create_md_inv v mp bbs f w w' : conf_inv g job w -> member w (v_node (volume_at w v)) ->
  volume_create_md g job v mp bbs f w = (Ok tt, w') -> conf_inv g job w'.
Proof.
  intros Hinv Hm Hr. set (n := v_node (volume_at w v)) in *. pose proof Hm as [Hn Hin].
  destruct (proj1 (proj1 Hinv) _ _ Hin) as (_ & _ & _ & Hh & _).
  unfold volume_create_md, get in Hr. revert Hr. mred. fold n.
  set (m := create_md _ _ _ _ _ _). pose proof (frame_on_env job (fun _ => False) w m (n_host (node_at w n)) Hh) as Hf.
  pose proof (keeps_on_env m w) as Ho. specialize (Hf (sends_create_md _ _ _ _ _ _)).
  destruct (on_env m w) as [[args|e] w1]; [|done]. cbn [snd] in Hf, Ho. destruct Ho as (_ & Hnodes & _ & Hres).
  intros Hr. assert (Hn' : forall k, node_at w1 k = node_at w k) by (intros k; unfold node_at; by rewrite Hnodes).
  eapply (drbdadm_inv n args w1); [|split|exact Hr].
  - apply (inv_marks g job (fun _ => False) w); [done|exact Hf|intros k; by rewrite Hn'|done|auto|done].
  - by rewrite Hnodes.
  - rewrite Hn'. unfold resource_at. by rewrite Hres.
Qed.
End writes.

(** ** Lemmas: changes of the objects of one resource *)

Record quiet (r : nat) (w w' : world) : Prop := Quiet {
  q_env : w_env w' = w_env w;
  q_hosts : w_hosts w' = w_hosts w;
  q_lengths : length (w_nodes w') = length (w_nodes w) /\ length (w_volumes w') = length (w_volumes w) /\
    length (w_resources w') = length (w_resources w);
  q_node : forall n, n_host (node_at w' n) = n_host (node_at w n) /\
    n_resource (node_at w' n) = n_resource (node_at w n) /\ n_disks (node_at w' n) = n_disks (node_at w n);
  q_other : forall n, n_resource (node_at w n) <> r -> node_at w' n = node_at w n;
  q_vnode : forall v, v_node (volume_at w' v) = v_node (volume_at w v);
  q_volume : forall v, n_resource (node_at w (v_node (volume_at w v))) <> r -> volume_at w' v = volume_at w v;
  q_resource : forall s, s <> r -> resource_at w' s = resource_at w s;
  q_name : r_name (resource_at w' r) = r_name (resource_at w r)
}.

#[export] Instance quiet_preorder r : PreOrder (quiet r).
Proof.
  split; [by intros w; split|]. intros w1 w2 w3 [A1 A2 (A3 & A4 & A5) A6 A7 A8 A9 A10 A11] [B1 B2 (B3 & B4 & B5) B6 B7 B8 B9 B10 B11].
  split; try congruence.
  - split_and!; congruence.
  - intros n. destruct (A6 n) as (?&?&?), (B6 n) as (?&?&?). split_and!; congruence.
  - intros n Hn. rewrite B7, A7; [done|done|]. by destruct (A6 n) as (_ & -> & _).
  - intros v Hv. rewrite B9, A9; [done|done|]. rewrite A8. by destruct (A6 (v_node (volume_at w1 v))) as (_ & -> & _).
  - intros s Hs. by rewrite B10, A10.
Qed.

Lemma node_at_set_node n f w m : node_at (snd (set_node n f w)) m =
  if decide (m = n /\ n < length (w_nodes w)) then f (node_at w m) else node_at w m.
Proof.
  unfold node_at, set_node, modify. cbn [snd w_nodes]. destruct (decide (m = n)) as [->|Hne].
  - rewrite list_lookup_alter_eq. destruct (w_nodes w !! n) as [x|] eqn:Hx.
    + by rewrite decide_True by (split; [done|by eapply lookup_lt_Some]).
    + rewrite decide_False; [done|]. apply lookup_ge_None in Hx. lia.
  - rewrite list_lookup_alter_ne by done. by rewrite decide_False by naive_solver.
Qed.

Lemma quiet_set_node n f w r : n_resource (node_at w n) = r ->
  (forall x, n_host (f x) = n_host x /\ n_resource (f x) = n_resource x /\ n_disks (f x) = n_disks x) ->
  quiet r w (snd (set_node n f w)).
Proof.
  intros Hr Hf. split; try done.
  - unfold set_node, modify. cbn [snd w_nodes w_volumes w_resources]. by rewrite length_alter.
  - intros m. rewrite node_at_set_node. by destruct (decide _).
  - intros m Hm. rewrite node_at_set_node, decide_False; [done|]. by intros [-> _].
Qed.

Lemma quiet_set_resource r f w : (forall x, r_name (f x) = r_name x) -> quiet r w (snd (set_resource r f w)).
Proof.
  intros Hf. unfold set_resource, modify. split; try done; cbn [snd w_nodes w_volumes w_resources].
  - by rewrite length_alter.
  - intros s Hs. unfold resource_at. cbn [w_resources]. by rewrite list_lookup_alter_ne.
  - unfold resource_at. cbn [w_resources]. rewrite list_lookup_alter_eq. destruct (w_resources w !! r); [apply Hf|done].
Qed.

Lemma quiet_set_volume v f w : (forall x, v_node (f x) = v_node x) ->
  quiet (n_resource (node_at w (v_node (volume_at w v)))) w (snd (set_volume v f w)).
Proof.
  intros Hf. unfold set_volume, modify. split; try done; cbn [snd w_nodes w_volumes w_resources].
  - by rewrite length_alter.
  - intros u. unfold volume_at. cbn [w_volumes]. destruct (decide (u = v)) as [->|Hne]; [|by rewrite list_lookup_alter_ne].
    rewrite list_lookup_alter_eq. destruct (w_volumes w !! v); [apply Hf|done].
  - intros u Hu. unfold volume_at. cbn [w_volumes]. rewrite list_lookup_alter_ne; [done|]. by intros ->.
Qed.

(** A loop over nodes that marks each *)
Lemma mark_all r (f : node -> node) l w :
  (forall x, n_host (f x) = n_host x /\ n_resource (f x) = n_resource x /\ n_disks (f x) = n_disks x) ->
  (forall x, config_changed (f x) = true) ->
  (forall n, n ∈ l -> n < length (w_nodes w) /\ n_resource (node_at w n) = r) ->
  exists w', for_each l (fun n => set_node n f) w = (Ok tt, w') /\ quiet r w w' /\ w_resources w' = w_resources w /\
    forall n, n ∈ l \/ config_changed (node_at w n) = true -> config_changed (node_at w' n) = true.
Proof.
  intros Hf Hc. revert w. induction l as [|n l IH]; intros w Hl.
  { exists w. split_and!; [done|reflexivity|done|]. by intros n [?%elem_of_nil|?]. }
  destruct (Hl n) as [Hn Hr]; [by left|]. pose proof (quiet_set_node n f w r Hr Hf) as Hq.
  assert (Hn1 : forall m, m = n \/ config_changed (node_at w m) = true ->
    config_changed (node_at (snd (set_node n f w)) m) = true).
  { intros m Hm. rewrite node_at_set_node. destruct (decide _) as [|Hd]; [apply Hc|]. by destruct Hm as [->|]; [destruct Hd|]. }
  destruct (IH (snd (set_node n f w))) as (w' & He & Hq' & Hres & Hm).
  { intros m Hin. destruct (q_node _ _ _ Hq m) as (_ & -> & _). destruct (q_lengths _ _ _ Hq) as (-> & _).
    apply Hl. by right. }
  exists w'. split_and!; [done|by etransitivity|by rewrite Hres|].
  intros m [[->|Hin]%elem_of_cons|Hch]; apply Hm; [right; apply Hn1; by left|by left|right; apply Hn1; by right].
Qed.

Section quiet_inv.
Context `{SshServer} (g : globals) (job : string).

Lemma quiet_info r w w' : quiet r w w' ->
  (forall n, node_info w' n = node_info w n) /\ (forall n, config_line job w' n = config_line job w n) /\
  forall s n, belongs w s n -> belongs w' s n.
Proof.
  intros [A1 A2 (A3 & A4 & A5) A6 A7 A8 A9 A10 A11].
  assert (Hi : forall n, node_info w' n = node_info w n).
  { intros n. unfold node_info, node_host, host_at. rewrite A2. by destruct (A6 n) as (-> & _). }
  split_and!; [done| |].
  - intros n. unfold config_line, drbd_config_file_path. rewrite Hi. destruct (A6 n) as (_ & -> & _).
    destruct (decide (n_resource (node_at w n) = r)) as [->|Hne]; [by rewrite A11|by rewrite A10].
  - intros s n (B1 & B2 & B3 & B4 & B5). unfold belongs. destruct (A6 n) as (-> & -> & ->).
    rewrite A2, A3, A4, A5. split_and!; try done. intros v Hv. rewrite A8. by apply B5.
Qed.

Lemma inv_quiet r w w' : conf_inv g job w -> quiet r w w' ->
  (forall n, n ∈ items (r_nodes (resource_at w' r)) -> belongs w r n /\ config_changed (node_at w' n) = true) ->
  conf_inv g job w'.
Proof.
  intros [(H1 & S1 & S2 & S3 & S4) Hfr] Hq Hr. destruct (quiet_info r w w' Hq) as (Hi & Hc & Hb).
  pose proof Hq as [A1 A2 (A3 & A4 & A5) A6 A7 A8 A9 A10 A11]. split; [split|].
  - intros s n Hn. apply Hb. destruct (decide (s = r)) as [->|Hne]; [by apply Hr|]. apply H1. by rewrite <-A10.
  - assert (Hn : forall s, r_name (resource_at w' s) = r_name (resource_at w s)).
    { intros s. destruct (decide (s = r)) as [->|Hne]; [done|by rewrite A10]. }
    unfold sites_wf, host_at. rewrite A2, A3, A5. split_and!; [| |intros s s'; rewrite !Hn; apply S3|exact S4].
    + intros n. destruct (A6 n) as (-> & -> & _). apply S1.
    + intros n m. destruct (A6 n) as (-> & -> & _), (A6 m) as (-> & -> & _). apply S2.
  - intros m [Hm Hin] Hch. destruct (A6 m) as (Ah & Ar & Ad). rewrite Ar in Hin.
    destruct (decide (n_resource (node_at w m) = r)) as [Heq|Hne]; [rewrite Heq in Hin; destruct (Hr m Hin); congruence|].
    rewrite A10 in Hin by done. rewrite A7 in Hch by done. rewrite A3 in Hm.
    apply (kept_up_to_date g job w); [|unfold file_of; by rewrite Hi, Hc, A1|by apply Hfr].
    assert (Hnodes : forall n, n ∈ items (r_nodes (resource_at w (n_resource (node_at w m)))) -> n_resource (node_at w n) <> r).
    { intros n Hn. by destruct (H1 _ _ Hn) as (_ & _ & -> & _). }
    split; try done; [by rewrite A7..| |].
    + cbv zeta. rewrite A10 by done.
      exists (r_nodes (resource_at w (n_resource (node_at w m)))), (num_volumes (resource_at w (n_resource (node_at w m)))),
        (forbidden_patterns (resource_at w (n_resource (node_at w m)))). split; [|done]. by destruct (resource_at w (n_resource (node_at w m))).
    + intros n Hn. rewrite A7 by (by apply Hnodes). split_and!; [done..|]. intros v Hv. apply A9.
      destruct (H1 _ _ Hn) as (_ & _ & _ & _ & Hd). destruct (Hd v Hv) as [_ ->]. by apply Hnodes.
Qed.
End quiet_inv.

(** ** Every operation keeps the invariant *)

Inductive conf_op :=
| OpCreate (name : string) (transport : option string) (tls : string)
| OpRun (n : nat) (cmd : list string)
| OpDrbdadm (n : nat) (cmd : list string)
| OpOptions (r : nat) (net disk res handlers : string)
| OpFencing (n : nat) (mode : string)
| OpFencingAll (r : nat) (mode : string)
| OpTiebreaker (v : nat) (b : option bool)
| OpAddNode (r n : nat)
| OpRemoveNode (r n : nat)
| OpAddDisk (r : nat) (size : string) (diskful_nodes : option (list nat)) (max_peers : option Z)
    (bitmap_block_sizes : list (nat * Z)) (a : disk_args) (f : md_flags).

Section operations.
Context `{SshServer} (g : globals) (job : string) (uuid5 : string -> string).

Definition conf_step (o : conf_op) : M world unit :=
  match o with
  | OpCreate name tr tls => create_resource name tr tls ;;; mret tt
  | OpRun n cmd => node_run g job n cmd
  | OpDrbdadm n cmd => drbdadm g job n cmd
  | OpOptions r net disk res handlers => set_options r net disk res handlers
  | OpFencing n mode => set_fencing_mode n mode
  | OpFencingAll r mode => resource_set_fencing_mode r mode
  | OpTiebreaker v b => set_tiebreaker v b
  | OpAddNode r n => add_node r n
  | OpRemoveNode r n => remove_node r n
  | OpAddDisk r size dn mp bbs a f => add_disk g job uuid5 r size dn mp bbs a f ;;; mret tt
  end.

(** The names of resources differ; nodes are asked to run commands while they are
    in their resource, and are added to the resource they were made for. *)
Definition conf_guard (o : conf_op) (w : world) : Prop :=
  match o with
  | OpCreate name _ _ => forall r, r < length (w_resources w) -> r_name (resource_at w r) <> name
  | OpRun n _ | OpDrbdadm n _ | OpFencing n _ => member w n
  | OpAddNode r n => belongs w r n
  | _ => True
  end.

(** A run of operations that succeed, and of commands that fail on the node
    once its file is written *)
Inductive conf_runs : list conf_op -> world -> world -> Prop :=
| conf_runs_nil w : conf_runs [] w w
| conf_runs_failed n cmd ops w w2 : conf_guard (OpRun n cmd) w -> is_ok (fst (update_config g job n w)) = true ->
    conf_runs ops (snd (node_run g job n cmd w)) w2 -> conf_runs (OpRun n cmd :: ops) w w2
| conf_runs_drbdadm_failed n cmd ops w w2 : conf_guard (OpDrbdadm n cmd) w -> is_ok (fst (update_config g job n w)) = true ->
    conf_runs ops (snd (drbdadm g job n cmd w)) w2 -> conf_runs (OpDrbdadm n cmd :: ops) w w2
| conf_runs_cons o ops w w1 w2 : conf_guard o w -> conf_step o w = (Ok tt, w1) -> conf_runs ops w1 w2 ->
    conf_runs (o :: ops) w w2.

(** Touching the configuration of a resource after a change of its objects *)
Lemma touch_inv r w w1 w' : conf_inv g job w -> quiet r w w1 ->
  (forall n, n ∈ items (r_nodes (resource_at w1 r)) -> belongs w r n) ->
  touch_config r w1 = (Ok tt, w') -> conf_inv g job w'.
Proof.
  intros Hinv Hq Hb. unfold touch_config, gets. mred.
  change (elems (r_nodes (resource_at w1 r))) with (items (r_nodes (resource_at w1 r))).
  destruct (mark_all r (set_changed true) (items (r_nodes (resource_at w1 r))) w1) as (w2 & He & Hq2 & Hres & Hm).
  - done.
  - done.
  - intros n Hn. destruct (Hb n Hn) as (_ & B2 & B3 & _). destruct (q_node _ _ _ Hq n) as (_ & -> & _).
    by destruct (q_lengths _ _ _ Hq) as (-> & _).
  - rewrite He. intros [= <-]. apply (inv_quiet g job r w); [done|by etransitivity|].
    unfold resource_at. rewrite Hres. intros n Hn. split; [by apply Hb|]. apply Hm. by left.
Qed.

Lemma set_options_inv r net disk res handlers w w' : conf_inv g job w ->
  set_options r net disk res handlers w = (Ok tt, w') -> conf_inv g job w'.
Proof.
  intros Hinv Hr. pose proof (quiet_set_resource r (set_r_options net disk res handlers) w (fun x => eq_refl)) as Hq.
  unfold set_options in Hr. unfold set_resource, modify in *. revert Hr. mred. cbn [snd] in Hq. apply (touch_inv r w); [done|done|].
  intros n. unfold resource_at. cbn [w_resources]. rewrite list_lookup_alter_eq.
  intros Hn. apply (proj1 (proj1 Hinv) r). unfold resource_at. by destruct (w_resources w !! r).
Qed.

Lemma set_fencing_inv n mode w w' : conf_inv g job w -> member w n ->
  set_fencing_mode n mode w = (Ok tt, w') -> conf_inv g job w'.
Proof.
  intros Hinv [Hn Hin] Hr. unfold set_fencing_mode in Hr.
  pose proof (node_at_set_node n (fun x => set_changed true (set_fencing mode x)) w) as Ha.
  assert (Hf : frame job (eq n) w (snd (set_node n (fun x => set_changed true (set_fencing mode x)) w))) by by apply frame_set_node.
  rewrite Hr in Ha, Hf. cbn [snd] in Ha, Hf.
  assert (Hd : forall m, n_port (node_at w' m) = n_port (node_at w m) /\ n_id (node_at w' m) = n_id (node_at w m) /\
    n_disks (node_at w' m) = n_disks (node_at w m)) by (intros m; rewrite Ha; by destruct (decide _)).
  apply (inv_frame g job (eq n) w); [done|done|by intros ? <-|intros m; destruct (decide (n = m)); auto| | |].
  - intros m r _ Hm. eapply frame_belongs; [exact Hf|right; apply Hd|]. by apply (proj1 Hinv).
  - intros m [_ Hm] Hne. destruct (frame_info _ _ _ _ Hf) as (_ & Hi & _).
    apply same_info_reads; try done; [apply (fr_resources _ _ _ _ Hf)|by rewrite (fr_nodes _ _ _ _ Hf)..|].
    intros k Hk. destruct (Hd k) as (? & ? & ?). split_and!; [done..|]. intros v Hv. apply (fr_volume _ _ _ _ Hf).
    destruct (proj1 (proj1 Hinv) _ _ Hk) as (_ & _ & _ & _ & Hdisks). by apply Hdisks.
  - intros m <-. left. rewrite Ha, decide_True by done. done.
Qed.

Lemma fencing_all_inv r mode w w' : conf_inv g job w -> resource_set_fencing_mode r mode w = (Ok tt, w') -> conf_inv g job w'.
Proof.
  intros Hinv. unfold resource_set_fencing_mode, gets, set_fencing_mode. mred.
  change (elems (r_nodes (resource_at w r))) with (items (r_nodes (resource_at w r))).
  assert (Hb : forall n, n ∈ items (r_nodes (resource_at w r)) -> belongs w r n) by apply (proj1 (proj1 Hinv)).
  destruct (mark_all r (fun x => set_changed true (set_fencing mode x)) (items (r_nodes (resource_at w r))) w)
    as (w2 & He & Hq2 & Hres & Hm); [done|done|by intros n (_ & ? & ? & _)%Hb|].
  rewrite He. intros [= <-]. apply (inv_quiet g job r w); [done|done|].
  unfold resource_at. rewrite Hres. intros n Hn. split; [by apply Hb|]. apply Hm. by left.
Qed.

Lemma set_tiebreaker_inv v b w w' : conf_inv g job w -> set_tiebreaker v b w = (Ok tt, w') -> conf_inv g job w'.
Proof.
  intros Hinv Hr. pose proof (quiet_set_volume v (set_v_tiebreaker b) w (fun x => eq_refl)) as Hq.
  unfold set_tiebreaker, set_volume, modify, gets in *. revert Hr. mred. cbn [snd] in Hq.
  set (w1 := World _ _ _ _ _) in *. pose proof (q_vnode _ _ _ Hq v) as ->.
  destruct (q_node _ _ _ Hq (v_node (volume_at w v))) as (_ & -> & _). apply (touch_inv _ w); [done|done|].
  intros n Hn. by apply (proj1 (proj1 Hinv)).
Qed.

(** The nodes of [r] change, and nothing else. *)
Lemma change_nodes_quiet r s w : quiet r w (snd (set_resource r (set_r_nodes s) w)) /\
  forall n, n ∈ items (r_nodes (resource_at (snd (set_resource r (set_r_nodes s) w)) r)) ->
    r < length (w_resources w) /\ n ∈ items s.
Proof.
  split; [by apply quiet_set_resource|]. intros n. unfold resource_at, set_resource, modify. cbn [snd w_resources].
  rewrite list_lookup_alter_eq. destruct (w_resources w !! r) as [x|] eqn:Hx; [|by intros ?%elem_of_nil].
  intros Hn. split; [by eapply lookup_lt_Some|done].
Qed.

Lemma add_node_inv r n w w' : conf_inv g job w -> belongs w r n -> add_node r n w = (Ok tt, w') -> conf_inv g job w'.
Proof.
  intros Hinv Hb. unfold add_node, add_to_nodes. mred. unfold coll_add, gets, py_assert, modify. mred.
  match goal with |- context [same_resource ?x ?y ?z] => destruct (same_resource x y z) end; [|by cbn]. cbn.
  set (s := snd (os_add n (r_nodes (resource_at w r)))). destruct (change_nodes_quiet r s w) as [Hq Hn].
  change (touch_config r (snd (set_resource r (set_r_nodes s) w)) = (Ok tt, w') -> conf_inv g job w').
  apply (touch_inv r w); [done|done|]. intros m Hm. apply Hn in Hm as [_ Hm]. unfold s in Hm. cbn in Hm. unfold os_add in Hm. cbn [snd] in Hm.
  destruct (os_contains _ _); [by apply (proj1 (proj1 Hinv))|]. cbn [items] in Hm.
  apply elem_of_app in Hm as [Hm| ->%list_elem_of_singleton]; [by apply (proj1 (proj1 Hinv))|done].
Qed.

Lemma list_remove_subset {A} `{EqDecision A} (x : A) l l' y : list_remove x l = Some l' -> y ∈ l' -> y ∈ l.
Proof.
  revert l'. induction l as [|z l IH]; intros l'; [done|]. simpl. case_decide as Hz; [intros [= <-]; by right|].
  destruct (list_remove x l) as [l1|]; [|done]. intros [= <-] [->|Hy]%elem_of_cons; [by left|right; by eapply IH].
Qed.

Lemma remove_node_inv r n w w' : conf_inv g job w -> remove_node r n w = (Ok tt, w') -> conf_inv g job w'.
Proof.
  intros Hinv. unfold remove_node. mred. unfold coll_remove, gets, py_assert, when. mred.
  match goal with |- context [same_resource ?x ?y ?z] => destruct (same_resource x y z) end; [|by cbn].
  cbn beta iota. set (m := if osContains _ _ then _ else _).
  destruct (m (r_nodes (resource_at w r))) as [[[]|e] s] eqn:Hs; [|by cbn].
  destruct (change_nodes_quiet r s w) as [Hq Hn].
  change (touch_config r (snd (set_resource r (set_r_nodes s) w)) = (Ok tt, w') -> conf_inv g job w').
  apply (touch_inv r w); [done|done|]. intros k Hk. apply Hn in Hk as [_ Hk]. apply (proj1 (proj1 Hinv)).
  unfold m in Hs. clear m. change (osContains n (r_nodes (resource_at w r))) with (os_contains n (r_nodes (resource_at w r))) in Hs.
  destruct (os_contains n (r_nodes (resource_at w r))) eqn:Ho; [|by injection Hs as <-].
  change (os_remove n (r_nodes (resource_at w r)) = (Ok tt, s)) in Hs. unfold os_remove in Hs. rewrite Ho in Hs.
  injection Hs as <-. unfold os_discard in Hk. cbn [items] in Hk.
  destruct (list_remove n (items (r_nodes (resource_at w r)))) as [l|] eqn:Hl; [|done]. by eapply list_remove_subset.
Qed.

(** [Resource.add_disk]: first every node is marked, then some get metadata. *)
Lemma next_volume_inv r w : conf_inv g job w -> exists w1, next_volume r w = (Ok (num_volumes (resource_at w r)), w1) /\
  conf_inv g job w1 /\ w_nodes w1 = w_nodes w /\ r_nodes (resource_at w1 r) = r_nodes (resource_at w r).
Proof.
  intros [(H1 & S1 & S2 & S3 & S4) Hfr]. unfold next_volume, gets. mred.
  set (k := S (num_volumes (resource_at w r))). pose proof (quiet_set_resource r (set_num_volumes k) w (fun x => eq_refl)) as Hq.
  assert (Hx : forall s, exists k', resource_at (snd (set_resource r (set_num_volumes k) w)) s =
    set_num_volumes k' (resource_at w s)).
  { intros s. unfold resource_at, set_resource, modify. cbn [snd w_resources]. destruct (decide (s = r)) as [->|Hne].
    - rewrite list_lookup_alter_eq. destruct (w_resources w !! r); [by exists k|by exists 0].
    - rewrite list_lookup_alter_ne by done. exists (num_volumes (default no_resource (w_resources w !! s))). by destruct (default _ _). }
  destruct (quiet_info job _ _ _ Hq) as (Hi & Hc & Hb). unfold set_resource, modify in *. cbn [snd] in *.
  set (w1 := World _ _ _ _ _) in *. exists w1.
  assert (Hrn : forall s, r_nodes (resource_at w1 s) = r_nodes (resource_at w s)) by (intros s; by destruct (Hx s) as [k' ->]).
  split_and!; [done| |done|done]. split; [split|].
  - intros s n Hn. apply Hb, H1. by rewrite <-Hrn.
  - unfold sites_wf. replace (length (w_resources w1)) with (length (w_resources w)) by (cbn [w1 w_resources]; by rewrite length_alter).
    split_and!; [exact S1|exact S2| |exact S4]. intros s s'. destruct (Hx s) as [k1 ->], (Hx s') as [k2 ->]. apply S3.
  - intros m [Hm Hin] Hch. rewrite Hrn in Hin. apply (kept_up_to_date g job w); [|unfold file_of; by rewrite Hi, Hc|by apply Hfr].
    split; try done. cbv zeta. destruct (Hx (n_resource (node_at w m))) as [k' ->].
    by exists (r_nodes (resource_at w (n_resource (node_at w m)))), k', (forbidden_patterns (resource_at w (n_resource (node_at w m)))).
Qed.

(** The loop of the metadata *)
Lemma create_md_loop vs mp bbs f w w' : conf_inv g job w ->
  (forall v, v ∈ vs -> member w (v_node (volume_at w v))) ->
  for_each vs (fun v => let* n := gets (fun w => v_node (volume_at w v)) in
    volume_create_md g job v mp (d_get n bbs) f) w = (Ok tt, w') -> conf_inv g job w'.
Proof.
  revert w. induction vs as [|v vs IH]; intros w Hinv Hvs; [by intros [= <-]|]. cbn [for_each]. unfold gets. mred.
  destruct (volume_create_md g job v mp (d_get (v_node (volume_at w v)) bbs) f w) as [[[]|e] w1] eqn:Hv; [|done].
  pose proof (keeps_volume_create_md g job v mp (d_get (v_node (volume_at w v)) bbs) f w) as Hk. rewrite Hv in Hk. cbn [snd] in Hk.
  apply IH; [eapply volume_create_md_inv; [exact Hinv|apply Hvs; by left|exact Hv]|].
  intros u Hu. destruct (Hvs u) as [Hn Hin]; [by right|].
  assert (Hvn : v_node (volume_at w1 u) = v_node (volume_at w u)).
  { pose proof (core_volume w1 u) as C1. pose proof (core_volume w u) as C2. rewrite Hk in C1. rewrite C1 in C2.
    by apply (f_equal v_node) in C2. }
  assert (Hnr : n_resource (node_at w1 (v_node (volume_at w u))) = n_resource (node_at w (v_node (volume_at w u)))).
  { pose proof (core_node w1 (v_node (volume_at w u))) as C1. rewrite Hk, core_node in C1. by apply (f_equal n_resource) in C1. }
  unfold member. rewrite Hvn, Hnr. split.
  - pose proof (f_equal (fun w => length (w_nodes w)) Hk) as Hl. unfold core in Hl. cbn [w_nodes] in Hl.
    rewrite !length_map in Hl. by rewrite Hl.
  - unfold resource_at. by rewrite (f_equal w_resources Hk : w_resources w1 = w_resources w).
Qed.

(** The loop over the nodes *)
Lemma add_disk_nodes r vnr size (dn : option (list nat)) a w : conf_inv g job w ->
  let ns := items (r_nodes (resource_at w r)) in
  wp (map_each ns (fun n =>
    if match dn with Some l => bool_decide (n ∈ l) | None => true end then
      let* v := node_add_disk g job uuid5 n vnr (Some size) a in mret [v]
    else let* _ := node_add_disk g job uuid5 n vnr None (DiskArgs None None None None false) in mret []))
    (fun vs w' => disks_added job r w ns vs w') (fun _ _ => True) w.
Proof.
  intros Hinv ns. apply (wp_map_each_with ns _ (disks_added job r w)).
  - split_and!; [reflexivity|by apply (proj1 (proj1 Hinv))|by intros n ?%elem_of_nil|by intros v ?%elem_of_nil].
  - intros visited vs n todo w1 Heq Hd. assert (Hn : n ∈ ns) by (rewrite Heq; set_solver).
    destruct (match dn with Some l => bool_decide (n ∈ l) | None => true end); unfold wp; mred.
    + destruct (node_add_disk _ _ _ _ _ _ _ w1) as [[v|e] w2] eqn:Ha; [|done].
      by refine (disks_added_step g job uuid5 r w visited vs n vnr _ _ w1 v w2 true Hn Hd Ha).
    + destruct (node_add_disk _ _ _ _ _ _ _ w1) as [[v|e] w2] eqn:Ha; [|done].
      by refine (disks_added_step g job uuid5 r w visited vs n vnr _ _ w1 v w2 false Hn Hd Ha).
Qed.

Lemma add_disk_inv r size dn mp bbs a f k w w' : conf_inv g job w ->
  add_disk g job uuid5 r size dn mp bbs a f w = (Ok k, w') -> conf_inv g job w'.
Proof.
  intros Hinv. destruct (next_volume_inv r w Hinv) as (w1 & Hn & Hinv1 & _ & Hr1). unfold add_disk. mred. rewrite Hn.
  unfold gets at 1. generalize (num_volumes (resource_at w r)) as vnr. intros vnr.
  change (elems (r_nodes (resource_at w1 r))) with (items (r_nodes (resource_at w1 r))). clear w Hinv Hn Hr1.
  pose proof (add_disk_nodes r vnr size dn a w1 Hinv1) as Hl. cbv zeta in Hl. unfold wp in Hl. mred.
  destruct (map_each _ _ w1) as [[vs|e] w2]; [|done]. destruct Hl as (Hf & Hb & Hc & Hv).
  assert (Hinv2 : conf_inv g job w2) by (apply (inv_touched g job r w1); [done|exact Hf|intros n Hn; auto]).
  destruct (for_each (concat vs) _ w2) as [[[]|e] w3] eqn:He; [|done]. intros [= <- <-].
  eapply create_md_loop; [exact Hinv2| |exact He]. intros v Hin. destruct (Hv v Hin) as [_ Hn].
  destruct (Hb _ Hn) as (_ & B2 & B3 & _). split; [done|]. rewrite B3. unfold resource_at. by rewrite (fr_resources _ _ _ _ Hf).
Qed.

(** *** Creating a resource *)

(** Only commands without input are sent. *)
Definition no_input (w w' : world) : Prop := sends (fun s => s_stdin s = None) (w_env w) (w_env w').
#[local] Instance no_input_preorder : PreOrder no_input.
Proof. split; [intros w; unfold no_input; reflexivity|]. intros a b c. unfold no_input. by transitivity (w_env b). Qed.

Lemma no_input_same {A} (m : M world A) : (forall w, w_env (snd (m w)) = w_env w) -> keeps no_input m.
Proof. intros Hm w. unfold no_input. rewrite Hm. reflexivity. Qed.

Lemma no_input_init_node h port : keeps no_input (init_node h port).
Proof.
  unfold init_node. apply keeps_bind; [exact _|by apply no_input_same|intros x]. apply keeps_when; [exact _|].
  intros w. unfold on_env, zoom. rewrite run_answer. eexists [_]. split; [done|]. by apply Forall_singleton.
Qed.

Lemma create_no_input name tr tls : keeps no_input (create_resource name tr tls).
Proof.
  unfold create_resource. apply keeps_bind; [exact _|by apply no_input_same|intros r].
  apply keeps_bind; [exact _|by apply no_input_same|intros hs]. apply keeps_bind; [exact _| |intros _].
  - apply keeps_for_each; [exact _|]. intros h _. apply keeps_bind; [exact _|by apply no_input_same|intros port].
    unfold node_init. apply keeps_bind; [exact _|by apply no_input_same|intros k].
    apply keeps_bind; [exact _|by apply no_input_same|intros n].
    apply keeps_bind; [exact _|apply no_input_same|intros _; apply no_input_init_node].
    intros w. unfold add_to_nodes. by destruct (coll_add _ _ _).
  - apply keeps_bind; [exact _|by apply no_input_same|intros ns]. apply keeps_bind; [exact _| |intros _; by apply no_input_same].
    do 2 (apply keeps_for_each; [exact _|]; intros ? _). case_decide; [by apply no_input_same|].
    apply no_input_same. intros w. unfold add_connection. destruct (new_connection _ _ _); [|done]. by destruct (coll_add _ _ _).
Qed.

(** What [create_resource] leaves and what it adds *)
Record created (name : string) (w w' : world) : Prop := Created {
  cr_info : forall h, info (host_at w' h) = info (host_at w h);
  cr_hosts : length (w_hosts w') = length (w_hosts w);
  cr_volumes : w_volumes w' = w_volumes w;
  cr_resources : length (w_resources w') = S (length (w_resources w));
  cr_nodes : length (w_nodes w') = length (w_nodes w) + length (w_hosts w);
  cr_old : forall s, s < length (w_resources w) -> resource_at w' s = resource_at w s;
  cr_name : r_name (resource_at w' (length (w_resources w))) = name;
  cr_members : items (r_nodes (resource_at w' (length (w_resources w)))) = seq (length (w_nodes w)) (length (w_hosts w));
  cr_old_node : forall n, n < length (w_nodes w) -> node_at w' n = node_at w n;
  cr_new_node : forall i, i < length (w_hosts w) ->
    exists c, node_at w' (length (w_nodes w) + i) = set_connections c (fresh_node w i)
}.

Lemma create_resource_created name tr tls r w w' :
  create_resource name tr tls w = (Ok r, w') -> r = length (w_resources w) /\ created name w w'.
Proof.
  intros Hc. pose proof (create_resource_objects w name tr tls) as Ho. unfold ok_or, wp in Ho. rewrite Hc in Ho.
  destruct Ho as [-> Hm]. split; [done|]. destruct (meshed_length _ _ _ _ _ _ Hm) as [Hln Hlh].
  pose proof Hm as (Hh & Hv & (s & Hr & Hg & He) & _).
  assert (Hnew : resource_at w' (length (w_resources w)) = fresh_resource name tr tls s).
  { unfold resource_at. by rewrite Hr, lookup_app_r, Nat.sub_diag. }
  split; try done.
  - intros h. unfold host_at. rewrite Hh. unfold ports_taken. rewrite list_lookup_imap.
    destruct (w_hosts w !! h); [|done]. cbn. by destruct (decide _).
  - rewrite Hr, length_app. simpl. lia.
  - intros s' Hs. unfold resource_at. by rewrite Hr, lookup_app_l.
  - by rewrite Hnew.
  - by rewrite Hnew.
  - intros n Hn. by eapply meshed_old_node.
  - intros i Hi. destruct (meshed_node _ _ _ _ _ _ i Hm Hi) as (c & Hn & _). by exists c.
Qed.

Lemma created_node name w w' n : created name w w' -> n < length (w_nodes w') ->
  (n < length (w_nodes w) /\ node_at w' n = node_at w n) \/
  (length (w_nodes w) <= n /\ n_host (node_at w' n) = n - length (w_nodes w) /\ n - length (w_nodes w) < length (w_hosts w) /\
   n_resource (node_at w' n) = length (w_resources w) /\ n_disks (node_at w' n) = [] /\ config_changed (node_at w' n) = true).
Proof.
  intros Hc Hn. destruct (decide (n < length (w_nodes w))) as [Hlt|Hge]; [left; split; [done|by apply (cr_old_node _ _ _ Hc)]|right].
  rewrite (cr_nodes _ _ _ Hc) in Hn. destruct (cr_new_node _ _ _ Hc (n - length (w_nodes w))) as [c Hx]; [lia|].
  replace (length (w_nodes w) + (n - length (w_nodes w))) with n in Hx by lia. rewrite Hx. cbn. split_and!; lia || done.
Qed.

Lemma created_sites name w w' : created name w w' -> sites_wf w ->
  (forall s, s < length (w_resources w) -> r_name (resource_at w s) <> name) -> sites_wf w'.
Proof.
  intros Hc (S1 & S2 & S3 & S4) Hname. unfold sites_wf. rewrite (cr_hosts _ _ _ Hc), (cr_resources _ _ _ Hc). split_and!.
  - intros n Hn. destruct (created_node _ _ _ n Hc Hn) as [[Hlt ->]|(_ & -> & ? & -> & _)]; [|lia].
    destruct (S1 n Hlt). lia.
  - intros n m Hn Hm. destruct (created_node _ _ _ n Hc Hn) as [[Hn1 ->]|(Hn1 & -> & Hn2 & -> & _)],
      (created_node _ _ _ m Hc Hm) as [[Hm1 ->]|(Hm1 & -> & Hm2 & -> & _)].
    + by apply S2.
    + intros _ Heq. destruct (S1 n Hn1). lia.
    + intros _ Heq. destruct (S1 m Hm1). lia.
    + lia.
  - assert (Hx : forall s, s < S (length (w_resources w)) -> s = length (w_resources w) \/ s < length (w_resources w)) by lia.
    intros s t [->|Hs]%Hx [->|Ht]%Hx; rewrite ?(cr_name _ _ _ Hc), ?(cr_old _ _ _ Hc) by done.
    + done.
    + intros Heq. by destruct (Hname t).
    + intros Heq. by destruct (Hname s).
    + by apply S3.
  - intros h k. rewrite !(cr_info _ _ _ Hc). apply S4.
Qed.

Lemma created_belongs name w w' : created name w w' ->
  (forall r n, n ∈ items (r_nodes (resource_at w r)) -> belongs w r n) ->
  forall r n, n ∈ items (r_nodes (resource_at w' r)) -> belongs w' r n.
Proof.
  intros Hc H1 r n. unfold belongs. rewrite (cr_hosts _ _ _ Hc), (cr_resources _ _ _ Hc).
  destruct (decide (r < length (w_resources w))) as [Hr|Hr].
  - rewrite (cr_old _ _ _ Hc) by done. intros Hn. destruct (H1 r n Hn) as (B1 & B2 & B3 & B4 & B5).
    rewrite (cr_old_node _ _ _ Hc) by done. split_and!; [lia|rewrite (cr_nodes _ _ _ Hc); lia|done|done|].
    intros v Hv. unfold volume_at. rewrite (cr_volumes _ _ _ Hc). by apply B5.
  - destruct (decide (r = length (w_resources w))) as [->|Hne].
    + rewrite (cr_members _ _ _ Hc). intros Hn%elem_of_seq. rewrite (cr_nodes _ _ _ Hc).
      destruct (created_node _ _ _ n Hc) as [[? _]|(_ & -> & ? & -> & -> & _)]; [rewrite (cr_nodes _ _ _ Hc); lia|lia|].
      split_and!; try lia. by intros v ?%elem_of_nil.
    + intros Hn. unfold resource_at in Hn. rewrite lookup_ge_None_2 in Hn by (rewrite (cr_resources _ _ _ Hc); lia).
      by apply elem_of_nil in Hn.
Qed.

Lemma create_resource_inv name tr tls r w w' : conf_inv g job w ->
  (forall s, s < length (w_resources w) -> r_name (resource_at w s) <> name) ->
  create_resource name tr tls w = (Ok r, w') -> conf_inv g job w'.
Proof.
  intros [(H1 & Hsites) Hfr] Hname Hr. destruct (create_resource_created _ _ _ _ _ _ Hr) as [-> Hc].
  pose proof (create_no_input name tr tls w) as Hlog. rewrite Hr in Hlog. destruct Hlog as (l & Hl & Hplain). cbn [snd] in Hl.
  split; [split; [by eapply created_belongs|by eapply created_sites]|].
  intros m [Hm Hin] Hch. destruct (created_node _ _ _ m Hc Hm) as [[Hlt Hn]|(_ & _ & _ & _ & _ & ?)]; [|congruence].
  rewrite Hn in Hin, Hch. destruct (proj1 Hsites m Hlt) as [Hhost Hres]. rewrite (cr_old _ _ _ Hc) in Hin by done.
  assert (Hi : forall n, n < length (w_nodes w) -> node_info w' n = node_info w n).
  { intros n Hn'. unfold node_info, node_host. rewrite (cr_old_node _ _ _ Hc) by done. apply (cr_info _ _ _ Hc). }
  assert (Hline : config_line job w' m = config_line job w m).
  { unfold config_line, drbd_config_file_path. by rewrite Hi, Hn, (cr_old _ _ _ Hc). }
  apply (kept_up_to_date g job w); [| |apply Hfr; done].
  - assert (Hb : forall n, n ∈ items (r_nodes (resource_at w (n_resource (node_at w m)))) ->
      n < length (w_nodes w) /\ forall v, v ∈ n_disks (node_at w n) -> v_node (volume_at w v) = n).
    { intros n Hk. destruct (H1 _ _ Hk) as (_ & ? & _ & _ & Hd). split; [done|]. intros v Hv. by apply Hd. }
    split; try (by rewrite Hn).
    + intros n [->|[Hk|(k & v & Hk & Hv & ->)]]; apply Hi; [done|by apply Hb|]. by rewrite (proj2 (Hb k Hk) v Hv); apply Hb.
    + cbv zeta. rewrite (cr_old _ _ _ Hc) by done.
      exists (r_nodes (resource_at w (n_resource (node_at w m)))), (num_volumes (resource_at w (n_resource (node_at w m)))),
        (forbidden_patterns (resource_at w (n_resource (node_at w m)))). split; [|done]. by destruct (resource_at w (n_resource (node_at w m))).
    + intros n Hk. rewrite (cr_old_node _ _ _ Hc) by (by apply Hb). split_and!; try done.
      intros v _. unfold volume_at. by rewrite (cr_volumes _ _ _ Hc).
  - unfold file_of. rewrite Hline, Hi, Hl by done. rewrite last_written_app. apply written_skip.
    eapply Forall_impl; [exact Hplain|]. by intros s Hs (_ & _ & ?).
Qed.

Lemma conf_step_inv o w w' : conf_inv g job w -> conf_guard o w -> conf_step o w = (Ok tt, w') -> conf_inv g job w'.
Proof.
  intros Hinv Hg. destruct o; cbn [conf_step conf_guard] in *; mred.
  - destruct (create_resource name transport tls w) as [[r|e] w1] eqn:Hc; [|done]. intros [= <-]. by eapply create_resource_inv.
  - by apply node_run_inv.
  - by apply drbdadm_inv.
  - by apply set_options_inv.
  - by apply set_fencing_inv.
  - by apply fencing_all_inv.
  - by apply set_tiebreaker_inv.
  - by apply add_node_inv.
  - by apply remove_node_inv.
  - destruct (add_disk g job uuid5 r size diskful_nodes max_peers bitmap_block_sizes a f w) as [[k|e] w1] eqn:Ha; [|done].
    intros [= <-]. by eapply add_disk_inv.
Qed.

Lemma conf_runs_inv ops w w' : conf_runs ops w w' -> conf_inv g job w -> conf_inv g job w'.
Proof.
  induction 1 as [|n cmd ops w w2 Hg Hu _ IH|n cmd ops w w2 Hg Hu _ IH|o ops w w1 w2 Hg Hs _ IH]; [done|..]; intros Hinv; apply IH.
  - by apply node_run_keeps.
  - rewrite drbdadm_runs. by apply node_run_keeps.
  - by eapply conf_step_inv.
Qed.
End operations.

(** A cluster before its first resource *)
Definition only_hosts (w : world) : Prop :=
  w_nodes w = [] /\ w_resources w = [] /\ NoDup (map (fun x => h_name (info x)) (w_hosts w)).

Lemma only_hosts_inv `{SshServer} g job w : only_hosts w -> conf_inv g job w.
Proof.
  intros (Hn & Hr & Hd). assert (Hnone : forall r, items (r_nodes (resource_at w r)) = []) by (intros r; unfold resource_at; by rewrite Hr).
  split; [split; [|split_and!]|].
  - intros r n. rewrite Hnone. by intros ?%elem_of_nil.
  - rewrite Hn. simpl. lia.
  - rewrite Hn. simpl. lia.
  - rewrite Hr. simpl. lia.
  - intros h k Hh Hk Heq. apply (NoDup_lookup _ h k (h_name (info (host_at w h))) Hd); rewrite list_lookup_fmap.
    + unfold host_at. by destruct (lookup_lt_is_Some_2 _ _ Hh) as [x ->].
    + rewrite Heq. unfold host_at. by destruct (lookup_lt_is_Some_2 _ _ Hk) as [x ->].
  - intros m [Hm _]. rewrite Hn in Hm. simpl in Hm. lia.
Qed.

Section properties.
Context `{SshServer} (g : globals) (job : string) (uuid5 : string -> string).

(** C3: starting from hosts without resources, through any run of the modelled
    operations that succeed ([create_resource], commands on nodes, [drbdadm], the
    options, fencing, the tiebreaker, [add_node], [remove_node] and
    [Resource.add_disk]; a command may also fail on its node once the file is
    written), the file last written to a node of a resource is what [config]
    would generate now, unless the node is marked: these operations set the
    marks of [touch_config] wherever they have to be. *)
Theorem configuration_files_stay_current ops w0 w n :
  only_hosts w0 -> conf_runs g job uuid5 ops w0 w -> member w n -> config_changed (node_at w n) = false ->
  exists t, config g w n = Ok t /\ file_of job w n = Some t.
Proof. intros H0 Hr Hn Hc. by apply (conf_runs_inv g job uuid5 ops w0 w Hr (only_hosts_inv g job w0 H0)). Qed.

(** C16: when a command of drbdadm succeeds on a node after any such run, it
    has found the current configuration in the node's file: before the command
    itself is sent, which is the last one sent, the file has been written as
    [config] generates it. *)
Theorem drbdadm_sees_the_current_configuration ops w0 w n cmd w' :
  only_hosts w0 -> conf_runs g job uuid5 ops w0 w -> member w n -> drbdadm g job n cmd w = (Ok tt, w') ->
  let x := node_info w n in
  exists t log, config g w n = Ok t /\ last_written (h_name x) (config_line job w n) log = Some t /\
    sent_log (w_env w') = log ++ [sent_run x (["drbdadm"; "-c"; drbd_global_config_file_path job x; "-v"] ++ cmd)].
Proof.
  intros H0 Hr [Hn Hin] Hd x. pose proof (conf_runs_inv g job uuid5 ops w0 w Hr (only_hosts_inv g job w0 H0)) as [Hwf Hfr].
  unfold drbdadm, node_run, gets in Hd. revert Hd. mred. destruct (update_config g job n w) as [[[]|e] w1] eqn:Hu; [|done].
  pose proof (update_config_frame g job (eq n) n w eq_refl) as Hf. pose proof (keeps_update_config g job n w) as Hk.
  rewrite Hu in Hf, Hk. cbn [snd] in Hf, Hk. destruct (frame_info _ _ _ _ Hf) as (_ & Hi & _ & Hl). rewrite (Hi n). fold x.
  assert (Hup : up_to_date g job w1 n).
  { destruct (update_config_writes g job n w w1 Hwf Hn Hu) as [[-> Hch]|Hup]; [by apply Hfr|done]. }
  destruct Hup as (t & Ht & Hfile). unfold file_of in Hfile. rewrite Hi, Hl in Hfile. fold x in Hfile.
  assert (Hsr : same_reads w w1 n) by (eapply marks_same_reads; [done|exact Hf|intros m; by rewrite <-!core_node, Hk]).
  rewrite (config_ext g w w1 n Hsr) in Ht. unfold on_env, zoom. rewrite run_answer. intros Hd. exists t, (sent_log (w_env w1)).
  split_and!; [done|done|]. injection Hd as _ <-. done.
Qed.

(** [update_config] clears the mark before it generates and writes the file.
    When either fails, the mark is lost: the next command on the node is run
    at once, with whatever the file held before. *)
Theorem failed_configuration_is_not_retried n w e w1 cmd :
  n < length (w_nodes w) -> update_config g job n w = (Raise e, w1) ->
  config_changed (node_at w1 n) = false /\ node_run g job n cmd w1 = on_env (run (node_info w1 n) cmd) w1.
Proof.
  intros Hn Hu. assert (Hch : config_changed (node_at w1 n) = false).
  { unfold update_config, get, when in Hu. revert Hu. mred. destruct (config_changed (node_at w n)); [|done].
    pose proof (node_at_set_node n (set_changed false) w n) as Ha. rewrite decide_True in Ha by done.
    unfold set_node, modify, lift in *. mred. cbn [snd] in Ha. destruct (config g w n) as [t|e']; intros Hu.
    - pose proof (keeps_on_env (run_in (node_info w n) ["bash"; "-c"; "cat > " +:+ drbd_config_file_path job w n] t)
        (World (w_env w) (w_hosts w) (alter (set_changed false) n (w_nodes w)) (w_volumes w) (w_resources w))) as (_ & Hs & _).
      cbn [fst snd] in Hu. rewrite Hu in Hs. cbn [snd w_nodes] in Hs. unfold node_at in *. cbn [w_nodes] in Ha. by rewrite Hs, Ha.
    - injection Hu as _ <-. by rewrite Ha. }
  split; [done|]. unfold node_run, update_config, get, when, gets. mred. by rewrite Hch.
Qed.
End properties.

(** ** Witnesses *)

#[local] Instance calm_server : SshServer := fun _ _ => Ok (0%Z, EmptyString).
Definition demo_flags : md_flags := MdFlags None false false false false.
Definition demo_ops : list conf_op :=
  [OpCreate "r" None "no"; OpOptions 0 "verify-alg crc32c;" EmptyString EmptyString EmptyString;
   OpAddDisk 0 "10M" (Some [0]) None [] demo_args demo_flags; OpCreate "s" None "no"; OpDrbdadm 1 ["adjust"; "all"];
   OpRemoveNode 0 1; OpAddNode 0 1; OpFencing 1 "resource-only"; OpDrbdadm 0 ["adjust"; "all"]].
(** The state a run of operations ends in *)
Definition state_after (ops : list conf_op) : world :=
  foldl (fun w o => snd (conf_step demo_globals "job" (fun s => s) o w)) demo_cluster ops.

Lemma demo_only_hosts : only_hosts demo_cluster.
Proof. split_and!; [done|done|]. cbn. by repeat constructor; set_solver. Qed.

Fixpoint all_fine (ops : list conf_op) (w : world) : Prop :=
  match ops with
  | [] => True
  | o :: ops => conf_guard o w /\ fst (conf_step demo_globals "job" (fun s => s) o w) = Ok tt /\
      all_fine ops (snd (conf_step demo_globals "job" (fun s => s) o w))
  end.
Lemma fine_runs ops w : all_fine ops w -> conf_runs demo_globals "job" (fun s => s) ops w
  (foldl (fun w o => snd (conf_step demo_globals "job" (fun s => s) o w)) w ops).
Proof.
  revert w. induction ops as [|o ops IH]; intros w; [constructor|]. intros (Hg & Hs & Hf).
  eapply conf_runs_cons; [done| |by apply IH].
  by rewrite (surjective_pairing (conf_step demo_globals "job" (fun s => s) o w)), Hs at 1.
Qed.

Ltac solve_guard :=
  first
    [ exact I
    | by intros [|[|r]] Hr; vm_compute in Hr |- *; [done|lia..]
    | by intros r Hr; vm_compute in Hr; lia
    | by split; [vm_compute; lia|vm_compute; set_solver]
    | split_and!; vm_compute; try lia; try done; intros [|[|v]] Hv; vm_compute in Hv; set_solver ].

Lemma demo_runs : conf_runs demo_globals "job" (fun s => s) demo_ops demo_cluster (state_after demo_ops).
Proof. apply fine_runs. repeat (split; [solve_guard|split; [vm_compute; reflexivity|]]). exact I. Qed.

Lemma configuration_files_stay_current_witness :
  let w := state_after demo_ops in
  config_changed (node_at w 1) = true /\
  exists t, config demo_globals w 0 = Ok t /\ file_of "job" w 0 = Some t.
Proof.
  intros w. split; [vm_compute; reflexivity|].
  apply (configuration_files_stay_current demo_globals "job" (fun s => s) demo_ops demo_cluster w 0).
  - apply demo_only_hosts.
  - apply demo_runs.
  - split; [vm_compute; lia|]. vm_compute. set_solver.
  - vm_compute. reflexivity.
Defined.

Lemma drbdadm_sees_the_current_configuration_witness :
  let w := state_after demo_ops in
  exists t log, config demo_globals w 1 = Ok t /\
    last_written (h_name (node_info w 1)) (config_line "job" w 1) log = Some t /\
    sent_log (w_env (snd (drbdadm demo_globals "job" 1 ["up"; "r"] w))) =
      log ++ [sent_run (node_info w 1) (["drbdadm"; "-c"; drbd_global_config_file_path "job" (node_info w 1); "-v"] ++ ["up"; "r"])].
Proof.
  intros w. eapply (drbdadm_sees_the_current_configuration demo_globals "job" (fun s => s) demo_ops demo_cluster w 1 ["up"; "r"]).
  - apply demo_only_hosts.
  - apply demo_runs.
  - split; [vm_compute; lia|]. vm_compute. set_solver.
  - vm_compute. reflexivity.
Defined.

(** A handler with a percent sign makes [config] fail. *)
Lemma failed_configuration_is_not_retried_witness :
  let w := demo_config_world "fence-peer %s;" in
  exists w1, config_changed (node_at w1 0) = false /\
    node_run demo_globals "job" 0 ["true"] w1 = on_env (run (node_info w1 0) ["true"]) w1.
Proof.
  intros w. eexists. eapply (failed_configuration_is_not_retried demo_globals "job" 0 w).
  - vm_compute. lia.
  - vm_compute. reflexivity.
Defined.

(** [Node.add_disk] called for one node, as some tests do, marks this node only;
    the file of the other node is out of date and not marked. *)
Example add_disk_on_one_node :
  let o n := OpDrbdadm n ["up"; "r"] in
  let w := state_after [OpCreate "r" None "no"; o 0; o 1] in
  let w' := snd (node_add_disk demo_globals "job" (fun s => s) 0 0 (Some "10M") demo_args w) in
  up_to_date demo_globals "job" w 1 /\ config_changed (node_at w' 1) = false /\
  file_of "job" w' 1 = file_of "job" w 1 /\ config demo_globals w' 1 <> config demo_globals w 1.
Proof.
  cbv zeta. split_and!; [by eexists; split; vm_compute; reflexivity|by vm_compute..|]. by vm_compute.
Qed.
