(* ===== verification/Tls.v ===== *)
(** * Certificates for kernel TLS (src/python/tls.py)

    A certificate authority for the test, a key and a certificate for every
    host, and the files of the handshake service.  The library OpenSSL is not
    part of the repository: keys and the text of keys and certificates are the
    interface [Crypto].  Dates are those of the module datetime. *)

From S2P Require Import Prelude PyStr Dict Host ConfigFiles.

(** ** Dates

    A [datetime] is the number of seconds since the beginning of the year 1,
    in the time zone it was taken in; microseconds do not reach the text. *)

Definition is_leap (y : Z) : bool := (y mod 4 =? 0)%Z && (negb (y mod 100 =? 0)%Z || (y mod 400 =? 0)%Z).
Definition days_before_year (y : Z) : Z := ((y - 1) * 365 + (y - 1) / 4 - (y - 1) / 100 + (y - 1) / 400)%Z.
Definition month_starts (leap : bool) : list Z :=
  if leap then [0; 31; 60; 91; 121; 152; 182; 213; 244; 274; 305; 335]%Z
  else [0; 31; 59; 90; 120; 151; 181; 212; 243; 273; 304; 334]%Z.
Definition days_before_month (leap : bool) (m : Z) : Z := nth (Z.to_nat (m - 1)) (month_starts leap) 0%Z.
(** The number of a day, from 1 for the first day of the year 1 *)
Definition ymd2ord (y m d : Z) : Z := (days_before_year y + days_before_month (is_leap y) m + d)%Z.
(** The month and the day of the [n]-th day of a year, from 0 *)
Definition month_day (leap : bool) (n : Z) : Z * Z :=
  let m := Z.shiftr (n + 50) 5 in
  let m := if (days_before_month leap m >? n)%Z then (m - 1)%Z else m in
  (m, n - days_before_month leap m + 1)%Z.
Definition ord2ymd (ordinal : Z) : Z * Z * Z :=
  let n := (ordinal - 1)%Z in
  let n400 := (n / 146097)%Z in let n := (n mod 146097)%Z in
  let n100 := (n / 36524)%Z in let n := (n mod 36524)%Z in
  let n4 := (n / 1461)%Z in let n := (n mod 1461)%Z in
  let n1 := (n / 365)%Z in let n := (n mod 365)%Z in
  let y := (n400 * 400 + 1 + n100 * 100 + n4 * 4 + n1)%Z in
  if ((n1 =? 4) || (n100 =? 4))%Z then (y - 1, 12, 31)%Z
  else let '(m, d) := month_day ((n1 =? 3) && (negb (n4 =? 24) || (n100 =? 3)))%Z n in (y, m, d).

Definition day_seconds : Z := 86400.
Definition maxordinal : Z := 3652059.
(** Addition of a [timedelta] *)
Definition add_timedelta (delta now : Z) : res Z :=
  let t := (now + delta)%Z in
  if ((0 <=? t) && (t <? maxordinal * day_seconds))%Z then Ok t else Raise (OverflowError "date value out of range").

(** [%Y%m%d%H%M%S] followed by [Z], for years of four digits *)
Fixpoint pad (width : nat) (n : Z) (acc : string) : string :=
  match width with
  | O => acc
  | S width => pad width (n / 10) (String (hex_digit (n mod 10)) acc)
  end.
Definition stamp (t : Z) : string :=
  let '(y, m, d) := ord2ymd (t / day_seconds + 1)%Z in
  let s := (t mod day_seconds)%Z in
  pad 4 y (pad 2 m (pad 2 d (pad 2 (s / 3600) (pad 2 (s / 60 mod 60) (pad 2 (s mod 60) "Z"))))).

(** ** Certificates *)

(** What is set on an object [X509]; a name has a common name only. *)
Record x509 (key : Type) := X509 {
  subject : string;
  issuer : string;
  not_before : string;
  not_after : string;
  pubkey : key;
  signer : key
}.
Arguments X509 {key}.
Arguments subject {key}.
Arguments issuer {key}.
Arguments not_before {key}.
Arguments not_after {key}.
Arguments pubkey {key}.
Arguments signer {key}.

(** Keys, the [n]-th one that is generated, and the PEM text *)
Class Crypto := {
  key : Type;
  generate_key : nat -> key;
  dump_privatekey : key -> string;
  dump_certificate : x509 key -> string
}.

Definition TLSHD_CONFIG : string := join newline
  [""; "[debug]"; "loglevel=10"; "tls=10"; "";
   "[authenticate.client]"; "x509.truststore=/etc/tlshd.d/ca.crt"; "x509.certificate=/etc/tlshd.d/tls.crt";
   "x509.private_key=/etc/tlshd.d/tls.key"; "";
   "[authenticate.server]"; "x509.truststore=/etc/tlshd.d/ca.crt"; "x509.certificate=/etc/tlshd.d/tls.crt";
   "x509.private_key=/etc/tlshd.d/tls.key"; ""].

Section tls.
Context `{SshServer} `{Crypto}.

(** [_gen_cert]; without an issuer the certificate names itself. *)
Definition gen_cert (now : Z) (pubkey : key) (common_name : string) (issuer : option string) (signer : key) : res (x509 key) :=
  let* before := add_timedelta (-3600) now in
  let* after := add_timedelta day_seconds now in
  Ok (X509 common_name (default common_name issuer) (stamp before) (stamp after) pubkey signer).

Definition write_file (x : host_info) (path content : string) : M env unit := run_in x ["bash"; "-c"; "cat > " +:+ path] content.
(** The commands for one host *)
Definition setup_host (ca_cert node_cert : x509 key) (node_key : key) (x : host_info) : M env unit :=
  run x ["mkdir"; "-p"; "/etc/tlshd.d"] ;;;
  write_file x "/etc/tlshd.conf" TLSHD_CONFIG ;;;
  write_file x "/etc/tlshd.d/ca.crt" (dump_certificate ca_cert) ;;;
  write_file x "/etc/tlshd.d/tls.crt" (dump_certificate node_cert) ;;;
  write_file x "/etc/tlshd.d/tls.key" (dump_privatekey node_key) ;;;
  (let* _ := run_with x true true false false None ["modprobe"; "handshake"] in mret tt) ;;;
  run x ["systemctl"; "restart"; "tlshd.service"].
Definition setup_hosts (now : Z) (ca_key : key) (ca_cert : x509 key) (hosts : list (nat * host_info)) : M env unit :=
  for_each hosts (fun '(i, x) =>
    let node_key := generate_key i in
    let* node_cert := lift (gen_cert now node_key (h_name x) (Some (issuer ca_cert)) ca_key) in
    setup_host ca_cert node_cert node_key x).
(** [setup_kernel_tls_helper] when the clock shows [now]: the first key is that
    of the authority. *)
Definition setup_kernel_tls_helper (now : Z) (hosts : list host_info) : M env unit :=
  let ca_key := generate_key 0 in
  let* ca_cert := lift (gen_cert now ca_key "drbd9-tests" None ca_key) in
  setup_hosts now ca_key ca_cert (imap (fun i x => (S i, x)) hosts).
End tls.

(** ** Lemmas: the calendar *)

(** The days of a year, leap or not, are found in the table of the months. *)
Definition month_day_right (leap : bool) (n : Z) : bool :=
  let '(m, d) := month_day leap n in
  ((days_before_month leap m + d =? n + 1) && (1 <=? m) && (m <=? 12) && (1 <=? d) && (d <=? 31))%Z.
Lemma month_day_ok (leap : bool) (n : Z) : (0 <= n < 365 + (if leap then 1 else 0))%Z ->
  let '(m, d) := month_day leap n in (days_before_month leap m + d = n + 1 /\ 1 <= m <= 12 /\ 1 <= d <= 31)%Z.
Proof.
  intros Hn.
  assert (Hall : forallb (fun k => month_day_right false (Z.of_nat k)) (seq 0 365) = true) by (vm_compute; reflexivity).
  assert (Hall' : forallb (fun k => month_day_right true (Z.of_nat k)) (seq 0 366) = true) by (vm_compute; reflexivity).
  rewrite forallb_forall in Hall, Hall'.
  assert (Hr : month_day_right leap n = true).
  { rewrite <-(Z2Nat.id n) by lia. destruct leap; [apply Hall'|apply Hall]; apply in_seq; lia. }
  unfold month_day_right in Hr. destruct (month_day leap n) as [m d]. lia.
Qed.

Section year.
Context (n400 n100 n4 n1 : Z) (H100 : (0 <= n100 <= 3)%Z) (H4 : (0 <= n4 <= 24)%Z) (H1 : (0 <= n1 <= 3)%Z).
Local Abbreviation year := (n400 * 400 + 1 + n100 * 100 + n4 * 4 + n1)%Z.

Lemma days_before_year_split :
  days_before_year year = (n400 * 146097 + n100 * 36524 + n4 * 1461 + n1 * 365)%Z.
Proof.
  unfold days_before_year. replace (year - 1)%Z with (n400 * 400 + n100 * 100 + n4 * 4 + n1)%Z by lia.
  rewrite <-(Z.div_unique (n400 * 400 + n100 * 100 + n4 * 4 + n1) 4 (n400 * 100 + n100 * 25 + n4) n1) by lia.
  rewrite <-(Z.div_unique (n400 * 400 + n100 * 100 + n4 * 4 + n1) 100 (n400 * 4 + n100) (n4 * 4 + n1)) by lia.
  rewrite <-(Z.div_unique (n400 * 400 + n100 * 100 + n4 * 4 + n1) 400 n400 (n100 * 100 + n4 * 4 + n1)) by lia. lia.
Qed.
Lemma is_leap_split : is_leap year = ((n1 =? 3) && (negb (n4 =? 24) || (n100 =? 3)))%Z.
Proof.
  unfold is_leap. destruct (decide (n1 = 3)%Z).
  - rewrite <-(Z.mod_unique year 4 (n400 * 100 + n100 * 25 + n4 + 1) 0) by lia.
    destruct (decide (n4 = 24)%Z).
    + rewrite <-(Z.mod_unique year 100 (n400 * 4 + n100 + 1) 0) by lia.
      destruct (decide (n100 = 3)%Z).
      * rewrite <-(Z.mod_unique year 400 (n400 + 1) 0) by lia. lia.
      * rewrite <-(Z.mod_unique year 400 n400 (n100 * 100 + 100)) by lia. lia.
    + rewrite <-(Z.mod_unique year 100 (n400 * 4 + n100) (n4 * 4 + 4)) by lia. lia.
  - rewrite <-(Z.mod_unique year 4 (n400 * 100 + n100 * 25 + n4) (n1 + 1)) by lia. lia.
Qed.
End year.

Lemma ord2ymd_ymd2ord n : let '(y, m, d) := ord2ymd n in ymd2ord y m d = n /\ (1 <= m <= 12 /\ 1 <= d <= 31)%Z.
Proof.
  unfold ord2ymd. set (k := (n - 1)%Z). pose proof (Z.div_mod k 146097 ltac:(done)) as E400. pose proof (Z.mod_pos_bound k 146097 ltac:(done)) as B400.
  set (n400 := (k / 146097)%Z) in *. set (r400 := (k mod 146097)%Z) in *.
  pose proof (Z.div_mod r400 36524 ltac:(done)) as E100. pose proof (Z.mod_pos_bound r400 36524 ltac:(done)) as B100.
  set (n100 := (r400 / 36524)%Z) in *. set (r100 := (r400 mod 36524)%Z) in *.
  pose proof (Z.div_mod r100 1461 ltac:(done)) as E4. pose proof (Z.mod_pos_bound r100 1461 ltac:(done)) as B4.
  set (n4 := (r100 / 1461)%Z) in *. set (r4 := (r100 mod 1461)%Z) in *.
  pose proof (Z.div_mod r4 365 ltac:(done)) as E1. pose proof (Z.mod_pos_bound r4 365 ltac:(done)) as B1.
  set (n1 := (r4 / 365)%Z) in *. set (r1 := (r4 mod 365)%Z) in *. clearbody n400 r400 n100 r100 n4 r4 n1 r1. subst k.
  unfold ymd2ord. destruct (n1 =? 4)%Z eqn:H1; [|destruct (n100 =? 4)%Z eqn:H100]; cbn [orb].
  - assert (n1 = 4 /\ r1 = 0 /\ 0 <= n100 <= 3 /\ 0 <= n4 <= 23)%Z as (-> & -> & Hn100 & Hn4) by lia.
    replace (n400 * 400 + 1 + n100 * 100 + n4 * 4 + 4 - 1)%Z with (n400 * 400 + 1 + n100 * 100 + n4 * 4 + 3)%Z by lia.
    rewrite days_before_year_split, is_leap_split by lia. replace (n4 =? 24)%Z with false by lia.
    change (days_before_month _ 12) with 335%Z. lia.
  - assert (n100 = 4 /\ n4 = 0 /\ n1 = 0 /\ r1 = 0)%Z as (-> & -> & -> & ->) by lia.
    replace (n400 * 400 + 1 + 4 * 100 + 0 * 4 + 0 - 1)%Z with (n400 * 400 + 1 + 3 * 100 + 24 * 4 + 3)%Z by lia.
    rewrite days_before_year_split, is_leap_split by lia. change (days_before_month _ 12) with 335%Z. lia.
  - assert (0 <= n100 <= 3 /\ 0 <= n4 <= 24 /\ 0 <= n1 <= 3)%Z as (Hn100 & Hn4 & Hn1) by lia.
    pose proof (month_day_ok ((n1 =? 3) && (negb (n4 =? 24) || (n100 =? 3)))%Z r1 ltac:(case_match; lia)) as Hm.
    destruct (month_day _ r1) as [m d]. rewrite days_before_year_split, is_leap_split by lia. lia.
Qed.

(** ** Reading the text of a certificate *)

(** As a time in UTC, which the letter at the end says it is *)
Fixpoint read_dec (width : nat) (acc : Z) (s : string) : option (Z * string) :=
  match width, s with
  | O, _ => Some (acc, s)
  | S width, String c s => d ← digit_val c; read_dec width (acc * 10 + d) s
  | _, _ => None
  end.
Definition read_stamp (s : string) : option Z :=
  '(y, s) ← read_dec 4 0 s; '(m, s) ← read_dec 2 0 s; '(d, s) ← read_dec 2 0 s;
  '(hour, s) ← read_dec 2 0 s; '(minute, s) ← read_dec 2 0 s; '(second, s) ← read_dec 2 0 s;
  if decide (s = "Z") then Some ((ymd2ord y m d - 1) * day_seconds + hour * 3600 + minute * 60 + second)%Z else None.
(** Whether a certificate is valid at a time *)
Definition valid_at {key} (cert : x509 key) (utc : Z) : bool :=
  match read_stamp (not_before cert), read_stamp (not_after cert) with
  | Some b, Some a => ((b <=? utc) && (utc <=? a))%Z
  | _, _ => false
  end.
(** The certificate bears the name of the authority and its signature. *)
Definition issued_by {key} (ca cert : x509 key) : Prop := issuer cert = subject ca /\ signer cert = pubkey ca.

Lemma digit_val_hex d : (0 <= d < 10)%Z -> digit_val (hex_digit d) = Some d.
Proof.
  intros Hd. assert (Hall : forallb (fun k => bool_decide (digit_val (hex_digit (Z.of_nat k)) = Some (Z.of_nat k))) (seq 0 10) = true) by (vm_compute; reflexivity).
  rewrite forallb_forall in Hall. rewrite <-(Z2Nat.id d) by lia. eapply bool_decide_eq_true, Hall, in_seq. lia.
Qed.
Lemma read_pad width k n acc rest : (0 <= n < 10 ^ Z.of_nat width)%Z ->
  read_dec (width + k) acc (pad width n rest) = read_dec k (acc * 10 ^ Z.of_nat width + n) rest.
Proof.
  revert k n rest. induction width as [|width IH]; intros k n rest Hn.
  - cbn in Hn. cbn [pad Nat.add]. f_equal. cbn. lia.
  - rewrite Nat2Z.inj_succ, Z.pow_succ_r in Hn by lia. cbn [pad]. rewrite Nat.add_succ_comm, IH.
    + cbn [read_dec]. rewrite digit_val_hex by (apply Z.mod_pos_bound; lia). cbn. f_equal.
      rewrite Nat2Z.inj_succ, Z.pow_succ_r by lia. pose proof (Z.div_mod n 10 ltac:(done)). lia.
    + split; [apply Z.div_pos; lia|]. apply Z.div_lt_upper_bound; lia.
Qed.
Lemma read_pad_0 width n rest : (0 <= n < 10 ^ Z.of_nat width)%Z -> read_dec width 0 (pad width n rest) = Some (n, rest).
Proof. intros Hn. rewrite <-(Nat.add_0_r width) at 1. by rewrite read_pad. Qed.

Lemma days_before_month_bound leap m : (0 <= days_before_month leap m <= 335)%Z.
Proof.
  unfold days_before_month. assert (Hall : forall l, Forall (fun k => (0 <= k <= 335)%Z) l -> forall i, (0 <= nth i l 0 <= 335)%Z).
  { induction 1 as [|k l Hk _ IH]; intros [|i]; cbn; [lia|lia|lia|apply IH]. }
  apply Hall. destruct leap; repeat constructor; lia.
Qed.
(** The dates that Python has *)
Lemma ymd_in_range n y m d : (1 <= n <= maxordinal)%Z -> ord2ymd n = (y, m, d) -> (1 <= y <= 9999 /\ 1 <= m <= 12 /\ 1 <= d <= 31)%Z.
Proof.
  intros Hn Heq. pose proof (ord2ymd_ymd2ord n) as Ho. rewrite Heq in Ho. destruct Ho as (Ho & Hm & Hd). split; [|done].
  unfold ymd2ord, days_before_year, maxordinal in *. pose proof (days_before_month_bound (is_leap y) m).
  generalize dependent (days_before_month (is_leap y) m). intros k Ho Hk. Z.to_euclidean_division_equations. lia.
Qed.

Lemma read_stamp_stamp t : (0 <= t < maxordinal * day_seconds)%Z -> read_stamp (stamp t) = Some t.
Proof.
  intros Ht. unfold stamp. destruct (ord2ymd (t / day_seconds + 1)) as [[y m] d] eqn:Hymd.
  pose proof (ord2ymd_ymd2ord (t / day_seconds + 1)) as Ho. rewrite Hymd in Ho. destruct Ho as (Ho & _).
  assert (Hday : (0 <= t / day_seconds < maxordinal)%Z) by (split; [apply Z.div_pos; unfold day_seconds; lia|apply Z.div_lt_upper_bound; unfold day_seconds in *; lia]).
  assert (Hord : (1 <= t / day_seconds + 1 <= maxordinal)%Z) by (clear -Hday; set (q := (t / day_seconds)%Z) in *; lia).
  destruct (ymd_in_range _ y m d Hord Hymd) as (Hy & Hm & Hd).
  pose proof (Z.mod_pos_bound t day_seconds ltac:(done)) as Hs. pose proof (Z.div_mod t day_seconds ltac:(done)) as Hdm.
  set (s := (t mod day_seconds)%Z) in *. unfold day_seconds in Hs.
  assert (Hh : (0 <= s / 3600 < 24)%Z) by (split; [apply Z.div_pos; lia|apply Z.div_lt_upper_bound; lia]).
  pose proof (Z.mod_pos_bound (s / 60) 60 ltac:(done)) as Hmin. pose proof (Z.mod_pos_bound s 60 ltac:(done)) as Hsec.
  unfold read_stamp. do 6 (rewrite read_pad_0 by (cbn; lia); cbn [mbind option_bind]).
  rewrite decide_True by done. f_equal. rewrite Ho.
  pose proof (Z.div_mod s 60 ltac:(done)). pose proof (Z.div_mod (s / 60) 60 ltac:(done)).
  assert (Hq : (s / 3600 = s / 60 / 60)%Z) by (by rewrite Z.div_div). unfold day_seconds in *. lia.
Qed.

(** ** Lemmas: the commands *)

Section commands.
Context `{SshServer} `{Crypto}.

(** [m] sends [l] when it ends well, and what has an input has succeeded. *)
Definition sends_all {A} (m : M env A) (l : list sent) : Prop :=
  forall e a e', m e = (Ok a, e') -> sent_log e' = sent_log e ++ l /\ answered (sent_log e) l.
Lemma sends_all_bind {A B} (m : M env A) (f : A -> M env B) l l' :
  sends_all m l -> (forall a, sends_all (f a) l') -> sends_all (m ≫= f) (l ++ l').
Proof.
  intros Hm Hf e b e' Hb. mred. revert Hb. mred. destruct (m e) as [[a|x] e1] eqn:He; [|done]. intros Hb.
  destruct (Hf a _ _ _ Hb) as [-> K2]. destruct (Hm _ _ _ He) as [K0 K1]. rewrite K0 in *. rewrite <-app_assoc. split; [done|by apply answered_app].
Qed.
Lemma sends_all_ret {A} (a : A) : sends_all (mret a) [].
Proof. intros e b e' [= <- <-]. rewrite app_nil_r. split; [done|apply answered_nil]. Qed.
Lemma sends_all_with x quote catch ret ns stdin cmd : catch = false \/ stdin = None ->
  sends_all (run_with x quote catch ret ns stdin cmd) [Sent (h_name x) (command_string x quote ns cmd) stdin].
Proof.
  intros Hc e a e'. rewrite run_with_answer. intros [= Ha <-]. split; [done|]. intros [|s1 [|]] s' l2; [|done..]. cbn [app]. intros [= <- <-] Hs.
  destruct Hc as [->| ->]; [|by destruct Hs]. rewrite app_nil_r. destruct (ssh _ _) as [[code out]|y]; [|done]. cbn in Ha.
  rewrite orb_false_r in Ha. destruct (code =? 0)%Z eqn:Hz; [|done]. apply Z.eqb_eq in Hz as ->. by exists out.
Qed.
Lemma sends_all_run x cmd : sends_all (run x cmd) [sent_run x cmd].
Proof. apply (sends_all_bind _ _ [_] []); [apply sends_all_with; auto|intros o; apply sends_all_ret]. Qed.

Definition sent_file (x : host_info) (path content : string) : sent :=
  Sent (h_name x) (command_string x true false ["bash"; "-c"; "cat > " +:+ path]) (Some content).
Lemma sends_all_file x path content : sends_all (write_file x path content) [sent_file x path content].
Proof. apply (sends_all_bind _ _ [_] []); [apply sends_all_with; auto|intros o; apply sends_all_ret]. Qed.

Definition host_commands (ca_cert node_cert : x509 key) (node_key : key) (x : host_info) : list sent :=
  [sent_run x ["mkdir"; "-p"; "/etc/tlshd.d"]; sent_file x "/etc/tlshd.conf" TLSHD_CONFIG;
   sent_file x "/etc/tlshd.d/ca.crt" (dump_certificate ca_cert); sent_file x "/etc/tlshd.d/tls.crt" (dump_certificate node_cert);
   sent_file x "/etc/tlshd.d/tls.key" (dump_privatekey node_key);
   Sent (h_name x) (command_string x true false ["modprobe"; "handshake"]) None; sent_run x ["systemctl"; "restart"; "tlshd.service"]].
Lemma sends_all_host ca_cert node_cert node_key x :
  sends_all (setup_host ca_cert node_cert node_key x) (host_commands ca_cert node_cert node_key x).
Proof.
  unfold setup_host, host_commands.
  apply (sends_all_bind _ _ [_] (_ :: _)); [apply sends_all_run|intros _].
  do 4 (apply (sends_all_bind _ _ [_] (_ :: _)); [apply sends_all_file|intros _]).
  apply (sends_all_bind _ _ [_] [_]); [|intros _; apply sends_all_run].
  apply (sends_all_bind _ _ [_] []); [apply sends_all_with; auto|intros o; apply sends_all_ret].
Qed.

(** The certificate of a host, when the dates can be represented *)
Definition node_cert_of (now : Z) (ca_key : key) (ca_cert : x509 key) (p : nat * host_info) : res (x509 key) :=
  gen_cert now (generate_key (fst p)) (h_name (snd p)) (Some (issuer ca_cert)) ca_key.
Lemma setup_hosts_log now ca_key ca_cert hosts e e' : setup_hosts now ca_key ca_cert hosts e = (Ok tt, e') ->
  exists certs, Forall2 (fun p c => node_cert_of now ca_key ca_cert p = Ok c) hosts certs /\
    let l := concat (zip_with (fun p c => host_commands ca_cert c (generate_key (fst p)) (snd p)) hosts certs) in
    sent_log e' = sent_log e ++ l /\ answered (sent_log e) l.
Proof.
  revert e. induction hosts as [|[i x] hosts IH]; intros e Hrun.
  - injection Hrun as <-. exists []. split; [constructor|]. cbn. rewrite app_nil_r. split; [done|apply answered_nil].
  - revert Hrun. cbn [setup_hosts for_each]. unfold setup_hosts. cbn [for_each]. mred. unfold lift.
    destruct (gen_cert now (generate_key i) (h_name x) (Some (issuer ca_cert)) ca_key) as [c|y] eqn:Hc; [|done].
    destruct (setup_host ca_cert c (generate_key i) x e) as [[[]|y] e1] eqn:Hs; [|done]. intros Hrun.
    destruct (IH e1 Hrun) as (certs & Hf & Hl & Ha). exists (c :: certs). split; [by constructor|].
    destruct (sends_all_host _ _ _ _ _ _ _ Hs) as [K0 K1]. rewrite K0 in *. cbn [zip_with concat fst snd].
    rewrite Hl, <-app_assoc. split; [done|by apply answered_app].
Qed.

Lemma gen_cert_fields now k name issuer_name s cert : gen_cert now k name issuer_name s = Ok cert ->
  subject cert = name /\ issuer cert = default name issuer_name /\ pubkey cert = k /\ signer cert = s.
Proof. unfold gen_cert. mred. destruct (add_timedelta _ now); [|done]. destruct (add_timedelta day_seconds now); [|done]. by intros [= <-]. Qed.

(** *** What is left in the files *)

Definition file_on (x : host_info) (path : string) (log : list sent) : option string :=
  last_written (h_name x) (command_string x true false ["bash"; "-c"; "cat > " +:+ path]) log.
Lemma other_hosts_commands x path l o : Forall (fun s => s_host s <> h_name x) l ->
  foldl (input_of (h_name x) (command_string x true false ["bash"; "-c"; "cat > " +:+ path])) o l = o.
Proof. intros Hl. revert o. induction Hl as [|s l Hs _ IH]; intros o; [done|]. cbn [foldl]. unfold input_of at 2. rewrite decide_False by naive_solver. apply IH. Qed.
Lemma host_commands_files ca_cert node_cert node_key x path o :
  foldl (input_of (h_name x) (command_string x true false ["bash"; "-c"; "cat > " +:+ path])) o (host_commands ca_cert node_cert node_key x) =
  foldl (fun o p => if decide (fst p = path) then Some (snd p) else o) o
    [("/etc/tlshd.conf", TLSHD_CONFIG); ("/etc/tlshd.d/ca.crt", dump_certificate ca_cert);
     ("/etc/tlshd.d/tls.crt", dump_certificate node_cert); ("/etc/tlshd.d/tls.key", dump_privatekey node_key)].
Proof.
  assert (Hfile : forall p c o, input_of (h_name x) (command_string x true false ["bash"; "-c"; "cat > " +:+ path]) o (sent_file x p c) =
    if decide (p = path) then Some c else o).
  { intros p c o'. unfold input_of, sent_file. cbn [s_host s_command s_stdin]. destruct (decide (p = path)) as [->|Hp]; [by rewrite decide_True|].
    rewrite decide_False; [done|]. intros [_ Heq%command_string_inj]. injection Heq as Heq. by apply Hp. }
  assert (Hother : forall cmd s o, s_host s = h_name x -> s_command s = command_string x true false cmd -> head cmd <> Some "bash" ->
    input_of (h_name x) (command_string x true false ["bash"; "-c"; "cat > " +:+ path]) o s = o).
  { intros cmd s o' Hh Hc Hb. unfold input_of. rewrite Hc, decide_False; [done|]. intros [_ ->%command_string_inj]. by apply Hb. }
  unfold host_commands. cbn [foldl]. rewrite !Hfile.
  rewrite (Hother ["mkdir"; "-p"; "/etc/tlshd.d"] (sent_run x ["mkdir"; "-p"; "/etc/tlshd.d"])) by done.
  rewrite (Hother ["modprobe"; "handshake"] (Sent (h_name x) _ None)) by done.
  rewrite (Hother ["systemctl"; "restart"; "tlshd.service"] (sent_run x ["systemctl"; "restart"; "tlshd.service"])) by done.
  done.
Qed.
Lemma host_commands_host ca_cert node_cert node_key x s : s ∈ host_commands ca_cert node_cert node_key x -> s_host s = h_name x.
Proof. unfold host_commands. intros Hs. repeat (apply elem_of_cons in Hs as [->|Hs]; [done|]). by apply not_elem_of_nil in Hs. Qed.
Lemma hosts_commands_host ca_cert hosts certs s :
  s ∈ concat (zip_with (fun p c => host_commands ca_cert c (generate_key (fst p)) (snd p)) hosts certs) ->
  s_host s ∈ map (fun p : nat * host_info => h_name (snd p)) hosts.
Proof.
  revert certs. induction hosts as [|[k z] hosts IH]; intros [|c certs]; try (by intros ?%not_elem_of_nil).
  cbn [zip_with concat map fst snd]. rewrite elem_of_app, elem_of_cons. intros [Hs|Hs]; [left; by eapply host_commands_host|right; by eapply IH].
Qed.
Lemma file_after_setup ca_cert hosts certs x c i path log :
  answered log (concat (zip_with (fun p c => host_commands ca_cert c (generate_key (fst p)) (snd p)) hosts certs)) ->
  NoDup (map (fun p : nat * host_info => h_name (snd p)) hosts) -> length certs = length hosts ->
  (i, x, c) ∈ zip hosts certs -> path ∈ ["/etc/tlshd.conf"; "/etc/tlshd.d/ca.crt"; "/etc/tlshd.d/tls.crt"; "/etc/tlshd.d/tls.key"] ->
  file_on x path (log ++ concat (zip_with (fun p c => host_commands ca_cert c (generate_key (fst p)) (snd p)) hosts certs)) =
  foldl (fun o p => if decide (fst p = path) then Some (snd p) else o) None
    [("/etc/tlshd.conf", TLSHD_CONFIG); ("/etc/tlshd.d/ca.crt", dump_certificate ca_cert);
     ("/etc/tlshd.d/tls.crt", dump_certificate c); ("/etc/tlshd.d/tls.key", dump_privatekey (generate_key i))].
Proof.
  intros Ha Hnd Hlen Hin Hpath. unfold file_on. rewrite last_written_answered by exact Ha. clear Ha. generalize (last_written (h_name x) (command_string x true false ["bash"; "-c"; "cat > " +:+ path]) log).
  revert certs Hlen Hin. induction hosts as [|[j y] hosts IH]; intros [|d certs] Hlen Hin o; [by apply not_elem_of_nil in Hin|done|done|].
  cbn [map fst snd] in Hnd. apply NoDup_cons in Hnd as [Hy Hnd]. cbn [zip zip_with concat fst snd]. rewrite foldl_app.
  apply elem_of_cons in Hin as [Heq|Hin].
  - injection Heq as -> -> ->. rewrite host_commands_files, other_hosts_commands.
    + cbn [foldl fst snd]. repeat (apply elem_of_cons in Hpath as [->|Hpath]; [by repeat (first [rewrite decide_True by done|rewrite decide_False by done])|]).
      by apply not_elem_of_nil in Hpath.
    + apply Forall_forall. intros s Hs%hosts_commands_host Heq. apply Hy. by rewrite <-Heq.
  - assert (Hne : h_name y <> h_name x).
    { intros Heq. apply Hy. apply list_elem_of_fmap. exists (i, x). split; [done|]. by apply elem_of_zip_l in Hin. }
    rewrite (other_hosts_commands x path (host_commands ca_cert d (generate_key j) y)); [|by apply Forall_forall; intros s ->%host_commands_host]. apply IH; [done|cbn in Hlen; lia|done].
Qed.
End commands.

(** ** Properties *)

(** C39: a certificate that is made at a local time, where the clock is [offset]
    seconds ahead of UTC, is valid [t] seconds after it was made exactly from an
    hour before [offset] to a day after it, since the local time is written as
    UTC: this is the window of the documentation, from an hour before to a day
    after, only where the clock shows UTC, and a certificate is valid when it is
    made only if the clock is not ahead by more than an hour nor behind by more
    than a day. *)
Theorem certificate_window_moves_with_the_zone `{Crypto} now k name issuer_name signer_key cert offset :
  gen_cert now k name issuer_name signer_key = Ok cert ->
  let utc := (now - offset)%Z in
  (forall t, valid_at cert (utc + t) = true <-> (offset - 3600 <= t <= offset + day_seconds)%Z) /\
  ((forall t, valid_at cert (utc + t) = true <-> (-3600 <= t <= day_seconds)%Z) <-> offset = 0%Z) /\
  (valid_at cert utc = true <-> (- day_seconds <= offset <= 3600)%Z).
Proof.
  unfold gen_cert, add_timedelta. mred. cbv zeta.
  destruct ((0 <=? now + -3600) && _)%Z eqn:Hb; [|done]. destruct ((0 <=? now + day_seconds) && _)%Z eqn:Ha; [|done]. intros [= <-].
  assert (Hw : forall u, valid_at (X509 name (default name issuer_name) (stamp (now + -3600)) (stamp (now + day_seconds)) k signer_key) u = true <->
    (now - 3600 <= u <= now + day_seconds)%Z).
  { intros u. unfold valid_at. cbn [not_before not_after]. unfold day_seconds in *. rewrite !read_stamp_stamp by (unfold day_seconds; lia). lia. }
  split_and!; [intros t; rewrite Hw; lia| |rewrite Hw; lia]. split; [|intros -> t; rewrite Hw; lia].
  intros Hall. pose proof (proj2 (Hall (-3600)%Z) ltac:(unfold day_seconds; lia)) as H1. pose proof (proj2 (Hall day_seconds) ltac:(unfold day_seconds; lia)) as H2.
  apply Hw in H1, H2. lia.
Qed.

(** C13: when [setup_kernel_tls_helper] has ended well, every host has the
    configuration of the service, the certificate of the one authority of all
    hosts, a certificate in its own name issued by this authority, and the
    private key that belongs to it. *)
Theorem hosts_get_matching_certificates `{SshServer} `{Crypto} now hosts e e' :
  NoDup (map h_name hosts) -> setup_kernel_tls_helper now hosts e = (Ok tt, e') ->
  exists ca, issued_by ca ca /\ forall i x, hosts !! i = Some x -> exists cert,
    file_on x "/etc/tlshd.conf" (sent_log e') = Some TLSHD_CONFIG /\
    file_on x "/etc/tlshd.d/ca.crt" (sent_log e') = Some (dump_certificate ca) /\
    file_on x "/etc/tlshd.d/tls.crt" (sent_log e') = Some (dump_certificate cert) /\
    file_on x "/etc/tlshd.d/tls.key" (sent_log e') = Some (dump_privatekey (pubkey cert)) /\
    subject cert = h_name x /\ issued_by ca cert /\ pubkey cert = generate_key (S i).
Proof.
  intros Hnd Hrun. unfold setup_kernel_tls_helper in Hrun. revert Hrun. mred. unfold lift.
  destruct (gen_cert now (generate_key 0) "drbd9-tests" None (generate_key 0)) as [ca|y] eqn:Hca; [|done]. intros Hrun.
  apply gen_cert_fields in Hca as (Hs & Hi & Hp & Hg). cbn in Hi. exists ca. split; [split; congruence|]. intros i x Hx.
  destruct (setup_hosts_log _ _ _ _ _ _ Hrun) as (certs & Hf & Hl & Ha). set (numbered := imap (fun i x => (S i, x)) hosts) in *.
  assert (Hn : numbered !! i = Some (S i, x)) by (unfold numbered; by rewrite list_lookup_imap, Hx).
  destruct (Forall2_lookup_l _ _ _ _ _ Hf Hn) as (cert & Hc & Hcert). exists cert.
  apply gen_cert_fields in Hcert as (Hs' & Hi' & Hp' & Hg'). cbn in Hs', Hi', Hp', Hg'.
  assert (Hnd' : NoDup (map (fun p : nat * host_info => h_name (snd p)) numbered)).
  { unfold numbered. replace (map _ (imap _ hosts)) with (map h_name hosts); [done|]. apply list_eq. intros j.
    rewrite !list_lookup_fmap, list_lookup_imap. by destruct (hosts !! j). }
  assert (Hin : (S i, x, cert) ∈ zip numbered certs) by (apply list_elem_of_lookup; exists i; rewrite lookup_zip_with, Hn, Hc; done).
  assert (Hfile := fun path Hpath => file_after_setup ca numbered certs x cert (S i) path (sent_log e) Ha Hnd' (eq_sym (Forall2_length _ _ _ Hf)) Hin Hpath).
  rewrite Hl. split_and!; [rewrite Hfile by set_solver; done..| |done|split; congruence|done].
  rewrite Hfile by set_solver. by rewrite Hp'.
Qed.

(** ** Witnesses *)

#[local] Instance demo_crypto : Crypto := {
  key := nat;
  generate_key := fun n => n;
  dump_privatekey := fun k => "private key " +:+ str_nat k;
  dump_certificate := fun c => subject c +:+ " by " +:+ issuer c +:+ " from " +:+ not_before c
}.
#[local] Instance silent_server : SshServer := fun _ _ => Ok (0%Z, EmptyString).
(** Noon of 29 February 2024 *)
Definition demo_now : Z := ((ymd2ord 2024 2 29 - 1) * day_seconds + 12 * 3600)%Z.
Example stamp_of_now : stamp demo_now = "20240229120000Z".
Proof. vm_compute. reflexivity. Qed.

(** Half an hour ahead the certificate is valid at once, two hours ahead it is not. *)
Lemma certificate_window_moves_with_the_zone_witness :
  valid_at (X509 "a" "drbd9-tests" "20240229110000Z" "20240301120000Z" 1 0) (demo_now - 1800) = true /\
  valid_at (X509 "a" "drbd9-tests" "20240229110000Z" "20240301120000Z" 1 0) (demo_now - 7200) = false.
Proof.
  assert (Hc : gen_cert demo_now 1 "a" (Some "drbd9-tests") 0 = Ok (X509 "a" "drbd9-tests" "20240229110000Z" "20240301120000Z" 1 0)) by (vm_compute; reflexivity).
  destruct (@certificate_window_moves_with_the_zone demo_crypto demo_now 1 "a" (Some "drbd9-tests") 0 _ 1800 Hc) as (_ & _ & Hv).
  destruct (@certificate_window_moves_with_the_zone demo_crypto demo_now 1 "a" (Some "drbd9-tests") 0 _ 7200 Hc) as (_ & _ & Hn).
  split; [apply Hv; unfold day_seconds; lia|]. apply not_true_is_false. intros Hx. apply Hn in Hx. lia.
Defined.

Definition demo_hosts : list host_info :=
  map (fun n => HostInfo n n "vg" None (9, 2, 5)%Z "/var/lib/drbd-test" EmptyString [] (EmptyString, EmptyString) false) ["a"; "b"].
Lemma hosts_get_matching_certificates_witness :
  exists ca, forall x, demo_hosts !! 1 = Some x -> exists cert,
    file_on x "/etc/tlshd.d/tls.key" (sent_log (snd (setup_kernel_tls_helper demo_now demo_hosts (Env [] ∅)))) =
      Some (dump_privatekey (pubkey cert)) /\ subject cert = "b" /\ issued_by ca cert.
Proof.
  destruct (hosts_get_matching_certificates demo_now demo_hosts (Env [] ∅)
    (snd (setup_kernel_tls_helper demo_now demo_hosts (Env [] ∅)))) as (ca & _ & Hall).
  - apply (bool_decide_unpack _). vm_compute. exact I.
  - vm_compute. reflexivity.
  - exists ca. intros x Hx. destruct (Hall 1 x Hx) as (cert & _ & _ & _ & Hk & Hs & Hi & _).
    exists cert. split; [exact Hk|]. split; [|exact Hi]. rewrite Hs. injection Hx as <-. reflexivity.
Defined.
