(* ===== verification/HeapTypes.v ===== *)
(** * References between the objects of a test (src/python/drbdtest.py)

    The objects of a test refer to each other: nodes to their host and their
    resource, volumes to their node, collections to their members.  This file
    proves that every reference leads to an object that exists and refers back,
    through all operations of [Cluster], also when one of them fails half-way. *)

From S2P Require Import Prelude PyStr Dict OrderedSet Host Disktools World Config Collections Cluster ConfigFiles.

Record well_typed (w : world) : Prop := WellTyped {
  wt_node n : n < length (w_nodes w) ->
    n_host (node_at w n) < length (w_hosts w) /\ n_resource (node_at w n) < length (w_resources w);
  wt_disk n v : n < length (w_nodes w) -> v ∈ n_disks (node_at w n) -> v < length (w_volumes w) /\ v_node (volume_at w v) = n;
  wt_connection n c : n < length (w_nodes w) -> c ∈ items (n_connections (node_at w n)) ->
    fst c = n /\ snd c < length (w_nodes w) /\ n_resource (node_at w (snd c)) = n_resource (node_at w n);
  wt_volume v : v < length (w_volumes w) -> v_node (volume_at w v) < length (w_nodes w);
  wt_member r n : r < length (w_resources w) -> n ∈ items (r_nodes (resource_at w r)) ->
    n < length (w_nodes w) /\ n_resource (node_at w n) = r
}.

(** Objects stay, and so do the references of their constructors. *)
Record extends (w w' : world) : Prop := Extends {
  ex_hosts : length (w_hosts w') = length (w_hosts w);
  ex_nodes : length (w_nodes w) <= length (w_nodes w');
  ex_volumes : length (w_volumes w) <= length (w_volumes w');
  ex_resources : length (w_resources w) <= length (w_resources w');
  ex_node n : n < length (w_nodes w) ->
    n_host (node_at w' n) = n_host (node_at w n) /\ n_resource (node_at w' n) = n_resource (node_at w n);
  ex_volume v : v < length (w_volumes w) -> v_node (volume_at w' v) = v_node (volume_at w v)
}.
#[export] Instance extends_preorder : PreOrder extends.
Proof.
  split; [intros w; by constructor|]. intros a b c [] []. constructor; try lia.
  - intros n Hn. destruct (ex_node0 n Hn), (ex_node1 n ltac:(lia)). split; congruence.
  - intros v Hv. by rewrite (ex_volume1 v ltac:(lia)), (ex_volume0 v Hv).
Qed.

(** ** The part of the objects that refers to others *)

Definition node_refs (x : node) : nat * nat * list nat * list (nat * nat) :=
  (n_host x, n_resource x, n_disks x, items (n_connections x)).
Definition refs (w : world) :=
  (length (w_hosts w), map node_refs (w_nodes w), map v_node (w_volumes w), map (fun r => items (r_nodes r)) (w_resources w)).
Definition same_refs (w w' : world) : Prop := refs w' = refs w.
#[export] Instance same_refs_preorder : PreOrder same_refs.
Proof. split; [by intros w|]. unfold same_refs. intros a b c. congruence. Qed.

Section same.
Context (w w' : world) (Hs : same_refs w w').

Lemma refs_lengths : length (w_hosts w') = length (w_hosts w) /\ length (w_nodes w') = length (w_nodes w) /\
  length (w_volumes w') = length (w_volumes w) /\ length (w_resources w') = length (w_resources w).
Proof.
  unfold same_refs, refs in Hs. injection Hs as Hh Hn Hv Hr.
  rewrite <-(length_map node_refs (w_nodes w')), Hn, length_map, <-(length_map v_node (w_volumes w')), Hv, length_map.
  by rewrite <-(length_map (fun r => items (r_nodes r)) (w_resources w')), Hr, length_map.
Qed.
Lemma refs_node n : node_refs (node_at w' n) = node_refs (node_at w n).
Proof.
  unfold same_refs, refs in Hs. injection Hs as _ Hn _ _.
  apply (f_equal (fun l => l !! n)) in Hn. rewrite !list_lookup_fmap in Hn. unfold node_at.
  destruct (w_nodes w' !! n), (w_nodes w !! n); cbn in Hn |- *; congruence.
Qed.
Lemma refs_volume v : v_node (volume_at w' v) = v_node (volume_at w v).
Proof.
  unfold same_refs, refs in Hs. injection Hs as _ _ Hv _.
  apply (f_equal (fun l => l !! v)) in Hv. rewrite !list_lookup_fmap in Hv. unfold volume_at.
  destruct (w_volumes w' !! v), (w_volumes w !! v); cbn in Hv |- *; congruence.
Qed.
Lemma refs_resource r : items (r_nodes (resource_at w' r)) = items (r_nodes (resource_at w r)).
Proof.
  unfold same_refs, refs in Hs. injection Hs as _ _ _ Hr.
  apply (f_equal (fun l => l !! r)) in Hr. rewrite !list_lookup_fmap in Hr. unfold resource_at.
  destruct (w_resources w' !! r), (w_resources w !! r); cbn in Hr |- *; congruence.
Qed.
Lemma same_refs_typed : well_typed w -> well_typed w' /\ extends w w'.
Proof.
  intros [Wn Wd Wc Wv Wm]. destruct refs_lengths as (Hh & Hn & Hv & Hr).
  assert (Hnode : forall n, n_host (node_at w' n) = n_host (node_at w n) /\ n_resource (node_at w' n) = n_resource (node_at w n) /\
    n_disks (node_at w' n) = n_disks (node_at w n) /\ items (n_connections (node_at w' n)) = items (n_connections (node_at w n))).
  { intros n. pose proof (refs_node n) as H. by injection H as -> -> -> ->. }
  split; constructor; rewrite ?Hh, ?Hn, ?Hv, ?Hr; try done; intros.
  - destruct (Hnode n) as (-> & -> & _). auto.
  - rewrite refs_volume. apply Wd; [done|]. by destruct (Hnode n) as (_ & _ & <- & _).
  - destruct (Hnode n) as (_ & -> & _ & Hc), (Hnode (snd c)) as (_ & -> & _). apply Wc; [done|]. by rewrite <-Hc.
  - rewrite refs_volume. auto.
  - destruct (Hnode n) as (_ & -> & _). apply Wm; [done|]. by rewrite <-refs_resource.
  - by destruct (Hnode n) as (-> & -> & _).
  - apply refs_volume.
Qed.
End same.

(** ** Rules for operations *)

(** However it ends, [m] leaves well-typed objects; the result satisfies [Q]. *)
Definition safe {A} (m : M world A) (Q : A -> world -> Prop) (w : world) : Prop :=
  well_typed w -> wp m (fun a w' => well_typed w' /\ extends w w' /\ Q a w') (fun _ w' => well_typed w' /\ extends w w') w.
Definition any {A} (_ : A) (_ : world) : Prop := True.

Section rules.
Lemma safe_bind {A B} (m : M world A) (f : A -> M world B) Q R w :
  safe m Q w -> (forall a w', extends w w' -> Q a w' -> safe (f a) R w') -> safe (m ≫= f) R w.
Proof.
  intros Hm Hf Hw. apply wp_bind. eapply wp_mono; [by apply Hm| |done]. intros a w1 (Hw1 & He1 & Hq).
  eapply wp_mono; [by apply (Hf a w1)| |]; cbn.
  - intros b w2 (Hw2 & He2 & Hr). split_and!; [done|by transitivity w1|done].
  - intros e w2 [Hw2 He2]. split; [done|by transitivity w1].
Qed.
Lemma safe_mono {A} (m : M world A) (Q R : A -> world -> Prop) w :
  safe m Q w -> (forall a w', Q a w' -> R a w') -> safe m R w.
Proof. intros Hm HQ Hw. eapply wp_mono; [by apply Hm| |done]. naive_solver. Qed.
Lemma safe_keeps {A} (m : M world A) w : keeps same_refs m -> safe m any w.
Proof.
  intros Hm Hw. specialize (Hm w). unfold wp. destruct (m w) as [[a|e] w']; cbn in Hm;
    destruct (same_refs_typed _ _ Hm Hw) as [Hw' He]; by split_and!.
Qed.
Lemma safe_ret {A} (a : A) (Q : A -> world -> Prop) w : Q a w -> safe (mret a) Q w.
Proof. intros Ha Hw. apply wp_ret. by split_and!. Qed.
Lemma safe_gets {A} (f : world -> A) w : safe (gets f) (fun a w' => a = f w /\ w' = w) w.
Proof. intros Hw. unfold wp, gets. by split_and!. Qed.
Lemma safe_get w : safe get (fun a w' => a = w /\ w' = w) w.
Proof. intros Hw. unfold wp, get. by split_and!. Qed.
Lemma safe_when b (m : M world unit) w : safe m any w -> safe (when b m) any w.
Proof. destruct b; [done|]. intros _. by apply safe_ret. Qed.
Lemma safe_for_each {A} (l : list A) body w :
  (forall x w', x ∈ l -> extends w w' -> safe (body x) any w') -> safe (for_each l body) any w.
Proof.
  revert w. induction l as [|x l IH]; intros w Hb; [by apply safe_ret|]. apply (safe_bind _ _ any).
  - apply Hb; [left|done].
  - intros [] w1 He _. apply IH. intros y w2 Hy He2. apply Hb; [by right|by transitivity w1].
Qed.
Lemma safe_map_each {A B} (l : list A) (body : A -> M world B) (Q : B -> world -> Prop) w :
  (forall b w1 w2, extends w1 w2 -> Q b w1 -> Q b w2) ->
  (forall x w', x ∈ l -> extends w w' -> safe (body x) Q w') ->
  safe (map_each l body) (fun bs w' => forall b, b ∈ bs -> Q b w') w.
Proof.
  intros Hmono. revert w. induction l as [|x l IH]; intros w Hb; [apply safe_ret; by intros b ?%not_elem_of_nil|].
  cbn [map_each]. apply (safe_bind _ _ Q); [apply Hb; [left|done]|]. intros b w1 He Hbq.
  eapply safe_bind; [apply IH; intros y w2 Hy He2; apply Hb; [by right|by transitivity w1]|].
  intros bs w2 He2 Hbs. apply safe_ret. intros c [->|Hc]%elem_of_cons; [by eapply Hmono|by apply Hbs].
Qed.
End rules.

(** ** Operations that leave the references alone *)

Lemma core_refs w w' : same_core w w' -> same_refs w w'.
Proof.
  unfold same_core, core, same_refs, refs. intros [= Hh Hn Hv Hr]. f_equal; [f_equal; [f_equal|]|].
  - by rewrite <-(length_map (set_pool None) (w_hosts w')), Hh, length_map.
  - apply (f_equal (map node_refs)) in Hn. rewrite !map_map in Hn. exact Hn.
  - apply (f_equal (map v_node)) in Hv. rewrite !map_map in Hv. exact Hv.
  - by rewrite Hr.
Qed.
Lemma keeps_refs {A} (m : M world A) : keeps same_core m -> keeps same_refs m.
Proof. intros Hm w. apply core_refs, Hm. Qed.
Lemma keeps_refs_node n f : (forall x, node_refs (f x) = node_refs x) -> keeps same_refs (set_node n f).
Proof. intros Hf w. unfold same_refs, refs. simpl. by rewrite map_alter_same. Qed.
Lemma keeps_refs_host h f : keeps same_refs (set_host h f).
Proof. intros w. unfold same_refs, refs. simpl. by rewrite length_alter. Qed.
Lemma keeps_refs_resource r f : (forall x, items (r_nodes (f x)) = items (r_nodes x)) -> keeps same_refs (set_resource r f).
Proof. intros Hf w. unfold same_refs, refs. simpl. rewrite map_alter_same; [done|exact Hf]. Qed.
Lemma keeps_refs_volume v f : (forall x, v_node (f x) = v_node x) -> keeps same_refs (set_volume v f).
Proof. intros Hf w. unfold same_refs, refs. simpl. by rewrite map_alter_same. Qed.
Lemma keeps_refs_env {A} (m : M env A) : keeps same_refs (on_env m).
Proof. apply keeps_refs, keeps_core_on_env. Qed.

(** What is not there is not changed. *)
Lemma keeps_refs_node_none n f w : length (w_nodes w) <= n -> same_refs w (snd (set_node n f w)).
Proof.
  intros Hn. unfold same_refs, refs. cbn. f_equal. f_equal. f_equal. apply list_eq. intros i. rewrite !list_lookup_fmap.
  destruct (decide (i = n)) as [->|Hne]; [|by rewrite list_lookup_alter_ne].
  rewrite list_lookup_alter_eq. by rewrite (lookup_ge_None_2 (w_nodes w)).
Qed.

Ltac solve_refs :=
  repeat first
    [ apply keeps_bind; [exact _| |intros ?] | apply keeps_when; [exact _|]
    | apply keeps_for_each; [exact _|intros ? _]
    | apply keeps_ret; exact _ | apply keeps_raise; exact _ | apply keeps_gets; exact _ | apply keeps_get; exact _
    | apply keeps_lift; exact _ | apply keeps_refs_env | apply keeps_refs_host
    | apply keeps_refs_node; done | apply keeps_refs_resource; done | apply keeps_refs_volume; done | case_match ].

(** ** New objects and new references *)

Lemma coll_add_items {K R} `{Countable K} `{EqDecision R} (resource : K -> R) k (s : oset K) :
  items (snd (coll_add resource k s)) = items s \/ items (snd (coll_add resource k s)) = items s ++ [k].
Proof.
  unfold coll_add, gets, py_assert, modify. mred. destruct (same_resource _ _ _); [|by left]. cbn.
  unfold os_add. destruct (os_contains k s); [by left|by right].
Qed.
Lemma coll_remove_items {K R} `{Countable K} `{EqDecision R} (resource : K -> R) k (s : oset K) x :
  x ∈ items (snd (coll_remove resource k s)) -> x ∈ items s.
Proof.
  unfold coll_remove, gets, py_assert, when. mred. destruct (same_resource _ _ _); [|done]. cbn.
  destruct (os_contains k s) eqn:Hc; [|done]. cbn. unfold os_remove. rewrite Hc. cbn.
  destruct (list_remove k (items s)) as [l|] eqn:Hl; [|done]. cbn. intros Hx.
  by eapply list_remove_subset.
Qed.

Section fresh.
Context (w : world).

Lemma safe_new_resource x : items (r_nodes x) = [] -> safe (new_resource x) (fun r w' => r < length (w_resources w')) w.
Proof.
  intros Hx [Wn Wd Wc Wv Wm]. unfold wp, new_resource. set (w' := World _ _ _ _ _).
  assert (Hl : length (w_resources w') = S (length (w_resources w))) by (cbn; rewrite length_app; cbn; lia).
  split_and!; [constructor; rewrite ?Hl; try done|constructor; rewrite ?Hl; try done; lia|rewrite Hl; lia].
  - intros n Hn. destruct (Wn n Hn). split; [done|]. cbn in *. unfold node_at in *. cbn. lia.
  - intros r n Hr Hin. destruct (decide (r = length (w_resources w))) as [->|Hne].
    + unfold resource_at, w' in Hin. cbn in Hin. rewrite lookup_app_r, Nat.sub_diag in Hin by lia. cbn in Hin. rewrite Hx in Hin. by apply not_elem_of_nil in Hin.
    + unfold resource_at, w' in Hin. cbn in Hin. rewrite lookup_app_l in Hin by lia. apply Wm; [lia|exact Hin].
Qed.

Lemma safe_new_node h r p k : h < length (w_hosts w) -> r < length (w_resources w) ->
  safe (new_node (NewNode h r p [] k os_empty EmptyString true))
    (fun n w' => n < length (w_nodes w') /\ n_resource (node_at w' n) = r /\ length (w_resources w') = length (w_resources w)) w.
Proof.
  intros Hh Hr [Wn Wd Wc Wv Wm]. unfold wp, new_node. set (x := NewNode _ _ _ _ _ _ _ _). set (w' := World _ _ _ _ _).
  assert (Hl : length (w_nodes w') = S (length (w_nodes w))) by (cbn; rewrite length_app; cbn; lia).
  assert (Hold : forall n, n < length (w_nodes w) -> node_at w' n = node_at w n).
  { intros n Hn. unfold node_at, w'. cbn. by rewrite lookup_app_l. }
  assert (Hnew : node_at w' (length (w_nodes w)) = x).
  { unfold node_at, w'. cbn. by rewrite lookup_app_r, Nat.sub_diag by lia. }
  assert (Hcase : forall n, n < length (w_nodes w') -> n < length (w_nodes w) \/ n = length (w_nodes w)) by (intros n; rewrite Hl; lia).
  split_and!; [constructor|constructor; rewrite ?Hl; try done; try lia|rewrite Hl; lia|by rewrite Hnew|done].
  - intros n [Hn| ->]%Hcase; [rewrite Hold by done; by apply Wn|by rewrite Hnew].
  - intros n v [Hn| ->]%Hcase; [rewrite Hold by done; by apply Wd|rewrite Hnew; cbn; by intros ?%not_elem_of_nil].
  - intros n c [Hn| ->]%Hcase; [|rewrite Hnew; cbn; by intros ?%not_elem_of_nil].
    rewrite Hold by done. intros Hc. destruct (Wc n c Hn Hc) as (H1 & H2 & H3). rewrite (Hold (snd c)) by done. split_and!; [done|lia|done].
  - intros v Hv. pose proof (Wv v Hv). change (volume_at w' v) with (volume_at w v). lia.
  - intros s n Hs Hin. destruct (Wm s n Hs Hin). rewrite Hold by done. split; [lia|done].
  - intros n Hn. by rewrite Hold.
Qed.

Lemma safe_new_volume vnr m n : n < length (w_nodes w) ->
  safe (new_volume (NewVolume vnr m n None None None)) (fun v w' => v < length (w_volumes w') /\ v_node (volume_at w' v) = n) w.
Proof.
  intros Hn [Wn Wd Wc Wv Wm]. unfold wp, new_volume. set (x := NewVolume _ _ _ _ _ _). set (w' := World _ _ _ _ _).
  assert (Hl : length (w_volumes w') = S (length (w_volumes w))) by (cbn; rewrite length_app; cbn; lia).
  assert (Hold : forall v, v < length (w_volumes w) -> volume_at w' v = volume_at w v).
  { intros v Hv. unfold volume_at, w'. cbn. by rewrite lookup_app_l. }
  assert (Hnew : volume_at w' (length (w_volumes w)) = x).
  { unfold volume_at, w'. cbn. by rewrite lookup_app_r, Nat.sub_diag by lia. }
  split_and!; [constructor; try done|constructor; rewrite ?Hl; try done; try lia|rewrite Hl; lia|by rewrite Hnew].
  - intros k v Hk Hv. destruct (Wd k v Hk Hv) as [Hlt Hvn]. rewrite Hold by done. split; [lia|done].
  - intros v Hv. destruct (decide (v = length (w_volumes w))) as [->|Hne]; [by rewrite Hnew|].
    rewrite Hold by lia. apply Wv. lia.
  - intros v Hv. by rewrite Hold.
Qed.
End fresh.

(** Changing one node or one resource *)
Section change.
Context (w : world).

Lemma node_at_alter f n m (w1 := World (w_env w) (w_hosts w) (alter f n (w_nodes w)) (w_volumes w) (w_resources w)) :
  n < length (w_nodes w) -> node_at w1 m = if decide (m = n) then f (node_at w n) else node_at w m.
Proof.
  intros Hn. unfold node_at, w1. cbn [w_nodes]. case_decide as Hm; [subst|by rewrite list_lookup_alter_ne].
  rewrite list_lookup_alter_eq. by destruct (lookup_lt_is_Some_2 _ _ Hn) as [x ->].
Qed.
Lemma safe_set_node n f :
  n < length (w_nodes w) -> n_host (f (node_at w n)) = n_host (node_at w n) -> n_resource (f (node_at w n)) = n_resource (node_at w n) ->
  (forall v, v ∈ n_disks (f (node_at w n)) -> v < length (w_volumes w) /\ v_node (volume_at w v) = n) ->
  (forall c, c ∈ items (n_connections (f (node_at w n))) ->
     fst c = n /\ snd c < length (w_nodes w) /\ n_resource (node_at w (snd c)) = n_resource (node_at w n)) ->
  safe (set_node n f) any w.
Proof.
  intros Hn Hh Hr Hd Hc [Wn Wd Wc Wv Wm]. unfold wp, set_node, modify. set (w' := World _ _ _ _ _).
  assert (Hl : length (w_nodes w') = length (w_nodes w)) by apply length_alter.
  assert (Hat : forall m, node_at w' m = if decide (m = n) then f (node_at w n) else node_at w m) by (intros m; by apply node_at_alter).
  assert (Hsame : forall m, n_host (node_at w' m) = n_host (node_at w m) /\ n_resource (node_at w' m) = n_resource (node_at w m)).
  { intros m. rewrite Hat. by case_decide; subst. }
  split_and!; [constructor; rewrite ?Hl|constructor; rewrite ?Hl; try done; intros m _; apply Hsame|done].
  - intros m Hm. destruct (Hsame m) as [-> ->]. by apply Wn.
  - intros m v Hm. rewrite Hat. case_decide; [subst; apply Hd|by apply Wd].
  - intros m c Hm Hin. destruct (Hsame m) as [_ ->], (Hsame (snd c)) as [_ ->]. rewrite Hat in Hin. case_decide; [subst; by apply Hc|by apply Wc].
  - exact Wv.
  - intros r m Hm Hin. destruct (Hsame m) as [_ ->]. by apply Wm.
Qed.
Lemma safe_set_members r s : (r < length (w_resources w) -> forall n, n ∈ items s -> n < length (w_nodes w) /\ n_resource (node_at w n) = r) ->
  safe (set_resource r (set_r_nodes s)) any w.
Proof.
  intros Hs [Wn Wd Wc Wv Wm]. unfold wp, set_resource, modify. set (w' := World _ _ _ _ _).
  assert (Hl : length (w_resources w') = length (w_resources w)) by apply length_alter.
  split_and!; [constructor; rewrite ?Hl; try done|constructor; rewrite ?Hl; done|done].
  intros q n Hq. unfold resource_at, w'. cbn [w_resources]. destruct (decide (q = r)) as [->|Hne].
  - rewrite list_lookup_alter_eq. destruct (lookup_lt_is_Some_2 _ _ Hq) as [x ->]. cbn. by apply Hs.
  - rewrite list_lookup_alter_ne by done. by apply Wm.
Qed.
End change.

(** ** Operations on resources *)

Section operations.
Context `{SshServer} (g : globals) (job : string) (uuid5 : string -> string).

Lemma safe_add_to_nodes r n w : n < length (w_nodes w) -> n_resource (node_at w n) = r -> safe (add_to_nodes r n) any w.
Proof.
  intros Hn Hr Hw. unfold wp, add_to_nodes. set (res_of := fun n => n_resource (node_at w n)).
  destruct (coll_add res_of n (r_nodes (resource_at w r))) as [x s] eqn:Hc.
  assert (Hs : forall m, m ∈ items s -> m < length (w_nodes w) /\ n_resource (node_at w m) = r).
  { assert (Hold : forall m, m ∈ items (r_nodes (resource_at w r)) -> m < length (w_nodes w) /\ n_resource (node_at w m) = r).
    { intros m Hm. apply (wt_member w Hw); [|done]. rewrite <-Hr. apply (wt_node w Hw n Hn). }
    pose proof (coll_add_items res_of n (r_nodes (resource_at w r))) as Hi. rewrite Hc in Hi. cbn [snd] in Hi.
    intros m Hm. destruct Hi as [Hi|Hi]; rewrite Hi in Hm; [by apply Hold|].
    apply elem_of_app in Hm as [Hm| ->%list_elem_of_singleton]; [by apply Hold|done]. }
  pose proof (safe_set_members w r s (fun _ => Hs) Hw) as (H1 & H2 & _). by destruct x; split_and!.
Qed.
Lemma safe_add_connection n0 n1 w : n0 < length (w_nodes w) -> n1 < length (w_nodes w) -> safe (add_connection n0 n1) any w.
Proof.
  intros H0 H1 Hw. unfold wp, add_connection, new_connection. set (res_of := fun n => n_resource (node_at w n)).
  case_decide as Hres; [|by split_and!].
  destruct (coll_add (connection_resource res_of) (n0, n1) (n_connections (node_at w n0))) as [x s] eqn:Hc.
  pose proof (coll_add_items (connection_resource res_of) (n0, n1) (n_connections (node_at w n0))) as Hi. rewrite Hc in Hi. cbn [snd] in Hi.
  assert (Hset : safe (set_node n0 (set_connections s)) any w).
  { apply safe_set_node; try done; [intros v Hv; by apply (wt_disk w Hw)|]. cbn [n_connections set_connections]. intros c Hin.
    destruct Hi as [Hi|Hi]; rewrite Hi in Hin; [by apply (wt_connection w Hw)|].
    apply elem_of_app in Hin as [Hin| ->%list_elem_of_singleton]; [by apply (wt_connection w Hw)|done]. }
  destruct (Hset Hw) as (Ht & He & _). by destruct x; split_and!.
Qed.
Lemma safe_remove_member r n w :
  safe (fun w => let '(res, s) := coll_remove (fun n => n_resource (node_at w n)) n (r_nodes (resource_at w r)) in
                 let '(_, w) := set_resource r (set_r_nodes s) w in (res, w)) any w.
Proof.
  intros Hw. unfold wp. set (res_of := fun n => n_resource (node_at w n)).
  destruct (coll_remove res_of n (r_nodes (resource_at w r))) as [x s] eqn:Hc.
  assert (Hs : forall m, m ∈ items s -> m ∈ items (r_nodes (resource_at w r))).
  { intros m Hm. apply (coll_remove_items res_of n). by rewrite Hc. }
  pose proof (safe_set_members w r s (fun Hr m Hm => wt_member w Hw r m Hr (Hs m Hm)) Hw) as (H1 & H2 & _).
  by destruct x; split_and!.
Qed.

Lemma safe_node_init h r p w : h < length (w_hosts w) -> r < length (w_resources w) -> safe (node_init h r p) any w.
Proof.
  intros Hh Hr. unfold node_init. eapply safe_bind; [apply safe_gets|]. intros k w1 _ [-> ->].
  eapply safe_bind; [by apply safe_new_node|]. intros n w2 _ (Hn & Hnr & _).
  apply (safe_bind _ _ any); [by apply safe_add_to_nodes|]. intros [] w3 _ _. apply safe_keeps. unfold init_node. solve_refs.
Qed.
Lemma safe_next_port h w : safe (next_port h) any w.
Proof. apply safe_keeps. unfold next_port. solve_refs. Qed.

(** The members of a resource *)
Lemma safe_members r w : safe (gets (fun w => elems (r_nodes (resource_at w r))))
  (fun ns w' => w' = w /\ forall n, n ∈ ns -> n < length (w_nodes w) /\ n_resource (node_at w n) = r) w.
Proof.
  intros Hw. unfold wp, gets. split_and!; [done|done|done|]. intros n Hn. destruct (decide (r < length (w_resources w))) as [Hr|Hr].
  - exact (wt_member w Hw r n Hr Hn).
  - unfold resource_at in Hn. rewrite lookup_ge_None_2 in Hn by lia. by apply not_elem_of_nil in Hn.
Qed.

Lemma safe_create_resource name tr tls w : safe (create_resource name tr tls) any w.
Proof.
  unfold create_resource. eapply safe_bind; [by apply safe_new_resource|]. intros r w1 _ Hr. cbn in Hr.
  eapply safe_bind; [apply safe_gets|]. intros hs w2 _ [-> ->]. apply (safe_bind _ _ any).
  - apply safe_for_each. intros h w2 Hh%elem_of_seq [He1 _ _ He2 _ _].
    apply (safe_bind _ _ any); [apply safe_next_port|]. intros p w3 [He3 _ _ He4 _ _] _. apply safe_node_init; lia.
  - intros [] w2 [_ _ _ He2 _ _] _. eapply safe_bind; [apply safe_members|]. intros ns w3 _ [-> Hns].
    apply (safe_bind _ _ any); [|intros [] w3 _ _; by apply safe_ret].
    apply safe_for_each. intros n0 w3 H0 [_ He3 _ _ _ _]. apply safe_for_each. intros n1 w4 H1 [_ He4 _ _ _ _].
    destruct (Hns n0 H0), (Hns n1 H1). case_decide; [by apply safe_ret|]. apply safe_add_connection; lia.
Qed.

Lemma refs_touch_config r : keeps same_refs (touch_config r).
Proof. unfold touch_config. solve_refs. Qed.
Lemma refs_update_config n : keeps same_refs (update_config g job n).
Proof. apply keeps_refs, keeps_update_config. Qed.
Lemma refs_node_run n cmd : keeps same_refs (node_run g job n cmd).
Proof. apply keeps_refs, keeps_node_run. Qed.
Lemma refs_drbdadm n cmd : keeps same_refs (drbdadm g job n cmd).
Proof. unfold drbdadm. apply keeps_bind; [exact _|solve_refs|intros x; apply refs_node_run]. Qed.
Lemma refs_set_options r a b c d : keeps same_refs (set_options r a b c d).
Proof. unfold set_options. apply keeps_bind; [exact _|solve_refs|intros _; apply refs_touch_config]. Qed.
Lemma refs_set_fencing n mode : keeps same_refs (set_fencing_mode n mode).
Proof. unfold set_fencing_mode. solve_refs. Qed.
Lemma refs_set_tiebreaker v b : keeps same_refs (set_tiebreaker v b).
Proof.
  unfold set_tiebreaker. apply keeps_bind; [exact _|solve_refs|intros _].
  apply keeps_bind; [exact _|solve_refs|intros r; apply refs_touch_config].
Qed.
Lemma refs_remove_pools : keeps same_refs cluster_remove_storage_pool.
Proof. unfold cluster_remove_storage_pool, host_remove_storage_pool. solve_refs. Qed.
Lemma refs_create_pools thin gran : keeps same_refs (cluster_create_storage_pool thin gran).
Proof.
  unfold cluster_create_storage_pool. apply keeps_bind; [exact _|solve_refs|intros hs].
  apply keeps_for_each; [exact _|]. intros h _. apply keeps_refs, keeps_create_pool.
Qed.

(** ** Operations on disks *)

Lemma safe_volume_init n vnr minor w : n < length (w_nodes w) ->
  safe (volume_init n vnr minor) (fun v w' => v < length (w_volumes w') /\ v_node (volume_at w' v) = n) w.
Proof.
  intros Hn. unfold volume_init. apply (safe_bind _ _ any).
  - apply safe_keeps. unfold next_minor. solve_refs.
  - intros m w1 [_ He _ _ _ _] _. apply safe_new_volume. lia.
Qed.
Definition volume_of (n : nat) (v : nat) (w : world) : Prop :=
  n < length (w_nodes w) /\ v < length (w_volumes w) /\ v_node (volume_at w v) = n.
Lemma volume_of_extends n v w w' : extends w w' -> volume_of n v w -> volume_of n v w'.
Proof. intros [_ Hn Hv _ _ Hvn] (H1 & H2 & H3). split_and!; [lia|lia|]. by rewrite Hvn. Qed.

(** A result computed along the way that concerns no reference *)
Lemma safe_then {A B} (m : M world A) (f : A -> M world B) Q w :
  keeps same_refs m -> (forall a w', extends w w' -> safe (f a) Q w') -> safe (m ≫= f) Q w.
Proof. intros Hm Hf. apply (safe_bind _ _ any); [by apply safe_keeps|]. intros a w' He _. by apply Hf. Qed.

Lemma safe_attach n vnr v w : n < length (w_nodes w) -> v < length (w_volumes w) /\ v_node (volume_at w v) = n ->
  safe (set_node n (fun x => set_changed true (set_disks (if decide (length (n_disks x) <= vnr) then n_disks x ++ [v]
                                                          else <[vnr := v]> (n_disks x)) x))) any w.
Proof.
  intros Hn Hv Hw. apply safe_set_node; try done; [|intros c Hc; by apply (wt_connection w Hw)].
  cbn [n_disks set_changed set_disks]. intros u Hu. case_decide.
  - apply elem_of_app in Hu as [Hu| ->%list_elem_of_singleton]; [by apply (wt_disk w Hw)|done].
  - apply list_elem_of_lookup in Hu as [i Hi]. destruct (decide (i = vnr)) as [->|Hne].
    + rewrite list_lookup_insert_eq in Hi by lia. by injection Hi as <-.
    + rewrite list_lookup_insert_ne in Hi by done. apply (wt_disk w Hw); [done|]. apply list_elem_of_lookup. by exists i.
Qed.
Lemma safe_node_add_disk n vnr size a w : n < length (w_nodes w) -> safe (node_add_disk g job uuid5 n vnr size a) (volume_of n) w.
Proof.
  intros Hn. unfold node_add_disk. do 2 (apply safe_then; [solve_refs|]; intros ? ? [_ ? _ _ _ _]).
  apply safe_then; [apply keeps_when; [exact _|]; apply keeps_refs, keeps_create_pool|]. intros [] w3 [_ ? _ _ _ _].
  do 2 (apply safe_then; [solve_refs|]; intros ? ? [_ ? _ _ _ _]).
  eapply safe_bind; [apply safe_volume_init; lia|]. intros v w6 [_ ? _ _ _ _] [Hv Hvn].
  assert (Hvol : volume_of n v w6) by (split_and!; [lia|done|done]). clear Hv Hvn.
  apply safe_then.
  { destruct size; [|solve_refs]. apply keeps_bind; [exact _|apply keeps_refs, keeps_create_disks|intros _].
    apply keeps_when; [exact _|]. apply keeps_bind; [exact _|solve_refs|intros d; apply refs_node_run]. }
  intros [] w7 He. apply (volume_of_extends n v w6 w7 He) in Hvol. apply (safe_bind _ _ any); [by apply safe_attach; apply Hvol|].
  intros [] w8 He8 _. apply safe_ret. by apply (volume_of_extends n v w7 w8 He8).
Qed.

Lemma refs_volume_create_md v mp bbs f : keeps same_refs (volume_create_md g job v mp bbs f).
Proof. apply keeps_refs, keeps_volume_create_md. Qed.

Lemma safe_add_disk r size dn mp bbs a f w : safe (add_disk g job uuid5 r size dn mp bbs a f) any w.
Proof.
  unfold add_disk. apply safe_then; [unfold next_volume; solve_refs|]. intros vnr w1 _.
  eapply safe_bind; [apply safe_members|]. intros ns w2 _ [-> Hns].
  eapply safe_bind.
  - apply (safe_map_each ns _ (fun vs w => True)); [done|]. intros n w2 Hn [_ Hl _ _ _ _].
    assert (Hlt : n < length (w_nodes w2)).
    { destruct (Hns n Hn). lia. }
    case_match; (eapply safe_bind; [by apply safe_node_add_disk|]; intros v w3 _ _; by apply safe_ret).
  - intros vss w2 _ _. apply safe_then; [|intros [] w3 _; by apply safe_ret].
    apply keeps_for_each; [exact _|]. intros v _. apply keeps_bind; [exact _|solve_refs|intros n; apply refs_volume_create_md].
Qed.

Lemma safe_remove_disks n w : safe (remove_disks n) any w.
Proof.
  unfold remove_disks. do 2 (apply safe_then; [solve_refs|]; intros ? ? _). apply safe_then; [solve_refs|]. intros [] w3 _.
  intros Hw. destruct (decide (n < length (w_nodes w3))) as [Hn|Hn].
  - apply safe_set_node; try done; [cbn; intros v Hv; by apply not_elem_of_nil in Hv|intros c Hc; by apply (wt_connection w3 Hw)].
  - destruct (same_refs_typed _ _ (keeps_refs_node_none n (set_disks []) w3 ltac:(lia)) Hw) as [Ht He].
    unfold wp, set_node, modify in *. by split_and!.
Qed.
Lemma safe_remove_storage_pool r w : safe (remove_storage_pool r) any w.
Proof.
  unfold remove_storage_pool. apply safe_then; [solve_refs|]. intros ns w1 _.
  apply (safe_bind _ _ any); [apply safe_for_each; intros n w2 _ _; apply safe_remove_disks|]. intros [] w2 _ _.
  apply safe_then; [solve_refs|]. intros [] w3 _. apply safe_keeps, refs_remove_pools.
Qed.

(** ** Runs of operations *)

Inductive heap_op :=
| HConf (o : conf_op)
| HRemoveDisks (n : nat)
| HCreatePools (thin : bool) (discard_granularity : option Z)
| HRemovePools (r : nat)
| HCreateMd (v : nat) (max_peers bitmap_block_size : option Z) (f : md_flags).
Definition heap_step (o : heap_op) : M world unit :=
  match o with
  | HConf o => conf_step g job uuid5 o
  | HRemoveDisks n => remove_disks n
  | HCreatePools thin gran => cluster_create_storage_pool thin gran
  | HRemovePools r => remove_storage_pool r
  | HCreateMd v mp bbs f => volume_create_md g job v mp bbs f
  end.
(** A node is added to the resource it was made for. *)
Definition heap_guard (o : heap_op) (w : world) : Prop :=
  match o with
  | HConf (OpAddNode r n) => n < length (w_nodes w) /\ n_resource (node_at w n) = r
  | _ => True
  end.
(** Operations one after the other; a test may go on after one that fails. *)
Inductive heap_runs : list heap_op -> world -> world -> Prop :=
| heap_runs_nil w : heap_runs [] w w
| heap_runs_cons o ops w r w1 w2 : heap_guard o w -> heap_step o w = (r, w1) -> heap_runs ops w1 w2 -> heap_runs (o :: ops) w w2.

Lemma safe_heap_step o w : heap_guard o w -> safe (heap_step o) any w.
Proof.
  destruct o as [[]| | | |]; cbn [heap_step conf_step heap_guard]; intros Hg.
  - apply (safe_bind _ _ any); [apply safe_create_resource|]. intros r w1 _ _. by apply safe_ret.
  - apply safe_keeps, refs_node_run.
  - apply safe_keeps, refs_drbdadm.
  - apply safe_keeps, refs_set_options.
  - apply safe_keeps, refs_set_fencing.
  - apply safe_keeps. unfold resource_set_fencing_mode. apply keeps_bind; [exact _|solve_refs|intros ns].
    apply keeps_for_each; [exact _|]. intros n0 _. apply refs_set_fencing.
  - apply safe_keeps, refs_set_tiebreaker.
  - apply (safe_bind _ _ any); [apply safe_add_to_nodes; apply Hg|]. intros [] w1 _ _. apply safe_keeps, refs_touch_config.
  - apply (safe_bind _ _ any); [apply safe_remove_member|]. intros [] w1 _ _. apply safe_keeps, refs_touch_config.
  - apply (safe_bind _ _ any); [apply safe_add_disk|]. intros v w1 _ _. by apply safe_ret.
  - apply safe_remove_disks.
  - apply safe_keeps, refs_create_pools.
  - apply safe_remove_storage_pool.
  - apply safe_keeps, refs_volume_create_md.
Qed.
Lemma heap_runs_typed ops w w' : heap_runs ops w w' -> well_typed w -> well_typed w' /\ extends w w'.
Proof.
  induction 1 as [w|o ops w r w1 w2 Hg Hs _ IH]; intros Hw; [by split|].
  pose proof (safe_heap_step o w Hg Hw) as Hstep. unfold wp in Hstep. rewrite Hs in Hstep.
  assert (H1 : well_typed w1 /\ extends w w1) by (by destruct r; [destruct Hstep as (? & ? & _)|]).
  destruct H1 as [Hw1 He1]. destruct (IH Hw1) as [Hw2 He2]. split; [done|by transitivity w1].
Qed.
End operations.

(** ** Properties *)

(** C6: however many operations a test has run on a new cluster, and whether
    they have succeeded or stopped half-way with an exception, every reference
    leads to an object of its kind that refers back: nodes are on hosts and in
    resources that exist, the disks of a node are volumes of this node, the
    connections of a node begin at it and lead to a node of the same resource,
    and the members of a resource are nodes made for it; and no object that
    has been created is ever taken away. *)
Theorem references_stay_well_typed `{SshServer} g job uuid5 ops w0 w :
  only_hosts w0 -> w_volumes w0 = [] -> heap_runs g job uuid5 ops w0 w -> well_typed w /\ extends w0 w.
Proof.
  intros (Hn & Hr & _) Hv Hrun. eapply heap_runs_typed; [exact Hrun|]. constructor; rewrite ?Hn, ?Hr, ?Hv; cbn; lia.
Qed.

(** ** Witnesses *)

(** The second host fails to create the metadata of its new disk. *)
#[local] Instance failing_server : SshServer := fun _ c =>
  Ok (if has_sub "create-md" (s_command c) && bool_decide (s_host c = "b") then 1%Z else 0%Z, EmptyString).
Definition demo_heap_ops : list heap_op :=
  [HConf (OpCreate "r" None "no"); HConf (OpAddDisk 0 "10M" None None [] demo_args (MdFlags None false false false false));
   HConf (OpOptions 0 "protocol C;" "" "" ""); HRemoveDisks 1].
Definition demo_steps (ops : list heap_op) : world :=
  foldl (fun w o => snd (heap_step demo_globals "job" (fun s => s) o w)) demo_cluster ops.
Lemma demo_heap_runs `{SshServer} ops w : Forall (fun o => forall w, heap_guard o w) ops ->
  heap_runs demo_globals "job" (fun s => s) ops w (foldl (fun w o => snd (heap_step demo_globals "job" (fun s => s) o w)) w ops).
Proof.
  intros Hops. revert w. induction Hops as [|o ops Ho _ IH]; intros w; [apply heap_runs_nil|].
  eapply heap_runs_cons; [apply Ho|apply surjective_pairing|apply IH].
Qed.
Example second_step_fails :
  is_ok (fst (heap_step demo_globals "job" (fun s => s) (HConf (OpAddDisk 0 "10M" None None [] demo_args (MdFlags None false false false false)))
    (demo_steps (take 1 demo_heap_ops)))) = false.
Proof. vm_compute. reflexivity. Qed.

Lemma references_stay_well_typed_witness : well_typed (demo_steps demo_heap_ops) /\ length (w_volumes (demo_steps demo_heap_ops)) = 2.
Proof.
  split; [|vm_compute; reflexivity].
  refine (proj1 (references_stay_well_typed demo_globals "job" (fun s => s) demo_heap_ops demo_cluster _ _ _ _)).
  - split; [reflexivity|]. split; [reflexivity|]. apply (bool_decide_unpack _). vm_compute. exact I.
  - reflexivity.
  - apply demo_heap_runs. repeat (apply List.Forall_cons; [intros w; exact I|]). apply List.Forall_nil.
Defined.
