(* ===== verification/Firewall.v ===== *)
(** * Blocking network paths and packets (src/python/drbdtest.py, [Node], and
    the platform helpers)

    The iptables commands that block a path between two nodes or one type of
    DRBD packet, and those that undo it.  What iptables does with a command is
    not the code's: it is an interface, with the laws the tests rely on. *)

From S2P Require Import Prelude PyStr OrderedSet Host World Config Cluster.
From Stdlib Require Import QArith.
#[local] Close Scope Q_scope.

(** ** Commands *)

(** [if p: r.extend((name, str(p)))] *)
Definition port_args (name : string) (p : option nat) : list string :=
  match p with Some (S _ as n) => [name; str_nat n] | _ => [] end.

Definition iptables_cmd_1 (chain sa : string) (sp : option nat) (da : string) (dp : option nat)
    (jump add_remove udp_tcp : string) (additional_filter : list string) : list string :=
  ["iptables"; add_remove; chain; "-p"; udp_tcp; "--source"; sa; "--destination"; da] ++
  port_args "--source-port" sp ++ port_args "--destination-port" dp ++ ["-j"; jump] ++ additional_filter.

Definition uses_rdma (w : world) (n : nat) : bool :=
  bool_decide (transport (resource_at w (n_resource (node_at w n))) = Some "rdma").

(** [_iptables_cmd]; the code does not pass [additional_filter] on. *)
Definition iptables_cmd (w : world) (self node2 : nat) (jump : string) (path_nr : Z) (add_remove : string)
    (additional_filter : list string) : res (list (list string)) :=
  let* a1 := py_index (h_addrs (node_info w self)) path_nr in
  let* a2 := py_index (h_addrs (node_info w node2)) path_nr in
  let port1 := Some (n_port (node_at w self)) in
  let port2 := Some (n_port (node_at w node2)) in
  Ok (if uses_rdma w self then
        [iptables_cmd_1 "drbd-test-output" a1 None a2 (Some 4791) jump add_remove "udp" [];
         iptables_cmd_1 "drbd-test-input" a2 None a1 (Some 4791) jump add_remove "udp" []]
      else
        [iptables_cmd_1 "drbd-test-output" a1 port1 a2 None jump add_remove "tcp" [];
         iptables_cmd_1 "drbd-test-output" a1 None a2 port2 jump add_remove "tcp" [];
         iptables_cmd_1 "drbd-test-input" a2 None a1 port1 jump add_remove "tcp" [];
         iptables_cmd_1 "drbd-test-input" a2 port2 a1 None jump add_remove "tcp" []]).

(** The packet types *)
Definition packet_types : list (string * Z) :=
  [("P_DATA", 0x00); ("P_DATA_REPLY", 0x01); ("P_RS_DATA_REPLY", 0x02); ("P_BARRIER", 0x03);
   ("P_BITMAP", 0x04); ("P_BECOME_SYNC_TARGET", 0x05); ("P_BECOME_SYNC_SOURCE", 0x06);
   ("P_UNPLUG_REMOTE", 0x07); ("P_DATA_REQUEST", 0x08); ("P_RS_DATA_REQUEST", 0x09);
   ("P_SYNC_PARAM", 0x0a); ("P_PROTOCOL", 0x0b); ("P_UUIDS", 0x0c); ("P_SIZES", 0x0d);
   ("P_STATE", 0x0e); ("P_SYNC_UUID", 0x0f); ("P_AUTH_CHALLENGE", 0x10); ("P_AUTH_RESPONSE", 0x11);
   ("P_STATE_CHG_REQ", 0x12); ("P_PING", 0x13); ("P_PING_ACK", 0x14); ("P_RECV_ACK", 0x15);
   ("P_WRITE_ACK", 0x16); ("P_RS_WRITE_ACK", 0x17); ("P_SUPERSEDED", 0x18); ("P_NEG_ACK", 0x19);
   ("P_NEG_DREPLY", 0x1a); ("P_NEG_RS_DREPLY", 0x1b); ("P_BARRIER_ACK", 0x1c);
   ("P_STATE_CHG_REPLY", 0x1d); ("P_OV_REQUEST", 0x1e); ("P_OV_REPLY", 0x1f); ("P_OV_RESULT", 0x20);
   ("P_CSUM_RS_REQUEST", 0x21); ("P_RS_IS_IN_SYNC", 0x22); ("P_SYNC_PARAM89", 0x23);
   ("P_COMPRESSED_BITMAP", 0x24); ("P_DELAY_PROBE", 0x27); ("P_OUT_OF_SYNC", 0x28);
   ("P_RS_CANCEL", 0x29); ("P_CONN_ST_CHG_REQ", 0x2a); ("P_CONN_ST_CHG_REPLY", 0x2b);
   ("P_RETRY_WRITE", 0x2c); ("P_PROTOCOL_UPDATE", 0x2d); ("P_TWOPC_PREPARE", 0x2e);
   ("P_TWOPC_ABORT", 0x2f); ("P_DAGTAG", 0x30); ("P_TRIM", 0x31); ("P_RS_THIN_REQ", 0x32);
   ("P_RS_DEALLOCATED", 0x33); ("P_WSAME", 0x34); ("P_TWOPC_PREP_RSZ", 0x35); ("P_ZEROES", 0x36);
   ("P_PEER_ACK", 0x40); ("P_PEERS_IN_SYNC", 0x41); ("P_UUIDS110", 0x42); ("P_PEER_DAGTAG", 0x43);
   ("P_CURRENT_UUID", 0x44); ("P_TWOPC_YES", 0x45); ("P_TWOPC_NO", 0x46); ("P_TWOPC_COMMIT", 0x47);
   ("P_TWOPC_RETRY", 0x48); ("P_CONFIRM_STABLE", 0x49); ("P_RS_CANCEL_AHEAD", 0x4a);
   ("P_DISCONNECT", 0x4b); ("P_RS_DAGTAG_REQ", 0x4c); ("P_RS_CSUM_DAGTAG_REQ", 0x4d);
   ("P_RS_THIN_DAGTAG_REQ", 0x4e); ("P_OV_DAGTAG_REQ", 0x4f); ("P_OV_DAGTAG_REPLY", 0x50);
   ("P_WRITE_ACK_IN_SYNC", 0x51); ("P_RS_NEG_ACK", 0x52); ("P_OV_RESULT_ID", 0x53);
   ("P_RS_DEALLOCATED_ID", 0x54)]%Z.

(** The bytes looked for: the magic number, the volume and the packet type *)
Definition packet_pattern (volume packet : Z) : string :=
  "|8620ec20 " +:+ hex 4 volume +:+ " " +:+ hex 4 packet +:+ " 0000|".

Definition block_packet_type_cmd (w : world) (self : nat) (op : string) (packet volume : Z)
    (from_node : option nat) : res (list string) :=
  let* source := match from_node with
                 | Some n => let* a := py_index (h_addrs (node_info w n)) 0 in Ok ["-s"; a]
                 | None => Ok []
                 end in
  Ok (["iptables"; op; "drbd-test-input"; "-p"; if uses_rdma w self then "udp" else "tcp"] ++ source ++
      ["-m"; "string"; "--algo"; "bm"; "--from"; "0"; "--hex-string"; packet_pattern volume packet]).

(** ** Running them *)

Section firewall.
Context `{SshServer} (g : globals) (job : string).

(** The commands of a background shell, as [block_path] writes them *)
Definition timed_script (cmds del_cmds : list (list string)) (for_seconds : Z) : string :=
  "(" +:+ join "; " (map (join " ") cmds) +:+ "; sleep " +:+ str_int for_seconds +:+ "; " +:+
  join "; " (map (join " ") del_cmds) +:+ ") </dev/null &>/dev/null &".

(** [block_path] of the Linux helper; [for_seconds] is a whole number, and the
    pause of [lead_seconds] after the background command is left out. *)
Definition linux_block_path (self other : nat) (net_number : Z) (jump_to : string)
    (lead_seconds : option Q) (for_seconds : option Z) (iptables_filter : list string) : M world unit :=
  let* w := get in
  let* cmds := lift (iptables_cmd w self other jump_to net_number "-I" iptables_filter) in
  match for_seconds with
  | Some n =>
      let lead := default (3 # 10)%Q lead_seconds in
      if Qle_bool (inject_Z n) lead
      then raise (RuntimeError "for_seconds needs to be larger than lead_seconds")
      else
        let* del_cmds := lift (iptables_cmd w self other jump_to net_number "-D" []) in
        node_run g job self ["setsid"; "bash"; "-c"; timed_script cmds del_cmds n]
  | None => for_each cmds (node_run g job self)
  end.
Definition linux_unblock_path (self other : nat) (net_number : Z) (jump_to : string) : M world unit :=
  let* w := get in
  let* cmds := lift (iptables_cmd w self other jump_to net_number "-D" []) in
  for_each cmds (node_run g job self).

(** [Node.block_path] and [Node.unblock_path]: the helper of a Windows host
    takes fewer arguments than the node passes to it, and reads its own
    attribute [port], which it does not have. *)
Definition block_path (self other : nat) (net_number : Z) (jump_to : string) (lead_seconds : option Q)
    (for_seconds : option Z) (iptables_filter : list string) : M world unit :=
  let* x := gets (fun w => node_info w self) in
  if h_windows x then raise (TypeError "block_path() takes from 3 to 7 positional arguments but 8 were given")
  else linux_block_path self other net_number jump_to lead_seconds for_seconds iptables_filter.
Definition unblock_path (self other : nat) (net_number : Z) (jump_to : string) : M world unit :=
  let* x := gets (fun w => node_info w self) in
  if h_windows x then raise (AttributeError "'WindowsPlatformHelper' object has no attribute 'port'")
  else linux_unblock_path self other net_number jump_to.

(** [_block_packet_type] *)
Definition block_packet_type_op (self : nat) (packet : Z) (op : string) (from_node : option nat)
    (volume : Z) : M world unit :=
  let* w := get in
  let* cmdline := lift (block_packet_type_cmd w self op packet volume from_node) in
  for_each ["LOG"; "DROP"] (fun ipt_target => node_run g job self (cmdline ++ ["-j"; ipt_target])).
Definition block_packet_type (self : nat) (packet : Z) (from_node : option nat) (volume : Z)
    (for_seconds : option Z) : M world unit :=
  block_packet_type_op self packet "-A" from_node volume ;;;
  match for_seconds with
  | Some n =>
      let* w := get in
      let* d := lift (block_packet_type_cmd w self "-D" packet volume from_node) in
      let quoted := join " " (map shlex_quote d) in
      node_run g job self ["setsid"; "bash"; "-c"; "( sleep " +:+ str_int n +:+ "; " +:+ quoted +:+
        " -j LOG; " +:+ quoted +:+ " -j DROP) </dev/null &>/dev/null &"]
  | None => mret tt
  end.
Definition unblock_packet_type (self : nat) (packet : Z) (from_node : option nat) (volume : Z) : M world unit :=
  block_packet_type_op self packet "-D" from_node volume.
End firewall.

(** ** What the tests rely on

    A table of chains of rules.  A new rule goes to the front or to the end of
    its chain, deleting takes out the first rule that is spelled the same, and
    a rule with addresses, ports and a target applies to the packets that
    agree with it. *)

Record packet := Packet { p_proto : string; p_src : string; p_sport : nat; p_dst : string; p_dport : nat }.

Class Iptables (F : Type) := {
  chain : F -> string -> option (list (list string));
  ipt : list string -> F -> option F;
  applies : list string -> packet -> bool
}.

Definition some_port (name : string) (p : option nat) : list string :=
  match p with Some n => [name; str_nat n] | None => [] end.
Definition agrees (p : option nat) (n : nat) : bool :=
  match p with Some m => bool_decide (n = m) | None => true end.
Definition rule_cmd (op : string) (cr : string * list string) : list string :=
  "iptables" :: op :: fst cr :: snd cr.

Class IptablesSpec (F : Type) `{Iptables F} : Prop := {
  ipt_insert f c l r : chain f c = Some l -> exists f', ipt (rule_cmd "-I" (c, r)) f = Some f' /\
    forall c', chain f' c' = if decide (c' = c) then Some (r :: l) else chain f c';
  ipt_append f c l r : chain f c = Some l -> exists f', ipt (rule_cmd "-A" (c, r)) f = Some f' /\
    forall c', chain f' c' = if decide (c' = c) then Some (l ++ [r]) else chain f c';
  ipt_delete f c l l' r : chain f c = Some l -> list_remove r l = Some l' ->
    exists f', ipt (rule_cmd "-D" (c, r)) f = Some f' /\
    forall c', chain f' c' = if decide (c' = c) then Some l' else chain f c';
  ipt_applies proto sa sp da dp target pkt :
    applies (["-p"; proto; "--source"; sa; "--destination"; da] ++ some_port "--source-port" sp ++
             some_port "--destination-port" dp ++ ["-j"; target]) pkt =
    bool_decide (p_proto pkt = proto) && bool_decide (p_src pkt = sa) && bool_decide (p_dst pkt = da) &&
    agrees sp (p_sport pkt) && agrees dp (p_dport pkt)
}.

(** Commands one after the other *)
Fixpoint ipt_all {F} `{Iptables F} (cmds : list (list string)) (f : F) : option F :=
  match cmds with [] => Some f | c :: cmds => ipt c f ≫= ipt_all cmds end.

(** The rules meant for a chain *)
Fixpoint on_chain (c : string) (rules : list (string * list string)) : list (list string) :=
  match rules with
  | [] => []
  | (c', r) :: rules => if decide (c' = c) then r :: on_chain c rules else on_chain c rules
  end.

(** ** Lemmas: tables of rules *)

Section tables.
Context {F : Type} `{!Iptables F, !IptablesSpec F}.
Implicit Types (f : F) (rules : list (string * list string)).

Definition has_chains (cs : list string) f : Prop := forall c, c ∈ cs -> exists l, chain f c = Some l.

Lemma insert_rules rules f : has_chains (map fst rules) f ->
  exists f', ipt_all (map (rule_cmd "-I") rules) f = Some f' /\
    forall c, chain f' c = (fun l => reverse (on_chain c rules) ++ l) <$> chain f c.
Proof.
  revert f. induction rules as [|[c r] rules IH]; intros f Hf.
  - exists f. split; [done|]. intros c. by destruct (chain f c).
  - destruct (Hf c) as [l Hl]; [by left|]. destruct (ipt_insert f c l r Hl) as (f1 & Hf1 & Hc1).
    destruct (IH f1) as (f' & Hf' & Hc').
    { intros c' Hin. rewrite Hc1. case_decide; [eauto|]. apply Hf. by right. }
    exists f'. split; [cbn [map ipt_all]; by rewrite Hf1|]. intros c'. rewrite Hc', Hc1. cbn [on_chain].
    case_decide as Hcc; [|by rewrite decide_False by done]. subst c'.
    rewrite decide_True, Hl by done. cbv [fmap option_fmap option_map]. by rewrite reverse_cons, <-app_assoc.
Qed.

Lemma append_rules rules f : has_chains (map fst rules) f ->
  exists f', ipt_all (map (rule_cmd "-A") rules) f = Some f' /\
    forall c, chain f' c = (fun l => l ++ on_chain c rules) <$> chain f c.
Proof.
  revert f. induction rules as [|[c r] rules IH]; intros f Hf.
  - exists f. split; [done|]. intros c. cbn [on_chain]. destruct (chain f c); [|done]. simpl. by rewrite app_nil_r.
  - destruct (Hf c) as [l Hl]; [by left|]. destruct (ipt_append f c l r Hl) as (f1 & Hf1 & Hc1).
    destruct (IH f1) as (f' & Hf' & Hc').
    { intros c' Hin. rewrite Hc1. case_decide; [eauto|]. apply Hf. by right. }
    exists f'. split; [cbn [map ipt_all]; by rewrite Hf1|]. intros c'. rewrite Hc', Hc1. cbn [on_chain].
    case_decide as Hcc; [|by rewrite decide_False by done]. subst c'.
    rewrite decide_True, Hl by done. cbn. by rewrite <-app_assoc.
Qed.

Lemma list_remove_perm (r : list string) l : r ∈ l -> exists l', list_remove r l = Some l' /\ l ≡ₚ r :: l'.
Proof.
  induction l as [|y l IH]; [by intros ?%elem_of_nil|]. intros Hin. cbn [list_remove].
  case_decide as Hry; [subst; eauto|]. apply elem_of_cons in Hin as [|Hin]; [done|].
  destruct (IH Hin) as (l' & -> & Hp). exists (y :: l'). split; [done|]. rewrite Hp. constructor.
Qed.

(** Deleting rules takes them out, whatever else the chains hold. *)
Lemma delete_rules rules f (cs : list string) (other : string -> list (list string)) :
  (forall c, c ∈ map fst rules -> c ∈ cs) ->
  (forall c, c ∈ cs -> exists l, chain f c = Some l /\ l ≡ₚ on_chain c rules ++ other c) ->
  exists f', ipt_all (map (rule_cmd "-D") rules) f = Some f' /\
    forall c, c ∈ cs -> exists l, chain f' c = Some l /\ l ≡ₚ other c.
Proof.
  revert f. induction rules as [|[c r] rules IH]; intros f Hcs Hf; [by exists f|].
  destruct (Hf c) as (l & Hl & Hperm); [apply Hcs; by left|]. cbn [on_chain] in Hperm. rewrite decide_True in Hperm by done.
  destruct (list_remove_perm r l) as (l' & Hrem & Hl'); [rewrite Hperm; by left|].
  destruct (ipt_delete f c l l' r Hl Hrem) as (f1 & Hf1 & Hc1).
  assert (Hrest : l' ≡ₚ on_chain c rules ++ other c).
  { rewrite Hl' in Hperm. by apply Permutation_cons_inv in Hperm. }
  destruct (IH f1) as (f' & Hf' & Hc').
  - intros c' Hin. apply Hcs. by right.
  - intros c' Hin. rewrite Hc1. case_decide as Hcc; [subst; eauto|].
    destruct (Hf c' Hin) as (l2 & Hl2 & Hp2). exists l2. split; [done|].
    cbn [on_chain] in Hp2. by rewrite decide_False in Hp2 by done.
  - exists f'. split; [|done]. cbn [map ipt_all]. by rewrite Hf1.
Qed.
End tables.

(** ** Lemmas: the commands of the code *)

(** The rules of a path, whatever is done with them *)
Definition path_rule (jump proto sa : string) (sp : option nat) (da : string) (dp : option nat) : list string :=
  ["-p"; proto; "--source"; sa; "--destination"; da] ++ port_args "--source-port" sp ++
  port_args "--destination-port" dp ++ ["-j"; jump].
Definition path_rules (rdma : bool) (a1 a2 : string) (p1 p2 : nat) (jump : string) : list (string * list string) :=
  if rdma then
    [("drbd-test-output", path_rule jump "udp" a1 None a2 (Some 4791));
     ("drbd-test-input", path_rule jump "udp" a2 None a1 (Some 4791))]
  else
    [("drbd-test-output", path_rule jump "tcp" a1 (Some p1) a2 None);
     ("drbd-test-output", path_rule jump "tcp" a1 None a2 (Some p2));
     ("drbd-test-input", path_rule jump "tcp" a2 None a1 (Some p1));
     ("drbd-test-input", path_rule jump "tcp" a2 (Some p2) a1 None)].

Lemma iptables_cmd_rules w self node2 jump path_nr op additional_filter cmds :
  iptables_cmd w self node2 jump path_nr op additional_filter = Ok cmds ->
  exists a1 a2, py_index (h_addrs (node_info w self)) path_nr = Ok a1 /\
    py_index (h_addrs (node_info w node2)) path_nr = Ok a2 /\
    cmds = map (rule_cmd op) (path_rules (uses_rdma w self) a1 a2 (n_port (node_at w self)) (n_port (node_at w node2)) jump).
Proof.
  unfold iptables_cmd. mred. destruct (py_index (h_addrs (node_info w self)) path_nr) as [a1|]; [|done].
  destruct (py_index (h_addrs (node_info w node2)) path_nr) as [a2|]; [|done]. intros [= <-].
  exists a1, a2. split_and!; [done..|]. unfold path_rules, iptables_cmd_1. by destruct (uses_rdma w self).
Qed.

Lemma path_rules_chains rdma a1 a2 p1 p2 jump c :
  c ∈ map fst (path_rules rdma a1 a2 p1 p2 jump) -> c ∈ ["drbd-test-output"; "drbd-test-input"].
Proof. destruct rdma; cbn; set_solver. Qed.

(** The two target rules of a packet type *)
Lemma block_packet_type_rules w self op packet volume from_node cmdline :
  block_packet_type_cmd w self op packet volume from_node = Ok cmdline ->
  exists spec, (forall op', block_packet_type_cmd w self op' packet volume from_node =
                 Ok (rule_cmd op' ("drbd-test-input", spec ++ [packet_pattern volume packet]))) /\
    cmdline = rule_cmd op ("drbd-test-input", spec ++ [packet_pattern volume packet]).
Proof.
  unfold block_packet_type_cmd. mred. destruct from_node as [n|].
  - destruct (py_index _ _) as [a|]; [|done]. intros [= <-].
    exists ["-p"; if uses_rdma w self then "udp" else "tcp"; "-s"; a; "-m"; "string"; "--algo"; "bm"; "--from"; "0"; "--hex-string"].
    by split.
  - intros [= <-].
    exists ["-p"; if uses_rdma w self then "udp" else "tcp"; "-m"; "string"; "--algo"; "bm"; "--from"; "0"; "--hex-string"].
    by split.
Qed.

Lemma packet_pattern_inj v p v' p' :
  (0 <= v < 65536)%Z -> (0 <= p < 65536)%Z -> (0 <= v' < 65536)%Z -> (0 <= p' < 65536)%Z ->
  packet_pattern v p = packet_pattern v' p' -> v = v' /\ p = p'.
Proof.
  intros Hv Hp Hv' Hp' Heq. unfold packet_pattern in Heq. apply sapp_inv in Heq.
  apply hex_inj in Heq as [-> Heq]; [|done..]. apply sapp_inv in Heq.
  by apply hex_inj in Heq as [-> _].
Qed.

Lemma packet_types_fit packet : packet ∈ map snd packet_types -> (0 <= packet < 65536)%Z.
Proof. revert packet. apply Forall_forall. by repeat constructor. Qed.

(** Commands of a node whose configuration file is up to date *)
Lemma runs_node_cmds `{SshServer} g job n cmds w :
  config_changed (node_at w n) = false ->
  let m := for_each cmds (node_run g job n) w in
  runs (node_info w n) cmds (w_env w) (fst m) (w_env (snd m)).
Proof.
  revert w. induction cmds as [|cmd cmds IH]; intros w Hc m; [apply runs_nil|].
  assert (Hrun : node_run g job n cmd w = on_env (run (node_info w n) cmd) w).
  { unfold node_run, update_config. mred. cbn [get gets when]. by rewrite Hc. }
  unfold m. cbn [for_each]. mred. rewrite Hrun. unfold on_env, zoom. rewrite run_answer.
  destruct (ssh _ _) as [[code out]|x] eqn:Hs.
  - destruct (code =? 0)%Z eqn:Hcode.
    + apply Z.eqb_eq in Hcode as ->. eapply runs_ok; [done|].
      by apply (IH (World (push (sent_run (node_info w n) cmd) (w_env w)) (w_hosts w) (w_nodes w) (w_volumes w) (w_resources w))).
    + apply runs_fail. rewrite Hs. by intros out' [= -> ->].
  - apply runs_fail. rewrite Hs. done.
Qed.

Definition test_chains : list string := ["drbd-test-output"; "drbd-test-input"].

(** The commands of the code depend on the objects only. *)
Lemma path_cmds w w' self other jump net a1 a2 op additional_filter :
  w_hosts w' = w_hosts w -> w_nodes w' = w_nodes w -> w_resources w' = w_resources w ->
  py_index (h_addrs (node_info w self)) net = Ok a1 -> py_index (h_addrs (node_info w other)) net = Ok a2 ->
  iptables_cmd w' self other jump net op additional_filter =
  Ok (map (rule_cmd op) (path_rules (uses_rdma w self) a1 a2 (n_port (node_at w self)) (n_port (node_at w other)) jump)).
Proof.
  destruct w as [e hs ns vs rs], w' as [e' hs' ns' vs' rs']. cbn [w_hosts w_nodes w_resources]. intros -> -> -> H1 H2.
  destruct (iptables_cmd (World e' hs ns vs' rs) self other jump net op additional_filter) as [cmds|x] eqn:E.
  - apply iptables_cmd_rules in E as (b1 & b2 & E1 & E2 & ->).
    unfold node_info, node_host, host_at, node_at, uses_rdma, resource_at, node_at in *. cbn [w_hosts w_nodes w_resources] in *.
    rewrite H1 in E1. rewrite H2 in E2. by injection E1 as <-; injection E2 as <-.
  - exfalso. revert E. unfold iptables_cmd.
    unfold node_info, node_host, host_at, node_at in *. cbn [w_hosts w_nodes w_resources] in *. mred. by rewrite H1, H2.
Qed.

Lemma lookup_insert_case {A} (f : gmap string A) c c' x :
  <[c := x]> f !! c' = if decide (c' = c) then Some x else f !! c'.
Proof. case_decide; [subst; apply lookup_insert_eq|by apply lookup_insert_ne]. Qed.

Lemma hit_on_chain `{!Iptables F} rules c pkt :
  (exists r, rule_cmd "-I" (c, r) ∈ map (rule_cmd "-I") rules /\ applies r pkt = true) <->
  Exists (fun r => applies r pkt = true) (on_chain c rules).
Proof.
  rewrite Exists_exists. enough (Hin : forall r, rule_cmd "-I" (c, r) ∈ map (rule_cmd "-I") rules <-> r ∈ on_chain c rules)
    by (split; intros (r & ? & ?); exists r; [rewrite <-Hin|rewrite Hin]; done).
  intros r. induction rules as [|[c' r'] rules IH]; cbn [map on_chain]; [by rewrite !elem_of_nil|].
  rewrite elem_of_cons, IH. unfold rule_cmd at 1 2. cbn [fst snd]. case_decide as Hc.
  - rewrite elem_of_cons. naive_solver.
  - naive_solver.
Qed.

Lemma applies_path `{!Iptables F, !IptablesSpec F} proto sa sp da dp jump pkt : sp <> Some 0 -> dp <> Some 0 ->
  applies (path_rule jump proto sa sp da dp) pkt = true <->
  p_proto pkt = proto /\ p_src pkt = sa /\ p_dst pkt = da /\
  (forall n, sp = Some n -> p_sport pkt = n) /\ (forall n, dp = Some n -> p_dport pkt = n).
Proof.
  intros Hs Hd. assert (Harg : forall name p, p <> Some 0 -> port_args name p = some_port name p)
    by (by intros name [[|n]|]). unfold path_rule. rewrite !Harg by done. rewrite ipt_applies, !andb_true_iff, !bool_decide_eq_true.
  unfold agrees. destruct sp, dp; rewrite ?bool_decide_eq_true; naive_solver.
Qed.

(** ** Properties *)

(** C20: on a Linux host whose configuration file is up to date, [block_path]
    and [unblock_path] run a list of commands each, up to the first one that
    fails. The commands of the first add rules to the two chains of the tests;
    those of the second take exactly these rules out again, whatever rules
    were added or removed in the meantime, so that the blocks of several paths
    may overlap. *)
Theorem unblock_undoes_block {F} `{SshServer} `{!Iptables F, !IptablesSpec F} g job w w' self other net jump
    iptables_filter a1 a2 :
  w_hosts w' = w_hosts w -> w_nodes w' = w_nodes w -> w_resources w' = w_resources w ->
  config_changed (node_at w self) = false -> h_windows (node_info w self) = false ->
  py_index (h_addrs (node_info w self)) net = Ok a1 -> py_index (h_addrs (node_info w other)) net = Ok a2 ->
  exists blocks unblocks added,
    let b := block_path g job self other net jump None None iptables_filter w in
    let u := unblock_path g job self other net jump w' in
    runs (node_info w self) blocks (w_env w) (fst b) (w_env (snd b)) /\
    runs (node_info w self) unblocks (w_env w') (fst u) (w_env (snd u)) /\
    (forall f : F, has_chains test_chains f -> exists f', ipt_all blocks f = Some f' /\
      forall c l, chain f c = Some l -> exists l', chain f' c = Some l' /\ l' ≡ₚ added c ++ l) /\
    (forall (f : F) others,
      (forall c, c ∈ test_chains -> exists l, chain f c = Some l /\ l ≡ₚ added c ++ others c) ->
      exists f', ipt_all unblocks f = Some f' /\
      forall c, c ∈ test_chains -> exists l, chain f' c = Some l /\ l ≡ₚ others c).
Proof.
  intros Hh Hn Hr Hc Hw H1 H2.
  set (rules := path_rules (uses_rdma w self) a1 a2 (n_port (node_at w self)) (n_port (node_at w other)) jump).
  assert (Hx : node_info w' self = node_info w self)
    by (unfold node_info, node_host, host_at, node_at; by rewrite Hh, Hn).
  assert (Hc' : config_changed (node_at w' self) = false) by (unfold node_at; by rewrite Hn).
  exists (map (rule_cmd "-I") rules), (map (rule_cmd "-D") rules), (fun c => on_chain c rules).
  intros b u. split_and!.
  - unfold b, block_path, linux_block_path. mred. cbn [gets get lift]. rewrite Hw.
    rewrite (path_cmds w w self other jump net a1 a2) by done. by apply runs_node_cmds.
  - unfold u, unblock_path, linux_unblock_path. mred. cbn [gets get lift]. rewrite Hx, Hw.
    rewrite (path_cmds w w' self other jump net a1 a2) by done. rewrite <-Hx. by apply runs_node_cmds.
  - intros f Hf. destruct (insert_rules rules f) as (f' & Hf' & Hch).
    { intros c Hin. by apply Hf, (path_rules_chains _ _ _ _ _ _ _ Hin). }
    exists f'. split; [done|]. intros c l Hl. rewrite Hch, Hl. eexists. split; [done|]. by rewrite reverse_Permutation.
  - intros f others Hf. apply delete_rules; [|done]. intros c. apply path_rules_chains.
Qed.

(** C21: the rules of [block_path] apply to exactly the packets of the path: on
    the way out those from the node's address to the peer's, on the way in the
    reverse, with the node's port at its end or the peer's port at the other;
    so every connection is cut that either of the two has opened from some
    port to the port of the other, and nothing between other addresses or
    other ports. With RDMA the fixed UDP port takes the place of both. *)
Theorem block_covers_the_path {F} `{!Iptables F, !IptablesSpec F} w self other jump net iptables_filter cmds
    a1 a2 p1 p2 pkt :
  py_index (h_addrs (node_info w self)) net = Ok a1 -> py_index (h_addrs (node_info w other)) net = Ok a2 ->
  n_port (node_at w self) = S p1 -> n_port (node_at w other) = S p2 ->
  iptables_cmd w self other jump net "-I" iptables_filter = Ok cmds ->
  let hit c := exists r, rule_cmd "-I" (c, r) ∈ cmds /\ applies r pkt = true in
  (hit "drbd-test-output" <-> p_src pkt = a1 /\ p_dst pkt = a2 /\
     if uses_rdma w self then p_proto pkt = "udp" /\ p_dport pkt = 4791
     else p_proto pkt = "tcp" /\ (p_sport pkt = S p1 \/ p_dport pkt = S p2)) /\
  (hit "drbd-test-input" <-> p_src pkt = a2 /\ p_dst pkt = a1 /\
     if uses_rdma w self then p_proto pkt = "udp" /\ p_dport pkt = 4791
     else p_proto pkt = "tcp" /\ (p_sport pkt = S p2 \/ p_dport pkt = S p1)) /\
  (forall cmd, cmd ∈ cmds -> last cmd = Some jump).
Proof.
  intros H1 H2 Hp1 Hp2 Hcmds hit. apply iptables_cmd_rules in Hcmds as (b1 & b2 & E1 & E2 & ->).
  rewrite H1 in E1. rewrite H2 in E2. injection E1 as <-. injection E2 as <-.
  unfold hit. rewrite Hp1, Hp2, !hit_on_chain.
  split_and!; [destruct (uses_rdma w self)..|].
  1-4: cbn [path_rules on_chain]; 
       repeat first [rewrite decide_True by done|rewrite decide_False by done].
  1-4: rewrite ?Exists_cons, Exists_nil, ?applies_path by done; naive_solver.
  intros cmd (cr & -> & Hin)%list_elem_of_fmap. destruct (uses_rdma w self); cbn in Hin; set_solver.
Qed.

(** blocking a packet type adds, at the end of the input chain, a rule that
    logs and then a rule that drops; unblocking it takes out the two and
    nothing else. The rules of two packet types of DRBD, or of two volumes, are
    never the same, so that blocking and unblocking one leaves the others. *)
Theorem block_packet_type_is_selective {F} `{SshServer} `{!Iptables F, !IptablesSpec F} g job w self packet volume
    from_node cmdline :
  config_changed (node_at w self) = false ->
  block_packet_type_cmd w self "-A" packet volume from_node = Ok cmdline ->
  exists rule : string -> list string,
    let rules := [("drbd-test-input", rule "LOG"); ("drbd-test-input", rule "DROP")] in
    let b := block_packet_type g job self packet from_node volume None w in
    let u := unblock_packet_type g job self packet from_node volume w in
    runs (node_info w self) (map (rule_cmd "-A") rules) (w_env w) (fst b) (w_env (snd b)) /\
    runs (node_info w self) (map (rule_cmd "-D") rules) (w_env w) (fst u) (w_env (snd u)) /\
    (forall (f : F) l, chain f "drbd-test-input" = Some l ->
      exists f', ipt_all (map (rule_cmd "-A") rules) f = Some f' /\
        chain f' "drbd-test-input" = Some (l ++ [rule "LOG"; rule "DROP"])) /\
    (forall (f : F) l others, chain f "drbd-test-input" = Some l -> l ≡ₚ rule "LOG" :: rule "DROP" :: others ->
      exists f' l', ipt_all (map (rule_cmd "-D") rules) f = Some f' /\
        chain f' "drbd-test-input" = Some l' /\ l' ≡ₚ others) /\
    (forall packet' volume', packet ∈ map snd packet_types -> packet' ∈ map snd packet_types ->
      (0 <= volume < 65536)%Z -> (0 <= volume' < 65536)%Z ->
      block_packet_type_cmd w self "-A" packet' volume' from_node = Ok cmdline ->
      packet' = packet /\ volume' = volume).
Proof.
  intros Hc Hcmd. destruct (block_packet_type_rules _ _ _ _ _ _ _ Hcmd) as (spec & Hall & Hline).
  set (rule t := (spec ++ [packet_pattern volume packet]) ++ ["-j"; t]).
  exists rule. intros rules b u. split_and!.
  - unfold b, block_packet_type, block_packet_type_op. mred. cbn [get lift]. rewrite Hall.
    pose proof (runs_node_cmds g job self (map (rule_cmd "-A") rules) w Hc) as Hr.
    assert (Heq : for_each ["LOG"; "DROP"] (fun t => node_run g job self
      (rule_cmd "-A" ("drbd-test-input", spec ++ [packet_pattern volume packet]) ++ ["-j"; t])) w =
      for_each (map (rule_cmd "-A") rules) (node_run g job self) w) by done.
    rewrite Heq. revert Hr. by destruct (for_each _ _ w) as [[[]|x] w'].
  - unfold u, unblock_packet_type, block_packet_type_op. mred. cbn [get lift]. rewrite Hall.
    exact (runs_node_cmds g job self (map (rule_cmd "-D") rules) w Hc).
  - intros f l Hl. destruct (append_rules rules f) as (f' & Hf' & Hch).
    { intros c Hin. exists l. cbn in Hin. rewrite <-Hl. f_equal. set_solver. }
    exists f'. split; [done|]. by rewrite Hch, Hl.
  - intros f l others Hl Hperm.
    destruct (delete_rules rules f ["drbd-test-input"] (fun _ => others)) as (f' & Hf' & Hch).
    + intros c. cbn. set_solver.
    + intros c ->%list_elem_of_singleton. by exists l.
    + destruct (Hch "drbd-test-input") as (l' & ? & ?); [by left|]. eauto.
  - intros packet' volume' Hp Hp' Hv Hv' Hcmd'.
    destruct (block_packet_type_rules _ _ _ _ _ _ _ Hcmd') as (spec' & _ & Hline').
    rewrite Hline in Hline'. injection Hline' as Hpat. apply app_inj_tail in Hpat as [_ Hpat].
    apply packet_pattern_inj in Hpat as [-> ->]; try done; by apply packet_types_fit.
Qed.

(** ** Witnesses *)

(** A table of chains by name *)
Definition demo_value (pkt : packet) (name value : string) : bool :=
  if decide (name = "-p") then bool_decide (p_proto pkt = value)
  else if decide (name = "--source") then bool_decide (p_src pkt = value)
  else if decide (name = "--destination") then bool_decide (p_dst pkt = value)
  else if decide (name = "--source-port") then bool_decide (str_nat (p_sport pkt) = value)
  else if decide (name = "--destination-port") then bool_decide (str_nat (p_dport pkt) = value)
  else true.
Fixpoint demo_applies (r : list string) (pkt : packet) : bool :=
  match r with name :: value :: r => demo_value pkt name value && demo_applies r pkt | _ => true end.
Definition demo_ipt (cmd : list string) (f : gmap string (list (list string))) :
    option (gmap string (list (list string))) :=
  match cmd with
  | _ :: op :: c :: r =>
      f !! c ≫= fun l =>
      (fun l' => <[c := l']> f) <$>
        (if decide (op = "-I") then Some (r :: l) else if decide (op = "-A") then Some (l ++ [r])
         else list_remove r l)
  | _ => None
  end.
#[local] Instance demo_iptables : Iptables (gmap string (list (list string))) :=
  {| chain f c := f !! c; ipt := demo_ipt; applies := demo_applies |}.
#[local] Instance demo_iptables_spec : IptablesSpec (gmap string (list (list string))).
Proof.
  split; cbn [chain ipt rule_cmd fst snd demo_ipt demo_iptables].
  - intros f c l r Hl. rewrite Hl. eexists. split; [done|]. intros c'. apply lookup_insert_case.
  - intros f c l r Hl. rewrite Hl. eexists. split; [done|]. intros c'. apply lookup_insert_case.
  - intros f c l l' r Hl Hr. rewrite Hl. cbn. rewrite Hr. eexists. split; [done|]. intros c'. apply lookup_insert_case.
  - intros proto sa sp da dp target pkt. cbn [applies demo_iptables].
    assert (Hport : forall n m, bool_decide (str_nat n = str_nat m) = bool_decide (n = m)).
    { intros n m. apply bool_decide_ext. split; [|by intros ->]. unfold str_nat. intros ?%(inj pretty). lia. }
    assert (Hp : forall v, demo_value pkt "-p" v = bool_decide (p_proto pkt = v)) by done.
    assert (Hs : forall v, demo_value pkt "--source" v = bool_decide (p_src pkt = v)) by done.
    assert (Hd : forall v, demo_value pkt "--destination" v = bool_decide (p_dst pkt = v)) by done.
    assert (Hsp : forall v, demo_value pkt "--source-port" v = bool_decide (str_nat (p_sport pkt) = v)) by done.
    assert (Hdp : forall v, demo_value pkt "--destination-port" v = bool_decide (str_nat (p_dport pkt) = v)) by done.
    unfold some_port, agrees. destruct sp as [sp|], dp as [dp|]; cbn [app demo_applies];
      by rewrite ?Hp, ?Hs, ?Hd, ?Hsp, ?Hdp, ?Hport, ?andb_true_r, ?andb_assoc.
Qed.

#[local] Instance obedient_server : SshServer := fun _ _ => Ok (0%Z, EmptyString).
Definition demo_pair : world :=
  World (Env [] ∅)
    [NewHost (demo_info "a" "10.0.0.1") "lvm" "/dev/vdb" 78 1 None;
     NewHost (demo_info "b" "10.0.0.2") "lvm" "/dev/vdb" 79 1 None]
    [NewNode 0 0 77 [] 0 os_empty EmptyString false; NewNode 1 0 78 [] 1 os_empty EmptyString false]
    [] [NewResource "r" EmptyString EmptyString EmptyString EmptyString (os_init (Some [0; 1])) 0 None "no" default_patterns].
Definition demo_tables : gmap string (list (list string)) :=
  <["drbd-test-output" := []]> (<["drbd-test-input" := [["-j"; "RETURN"]]]> ∅).

Lemma unblock_undoes_block_witness :
  exists cmds added f',
    runs (demo_info "a" "10.0.0.1") cmds (Env [] ∅)
      (fst (block_path demo_globals "job" 0 1 0 "DROP" None None [] demo_pair))
      (w_env (snd (block_path demo_globals "job" 0 1 0 "DROP" None None [] demo_pair))) /\
    ipt_all cmds demo_tables = Some f' /\
    forall c l, chain demo_tables c = Some l -> exists l', chain f' c = Some l' /\ l' ≡ₚ added c ++ l.
Proof.
  destruct (unblock_undoes_block (F := gmap string (list (list string))) demo_globals "job" demo_pair demo_pair
    0 1 0 "DROP" [] "10.0.0.1" "10.0.0.2" eq_refl eq_refl eq_refl eq_refl eq_refl eq_refl eq_refl)
    as (blocks & unblocks & added & Hb & _ & Hf & _).
  destruct (Hf demo_tables) as (f' & Hf' & Hch).
  - intros c Hin. unfold test_chains in Hin. apply elem_of_cons in Hin as [ -> | Hin]; [by eexists|]. apply list_elem_of_singleton in Hin as ->. by eexists.
  - exists blocks, added, f'. split; [exact Hb|]. split; [exact Hf'|exact Hch].
Defined.

Lemma block_covers_the_path_witness :
  exists cmds, iptables_cmd demo_pair 0 1 "DROP" 0 "-I" [] = Ok cmds /\
    exists r, rule_cmd "-I" ("drbd-test-output", r) ∈ cmds /\
      demo_applies r (Packet "tcp" "10.0.0.1" 5 "10.0.0.2" 78) = true.
Proof.
  exists (match iptables_cmd demo_pair 0 1 "DROP" 0 "-I" [] with Ok l => l | Raise _ => [] end).
  split; [reflexivity|].
  destruct (block_covers_the_path (F := gmap string (list (list string))) demo_pair 0 1 "DROP" 0 [] _
    "10.0.0.1" "10.0.0.2" 76 77 (Packet "tcp" "10.0.0.1" 5 "10.0.0.2" 78) eq_refl eq_refl eq_refl eq_refl eq_refl)
    as ([_ Hout] & _).
  apply Hout. split; [reflexivity|]. split; [reflexivity|]. split; [reflexivity|]. right. reflexivity.
Defined.

Lemma block_packet_type_is_selective_witness :
  exists rule : string -> list string,
    exists f', ipt_all (map (rule_cmd "-A") [("drbd-test-input", rule "LOG"); ("drbd-test-input", rule "DROP")])
        demo_tables = Some f' /\
      chain f' "drbd-test-input" = Some ([["-j"; "RETURN"]] ++ [rule "LOG"; rule "DROP"]).
Proof.
  destruct (block_packet_type_is_selective (F := gmap string (list (list string))) demo_globals "job" demo_pair 0
    0x42 0 (Some 1) _ eq_refl eq_refl) as (rule & _ & _ & Hadd & _).
  exists rule. apply Hadd. reflexivity.
Defined.
