(* ===== verification/Lifecycle.v ===== *)
(** * The life of a resource (src/python/drbdtest.py)

    Bringing a resource up and down, attaching, connecting and waiting for the
    events that follow.  A wait is a request to the event scanner: the events
    expected, filters for each node, and the events that must not occur, which
    the resource keeps in [forbidden_patterns] and changes as it goes.  What
    the scanner answers is an argument. *)

From S2P Require Import Prelude PyStr Dict OrderedSet Host Disktools World Config Collections Cluster.

Record request := Request {
  q_yes : list string;
  q_filters : dict string (list (list string));
  q_no : list string;
  q_always_no : list string;
  q_timeout : option Z;
  q_after : nat  (** commands sent before *)
}.

Record life := Life { l_world : world; l_waits : list request }.

(** Whether a wait ends well, given the commands and the waits before it *)
Class EventScanner := scan : list sent -> list request -> request -> res unit.

Definition peer_device : Type := (nat * nat) * nat.

(** ** Parts of a resource *)

Section parts.
Context (w : world).

Definition node_resource (n : nat) : nat := n_resource (node_at w n).
Definition volume_resource (v : nat) : nat := node_resource (v_node (volume_at w v)).
Definition node_name (n : nat) : string := h_name (node_info w n).
Definition node_version (n : nat) : version_tuple := h_version (node_info w n).

(** [node.volumes] and [nodes.volumes] *)
Definition node_volumes (n : nat) : res (oset nat) := coll_init volume_resource (n_disks (node_at w n)).
Definition nodes_volumes (ns : list nat) : res (oset nat) :=
  let* vss := map_res ns node_volumes in coll_property volume_resource items vss.

(** [nodes.connections] *)
Definition nodes_connections (ns : list nat) : res (oset (nat * nat)) :=
  coll_property (connection_resource node_resource) (fun n => elems (n_connections (node_at w n))) ns.

(** [volumes.peer_devices]: the connection objects are those of the node. *)
Definition volume_peer_devices (v : nat) : list peer_device :=
  map (fun c => (c, v)) (elems (n_connections (node_at w (v_node (volume_at w v))))).
Definition volumes_peer_devices (vs : list nat) : res (oset peer_device) :=
  coll_property (fun p => connection_resource node_resource (fst p)) volume_peer_devices vs.

Definition has_disk (v : nat) : bool := bool_decide (is_Some (disk (volume_at w v))).

(** [nodes.diskful] and [nodes.diskless] *)
Definition nodes_having (diskful : bool) (ns : list nat) : res (list nat) :=
  let* l := map_res ns (fun n => let* vs := node_volumes n in
                                 Ok (n, bool_decide (existsb has_disk (items vs) = diskful))) in
  let* s := coll_init (T := oset nat) node_resource (map fst (filter (fun p => snd p = true) l)) in
  Ok (items s).

(** [volumes.diskful] *)
Definition volumes_diskful (vs : list nat) : res (oset nat) :=
  coll_init volume_resource (filter (fun v => has_disk v = true) vs).

(** [min_drbd_version_tuple] *)
Definition min_drbd_version_tuple (ns : list nat) : res version_tuple :=
  match map node_version ns with
  | [] => Raise (ValueError "min() arg is an empty sequence")
  | v :: vs => Ok (foldl (fun m v => if version_ltb v m then v else m) v vs)
  end.

(** [first(self.members).resource] *)
Definition first_resource (ns : list nat) : res nat :=
  match ns with n :: _ => Ok (node_resource n) | [] => Raise StopIteration end.

(** [pds.add(PeerDevice(Connection(n1, n2), v))]: the connection is a new
    object, so the peer device is equal to none before. *)
Definition add_peer_device (n1 n2 v : nat) : M (list peer_device) unit :=
  let* c := lift (new_connection node_resource n1 n2) in
  let* pds := get in
  py_assert (match pds with
             | p :: _ => bool_decide (node_resource n1 = connection_resource node_resource (fst p))
             | [] => true
             end) ;;;
  put (pds ++ [(c, v)]).

(** The peer devices [up_wait] and [initial_resync] wait for *)
Definition up_peer_devices (ns : list nat) : M (list peer_device) unit :=
  for_each ns (fun n1 => for_each ns (fun n2 =>
    if decide (n1 = n2) then mret tt
    else
      let* n0 := lift (py_index ns 0) in
      let* vs := lift (node_volumes n0) in
      for_each (items vs) (add_peer_device n1 n2))).
Definition resync_peer_devices (diskful diskless : list nat) : M (list peer_device) unit :=
  let first_volumes := let* n0 := py_index diskful 0 in node_volumes n0 in
  for_each diskless (fun dln =>
    let* vs := lift first_volumes in
    for_each (items vs) (fun v => for_each diskful (fun dfn => add_peer_device dln dfn v))) ;;;
  for_each diskful (fun n1 =>
    let* vs := lift first_volumes in
    for_each (items vs) (fun v => for_each diskful (fun n2 =>
      if decide (n1 = n2) then mret tt else add_peer_device n1 n2 v))).
End parts.

Section lifecycle.
Context `{SshServer} `{EventScanner} (g : globals) (job : string).

Definition on_world {A} (m : M world A) : M life A := zoom l_world (fun w s => Life w (l_waits s)) m.
(** A value computed from the objects *)
Definition look {A} (f : world -> res A) : M life A := fun s => (f (l_world s), s).
Definition name_of (r : nat) : M life string := look (fun w => Ok (r_name (resource_at w r))).

(** ** Waiting *)

(** [Resource.logscan] *)
Definition resource_logscan (r : nat) (yes : list string) (filters : dict string (list (list string)))
    (timeout : option Z) : M life unit := fun s =>
  let w := l_world s in
  let x := resource_at w r in
  let q := Request yes (logscan_filters (length (w_resources w)) (r_name x) filters) []
             (items (forbidden_patterns x)) timeout (length (sent_log (w_env w))) in
  (scan (sent_log (w_env w)) (l_waits s) q, Life w (l_waits s ++ [q])).

Definition nodes_event (ns : list nat) (yes : list string) : M life unit :=
  match ns with
  | [] => mret tt
  | n0 :: _ =>
      let* w := look Ok in
      resource_logscan (node_resource w n0) yes
        (foldl (fun d n => d_set (node_name w n) [[]] d) [] ns) None
  end.
Definition volumes_wait (vs : list nat) (yes : list string) : M life unit :=
  match vs with
  | [] => mret tt
  | v0 :: _ =>
      let* w := look Ok in
      resource_logscan (volume_resource w v0) yes
        (volumes_event (map (fun v => (node_name w (v_node (volume_at w v)), v_volume (volume_at w v))) vs)) None
  end.
(** The node's name, whether its DRBD has peer devices, and the peer's id *)
Definition connection_key (w : world) (c : nat * nat) : string * (bool * nat) :=
  (node_name w (fst c), (version_geb (node_version w (fst c)) drbd9, n_id (node_at w (snd c)))).
Definition connections_wait (cs : list (nat * nat)) (yes : list string) : M life unit :=
  match cs with
  | [] => mret tt
  | c0 :: _ =>
      let* w := look Ok in
      resource_logscan (connection_resource (node_resource w) c0) yes
        (connections_event (map (connection_key w) cs)) None
  end.
Definition peer_devices_wait (pds : list peer_device) (yes : list string) (timeout : option Z) : M life unit :=
  match pds with
  | [] => mret tt
  | p0 :: _ =>
      let* w := look Ok in
      resource_logscan (connection_resource (node_resource w) (fst p0)) yes
        (peer_devices_event (map (fun p => (connection_key w (fst p), v_volume (volume_at w (snd p)))) pds)) timeout
  end.

(** ** Commands on several nodes *)

Definition nodes_drbdadm (ns : list nat) (cmd : list string) : M life unit :=
  for_each ns (fun n => on_world (drbdadm g job n cmd)).
Definition nodes_run (ns : list nat) (cmd : list string) : M life unit :=
  for_each ns (fun n => on_world (node_run g job n cmd)).

(** [nodes.drbdadm(cmd + [nodes.resource().name] + extra)] *)
Definition nodes_resource_cmd (ns : list nat) (cmd : string) (extra : list string) : M life unit :=
  let* r := look (fun w => first_resource w ns) in
  let* name := name_of r in
  nodes_drbdadm ns ([cmd; name] ++ extra).

Definition nodes_up (ns : list nat) (extra_options : list string) : M life unit :=
  nodes_resource_cmd ns "up" extra_options ;;;
  when (proxy_enable g) (nodes_resource_cmd ns "proxy-up" extra_options).

(** ** Forbidden patterns *)

Definition change_patterns (r : nat) (f : oset string -> oset string) : M life unit :=
  on_world (set_resource r (fun x => set_forbidden (f (forbidden_patterns x)) x)).
Definition remove_from (l : list string) : oset string -> oset string := os_difference_update l.
Definition put_back (l : list string) (s : oset string) : oset string := snd (os_update l s).

(** The patterns that taking nodes down may cause *)
Definition disk_failed_allowed (r : nat) (ns : list nat) : M life (list string) :=
  let* p := look (fun w => Ok (forbidden_patterns (resource_at w r))) in
  if os_contains "disk:Failed" p then
    let* v := look (fun w => min_drbd_version_tuple w ns) in
    mret (if version_ltb v drbd9 then ["disk:Failed"] else [])
  else mret [].
Definition down_patterns (r : nat) (ns : list nat) : M life (list string) :=
  let* p := look (fun w => Ok (forbidden_patterns (resource_at w r))) in
  let* l := disk_failed_allowed r ns in
  mret (filter (fun x => os_contains x p = true) ["connection:BrokenPipe"; "connection:NetworkFailure"] ++ l).

(** [Nodes.down] *)
Definition nodes_down (ns : list nat) : M life unit :=
  when (proxy_enable g) (nodes_resource_cmd ns "proxy-down" []) ;;;
  let* r := look (fun w => first_resource w ns) in
  let* remove_patterns := down_patterns r ns in
  change_patterns r (remove_from remove_patterns) ;;;
  nodes_resource_cmd ns "down" [] ;;;
  nodes_event ns ["destroy resource"] ;;;
  change_patterns r (put_back remove_patterns).

(** ** Volumes *)

Definition volume_cmd (v : nat) (cmd : list string) : M life unit :=
  let* w := look Ok in
  on_world (drbdadm g job (v_node (volume_at w v))
    (cmd ++ [r_name (resource_at w (volume_resource w v)) +:+ "/" +:+ str_nat (v_volume (volume_at w v))])).
Definition volumes_attach (vs : list nat) : M life unit :=
  for_each vs (fun v => volume_cmd v ["attach"]) ;;;
  volumes_wait vs ["device .* disk:Attaching"].
Definition volumes_detach (vs : list nat) (force : bool) : M life unit :=
  match vs with
  | [] => mret tt
  | v0 :: _ =>
      let* r := look (fun w => Ok (volume_resource w v0)) in
      let* ns := look (fun w => Ok (items (r_nodes (resource_at w r)))) in
      let* remove_patterns := disk_failed_allowed r ns in
      change_patterns r (remove_from remove_patterns) ;;;
      for_each vs (fun v => volume_cmd v (["detach"] ++ (if force then ["--force"] else []))) ;;;
      volumes_wait vs ["device .* disk:(Failed|Detaching)"] ;;;
      volumes_wait vs ["device .* disk:Diskless"] ;;;
      change_patterns r (put_back remove_patterns)
  end.

Definition nodes_attach (ns : list nat) : M life unit :=
  let* vs := look (fun w => nodes_volumes w ns) in volumes_attach (items vs).
Definition nodes_detach (ns : list nat) (force : bool) : M life unit :=
  let* vs := look (fun w => nodes_volumes w ns) in volumes_detach (items vs) force.

(** ** Connections *)

Definition run_drbdadm (cs : list (nat * nat)) (cmd state_str : string) (wait : bool) (options : list string) :
    M life unit :=
  for_each cs (fun c =>
    let* w := look Ok in
    let name := r_name (resource_at w (connection_resource (node_resource w) c)) in
    let context := if version_geb (node_version w (fst c)) drbd9
                   then name +:+ ":" +:+ h_hostname (node_info w (snd c)) else name in
    on_world (drbdadm g job (fst c) ([cmd] ++ options ++ [context]))) ;;;
  when wait (connections_wait cs ["connection .* connection:" +:+ state_str]).
Definition connect (cs : list (nat * nat)) (wait : bool) (options : list string) : M life unit :=
  run_drbdadm cs "connect" "Connecting" wait options.
Definition disconnect (cs : list (nat * nat)) (wait force : bool) : M life unit :=
  run_drbdadm cs "disconnect" "StandAlone" wait (if force then ["--force"] else []).
Definition verify (pds : list peer_device) (wait : bool) (options : list string) : M life unit :=
  for_each pds (fun p =>
    let* w := look Ok in
    let '(node0, node1) := fst p in
    on_world (drbdadm g job node0 (["verify"] ++ options ++
      [r_name (resource_at w (connection_resource (node_resource w) (fst p))) +:+ ":" +:+
       h_hostname (node_info w node1) +:+ "/" +:+ str_nat (v_volume (volume_at w (snd p)))]))) ;;;
  when wait (peer_devices_wait pds ["peer-device .* replication:VerifyS"] None).

(** ** Steps of bringing nodes up by hand *)

Definition new_resource_cmd (ns : list nat) : M life unit :=
  nodes_resource_cmd ns "new-resource" [] ;;; nodes_event ns ["create resource"].
Definition new_minor (ns : list nat) : M life unit :=
  nodes_resource_cmd ns "new-minor" [] ;;;
  let* vs := look (fun w => nodes_volumes w ns) in volumes_wait (items vs) ["create device"].
Definition new_peer (ns : list nat) : M life unit :=
  nodes_resource_cmd ns "new-peer" [] ;;;
  let* vs := look (fun w => nodes_volumes w ns) in
  let* pds := look (fun w => volumes_peer_devices w (items vs)) in
  peer_devices_wait (items pds) ["create peer-device"] None.
Definition resource_options (ns : list nat) (opts : list string) : M life unit :=
  nodes_resource_cmd ns "resource-options" opts.
Definition peer_device_options (ns : list nat) (opts : list string) : M life unit :=
  nodes_resource_cmd ns "peer-device-options" opts.
Definition path_of_config (ns : list nat) (cmd event : string) : M life unit :=
  nodes_resource_cmd ns cmd [] ;;;
  let* cs := look (fun w => nodes_connections w ns) in connections_wait (items cs) [event].
(** [new_path] and [del_path] with a peer and a network number *)
Definition path_of_peer (ns : list nat) (cmd : string) (peer : nat) (net_number : Z) : M life unit :=
  for_each ns (fun n =>
    let* w := look Ok in
    let endpoint m := let* a := py_index (h_addrs (node_info w m)) net_number in
                      Ok ("ipv4:" +:+ a +:+ ":" +:+ str_nat (n_port (node_at w m))) in
    let* local := look (fun _ => endpoint n) in
    let* remote := look (fun _ => endpoint peer) in
    let* r := look (fun w => first_resource w ns) in
    on_world (node_run g job n ["drbdsetup"; cmd; r_name (resource_at w r); str_nat (n_id (node_at w peer));
                                local; remote])).
Definition new_path (ns : list nat) (peer : option (nat * Z)) : M life unit :=
  match peer with
  | None => path_of_config ns "new-path" "create path"
  | Some (p, net_number) => path_of_peer ns "new-path" p net_number
  end.
Definition del_path (ns : list nat) (peer : option (nat * Z)) : M life unit :=
  match peer with
  | None => path_of_config ns "del-path" "destroy path"
  | Some (p, net_number) => path_of_peer ns "del-path" p net_number
  end.
Definition up_unconnected (ns : list nat) : M life unit :=
  new_resource_cmd ns ;;;
  new_minor ns ;;;
  new_peer ns ;;;
  peer_device_options ns [] ;;;
  new_path ns None ;;;
  nodes_attach ns ;;;
  let* vs := look (fun w => nodes_volumes w ns) in
  let* ds := look (fun w => volumes_diskful w (items vs)) in
  volumes_wait (items ds) ["device .* disk:(Failed|Inconsistent|Outdated|Consistent|UpToDate)"].

Definition adjust (n : nat) : M life unit :=
  on_world (update_config g job n) ;;;
  let* name := look (fun w => Ok (r_name (resource_at w (node_resource w n)))) in
  on_world (drbdadm g job n ["adjust"; name]).
Definition secondary (n : nat) (wait force : bool) : M life unit :=
  let* name := look (fun w => Ok (r_name (resource_at w (node_resource w n)))) in
  on_world (drbdadm g job n (["secondary"; name] ++ (if force then ["--force"] else []))) ;;;
  when wait (nodes_event [n] ["resource .* role:Secondary"]).

(** ** Resources *)

Definition resource_nodes (r : nat) : M life (list nat) := look (fun w => Ok (items (r_nodes (resource_at w r)))).

(** [Resource.up_wait] *)
Definition up_wait (r : nat) (extra_options expected_disk_states : list string) : M life unit :=
  let* ns := resource_nodes r in
  nodes_up ns extra_options ;;;
  let* pds := look (fun w => let '(x, pds) := up_peer_devices w ns [] in let* _ := x in Ok pds) in
  peer_devices_wait pds ["peer-device .* peer-disk:(" +:+ join "|" expected_disk_states +:+ ")"] (Some 30%Z) ;;;
  change_patterns r (fun s => snd (os_add "connection:BrokenPipe" s)) ;;;
  change_patterns r (fun s => snd (os_add "connection:NetworkFailure" s)).

(** [Resource.down] *)
Definition resource_down (r : nat) (concurrent : bool) : M life unit :=
  let* ns := resource_nodes r in
  if concurrent then nodes_down ns else for_each ns (fun n => nodes_down [n]).

Definition initial_resync (r : nat) (timeout : Z) : M life unit :=
  let* ns := resource_nodes r in
  let* diskful := look (fun w => nodes_having w true ns) in
  let* diskless := look (fun w => nodes_having w false ns) in
  let* pds := look (fun w => let '(x, pds) := resync_peer_devices w diskful diskless [] in let* _ := x in Ok pds) in
  peer_devices_wait pds ["peer-device .* peer-disk:UpToDate"] (Some timeout).

(** [Resource.rename] *)
Definition rename (r : nat) (new_name : string) : M life unit :=
  let* ns := resource_nodes r in
  let* name := name_of r in
  nodes_run ns ["drbdsetup"; "rename-resource"; name; new_name] ;;;
  nodes_event ns ["rename resource name:" +:+ name +:+ " new_name:" +:+ new_name] ;;;
  on_world (set_resource r (set_r_name new_name)) ;;;
  on_world (touch_config r).
End lifecycle.

(** ** Lemmas: what commands leave alone *)

Lemma core_node_resource w w' n : same_core w w' -> node_resource w' n = node_resource w n.
Proof.
  intros Hc. unfold node_resource. pose proof (f_equal n_resource (core_node w n)) as H1.
  pose proof (f_equal n_resource (core_node w' n)) as H2. rewrite Hc in H2. cbn in H1, H2. congruence.
Qed.
Lemma core_node_host w w' n : same_core w w' -> n_host (node_at w' n) = n_host (node_at w n).
Proof.
  intros Hc. pose proof (f_equal n_host (core_node w n)) as H1.
  pose proof (f_equal n_host (core_node w' n)) as H2. rewrite Hc in H2. cbn in H1, H2. congruence.
Qed.
Lemma core_node_info w w' n : same_core w w' -> node_info w' n = node_info w n.
Proof.
  intros Hc. unfold node_info, node_host. rewrite (core_node_host w w' n Hc).
  pose proof (f_equal info (core_host w (n_host (node_at w n)))) as H1.
  pose proof (f_equal info (core_host w' (n_host (node_at w n)))) as H2. rewrite Hc in H2. cbn in H1, H2. congruence.
Qed.
Lemma core_resources w w' : same_core w w' -> w_resources w' = w_resources w.
Proof. intros Hc. by injection Hc. Qed.

(** Commands change the world's core and the list of waits in no way. *)
Definition same_life (s s' : life) : Prop :=
  same_core (l_world s) (l_world s') /\ l_waits s' = l_waits s.
#[export] Instance same_life_preorder : PreOrder same_life.
Proof. split; [by intros s|]. unfold same_life. intros a b c [H1 H2] [H3 H4]. split; [by etransitivity|congruence]. Qed.

(** A bind whose second part may use what the first returns *)
Lemma keeps_bind_val {S A B} (R : S -> S -> Prop) `{!PreOrder R} (m : M S A) (f : A -> M S B) :
  keeps R m -> (forall s a s', m s = (Ok a, s') -> keeps R (f a)) -> keeps R (m ≫= f).
Proof.
  intros Hm Hf s. unfold mbind; simpl. specialize (Hm s). destruct (m s) as [[a|e] s'] eqn:E; [|done].
  simpl in *. transitivity s'; [done|]. by apply (Hf s a s').
Qed.

Lemma keeps_look {A} (R : life -> life -> Prop) `{!PreOrder R} (f : world -> res A) : keeps R (look f).
Proof. intros s. simpl. reflexivity. Qed.
Lemma keeps_on_world {A} (m : M world A) : keeps same_core m -> keeps same_life (on_world m).
Proof. intros Hm s. specialize (Hm (l_world s)). unfold on_world, zoom. destruct (m (l_world s)) as [r w]. by split. Qed.

Section keeps_commands.
Context `{SshServer} (g : globals) (job : string).

Lemma keeps_drbdadm n cmd : keeps same_core (drbdadm g job n cmd).
Proof. unfold drbdadm. apply keeps_bind; [exact _|apply keeps_gets; exact _|intros x]. apply keeps_node_run. Qed.
Lemma keeps_nodes_drbdadm ns cmd : keeps same_life (nodes_drbdadm g job ns cmd).
Proof. apply keeps_for_each; [exact _|]. intros n _. apply keeps_on_world, keeps_drbdadm. Qed.
Lemma keeps_nodes_run ns cmd : keeps same_life (nodes_run g job ns cmd).
Proof. apply keeps_for_each; [exact _|]. intros n _. apply keeps_on_world, keeps_node_run. Qed.
Lemma keeps_nodes_resource_cmd ns cmd extra : keeps same_life (nodes_resource_cmd g job ns cmd extra).
Proof.
  unfold nodes_resource_cmd. apply keeps_bind; [exact _|apply keeps_look; exact _|intros r].
  apply keeps_bind; [exact _|apply keeps_look; exact _|intros name]. apply keeps_nodes_drbdadm.
Qed.
Lemma keeps_volume_cmd v cmd : keeps same_life (volume_cmd g job v cmd).
Proof.
  unfold volume_cmd. apply keeps_bind; [exact _|apply keeps_look; exact _|intros w]. apply keeps_on_world, keeps_drbdadm.
Qed.
End keeps_commands.

(** ** The invariant *)

(** The events of which every wait reports the failure *)
Definition watched : list string := ["connection:Timeout"; "connection:ProtocolError"; "peer-disk:Failed"].

Definition pattern_wf (p : oset string) : Prop := os_wf p /\ forall x, x ∈ watched -> x ∈ items p.

Definition life_wf (s : life) : Prop :=
  (forall n, node_resource (l_world s) n < length (w_resources (l_world s))) /\
  (forall x, x ∈ w_resources (l_world s) -> pattern_wf (forbidden_patterns x)) /\
  Forall (fun q => forall x, x ∈ watched -> x ∈ q_always_no q) (l_waits s).

Definition stays_wf (s s' : life) : Prop := life_wf s -> life_wf s'.
#[export] Instance stays_wf_preorder : PreOrder stays_wf.
Proof. split; [by intros s Hs|]. intros a b c H1 H2 Ha. by apply H2, H1. Qed.

Lemma same_life_wf s s' : same_life s s' -> stays_wf s s'.
Proof.
  intros [Hc Hw] (Hn & Hp & Hq). unfold life_wf. rewrite Hw, (core_resources _ _ Hc). split_and!; [|done..].
  intros n. by rewrite (core_node_resource _ _ n Hc).
Qed.
Lemma keeps_wf {A} (m : M life A) : keeps same_life m -> keeps stays_wf m.
Proof. intros Hm s. by apply same_life_wf. Qed.

Lemma wf_patterns s r : life_wf s -> r < length (w_resources (l_world s)) ->
  pattern_wf (forbidden_patterns (resource_at (l_world s) r)).
Proof.
  intros (_ & Hp & _) Hr. apply Hp. unfold resource_at.
  destruct (lookup_lt_is_Some_2 _ _ Hr) as [x Hx]. rewrite Hx. by eapply list_elem_of_lookup_2.
Qed.

Lemma pattern_wf_remove l p : (forall x, x ∈ l -> x ∉ watched) -> pattern_wf p -> pattern_wf (remove_from l p).
Proof.
  intros Hl [Hwf Hw]. destruct (os_difference_update_spec l p Hwf) as [Hwf' Hi]. split; [done|].
  intros x Hx. unfold remove_from. rewrite Hi. apply list_elem_of_filter. split; [|by apply Hw]. intros Hin. by apply (Hl x).
Qed.
Lemma pattern_wf_put_back l p : pattern_wf p -> pattern_wf (put_back l p).
Proof.
  intros [Hwf Hw]. destruct (os_update_spec l p Hwf) as [Hwf' Hi]. split; [done|].
  intros x Hx. unfold put_back. rewrite Hi, aset_union_elem. right. by apply Hw.
Qed.
Lemma pattern_wf_add k p : pattern_wf p -> pattern_wf (snd (os_add k p)).
Proof.
  intros [Hwf Hw]. split; [by apply os_add_wf|]. intros x Hx. rewrite os_add_items, aset_add_elem by done.
  right. by apply Hw.
Qed.

Lemma elem_of_alter {A} (f : A -> A) i (l : list A) x : x ∈ alter f i l -> x ∈ l \/ exists y, y ∈ l /\ x = f y.
Proof.
  revert i. induction l as [|a l IH]; intros [|i]; cbn; try (by intros ?%elem_of_nil).
  - intros [->|Hx]%elem_of_cons; [right; exists a; split; [by left|done]|left; by right].
  - intros [->|Hx]%elem_of_cons; [left; by left|]. destruct (IH i Hx) as [Hl|(y & Hy & ->)]; [left; by right|].
    right. exists y. split; [by right|done].
Qed.

Section waits.
Context `{EventScanner}.

(** A wait of a resource watches for what the resource forbids. *)
Lemma logscan_wf r yes filters timeout s : r < length (w_resources (l_world s)) ->
  stays_wf s (snd (resource_logscan r yes filters timeout s)).
Proof.
  intros Hr Hs. pose proof (wf_patterns s r Hs Hr) as [_ Hw]. destruct Hs as (Hn & Hp & Hq).
  unfold resource_logscan. cbn [snd]. split_and!; [done..|]. cbn [l_waits]. apply Forall_app. split; [done|].
  by apply Forall_singleton.
Qed.

(** So does one of the resource of a node. *)
Lemma logscan_node_wf n yes filters timeout s :
  stays_wf s (snd (resource_logscan (node_resource (l_world s) n) yes filters timeout s)).
Proof. intros Hs. apply logscan_wf; [|done]. by apply Hs. Qed.

Lemma keeps_nodes_event ns yes : keeps stays_wf (nodes_event ns yes).
Proof. destruct ns; [apply keeps_ret; exact _|]. intros s. apply logscan_node_wf. Qed.
Lemma keeps_volumes_wait vs yes : keeps stays_wf (volumes_wait vs yes).
Proof. destruct vs; [apply keeps_ret; exact _|]. intros s. apply logscan_node_wf. Qed.
Lemma keeps_connections_wait cs yes : keeps stays_wf (connections_wait cs yes).
Proof. destruct cs; [apply keeps_ret; exact _|]. intros s. apply logscan_node_wf. Qed.
Lemma keeps_peer_devices_wait pds yes timeout : keeps stays_wf (peer_devices_wait pds yes timeout).
Proof. destruct pds; [apply keeps_ret; exact _|]. intros s. apply logscan_node_wf. Qed.
End waits.

(** Changes of a resource that keep its patterns good *)
Lemma keeps_set_resource r f : (forall x, pattern_wf (forbidden_patterns x) -> pattern_wf (forbidden_patterns (f x))) ->
  keeps stays_wf (on_world (set_resource r f)).
Proof.
  intros Hf s (Hn & Hp & Hq). unfold on_world, zoom, set_resource, modify. cbn [snd]. split_and!; cbn [l_world l_waits]; [| |done].
  - intros n. cbn [w_resources]. rewrite length_alter. apply (Hn n).
  - intros x Hx. cbn [w_resources] in Hx. apply elem_of_alter in Hx as [Hx|(y & Hy & ->)]; auto.
Qed.
Lemma keeps_change_patterns r f : (forall p, pattern_wf p -> pattern_wf (f p)) -> keeps stays_wf (change_patterns r f).
Proof. intros Hf. apply keeps_set_resource. intros x Hx. by apply Hf. Qed.

(** The patterns taken out for a while are not among the watched ones. *)
Lemma disk_failed_val r ns s l s' : disk_failed_allowed r ns s = (Ok l, s') -> s' = s /\ (l = [] \/ l = ["disk:Failed"]).
Proof.
  unfold disk_failed_allowed, look. mred. destruct (os_contains _ _); [|intros [= <- <-]; auto].
  destruct (min_drbd_version_tuple _ _) as [v|]; [|done]. destruct (version_ltb v drbd9); intros [= <- <-]; auto.
Qed.
Lemma keeps_disk_failed {R : life -> life -> Prop} `{!PreOrder R} r ns : keeps R (disk_failed_allowed r ns).
Proof.
  unfold disk_failed_allowed. apply keeps_bind; [exact _|apply keeps_look; exact _|intros p].
  destruct (os_contains _ _); [|apply keeps_ret; exact _].
  apply keeps_bind; [exact _|apply keeps_look; exact _|intros v]. apply keeps_ret; exact _.
Qed.
Lemma disk_failed_not_watched r ns s l s' : disk_failed_allowed r ns s = (Ok l, s') -> forall x, x ∈ l -> x ∉ watched.
Proof. intros [_ [-> | ->]]%disk_failed_val x Hx; [by apply elem_of_nil in Hx|]. apply list_elem_of_singleton in Hx as ->.
  apply (bool_decide_unpack _). reflexivity. Qed.
Lemma down_patterns_not_watched r ns s l s' : down_patterns r ns s = (Ok l, s') -> forall x, x ∈ l -> x ∉ watched.
Proof.
  unfold down_patterns. mred. unfold look at 1. destruct (disk_failed_allowed r ns s) as [[d|e] s1] eqn:E; [|done].
  intros [= <- <-] x [Hx|Hx]%elem_of_app; [|by apply (disk_failed_not_watched _ _ _ _ _ E)].
  apply list_elem_of_filter in Hx as [_ Hx]. revert x Hx. apply Forall_forall.
  repeat constructor; apply (bool_decide_unpack _); reflexivity.
Qed.

(** ** The operations as commands of a run *)

Inductive life_op :=
| OpUp (ns : list nat) (extra_options : list string)
| OpUpWait (r : nat) (extra_options expected_disk_states : list string)
| OpUpUnconnected (ns : list nat)
| OpNodesDown (ns : list nat)
| OpResourceDown (r : nat) (concurrent : bool)
| OpAttach (ns : list nat)
| OpDetach (ns : list nat) (force : bool)
| OpConnect (cs : list (nat * nat)) (wait : bool) (options : list string)
| OpDisconnect (cs : list (nat * nat)) (wait force : bool)
| OpVerify (pds : list peer_device) (wait : bool) (options : list string)
| OpDelPath (ns : list nat) (peer : option (nat * Z))
| OpSecondary (n : nat) (wait force : bool)
| OpAdjust (n : nat)
| OpResync (r : nat) (timeout : Z)
| OpRename (r : nat) (new_name : string).

Section runs_of_operations.
Context `{SshServer} `{EventScanner} (g : globals) (job : string).

Definition life_step (o : life_op) : M life unit :=
  match o with
  | OpUp ns opts => nodes_up g job ns opts
  | OpUpWait r opts states => up_wait g job r opts states
  | OpUpUnconnected ns => up_unconnected g job ns
  | OpNodesDown ns => nodes_down g job ns
  | OpResourceDown r c => resource_down g job r c
  | OpAttach ns => nodes_attach g job ns
  | OpDetach ns f => nodes_detach g job ns f
  | OpConnect cs wait opts => connect g job cs wait opts
  | OpDisconnect cs wait force => disconnect g job cs wait force
  | OpVerify pds wait opts => verify g job pds wait opts
  | OpDelPath ns peer => del_path g job ns peer
  | OpSecondary n wait force => secondary g job n wait force
  | OpAdjust n => adjust g job n
  | OpResync r timeout => initial_resync r timeout
  | OpRename r new_name => rename g job r new_name
  end.

(** A test may catch the exception of a step and go on. *)
Definition life_run (ops : list life_op) (s : life) : life := foldl (fun s o => snd (life_step o s)) s ops.

(** One step at a time through the text of an operation *)
Ltac wf_step :=
  lazymatch goal with
  | |- keeps _ (mbind _ _) => apply keeps_bind; [exact _| |intros ?]
  | |- keeps _ (when _ _) => apply keeps_when; [exact _|]
  | |- keeps _ (for_each _ _) => apply keeps_for_each; [exact _|intros ? _]
  | |- keeps _ (mret _) => apply keeps_ret; exact _
  | |- keeps _ (look _) => apply keeps_look; exact _
  | |- keeps _ (disk_failed_allowed _ _) => apply keeps_disk_failed; exact _
  | |- keeps _ (nodes_event _ _) => apply keeps_nodes_event
  | |- keeps _ (volumes_wait _ _) => apply keeps_volumes_wait
  | |- keeps _ (connections_wait _ _) => apply keeps_connections_wait
  | |- keeps _ (peer_devices_wait _ _ _) => apply keeps_peer_devices_wait
  | |- keeps _ (nodes_resource_cmd _ _ _ _ _) => apply keeps_wf, keeps_nodes_resource_cmd
  | |- keeps _ (nodes_run _ _ _ _) => apply keeps_wf, keeps_nodes_run
  | |- keeps _ (volume_cmd _ _ _ _) => apply keeps_wf, keeps_volume_cmd
  | |- keeps _ (on_world (drbdadm _ _ _ _)) => apply keeps_wf, keeps_on_world, keeps_drbdadm
  | |- keeps _ (on_world (node_run _ _ _ _)) => apply keeps_wf, keeps_on_world, keeps_node_run
  | |- keeps _ (on_world (update_config _ _ _)) => apply keeps_wf, keeps_on_world, keeps_update_config
  | |- keeps _ (match _ with _ => _ end) => case_match
  end.
Ltac solve_wf := repeat wf_step.

Lemma nodes_up_wf ns opts : keeps stays_wf (nodes_up g job ns opts).
Proof. unfold nodes_up. solve_wf. Qed.

Lemma nodes_down_wf ns : keeps stays_wf (nodes_down g job ns).
Proof.
  unfold nodes_down. wf_step; [solve_wf|]. wf_step; [solve_wf|].
  apply keeps_bind_val; [exact _| |intros s l s' Hl].
  - unfold down_patterns. solve_wf.
  - wf_step; [|solve_wf; apply keeps_change_patterns, pattern_wf_put_back].
    apply keeps_change_patterns. intros p. apply pattern_wf_remove. by apply (down_patterns_not_watched _ _ _ _ _ Hl).
Qed.

Lemma volumes_detach_wf vs force : keeps stays_wf (volumes_detach g job vs force).
Proof.
  unfold volumes_detach. destruct vs as [|v0 vs]; [apply keeps_ret; exact _|]. wf_step; [solve_wf|]. wf_step; [solve_wf|].
  apply keeps_bind_val; [exact _|solve_wf|intros s l s' Hl].
  wf_step; [|solve_wf; apply keeps_change_patterns, pattern_wf_put_back].
  apply keeps_change_patterns. intros p. apply pattern_wf_remove. by apply (disk_failed_not_watched _ _ _ _ _ Hl).
Qed.

Lemma volumes_attach_wf vs : keeps stays_wf (volumes_attach g job vs).
Proof. unfold volumes_attach. solve_wf. Qed.
Lemma run_drbdadm_wf cs cmd state wait opts : keeps stays_wf (run_drbdadm g job cs cmd state wait opts).
Proof. unfold run_drbdadm. solve_wf. Qed.
Lemma del_path_wf ns peer : keeps stays_wf (del_path g job ns peer).
Proof. unfold del_path, path_of_config, path_of_peer. solve_wf. Qed.
Lemma up_unconnected_wf ns : keeps stays_wf (up_unconnected g job ns).
Proof.
  unfold up_unconnected, new_resource_cmd, new_minor, new_peer, peer_device_options, new_path, path_of_config, nodes_attach.
  repeat first [apply volumes_attach_wf | wf_step].
Qed.
Lemma up_wait_wf r opts states : keeps stays_wf (up_wait g job r opts states).
Proof.
  unfold up_wait, resource_nodes.
  repeat first [apply nodes_up_wf | apply keeps_change_patterns, pattern_wf_add | wf_step].
Qed.

Lemma touch_config_core r : keeps same_core (touch_config r).
Proof.
  unfold touch_config. apply keeps_bind; [exact _|apply keeps_gets; exact _|intros ns].
  apply keeps_for_each; [exact _|]. intros n _. by apply keeps_core_set_node.
Qed.

Lemma life_step_wf o : keeps stays_wf (life_step o).
Proof.
  destruct o; cbn [life_step].
  - apply nodes_up_wf.
  - apply up_wait_wf.
  - apply up_unconnected_wf.
  - apply nodes_down_wf.
  - unfold resource_down, resource_nodes. wf_step; [solve_wf|].
    case_match; [apply nodes_down_wf|]. apply keeps_for_each; [exact _|]. intros n _. apply nodes_down_wf.
  - unfold nodes_attach. wf_step; [solve_wf|]. apply volumes_attach_wf.
  - unfold nodes_detach. wf_step; [solve_wf|]. apply volumes_detach_wf.
  - apply run_drbdadm_wf.
  - apply run_drbdadm_wf.
  - unfold verify. solve_wf.
  - apply del_path_wf.
  - unfold secondary. solve_wf.
  - unfold adjust. solve_wf.
  - unfold initial_resync, resource_nodes. solve_wf.
  - unfold rename, resource_nodes, name_of.
    repeat first [by apply keeps_set_resource | apply keeps_wf, keeps_on_world, touch_config_core | wf_step].
Qed.
End runs_of_operations.

(** ** Lemmas: taking nodes down *)

Lemma version_ltb_spec a b : version_ltb a b = true <->
  let '(a1, a2, a3) := a in let '(b1, b2, b3) := b in
  (a1 < b1 \/ a1 = b1 /\ (a2 < b2 \/ a2 = b2 /\ a3 < b3))%Z.
Proof.
  destruct a as [[a1 a2] a3], b as [[b1 b2] b3]. unfold version_ltb.
  rewrite !orb_true_iff, !andb_true_iff, !orb_true_iff, !andb_true_iff, !Z.ltb_lt, !Z.eqb_eq. tauto.
Qed.

(** The minimum is below a bound if one of the versions is. *)
Lemma min_version_below w ns b v : min_drbd_version_tuple w ns = Ok v ->
  version_ltb v b = true <-> exists n, n ∈ ns /\ version_ltb (node_version w n) b = true.
Proof.
  assert (Hfold : forall vs m, version_ltb (foldl (fun m v => if version_ltb v m then v else m) m vs) b = true <->
    version_ltb m b = true \/ exists x, x ∈ vs /\ version_ltb x b = true).
  { intros vs. induction vs as [|x vs IH]; intros m; cbn [foldl]; [set_solver|]. rewrite IH. clear IH.
    assert (Hx : version_ltb (if version_ltb x m then x else m) b = true <-> version_ltb m b = true \/ version_ltb x b = true).
    { destruct (version_ltb x m) eqn:Hxm; [|apply not_true_iff_false in Hxm]; rewrite version_ltb_spec in *;
        rewrite version_ltb_spec; destruct x as [[? ?] ?], m as [[? ?] ?], b as [[? ?] ?]; lia. }
    rewrite Hx. setoid_rewrite elem_of_cons. naive_solver. }
  unfold min_drbd_version_tuple. destruct ns as [|n ns]; [done|]. cbn [map]. intros [= <-]. rewrite Hfold.
  setoid_rewrite elem_of_cons. setoid_rewrite list_elem_of_fmap. naive_solver.
Qed.

Lemma resource_at_set w r f : r < length (w_resources w) ->
  resource_at (snd (set_resource r f w)) r = f (resource_at w r).
Proof.
  intros Hr. unfold resource_at. cbn [set_resource modify snd w_resources].
  destruct (lookup_lt_is_Some_2 _ _ Hr) as [x Hx]. by rewrite list_lookup_alter_eq, Hx.
Qed.

Section down.
Context `{SshServer} `{EventScanner} (g : globals) (job : string).

(** What may show up while the nodes go down *)
Definition shutdown_event (w : world) (ns : list nat) (p : string) : Prop :=
  p ∈ ["connection:BrokenPipe"; "connection:NetworkFailure"] \/
  p = "disk:Failed" /\ exists n, n ∈ ns /\ version_ltb (node_version w n) drbd9 = true.

Lemma down_patterns_spec r ns s l s' :
  os_wf (forbidden_patterns (resource_at (l_world s) r)) -> down_patterns r ns s = (Ok l, s') ->
  s' = s /\ forall p, p ∈ l <-> p ∈ items (forbidden_patterns (resource_at (l_world s) r)) /\ shutdown_event (l_world s) ns p.
Proof.
  intros Hwf. unfold down_patterns, disk_failed_allowed, look, shutdown_event. mred.
  set (pats := forbidden_patterns _) in *. rewrite (os_contains_spec "disk:Failed") by done.
  case_bool_decide as Hd.
  - destruct (min_drbd_version_tuple (l_world s) ns) as [v|] eqn:Hv; [|done]. intros [= <- <-]. split; [done|]. intros p.
    rewrite elem_of_app, list_elem_of_filter, os_contains_spec, bool_decide_eq_true by done.
    rewrite <-(min_version_below _ _ drbd9 _ Hv). destruct (version_ltb v drbd9); set_solver.
  - intros [= <- <-]. split; [done|]. intros p.
    rewrite app_nil_r, list_elem_of_filter, os_contains_spec, bool_decide_eq_true by done. naive_solver.
Qed.

Lemma same_life_resource s s' r : same_life s s' -> resource_at (l_world s') r = resource_at (l_world s) r.
Proof. intros [Hc _]. unfold resource_at. by rewrite (core_resources _ _ Hc). Qed.

Lemma change_patterns_spec r f s : r < length (w_resources (l_world s)) ->
  let s' := snd (change_patterns r f s) in
  fst (change_patterns r f s) = Ok tt /\
  forbidden_patterns (resource_at (l_world s') r) = f (forbidden_patterns (resource_at (l_world s) r)) /\
  length (w_resources (l_world s')) = length (w_resources (l_world s)) /\
  (forall n, node_resource (l_world s') n = node_resource (l_world s) n) /\ l_waits s' = l_waits s.
Proof.
  intros Hr s'.
  assert (Hw : l_world s' = snd (set_resource r (fun x => set_forbidden (f (forbidden_patterns x)) x) (l_world s))) by done.
  split_and!; [done| | |done|done].
  - by rewrite Hw, resource_at_set.
  - rewrite Hw. cbn. apply length_alter.
Qed.

(** The part of [nodes_down] after the patterns are taken out *)
Lemma down_commands_spec r n0 ns l s s' :
  node_resource (l_world s) n0 = r -> r < length (w_resources (l_world s)) ->
  (nodes_resource_cmd g job (n0 :: ns) "down" [] ;;;
   nodes_event (n0 :: ns) ["destroy resource"] ;;;
   change_patterns r (put_back l)) s = (Ok tt, s') ->
  let p := forbidden_patterns (resource_at (l_world s) r) in
  forbidden_patterns (resource_at (l_world s') r) = put_back l p /\
  exists q, l_waits s' = l_waits s ++ [q] /\ q_yes q = ["destroy resource"] /\ q_always_no q = items p /\
    q_after q = length (sent_log (w_env (l_world s'))).
Proof.
  intros Hr Hlt. mred.
  pose proof (keeps_nodes_resource_cmd g job (n0 :: ns) "down" [] s) as Hc.
  destruct (nodes_resource_cmd g job (n0 :: ns) "down" [] s) as [[[]|e] s1]; [|done]. cbn [snd] in Hc.
  unfold nodes_event. cbn [look]. unfold look. mred.
  assert (Hr1 : node_resource (l_world s1) n0 = r) by (by rewrite (core_node_resource _ _ n0 (proj1 Hc))).
  rewrite Hr1. unfold resource_logscan. destruct (scan _ _ _) as [[]|e]; [|done]. cbn beta iota.
  unfold change_patterns, on_world, zoom. intros [= <-]. cbn [l_world l_waits].
  rewrite (same_life_resource _ _ r Hc). split.
  - change (World _ _ _ _ _) with (snd (set_resource r (fun x => set_forbidden (put_back l (forbidden_patterns x)) x) (l_world s1))).
    rewrite resource_at_set by (by rewrite (core_resources _ _ (proj1 Hc))).
    cbn [forbidden_patterns set_forbidden]. by rewrite (same_life_resource _ _ r Hc).
  - eexists. split; [by rewrite (proj2 Hc)|]. done.
Qed.

(** [nodes_down] without the proxy *)
Lemma down_after_proxy n0 ns s s' :
  let forbidden s1 := forbidden_patterns (resource_at (l_world s1) (node_resource (l_world s) n0)) in
  life_wf s ->
  (let* r := look (fun w => first_resource w (n0 :: ns)) in
   let* l := down_patterns r (n0 :: ns) in
   change_patterns r (remove_from l) ;;;
   nodes_resource_cmd g job (n0 :: ns) "down" [] ;;;
   nodes_event (n0 :: ns) ["destroy resource"] ;;;
   change_patterns r (put_back l)) s = (Ok tt, s') ->
  (exists q, l_waits s' = l_waits s ++ [q] /\ q_yes q = ["destroy resource"] /\
    q_after q = length (sent_log (w_env (l_world s'))) /\
    forall p, p ∈ q_always_no q <-> p ∈ items (forbidden s) /\ ~ shutdown_event (l_world s) (n0 :: ns) p) /\
  (forall p, p ∈ items (forbidden s') <-> p ∈ items (forbidden s)).
Proof.
  intros forbidden Hwf. mred. unfold look at 1. cbn [first_resource]. set (r := node_resource (l_world s) n0) in *.
  assert (Hlt : r < length (w_resources (l_world s))) by apply Hwf.
  pose proof (proj1 (wf_patterns s r Hwf Hlt)) as Hpat. change (os_wf (forbidden s)) in Hpat.
  destruct (down_patterns r (n0 :: ns) s) as [[l|e] s2] eqn:Hl; [|done].
  apply down_patterns_spec in Hl as [-> Hl]; [|done].
  destruct (os_difference_update_spec l (forbidden s) Hpat) as [Hwf2 Hi2].
  destruct (change_patterns r (remove_from l) s) as [[[]|e] s2] eqn:Hs2; [|done]. intros Hrun.
  destruct (change_patterns_spec r (remove_from l) s Hlt) as (Hok & Hf2 & Hr2 & Hn2 & Hw2).
  rewrite Hs2 in Hf2, Hr2, Hn2, Hw2. cbn [snd] in *.
  apply down_commands_spec in Hrun as [Hfin (q & Hq & Hyes & Hno & Hafter)]; [|by rewrite Hn2|by rewrite Hr2].
  rewrite Hf2 in Hfin, Hno. fold (forbidden s) in Hfin, Hno. split.
  - exists q. rewrite Hq, Hw2. split_and!; [done..|]. intros p. rewrite Hno. unfold remove_from.
    rewrite Hi2. unfold aset_difference. rewrite list_elem_of_filter, Hl. tauto.
  - intros p. unfold forbidden at 1. rewrite Hfin. unfold put_back, remove_from.
    rewrite (proj2 (os_update_spec l _ Hwf2)), aset_union_elem, Hi2. unfold aset_difference.
    rewrite list_elem_of_filter. destruct (decide (p ∈ l)); [|tauto]. rewrite Hl in *. tauto.
Qed.
End down.

Lemma core_shutdown_event w w' ns p : same_core w w' -> shutdown_event w' ns p <-> shutdown_event w ns p.
Proof.
  intros Hc. unfold shutdown_event, node_version. by setoid_rewrite (core_node_info w w' _ Hc).
Qed.

(** ** Lemmas: the peer devices of a resync *)

Section resync.
Context (w : world) (R : nat).

Definition of_resource (p : peer_device) : Prop := connection_resource (node_resource w) (fst p) = R.

(** [m] adds exactly the peer devices of [P]. *)
Definition adds (m : M (list peer_device) unit) (P : peer_device -> Prop) : Prop :=
  forall pds, (forall p, p ∈ pds -> of_resource p) -> exists pds', m pds = (Ok tt, pds') /\
    (forall p, p ∈ pds' -> of_resource p) /\ forall p, p ∈ pds' <-> p ∈ pds \/ P p.

Lemma adds_for_each {A} (l : list A) body (P : A -> peer_device -> Prop) :
  (forall x, x ∈ l -> adds (body x) (P x)) -> adds (for_each l body) (fun p => exists x, x ∈ l /\ P x p).
Proof.
  induction l as [|x l IH]; intros Hb pds Hpds.
  - exists pds. split; [done|]. split; [done|]. set_solver.
  - destruct (Hb x) with pds as (p1 & E1 & H1 & Hp1); [by left|done|]. destruct IH with p1 as (p2 & E2 & H2 & Hp2); [|done|].
    + intros y Hy. apply Hb. by right.
    + exists p2. split; [cbn [for_each]; mred; by rewrite E1|]. split; [done|]. intros p. rewrite Hp2, Hp1. set_solver.
Qed.

Lemma adds_bind m1 m2 P1 P2 : adds m1 P1 -> adds m2 P2 -> adds (m1 ;;; m2) (fun p => P1 p \/ P2 p).
Proof.
  intros Hm1 Hm2 pds Hpds. destruct (Hm1 pds Hpds) as (p1 & E1 & H1 & Hp1). destruct (Hm2 p1 H1) as (p2 & E2 & H2 & Hp2).
  exists p2. split; [mred; by rewrite E1|]. split; [done|]. intros p. rewrite Hp2, Hp1. tauto.
Qed.

Lemma adds_ret : adds (mret tt) (fun _ => False).
Proof. intros pds Hpds. exists pds. split; [done|]. split; [done|]. tauto. Qed.

Lemma adds_one n1 n2 v : node_resource w n1 = R -> node_resource w n2 = R ->
  adds (add_peer_device w n1 n2 v) (fun p => p = ((n1, n2), v)).
Proof.
  intros H1 H2 pds Hpds. exists (pds ++ [((n1, n2), v)]). split; [|split].
  - unfold add_peer_device, new_connection, py_assert. mred. rewrite H1, H2, decide_True by done. cbn.
    destruct pds as [|p pds]; [done|]. rewrite (Hpds p) by by left. by rewrite bool_decide_true.
  - intros p [Hp|Hp]%elem_of_app; [by apply Hpds|]. apply list_elem_of_singleton in Hp as ->. done.
  - intros p. by rewrite elem_of_app, list_elem_of_singleton.
Qed.

Lemma adds_ext m (P Q : peer_device -> Prop) : (forall p, P p <-> Q p) -> adds m P -> adds m Q.
Proof.
  intros HPQ Hm pds Hpds. destruct (Hm pds Hpds) as (p' & E & H1 & Hp). exists p'. split; [done|]. split; [done|].
  intros p. by rewrite Hp, HPQ.
Qed.

Lemma adds_resync diskful diskless n0 vs :
  (forall n, n ∈ diskful -> node_resource w n = R) -> (forall n, n ∈ diskless -> node_resource w n = R) ->
  py_index diskful 0 = Ok n0 -> node_volumes w n0 = Ok vs ->
  adds (resync_peer_devices w diskful diskless)
    (fun p => let '((a, b), v) := p in b ∈ diskful /\ v ∈ items vs /\ (a ∈ diskless \/ (a ∈ diskful /\ a <> b))).
Proof.
  intros Hf Hl Hn0 Hvs.
  assert (Hlift : forall (f : oset nat -> M (list peer_device) unit) P, adds (f vs) P ->
    adds (let* vs := lift (let* n0 := py_index diskful 0 in node_volumes w n0) in f vs) P).
  { intros f P Hfv pds Hpds. destruct (Hfv pds Hpds) as (p' & E & Hp). exists p'. split; [|done].
    mred. unfold lift. by rewrite Hn0, Hvs. }
  unfold resync_peer_devices. eapply adds_ext; [|apply adds_bind].
  2: apply (adds_for_each _ _ (fun a p => exists v, v ∈ items vs /\ exists b, b ∈ diskful /\ p = ((a, b), v)));
     intros a Ha; apply Hlift, (adds_for_each _ _ (fun v p => exists b, b ∈ diskful /\ p = ((a, b), v)));
     intros v Hv; apply adds_for_each; intros b Hb; apply adds_one; auto.
  2: apply (adds_for_each _ _ (fun a p => exists v, v ∈ items vs /\ exists b, b ∈ diskful /\ (p = ((a, b), v) /\ a <> b)));
     intros a Ha; apply Hlift, (adds_for_each _ _ (fun v p => exists b, b ∈ diskful /\ (p = ((a, b), v) /\ a <> b)));
     intros v Hv; apply adds_for_each; intros b Hb; case_decide as Hab;
     [eapply adds_ext; [|apply adds_ret]; naive_solver|eapply adds_ext; [|apply adds_one; auto]; naive_solver].
  intros [[a b] v]. naive_solver.
Qed.
End resync.

(** The nodes with and without a disk *)
Lemma coll_init_elems {K R} `{Countable K} `{EqDecision R} (resource : K -> R) l s :
  coll_init (T := oset K) resource l = Ok s -> forall k, k ∈ items s <-> k ∈ l.
Proof.
  unfold coll_init. destruct (forallb _ l); [|done]. intros [= <-] k.
  assert (Hs : items (osNew l : oset K) = aset_union l []) by exact (proj2 (spec_new (T := oset K) l)).
  transitivity (k ∈ items (osNew l : oset K)); [done|]. rewrite Hs, aset_union_elem. set_solver.
Qed.

Lemma nodes_having_spec w b ns l : nodes_having w b ns = Ok l ->
  forall n, n ∈ l <-> n ∈ ns /\ existsb (has_disk w) (n_disks (node_at w n)) = b.
Proof.
  unfold nodes_having. mred.
  assert (Hmap : forall ns r, map_res ns (fun n => let* vs := node_volumes w n in
      Ok (n, bool_decide (existsb (has_disk w) (items vs) = b))) = Ok r ->
    r = map (fun n => (n, bool_decide (existsb (has_disk w) (n_disks (node_at w n)) = b))) ns).
  { clear. intros ns. induction ns as [|n ns IH]; intros r; cbn [map_res]; mred; [by intros [= <-]|].
    destruct (node_volumes w n) as [vs|] eqn:Hvs; [|done]. destruct (map_res _ _) as [r'|]; [|done]. intros [= <-].
    cbn [map]. f_equal; [|by apply IH]. f_equal. apply bool_decide_ext.
    replace (existsb (has_disk w) (items vs)) with (existsb (has_disk w) (n_disks (node_at w n))); [done|].
    apply eq_true_iff_eq. rewrite !existsb_exists. setoid_rewrite <-list_elem_of_In.
    split; intros (v & Hv & Hd); exists v; (split; [|done]); by apply (coll_init_elems _ _ _ Hvs). }
  destruct (map_res ns _) as [r|] eqn:Hr; [|done]. apply Hmap in Hr as ->.
  destruct (coll_init _ _) as [s|] eqn:Hs; [|done]. intros [= <-] n. rewrite (coll_init_elems _ _ _ Hs).
  rewrite list_elem_of_fmap. setoid_rewrite list_elem_of_filter. setoid_rewrite list_elem_of_fmap.
  split.
  - intros ([m c] & -> & Hc & (m' & [= -> ->] & Hm)). cbn in *. by apply bool_decide_eq_true in Hc.
  - intros [Hn Hd]. eexists (n, _). split; [done|]. split; [|by exists n]. cbn. by apply bool_decide_eq_true.
Qed.

Lemma nodes_having_volumes w b ns l n : nodes_having w b ns = Ok l -> n ∈ ns -> exists vs, node_volumes w n = Ok vs.
Proof.
  unfold nodes_having. mred. destruct (map_res ns _) as [r|] eqn:Hr; [|done]. intros _. revert r Hr.
  induction ns as [|m ns IH]; [by intros r _ ?%elem_of_nil|]. cbn [map_res]. mred. intros r.
  destruct (node_volumes w m) as [vs|] eqn:Hvs; [|done]. destruct (map_res ns _) as [r'|]; [|done]. intros _.
  intros [->|Hn]%elem_of_cons; [by eexists|]. by eapply IH.
Qed.

(** ** Properties *)

(** C5: through any sequence of operations on the resources of a cluster,
    even when operations fail half way and the test goes on, every wait for
    events is told to fail on a connection timeout, a protocol error and a
    failed disk of a peer. *)
Theorem every_wait_watches_for_failures `{SshServer} `{EventScanner} g job ops s q x :
  life_wf s -> q ∈ l_waits (life_run g job ops s) -> x ∈ watched -> x ∈ q_always_no q.
Proof.
  intros Hwf. assert (Hrun : life_wf (life_run g job ops s)).
  { revert s Hwf. induction ops as [|o ops IH]; intros s Hwf; [done|]. apply (IH (snd (life_step g job o s))).
    by apply life_step_wf. }
  destruct Hrun as (_ & _ & Hq). intros Hin. revert x. by apply (proj1 (Forall_forall _ _) Hq).
Qed.

(** C17: [down] waits for the end of the resource after the last command, with
    the patterns forbidden before, less those a shutdown causes: broken pipes
    and network failures, and failed disks if one of the nodes has a DRBD
    before 9. When it succeeds, exactly the patterns forbidden before are
    forbidden again. *)
Theorem down_allows_the_shutdown_events `{SshServer} `{EventScanner} g job n0 ns s s' :
  let w := l_world s in
  let forbidden s := forbidden_patterns (resource_at (l_world s) (node_resource w n0)) in
  life_wf s -> nodes_down g job (n0 :: ns) s = (Ok tt, s') ->
  (exists q, l_waits s' = l_waits s ++ [q] /\ q_yes q = ["destroy resource"] /\
    q_after q = length (sent_log (w_env (l_world s'))) /\
    forall p, p ∈ q_always_no q <-> p ∈ items (forbidden s) /\ ~ shutdown_event w (n0 :: ns) p) /\
  (forall p, p ∈ items (forbidden s') <-> p ∈ items (forbidden s)).
Proof.
  intros w forbidden Hwf. unfold nodes_down. mred.
  assert (Hc : keeps same_life (when (proxy_enable g) (nodes_resource_cmd g job (n0 :: ns) "proxy-down" []))).
  { apply keeps_when; [exact _|]. apply keeps_nodes_resource_cmd. }
  specialize (Hc s). destruct (when _ _ s) as [[[]|e] s1]; [|done]. cbn [snd] in Hc. intros Hrun.
  assert (Hr1 : node_resource (l_world s1) n0 = node_resource w n0) by apply (core_node_resource _ _ n0 (proj1 Hc)).
  destruct (down_after_proxy g job n0 ns s1 s') as [(q & Hq & Hyes & Hafter & Hno) Hfin].
  { by apply (same_life_wf _ _ Hc). }
  { exact Hrun. }
  rewrite Hr1, (same_life_resource _ _ _ Hc) in Hno. rewrite Hr1, (same_life_resource _ _ _ Hc) in Hfin.
  split; [|exact Hfin]. exists q. rewrite Hq, (proj2 Hc). split_and!; [done..|]. intros p. rewrite Hno.
  by rewrite (core_shutdown_event _ _ _ _ (proj1 Hc)).
Qed.

(** with a disk on some node, [initial_resync] waits, on behalf of every
    node, with a disk or not, until it sees the disk of every other node that
    has one as up to date, for each volume of the first of them: exactly these
    peer devices make up the filters of its one wait. *)
Theorem initial_resync_waits_for_every_pair `{EventScanner} r timeout s s' :
  let w := l_world s in let ns := items (r_nodes (resource_at w r)) in
  let has_disks n := existsb (has_disk w) (n_disks (node_at w n)) = true in
  (forall n, n ∈ ns -> node_resource w n = r) -> (exists n, n ∈ ns /\ has_disks n) ->
  initial_resync r timeout s = (Ok tt, s') ->
  exists n0 pds, n0 ∈ ns /\ has_disks n0 /\
    (forall a b v, ((a, b), v) ∈ pds <->
      a ∈ ns /\ b ∈ ns /\ a <> b /\ has_disks b /\ v ∈ n_disks (node_at w n0)) /\
    (pds <> [] -> exists q, l_waits s' = l_waits s ++ [q] /\ q_yes q = ["peer-device .* peer-disk:UpToDate"] /\
      q_timeout q = Some timeout /\
      q_filters q = logscan_filters (length (w_resources w)) (r_name (resource_at w r))
        (peer_devices_event (map (fun p => (connection_key w (fst p), v_volume (volume_at w (snd p)))) pds))).
Proof.
  intros w ns has_disks Hns Hsome. unfold initial_resync, resource_nodes, look. mred. fold w. fold ns.
  destruct (nodes_having w true ns) as [diskful|] eqn:Hf; [|done].
  destruct (nodes_having w false ns) as [diskless|] eqn:Hl; [|done].
  pose proof (nodes_having_spec _ _ _ _ Hf) as Hful. pose proof (nodes_having_spec _ _ _ _ Hl) as Hless.
  destruct diskful as [|n0 diskful]; [by destruct Hsome as (n & Hn); apply Hful, elem_of_nil in Hn|].
  assert (Hn0 : n0 ∈ ns /\ has_disks n0) by (apply Hful; by left).
  destruct (nodes_having_volumes _ _ _ _ n0 Hf (proj1 Hn0)) as [vs Hvs].
  destruct (adds_resync w r (n0 :: diskful) diskless n0 vs) with (@nil peer_device) as (pds & -> & Hres & Hpds);
    [intros n Hn; apply Hns; by apply Hful in Hn as [? _]|intros n Hn; apply Hns; by apply Hless in Hn as [? _]|done|done|by intros ? ?%elem_of_nil|].
  intros Hrun. exists n0, pds. split; [apply Hn0|]. split; [apply Hn0|]. split.
  - intros a b v. rewrite Hpds, Hful, Hful, Hless, (coll_init_elems _ _ _ Hvs), elem_of_nil. unfold has_disks.
    split; [intros [[]|(Hb & Hv & [[Ha Hd]|[Ha Hab]])]; split_and!; try tauto; intros ->; destruct Hb; congruence|].
    intros (Ha & Hb & Hab & Hd & Hv). right. split; [done|]. split; [done|].
    destruct (existsb (has_disk w) (n_disks (node_at w a))); tauto.
  - intros Hne. destruct pds as [|p0 pds]; [done|]. revert Hrun. unfold peer_devices_wait, look. mred.
    assert (H0 : connection_resource (node_resource w) (fst p0) = r) by (apply (Hres p0); by left).
    fold w. rewrite H0. unfold resource_logscan. intros [= _ <-]. eexists. done.
Qed.

(** ** Witnesses *)

#[local] Instance willing_server : SshServer := fun _ _ => Ok (0%Z, EmptyString).
#[local] Instance willing_scanner : EventScanner := fun _ _ _ => Ok tt.
Definition demo_life : life := Life (demo_config_world EmptyString) [].

Lemma demo_life_wf : life_wf demo_life.
Proof.
  split_and!; [| |constructor].
  - intros [|[|n]]; vm_compute; lia.
  - intros x Hx. cbn in Hx. apply list_elem_of_singleton in Hx as ->. split; [apply os_update_spec, os_empty_wf|].
    apply Forall_forall. repeat constructor; apply (bool_decide_unpack _); reflexivity.
Qed.

Lemma every_wait_watches_for_failures_witness :
  let s := life_run demo_globals "job" [OpUp [0; 1] []; OpNodesDown [0; 1]; OpAttach [0]] demo_life in
  length (l_waits s) = 2 /\ Forall (fun q => forall x, x ∈ watched -> x ∈ q_always_no q) (l_waits s).
Proof.
  split; [vm_compute; reflexivity|]. apply Forall_forall. intros q Hq x Hx.
  exact (every_wait_watches_for_failures demo_globals "job" _ demo_life q x demo_life_wf Hq Hx).
Defined.

Lemma down_allows_the_shutdown_events_witness :
  exists q, l_waits (snd (nodes_down demo_globals "job" [0; 1] demo_life)) = [q] /\ q_yes q = ["destroy resource"].
Proof.
  destruct (down_allows_the_shutdown_events demo_globals "job" 0 [1] demo_life
    (snd (nodes_down demo_globals "job" [0; 1] demo_life))) as [(q & Hq & Hy & _) _].
  - apply demo_life_wf.
  - vm_compute. reflexivity.
  - exists q. split; [exact Hq|exact Hy].
Defined.

Lemma initial_resync_waits_for_every_pair_witness :
  exists n0 (pds : list peer_device), n0 ∈ [0; 1] /\
    forall a b v, ((a, b), v) ∈ pds -> a ∈ [0; 1] /\ b ∈ [0; 1] /\ a <> b.
Proof.
  destruct (initial_resync_waits_for_every_pair 0 300 demo_life (snd (initial_resync 0 300 demo_life)))
    as (n0 & pds & Hn0 & _ & Hpds & _).
  - apply Forall_forall. repeat constructor; reflexivity.
  - exists 0. split; [left|reflexivity].
  - vm_compute. reflexivity.
  - exists n0, pds. split; [exact Hn0|]. intros a b v Hp. apply Hpds in Hp as (Ha & Hb & Hab & _). split; [exact Ha|].
    split; [exact Hb|exact Hab].
Defined.
