(* ===== verification/TrafficControl.v ===== *)
(** * Slowing down connections (src/python/trafficcontrol.py)

    The [tc] commands that give every peer of a node a class of its own, and
    those that delay the packets of one class.  What [tc] does with a command
    is not the code's: it is an interface, with the laws the tests rely on. *)

From S2P Require Import Prelude PyStr Dict OrderedSet Host World Config Cluster Firewall.

(** ** Commands *)

(** [_node_to_class] and [_node_to_handle] *)
Definition node_to_class (w : world) (n : nat) : string := "1:" +:+ str_nat (n_id (node_at w n) + 1).
Definition node_to_handle (w : world) (n : nat) : string := str_nat (n_id (node_at w n) + 100) +:+ ":".

Definition root_del_cmd (dev : string) : list string := ["tc"; "qdisc"; "del"; "dev"; dev; "root"].
Definition prio_cmd (dev : string) (bands band : nat) : list string :=
  ["tc"; "qdisc"; "replace"; "dev"; dev; "root"; "handle"; "1:"; "prio"; "bands"; str_nat bands; "priomap"] ++
  repeat (str_nat band) 16.
Definition filter_cmd (dev ip flowid : string) : list string :=
  ["tc"; "filter"; "add"; "dev"; dev; "parent"; "1:"; "protocol"; "ip"; "prio"; "1"; "u32";
   "match"; "ip"; "dst"; ip; "flowid"; flowid].
Definition netem_cmd (dev parent handle : string) (args : list string) : list string :=
  ["tc"; "qdisc"; "replace"; "dev"; dev; "parent"; parent; "handle"; handle; "netem"] ++ args.
Definition netem_del_cmd (dev parent handle : string) : list string :=
  ["tc"; "qdisc"; "del"; "dev"; dev; "parent"; parent; "handle"; handle].

(** The parameters of a slow-down *)
Definition netem_args (speed delay : string) : list string :=
  (if decide (delay = EmptyString) then [] else ["delay"; delay]) ++
  (if decide (speed = EmptyString) then [] else ["rate"; speed]).

(** ** Operations *)

Section traffic.
Context `{SshServer} (g : globals) (job : string).

(** [Host.net_device_to_peer] *)
Definition net_device_to_peer (h peer_host : host_info) (net_num : nat) : M env string :=
  let* a := lift (py_index (h_addrs peer_host) (Z.of_nat net_num)) in
  let* lines := run_out h ["ip"; "-o"; "route"; "get"; a] in
  lift (py_index (str_split " " lines) 2).

(** An object [TrafficControl] *)
Record traffic_control := NewTrafficControl { source_node : nat; tc_nodes : list nat }.

Definition device_of (w : world) (t : traffic_control) (n net_num : nat) : M world string :=
  on_env (net_device_to_peer (node_info w (source_node t)) (node_info w n) net_num).

(** One turn of the inner loop of [_get_nodes_by_dev] *)
Definition add_by_dev (t : traffic_control) (net_num : nat) (d : list (string * (nat * list nat))) (n : nat) :
    M world (list (string * (nat * list nat))) :=
  if decide (n = source_node t) then mret d
  else
    let* w := get in
    let* dev := device_of w t n net_num in
    let '(dev_net_num, nodes) := default (net_num, []) (d_get dev d) in
    if decide (dev_net_num <> net_num) then raise (RuntimeError "use same device")
    else mret (d_set dev (net_num, nodes ++ [n]) d).
Definition get_nodes_by_dev (t : traffic_control) : M world (list (string * (nat * list nat))) :=
  let* w := get in
  fold_each (seq 0 (length (h_addrs (node_info w (source_node t))))) (fun d net_num =>
    fold_each (tc_nodes t) (add_by_dev t net_num) d) [].

(** [try: self.source_node.run(...) except CalledProcessError: pass] *)
Definition run_or_pass (n : nat) (cmd : list string) : M world unit :=
  except_called (node_run g job n cmd) (fun _ => mret tt).

(** [__init__] for one device *)
Definition init_device (t : traffic_control) (p : string * (nat * list nat)) : M world unit :=
  let '(dev, (net_num, nodes)) := p in
  let source := source_node t in
  run_or_pass source (root_del_cmd dev) ;;;
  let* w := get in
  node_run g job source (prio_cmd dev (length (tc_nodes t)) (n_id (node_at w source))) ;;;
  for_each nodes (fun n =>
    let* w := get in
    let* ip := lift (py_index (h_addrs (node_info w n)) (Z.of_nat net_num)) in
    node_run g job source (filter_cmd dev ip (node_to_class w n))).
Definition traffic_control_init (source : nat) (nodes : list nat) : M world traffic_control :=
  let t := NewTrafficControl source nodes in
  let* d := get_nodes_by_dev t in
  for_each d (init_device t) ;;;
  mret t.

Definition reset (t : traffic_control) : M world unit :=
  let* d := get_nodes_by_dev t in
  for_each (d_keys d) (fun dev => node_run g job (source_node t) (root_del_cmd dev)).

Definition each_net (t : traffic_control) (to_node : nat) (cmd : world -> string -> list string) : M world unit :=
  let* w := get in
  for_each (seq 0 (length (h_addrs (node_info w (source_node t))))) (fun net_num =>
    let* w := get in
    let* dev := device_of w t to_node net_num in
    node_run g job (source_node t) (cmd w dev)).
Definition slow_down (t : traffic_control) (to_node : nat) (speed delay : string) : M world unit :=
  each_net t to_node (fun w dev =>
    netem_cmd dev (node_to_class w to_node) (node_to_handle w to_node) (netem_args speed delay)).
Definition remove_slow_down (t : traffic_control) (to_node : nat) : M world unit :=
  each_net t to_node (fun w dev => netem_del_cmd dev (node_to_class w to_node) (node_to_handle w to_node)).
End traffic.

(** ** What the tests rely on

    A device with a [prio] root has classes [1:1] to [1:bands], whose numbers
    are hexadecimal; packets go to the class of their filter, or else to the
    class of the map; a [netem] below a class delays its packets. *)

(** The number of a class as [tc] writes it, for numbers of one digit *)
Definition class_text (k : nat) : string := "1:" +:+ String (hex_digit (Z.of_nat k)) EmptyString.

Class Tc (F : Type) := {
  tc : list string -> F -> option F;
  (** the number of bands of the root of a device *)
  bands : F -> string -> option nat;
  (** the class of the packets to an address *)
  goes : F -> string -> string -> nat;
  (** the delay below a class *)
  netem : F -> string -> nat -> option (string * list string)
}.

(** Two states that agree on a device *)
Definition same_dev {F} `{Tc F} (f f' : F) (dv : string) : Prop :=
  bands f' dv = bands f dv /\ (forall ip, goes f' dv ip = goes f dv ip) /\ forall k, netem f' dv k = netem f dv k.

Class TcSpec (F : Type) `{Tc F} : Prop := {
  tc_root_del f dev f' : tc (root_del_cmd dev) f = Some f' -> forall dev', dev' <> dev -> same_dev f f' dev';
  tc_root f dev b band : 2 <= b <= 16 -> band < b -> exists f', tc (prio_cmd dev b band) f = Some f' /\
    forall dev', bands f' dev' = (if decide (dev' = dev) then Some b else bands f dev') /\
      (forall ip, goes f' dev' ip = if decide (dev' = dev) then S band else goes f dev' ip) /\
      forall k, netem f' dev' k = if decide (dev' = dev) then None else netem f dev' k;
  tc_filter f dev ip k b band : bands f dev = Some b -> 1 <= k <= b -> k < 16 -> goes f dev ip = S band ->
    exists f', tc (filter_cmd dev ip (class_text k)) f = Some f' /\
    forall dev', bands f' dev' = bands f dev' /\
      (forall ip', goes f' dev' ip' = if decide (dev' = dev /\ ip' = ip) then k else goes f dev' ip') /\
      forall j, netem f' dev' j = netem f dev' j;
  tc_netem f dev k h args b : bands f dev = Some b -> 1 <= k <= b -> k < 16 ->
    exists f', tc (netem_cmd dev (class_text k) h args) f = Some f' /\
    forall dev', bands f' dev' = bands f dev' /\ (forall ip, goes f' dev' ip = goes f dev' ip) /\
      forall j, netem f' dev' j = if decide (dev' = dev /\ j = k) then Some (h, args) else netem f dev' j;
  tc_netem_del f dev k h args : k < 16 -> netem f dev k = Some (h, args) ->
    exists f', tc (netem_del_cmd dev (class_text k) h) f = Some f' /\
    forall dev', bands f' dev' = bands f dev' /\ (forall ip, goes f' dev' ip = goes f dev' ip) /\
      forall j, netem f' dev' j = if decide (dev' = dev /\ j = k) then None else netem f dev' j
}.

(** Deleting a root that may not be there is tried; everything else succeeds. *)
Definition is_root_del (cmd : list string) : bool := bool_decide (cmd = root_del_cmd (nth 4 cmd EmptyString)).
Definition tc_step {F} `{Tc F} (f : F) (cmd : list string) : option F :=
  if is_root_del cmd then Some (default f (tc cmd f)) else tc cmd f.
Fixpoint tc_all {F} `{Tc F} (cmds : list (list string)) (f : F) : option F :=
  match cmds with [] => Some f | c :: cmds => tc_step f c ≫= tc_all cmds end.
Definition is_tc (cmd : list string) : Prop := head cmd = Some "tc".
#[local] Instance is_tc_decision cmd : Decision (is_tc cmd) := decide (head cmd = Some "tc").
(** The delay of the packets to an address *)
Definition delayed {F} `{Tc F} (f : F) (dev ip : string) : option (string * list string) :=
  netem f dev (goes f dev ip).

(** The host answers which device leads to an address, always the same. *)
Definition routes `{SshServer} (x : host_info) (dev : string -> string) : Prop :=
  forall log a, exists out, ssh log (sent_run x ["ip"; "-o"; "route"; "get"; a]) = Ok (0%Z, out) /\
    py_index (str_split " " (strip out)) 2 = Ok (dev a).

(** ** Lemmas: what is sent *)

Section sending.
Context `{SshServer} (g : globals) (job : string) (w0 : world) (t : traffic_control) (dev : string -> string).
Local Abbreviation source := (source_node t).
Local Abbreviation x := (node_info w0 source).
Local Abbreviation nets := (length (h_addrs x)).
Context (Hroutes : routes x dev).
Context (Haddrs : forall n, n ∈ tc_nodes t -> nets <= length (h_addrs (node_info w0 n))).

(** The address of a node in a network, and the device that leads there *)
Definition addr (net n : nat) : string := default EmptyString (h_addrs (node_info w0 n) !! net).
Definition via (p : nat * nat) : string := dev (addr (fst p) (snd p)).
Definition others : list nat := filter (fun n => n <> source) (tc_nodes t).
Definition pairs (net : nat) : list (nat * nat) := map (pair net) others.
Definition all_pairs : list (nat * nat) := concat (map pairs (seq 0 nets)).

(** From [w0] on, only commands are sent. *)
Definition sent_since (w : world) (l : list (list string)) : Prop :=
  same_objects w0 w /\ sent_log (w_env w) = sent_log (w_env w0) ++ map (sent_run x) l.

Lemma same_objects_info w n : same_objects w0 w -> node_info w n = node_info w0 n /\ node_at w n = node_at w0 n.
Proof. intros (Hh & Hn & _). unfold node_info, node_host, host_at, node_at. by rewrite Hh, Hn. Qed.

Lemma sent_device_of w l n net a : sent_since w l -> py_index (h_addrs (node_info w0 n)) (Z.of_nat net) = Ok a ->
  exists w', device_of w t n net w = (Ok (dev a), w') /\ sent_since w' (l ++ [["ip"; "-o"; "route"; "get"; a]]).
Proof.
  intros [Hs Hl] Ha. unfold device_of. destruct (same_objects_info w source Hs) as [-> _].
  destruct (same_objects_info w n Hs) as [-> _].
  pose proof (keeps_on_env (net_device_to_peer x (node_info w0 n) net) w) as Hk. revert Hk.
  unfold on_env, zoom, net_device_to_peer, lift. mred. rewrite Ha. rewrite run_out_answer.
  destruct (Hroutes (sent_log (w_env w)) a) as (out & -> & Hout). cbn [Z.eqb]. rewrite Hout. intros Hk.
  eexists. split; [done|]. split; [by etransitivity|]. cbn [w_env push sent_log]. by rewrite Hl, map_app, app_assoc.
Qed.

Lemma addr_index net n : net < length (h_addrs (node_info w0 n)) ->
  py_index (h_addrs (node_info w0 n)) (Z.of_nat net) = Ok (addr net n).
Proof.
  intros Hlt. rewrite py_index_nat. unfold addr. by destruct (lookup_lt_is_Some_2 _ _ Hlt) as [a ->].
Qed.

(** *** Nodes by device *)

Definition at_dev (ps : list (nat * nat)) (dv : string) : list (nat * nat) := filter (fun p => via p = dv) ps.
(** The dictionary of [_get_nodes_by_dev], as a function of the key *)
Definition entry (ps : list (nat * nat)) (dv : string) : option (nat * list nat) :=
  match at_dev ps dv with [] => None | p :: _ => Some (fst p, map snd (at_dev ps dv)) end.
Definition one_net_per_dev (ps : list (nat * nat)) : Prop :=
  forall p q, p ∈ ps -> q ∈ ps -> via p = via q -> fst p = fst q.
Definition describes (ps : list (nat * nat)) (d : list (string * (nat * list nat))) : Prop :=
  one_net_per_dev ps /\ NoDup (d_keys d) /\ forall dv, d_get dv d = entry ps dv.

Lemma at_dev_app ps q dv : at_dev (ps ++ [q]) dv = at_dev ps dv ++ (if decide (via q = dv) then [q] else []).
Proof. unfold at_dev. rewrite filter_app. apply (f_equal (app _)). cbn [filter list_filter]. by destruct (decide (via q = dv)). Qed.

Lemma entry_fst ps dv net ns : entry ps dv = Some (net, ns) -> exists p, p ∈ ps /\ via p = dv /\ fst p = net.
Proof.
  unfold entry. destruct (at_dev ps dv) as [|p l] eqn:Hp; [done|]. intros [= <- _]. exists p.
  assert (Hin : p ∈ at_dev ps dv) by (rewrite Hp; by left). unfold at_dev in Hin. apply list_elem_of_filter in Hin as [? ?]. done.
Qed.

Lemma describes_step ps q d ns net : describes ps d -> default (fst q, []) (d_get (via q) d) = (net, ns) ->
  (net = fst q -> describes (ps ++ [q]) (d_set (via q) (net, ns ++ [snd q]) d)) /\
  (net <> fst q -> exists p, p ∈ ps /\ via p = via q /\ fst p = net).
Proof.
  intros (Hone & Hnd & Hd) He. rewrite Hd in He. split.
  - intros ->. split; [|split; [by apply d_set_NoDup|]].
    + assert (Hq : forall p, p ∈ ps -> via p = via q -> fst p = fst q).
      { intros p Hp Hv. unfold entry in He. destruct (at_dev ps (via q)) as [|p0 l] eqn:Hl.
        - exfalso. assert (Hin : p ∈ at_dev ps (via q)) by (by apply list_elem_of_filter). rewrite Hl in Hin. by apply elem_of_nil in Hin.
        - injection He as He _. assert (Hin : p0 ∈ at_dev ps (via q)) by (rewrite Hl; by left).
          apply list_elem_of_filter in Hin as [Hv0 Hin]. rewrite <-He. apply Hone; [done|done|congruence]. }
      intros p1 p2 [H1| ->%list_elem_of_singleton]%elem_of_app [H2| ->%list_elem_of_singleton]%elem_of_app Hv; auto.
      symmetry. auto.
    + intros dv. rewrite d_get_set, Hd. unfold entry at 2. rewrite at_dev_app.
      destruct (decide (dv = via q)) as [->|Hne]; [|by rewrite decide_False, app_nil_r by done].
      rewrite decide_True by done. unfold entry in He. destruct (at_dev ps (via q)) as [|p l]; cbn in *; [by injection He as <-|].
      injection He as -> <-. by rewrite map_app.
  - intros Hne. apply entry_fst with (ns := ns). destruct (entry ps (via q)); cbn in He; [by rewrite He|]. exfalso. apply Hne. by injection He.
Qed.

(** The state of the loops once the pairs [ps] are done *)
Definition by_dev (ps : list (nat * nat)) (d : list (string * (nat * list nat))) (w : world) : Prop :=
  describes ps d /\ exists l, sent_since w l /\ Forall (fun cmd => ~ is_tc cmd) l.
Definition conflict (e : exn) : Prop :=
  e = RuntimeError "use same device" /\ ~ one_net_per_dev all_pairs.

Lemma pairs_in net q : q ∈ pairs net -> net < nets -> q ∈ all_pairs.
Proof.
  intros Hq Hn. unfold all_pairs. apply list_elem_of_In, in_concat. exists (pairs net).
  split; [|by apply list_elem_of_In]. apply in_map, in_seq. lia.
Qed.

Lemma add_by_dev_step ps net d n w : net < nets -> n ∈ tc_nodes t -> (forall p, p ∈ ps -> p ∈ all_pairs) -> by_dev ps d w ->
  wp (add_by_dev t net d n) (fun d' w' => by_dev (ps ++ map (pair net) (filter (fun n => n <> source) [n])) d' w')
    (fun e _ => conflict e) w.
Proof.
  intros Hnet Hn Hps (Hd & l & Hl & Htc). unfold add_by_dev, wp. destruct (decide (n = source)) as [->|Hne].
  - mred. cbn [filter list_filter]. rewrite decide_False by naive_solver. rewrite app_nil_r. split; [done|]. by exists l.
  - mred. unfold get.
    assert (Ha : py_index (h_addrs (node_info w0 n)) (Z.of_nat net) = Ok (addr net n)).
    { apply addr_index. specialize (Haddrs n Hn). lia. }
    destruct (sent_device_of w l n net (addr net n) Hl Ha) as (w' & -> & Hw').
    change (dev (addr net n)) with (via (net, n)). destruct (default (net, []) (d_get (via (net, n)) d)) as [dnet ns] eqn:He.
    destruct (describes_step ps (net, n) d ns dnet Hd He) as [Hsame Hdiff].
    destruct (decide (dnet <> net)) as [Hx|Hx].
    + cbn [raise]. split; [done|]. intros Hone. destruct (Hdiff Hx) as (p & Hp & Hv & Hf). apply Hx. rewrite <-Hf.
      change net with (fst (net, n)). apply Hone; [by apply Hps| |done]. eapply pairs_in; [|exact Hnet].
      unfold pairs, others. apply list_elem_of_fmap. exists n. split; [done|]. by apply list_elem_of_filter.
    + assert (dnet = net) as -> by (destruct (decide (dnet = net)); [done|by destruct Hx]). mred.
      cbn [filter list_filter]. rewrite decide_True by done. split; [by apply Hsame|].
      eexists. split; [exact Hw'|]. apply Forall_app. split; [done|]. apply Forall_singleton. by unfold is_tc.
Qed.

Lemma get_nodes_by_dev_spec w l : sent_since w l -> Forall (fun cmd => ~ is_tc cmd) l ->
  wp (get_nodes_by_dev t) (fun d w' => by_dev all_pairs d w') (fun e _ => conflict e) w.
Proof.
  intros Hl Htc. unfold get_nodes_by_dev, get, wp. mred. destruct (same_objects_info w source (proj1 Hl)) as [-> _].
  apply (wp_fold_each (seq 0 nets) _ (fun visited d w => by_dev (concat (map pairs visited)) d w) (fun e _ => conflict e)).
  { split; [|by exists l]. split; [by intros p q ?%elem_of_nil|]. split; [constructor|done]. }
  intros visited d net todo w1 Hseq Hd. pose proof (seq_visit _ _ _ _ _ Hseq) as [_ Hlen].
  assert (Hnet : net < nets).
  { assert (Hin : net ∈ seq 0 nets) by (rewrite Hseq; set_solver). apply elem_of_seq in Hin. lia. }
  assert (Hvis : forall k, k ∈ visited -> k < nets).
  { intros k Hk. assert (Hin : k ∈ seq 0 nets) by (rewrite Hseq; set_solver). apply elem_of_seq in Hin. lia. }
  assert (Hprev : forall p, p ∈ concat (map pairs visited) -> p ∈ all_pairs).
  { intros p (ps & Hps & Hp)%list_elem_of_In%in_concat. apply in_map_iff in Hps as (k & <- & Hk).
    eapply pairs_in; [by apply list_elem_of_In|]. apply Hvis. by apply list_elem_of_In. }
  assert (Hinner : wp (fold_each (tc_nodes t) (add_by_dev t net) d)
    (fun d' w' => by_dev (concat (map pairs visited) ++ map (pair net) (filter (fun n => n <> source) (tc_nodes t))) d' w')
    (fun e _ => conflict e) w1).
  { apply (wp_fold_each (tc_nodes t) (add_by_dev t net)
      (fun done d w => by_dev (concat (map pairs visited) ++ map (pair net) (filter (fun n => n <> source) done)) d w)).
    - by rewrite app_nil_r.
    - intros done d1 n rest w2 Heq Hd1. rewrite filter_app, map_app, app_assoc. apply add_by_dev_step; [done|rewrite Heq; set_solver| |done].
      intros p [Hp|Hp]%elem_of_app; [by apply Hprev|]. eapply pairs_in; [|exact Hnet]. apply list_elem_of_fmap in Hp as (m & -> & Hm).
      unfold pairs, others. apply list_elem_of_fmap. exists m. split; [done|]. rewrite Heq, filter_app. set_solver. }
  rewrite map_app, concat_app. cbn [map concat]. rewrite app_nil_r. exact Hinner.
Qed.

Context (Hfile : config_changed (node_at w0 source) = false).

Lemma sent_node_run w l cmd : sent_since w l ->
  (forall w', node_run g job source cmd w = (Ok tt, w') -> sent_since w' (l ++ [cmd])) /\
  forall w', run_or_pass g job source cmd w = (Ok tt, w') -> sent_since w' (l ++ [cmd]).
Proof.
  intros [Hs Hl]. destruct (same_objects_info w source Hs) as [Hi Hn].
  assert (Hr : node_run g job source cmd w = on_env (run x cmd) w).
  { unfold node_run, update_config, get, when, gets. mred. by rewrite Hn, Hfile, Hi. }
  assert (Hafter : sent_since (snd (on_env (run x cmd) w)) (l ++ [cmd])).
  { pose proof (keeps_on_env (run x cmd) w) as Hk. unfold on_env, zoom in *. rewrite run_answer in *.
    split; [by etransitivity|]. cbn [snd w_env push sent_log]. by rewrite Hl, map_app, app_assoc. }
  split; intros w'.
  - rewrite Hr. intros He. by rewrite He in Hafter.
  - unfold run_or_pass, except_called, try_except. rewrite Hr. destruct (on_env (run x cmd) w) as [[[]|e] w1]; [by intros [= <-]|].
    destruct e; try done. by intros [= <-].
Qed.

(** *** Preparing the devices, and the commands of a network each *)

Definition device_cmds (p : string * (nat * list nat)) : list (list string) :=
  root_del_cmd (fst p) :: prio_cmd (fst p) (length (tc_nodes t)) (n_id (node_at w0 source)) ::
  map (fun n => filter_cmd (fst p) (addr (fst (snd p)) n) (node_to_class w0 n)) (snd (snd p)).

Lemma sent_each {A} (f : A -> M world unit) (cmds : A -> list (list string)) l :
  (forall a w k w', a ∈ l -> sent_since w k -> f a w = (Ok tt, w') -> sent_since w' (k ++ cmds a)) ->
  forall w k w', sent_since w k -> for_each l f w = (Ok tt, w') -> sent_since w' (k ++ concat (map cmds l)).
Proof.
  induction l as [|a l IH]; intros Hf w k w' Hk; cbn [for_each]; [intros [= <-]; by rewrite app_nil_r|]. mred.
  destruct (f a w) as [[[]|e] w1] eqn:Ha; [|done]. intros Hr. cbn [map concat]. rewrite app_assoc.
  eapply IH; [|eapply Hf; [by left|exact Hk|exact Ha]|exact Hr]. intros b w2 k2 w2' Hb. apply Hf. by right.
Qed.

Lemma sent_init_device p w k w' : (forall n, n ∈ snd (snd p) -> fst (snd p) < length (h_addrs (node_info w0 n))) ->
  sent_since w k -> init_device g job t p w = (Ok tt, w') -> sent_since w' (k ++ device_cmds p).
Proof.
  destruct p as [dv [net ns]]. cbn [fst snd]. intros Hns Hk. unfold init_device, device_cmds, get. cbn [fst snd]. mred.
  destruct (run_or_pass g job source (root_del_cmd dv) w) as [[[]|e] w1] eqn:H1; [|done].
  apply (proj2 (sent_node_run w k (root_del_cmd dv) Hk)) in H1. destruct (same_objects_info w1 source (proj1 H1)) as [_ ->].
  destruct (node_run g job source _ w1) as [[[]|e] w2] eqn:H2; [|done].
  apply (proj1 (sent_node_run w1 _ _ H1)) in H2. intros Hr.
  replace (k ++ root_del_cmd dv :: prio_cmd dv (length (tc_nodes t)) (n_id (node_at w0 source)) :: map
    (fun n => filter_cmd dv (addr net n) (node_to_class w0 n)) ns) with
    (((k ++ [root_del_cmd dv]) ++ [prio_cmd dv (length (tc_nodes t)) (n_id (node_at w0 source))]) ++
     concat (map (fun n => [filter_cmd dv (addr net n) (node_to_class w0 n)]) ns)).
  2:{ rewrite <-!app_assoc. cbn [app]. do 3 f_equal. clear. induction ns as [|n ns IH]; [done|]. cbn. by rewrite IH. }
  eapply sent_each; [|exact H2|exact Hr]. clear w w1 w2 Hk H1 H2 Hr. intros n w l w2 Hn Hl. unfold get, lift.
  destruct (same_objects_info w n (proj1 Hl)) as [-> Hnode]. rewrite (addr_index net n) by auto.
  replace (node_to_class w n) with (node_to_class w0 n) by (unfold node_to_class; by rewrite Hnode).
  apply (sent_node_run w l _ Hl).
Qed.

Lemma sent_each_net to_node cmd w k w' : nets <= length (h_addrs (node_info w0 to_node)) ->
  (forall w dv, same_objects w0 w -> cmd w dv = cmd w0 dv) -> sent_since w k ->
  each_net g job t to_node cmd w = (Ok tt, w') ->
  sent_since w' (k ++ concat (map (fun net => [["ip"; "-o"; "route"; "get"; addr net to_node]; cmd w0 (via (net, to_node))])
    (seq 0 nets))).
Proof.
  intros Hto Hcmd Hk. unfold each_net, get. mred. destruct (same_objects_info w source (proj1 Hk)) as [-> _]. intros Hr.
  eapply sent_each; [|exact Hk|exact Hr]. clear w k w' Hk Hr. intros net w k w' Hnet%elem_of_seq Hk.
  destruct (sent_device_of w k to_node net (addr net to_node) Hk) as (w1 & -> & Hw1); [apply addr_index; lia|].
  rewrite (Hcmd w) by apply Hk. intros Hr. apply (proj1 (sent_node_run w1 _ _ Hw1)) in Hr.
  by rewrite <-app_assoc in Hr.
Qed.
End sending.

(** ** Lemmas: what the commands do *)

Lemma class_text_small k : k < 10 -> "1:" +:+ str_nat k = class_text k.
Proof. intros Hk. do 10 (destruct k as [|k]; [by vm_compute|]). lia. Qed.

Section shaping.
Context {F : Type} `{!Tc F, !TcSpec F}.
Implicit Types (f : F).

Lemma tc_all_app l l' f : tc_all (l ++ l') f = tc_all l f ≫= tc_all l'.
Proof. revert f. induction l as [|c l IH]; intros f; [done|]. cbn [app tc_all]. destruct (tc_step f c); [apply IH|done]. Qed.

Lemma tc_step_not_del f cmd : nth 2 cmd EmptyString <> "del" -> tc_step f cmd = tc cmd f.
Proof.
  intros Hd. unfold tc_step, is_root_del. case_bool_decide as Hc; [|done]. rewrite Hc in Hd. by destruct Hd.
Qed.

Definition class_ok (b k : nat) : Prop := 1 <= k <= b /\ k < 16.

Lemma filter_rules dv b band (rules : list (string * nat)) f :
  bands f dv = Some b -> NoDup (d_keys rules) -> Forall (fun p => class_ok b (snd p)) rules ->
  (forall ip, ip ∈ d_keys rules -> goes f dv ip = S band) ->
  exists f', tc_all (map (fun p => filter_cmd dv (fst p) (class_text (snd p))) rules) f = Some f' /\
    bands f' dv = Some b /\ (forall ip, goes f' dv ip = default (goes f dv ip) (d_get ip rules)) /\
    (forall k, netem f' dv k = netem f dv k) /\ forall dv', dv' <> dv -> same_dev f f' dv'.
Proof.
  revert f. induction rules as [|[ip k] rules IH]; intros f Hb Hnd Hok Hgo; [by exists f|].
  unfold d_keys in Hnd. cbn [map fst] in Hnd. apply NoDup_cons in Hnd as [Hip Hnd].
  apply Forall_cons in Hok as [[Hk Hk16] Hok]. cbn [snd] in Hk, Hk16.
  destruct (tc_filter f dv ip k b band Hb Hk Hk16) as (f1 & Hf1 & Hv); [apply Hgo; by left|].
  destruct (Hv dv) as (Vb & Vg & Vn).
  destruct (IH f1) as (f' & Hf' & Ib & Ig & In & Io); [by rewrite Vb|done|done| |].
  { intros ip' Hin. rewrite Vg, decide_False; [apply Hgo; by right|]. by intros [_ ->]. }
  exists f'. cbn [map tc_all fst snd]. rewrite tc_step_not_del by done. rewrite Hf1. split_and!; [done|done| | |].
  - intros ip'. rewrite Ig, Vg. cbn [d_get]. destruct (decide (ip' = ip)) as [->|Hne].
    + rewrite decide_True by done. destruct (d_get ip rules) eqn:Hd; [|done].
      destruct Hip. apply d_get_elem in Hd. by apply (list_elem_of_fmap_2 fst) in Hd.
    + by rewrite decide_False by naive_solver.
  - intros j. by rewrite In, Vn.
  - intros dv' Hne. destruct (Io dv' Hne) as (O1 & O2 & O3), (Hv dv') as (W1 & W2 & W3). split_and!.
    + by rewrite O1.
    + intros ip'. rewrite O2, W2. by rewrite decide_False by naive_solver.
    + intros j. by rewrite O3.
Qed.

(** A device is prepared: its packets go by the rules, and none is delayed. *)
Definition prepared f (b band : nat) (p : string * list (string * nat)) : Prop :=
  bands f (fst p) = Some b /\ (forall ip, goes f (fst p) ip = default (S band) (d_get ip (snd p))) /\
  forall k, netem f (fst p) k = None.
Definition dev_cmds (b band : nat) (p : string * list (string * nat)) : list (list string) :=
  root_del_cmd (fst p) :: prio_cmd (fst p) b band :: map (fun q => filter_cmd (fst p) (fst q) (class_text (snd q))) (snd p).

Lemma prepare_device b band p f : 2 <= b <= 16 -> band < b -> NoDup (d_keys (snd p)) ->
  Forall (fun q => class_ok b (snd q)) (snd p) ->
  exists f', tc_all (dev_cmds b band p) f = Some f' /\ prepared f' b band p /\
    forall dv', dv' <> fst p -> same_dev f f' dv'.
Proof.
  intros Hb Hband Hnd Hok. destruct p as [dv rules]. cbn [fst snd] in *. unfold dev_cmds. cbn [fst snd tc_all].
  assert (Hdel : tc_step f (root_del_cmd dv) = Some (default f (tc (root_del_cmd dv) f))).
  { unfold tc_step, is_root_del. by rewrite bool_decide_true. }
  rewrite Hdel. set (f0 := default f _). cbn [mbind option_bind].
  destruct (tc_root f0 dv b band Hb Hband) as (f1 & Hf1 & Hv). rewrite tc_step_not_del by done. rewrite Hf1. cbn [mbind option_bind].
  destruct (Hv dv) as (Vb & Vg & Vn). rewrite decide_True in Vb by done.
  destruct (filter_rules dv b band rules f1) as (f' & Hf' & Ib & Ig & In & Io); [done..| |].
  { intros ip _. rewrite Vg. by rewrite decide_True. }
  exists f'. split; [done|]. split.
  - split_and!; [done| |].
    + intros ip. cbn [fst snd]. rewrite Ig, Vg. by rewrite decide_True.
    + intros k. cbn [fst]. rewrite In, Vn. by rewrite decide_True.
  - intros dv' Hne. destruct (Io dv' Hne) as (O1 & O2 & O3), (Hv dv') as (W1 & W2 & W3).
    assert (Hd : same_dev f f0 dv').
    { unfold f0. destruct (tc (root_del_cmd dv) f) as [f2|] eqn:Hd; [by eapply tc_root_del|by split_and!]. }
    destruct Hd as (D1 & D2 & D3). split_and!.
    + by rewrite O1, W1, decide_False.
    + intros ip. by rewrite O2, W2, decide_False.
    + intros k. by rewrite O3, W3, decide_False.
Qed.

Lemma prepared_same f f' b band p : same_dev f f' (fst p) -> prepared f b band p -> prepared f' b band p.
Proof.
  intros (S1 & S2 & S3) (P1 & P2 & P3). split_and!; [by rewrite S1|intros ip; by rewrite S2|intros k; by rewrite S3].
Qed.

Lemma prepare_devices b band ps f : 2 <= b <= 16 -> band < b -> NoDup (d_keys ps) ->
  (forall p, p ∈ ps -> NoDup (d_keys (snd p)) /\ Forall (fun q => class_ok b (snd q)) (snd p)) ->
  exists f', tc_all (concat (map (dev_cmds b band) ps)) f = Some f' /\
    (forall p, p ∈ ps -> prepared f' b band p) /\ forall dv, dv ∉ d_keys ps -> same_dev f f' dv.
Proof.
  intros Hb Hband. revert f. induction ps as [|p ps IH]; intros f Hnd Hok.
  { exists f. split_and!; [done|by intros p ?%elem_of_nil|]. intros dv _. by split_and!. }
  unfold d_keys in Hnd. cbn [map] in Hnd. apply NoDup_cons in Hnd as [Hp Hnd].
  destruct (Hok p) as [Hnd1 Hok1]; [by left|].
  destruct (prepare_device b band p f Hb Hband Hnd1 Hok1) as (f1 & Hf1 & Hp1 & Ho1).
  destruct (IH f1 Hnd) as (f' & Hf' & Hp' & Ho'); [intros q Hq; apply Hok; by right|].
  exists f'. cbn [map concat]. rewrite tc_all_app, Hf1. split_and!; [done| |].
  - intros q [->|Hq]%elem_of_cons; [|by apply Hp']. eapply prepared_same; [|exact Hp1]. by apply Ho'.
  - intros dv [Hne Hin]%not_elem_of_cons. destruct (Ho' dv Hin) as (A1 & A2 & A3), (Ho1 dv Hne) as (B1 & B2 & B3).
    split_and!; [by rewrite A1|intros ip; by rewrite A2|intros k; by rewrite A3].
Qed.

(** The class [k] is delayed on several devices, and only there. *)
Lemma slow_devices k h args b dvs f : class_ok b k -> (forall dv, dv ∈ dvs -> bands f dv = Some b) ->
  exists f', tc_all (map (fun dv => netem_cmd dv (class_text k) h args) dvs) f = Some f' /\
    forall dv, bands f' dv = bands f dv /\ (forall ip, goes f' dv ip = goes f dv ip) /\
      forall j, netem f' dv j = if decide (dv ∈ dvs /\ j = k) then Some (h, args) else netem f dv j.
Proof.
  intros [Hk Hk16]. revert f. induction dvs as [|dv dvs IH]; intros f Hb.
  { exists f. split; [done|]. intros dv. split_and!; [done..|]. intros j. rewrite decide_False; [done|]. set_solver. }
  destruct (tc_netem f dv k h args b) as (f1 & Hf1 & Hv); [apply Hb; by left|done..|].
  destruct (IH f1) as (f' & Hf' & Hv'); [intros dv' Hin; rewrite (proj1 (Hv dv')); apply Hb; by right|].
  exists f'. cbn [map tc_all]. rewrite tc_step_not_del by done. rewrite Hf1. split; [done|]. intros dv'.
  destruct (Hv dv') as (A1 & A2 & A3), (Hv' dv') as (B1 & B2 & B3). split_and!; [by rewrite B1|intros ip; by rewrite B2|].
  intros j. rewrite B3, A3. destruct (decide (dv' ∈ dvs /\ j = k)) as [[Hin ->]|Hn].
  - by rewrite decide_True by set_solver.
  - destruct (decide (dv' = dv /\ j = k)) as [[-> ->]|Hn']; [by rewrite decide_True by set_solver|].
    rewrite decide_False by set_solver. done.
Qed.

Lemma release_devices k h args dvs f : k < 16 -> NoDup dvs -> (forall dv, dv ∈ dvs -> netem f dv k = Some (h, args)) ->
  exists f', tc_all (map (fun dv => netem_del_cmd dv (class_text k) h) dvs) f = Some f' /\
    forall dv, bands f' dv = bands f dv /\ (forall ip, goes f' dv ip = goes f dv ip) /\
      forall j, netem f' dv j = if decide (dv ∈ dvs /\ j = k) then None else netem f dv j.
Proof.
  intros Hk16. revert f. induction dvs as [|dv dvs IH]; intros f Hnd Hb.
  { exists f. split; [done|]. intros dv. split_and!; [done..|]. intros j. rewrite decide_False; [done|]. set_solver. }
  apply NoDup_cons in Hnd as [Hdv Hnd].
  destruct (tc_netem_del f dv k h args Hk16) as (f1 & Hf1 & Hv); [apply Hb; by left|].
  destruct (IH f1 Hnd) as (f' & Hf' & Hv').
  { intros dv' Hin. destruct (Hv dv') as (_ & _ & ->). rewrite decide_False; [apply Hb; by right|]. by intros [-> _]. }
  exists f'. cbn [map tc_all]. replace (tc_step f (netem_del_cmd dv (class_text k) h)) with (tc (netem_del_cmd dv (class_text k) h) f).
  2:{ unfold tc_step, is_root_del. by rewrite bool_decide_false. }
  rewrite Hf1. split; [done|]. intros dv'.
  destruct (Hv dv') as (A1 & A2 & A3), (Hv' dv') as (B1 & B2 & B3). split_and!; [by rewrite B1|intros ip; by rewrite B2|].
  intros j. rewrite B3, A3. destruct (decide (dv' ∈ dvs /\ j = k)) as [[Hin ->]|Hn].
  - by rewrite decide_True by set_solver.
  - destruct (decide (dv' = dv /\ j = k)) as [[-> ->]|Hn']; [by rewrite decide_True by set_solver|].
    rewrite decide_False by set_solver. done.
Qed.
End shaping.

(** ** Lemmas: the commands of the code *)

Section commands.
Context (w0 : world) (t : traffic_control) (dev : string -> string).
Local Abbreviation source := (source_node t).
Local Abbreviation nets := (length (h_addrs (node_info w0 source))).
Local Abbreviation id n := (n_id (node_at w0 n)).
Local Abbreviation b := (length (tc_nodes t)).

(** At most nine nodes, the source among them, numbered from 0; every address once *)
Record fits : Prop := Fits {
  fit_source : source ∈ tc_nodes t;
  fit_count : 2 <= b <= 9;
  fit_ids : NoDup (map (fun n => id n) (tc_nodes t));
  fit_small : forall n, n ∈ tc_nodes t -> id n < b;
  fit_addrs : NoDup (map (fun p => addr w0 (fst p) (snd p)) (all_pairs w0 t))
}.

Definition rules (p : string * (nat * list nat)) : string * list (string * nat) :=
  (fst p, map (fun n => (addr w0 (fst (snd p)) n, S (id n))) (snd (snd p))).

Lemma in_all_pairs net n : (net, n) ∈ all_pairs w0 t <-> net < nets /\ n ∈ others t.
Proof.
  unfold all_pairs. rewrite list_elem_of_In, in_concat. split.
  - intros (ps & Hps & Hp). apply in_map_iff in Hps as (k & <- & Hk). apply in_seq in Hk.
    unfold pairs in Hp. apply in_map_iff in Hp as (m & [= -> ->] & Hm). split; [lia|by apply list_elem_of_In].
  - intros [Hn Hm]. exists (pairs t net). split; [apply in_map, in_seq; lia|]. unfold pairs. apply in_map. by apply list_elem_of_In.
Qed.

Lemma others_nodes n : n ∈ others t -> n ∈ tc_nodes t /\ n <> source.
Proof. unfold others. rewrite list_elem_of_filter. naive_solver. Qed.

Context (Hfits : fits).

Lemma id_inj n m : n ∈ tc_nodes t -> m ∈ tc_nodes t -> id n = id m -> n = m.
Proof.
  intros [i Hi]%list_elem_of_lookup [j Hj]%list_elem_of_lookup Heq.
  assert (i = j) as ->; [|congruence].
  apply (NoDup_lookup _ i j (id n) (fit_ids Hfits)); rewrite list_lookup_fmap; rewrite ?Hi, ?Hj; cbn; congruence.
Qed.
Lemma class_of n : n ∈ tc_nodes t -> node_to_class w0 n = class_text (S (id n)) /\ class_ok b (S (id n)).
Proof.
  intros Hn. pose proof (fit_small Hfits n Hn) as Hs. pose proof (fit_count Hfits) as Hc.
  unfold node_to_class, class_ok. rewrite Nat.add_1_r. split; [apply class_text_small; lia|lia].
Qed.

Lemma filter_all (l : list (list string)) : Forall is_tc l -> filter is_tc l = l.
Proof. apply filter_id. Qed.

Lemma tc_device_cmds p : (forall n, n ∈ snd (snd p) -> n ∈ tc_nodes t) ->
  filter is_tc (device_cmds w0 t p) = dev_cmds b (id source) (rules p).
Proof.
  intros Hn. destruct p as [dv [net ns]]. cbn [fst snd] in Hn. rewrite filter_all.
  - unfold device_cmds, dev_cmds, rules. cbn [fst snd]. do 2 f_equal. rewrite map_map. apply map_ext_in.
    intros n Hin%list_elem_of_In. cbn [fst snd]. by rewrite (proj1 (class_of n (Hn n Hin))).
  - unfold device_cmds. repeat constructor. apply Forall_map, Forall_forall. by intros n _.
Qed.

Lemma filter_concat {A} (P : A -> Prop) `{!forall x, Decision (P x)} (l : list (list A)) :
  filter P (concat l) = concat (map (filter P) l).
Proof. induction l as [|x l IH]; [done|]. cbn [concat map]. by rewrite filter_app, IH. Qed.

Lemma tc_net_cmds to_node (cmd : string -> list string) : (forall dv, is_tc (cmd dv)) ->
  filter is_tc (concat (map (fun net => [["ip"; "-o"; "route"; "get"; addr w0 net to_node]; cmd (via w0 dev (net, to_node))])
    (seq 0 nets))) = map cmd (map (fun net => via w0 dev (net, to_node)) (seq 0 nets)).
Proof.
  intros Hcmd. rewrite filter_concat, map_map. induction (seq 0 nets) as [|net l IH]; [done|].
  cbn [map concat]. rewrite IH. rewrite filter_cons_False by (by unfold is_tc). rewrite filter_cons_True by done. done.
Qed.

(** What the dictionary says about a pair *)
Lemma pair_entry d net n : describes w0 dev (all_pairs w0 t) d -> (net, n) ∈ all_pairs w0 t ->
  exists ns, (via w0 dev (net, n), (net, ns)) ∈ d /\ n ∈ ns.
Proof.
  intros (Hone & _ & Hd) Hp. set (dv := via w0 dev (net, n)).
  assert (Hin : (net, n) ∈ at_dev w0 dev (all_pairs w0 t) dv) by (by apply list_elem_of_filter).
  assert (He : d_get dv d = Some (net, map snd (at_dev w0 dev (all_pairs w0 t) dv))).
  { rewrite Hd. unfold entry. destruct (at_dev w0 dev (all_pairs w0 t) dv) as [|q l] eqn:Hq; [by apply elem_of_nil in Hin|].
    assert (Hq' : q ∈ at_dev w0 dev (all_pairs w0 t) dv) by (rewrite Hq; by left). apply list_elem_of_filter in Hq' as [Hv Hq'].
    do 2 f_equal. change net with (fst (net, n)). by apply Hone. }
  eexists. split; [by eapply d_get_elem|]. apply list_elem_of_fmap. by exists (net, n).
Qed.

Lemma entry_rules d p : describes w0 dev (all_pairs w0 t) d -> p ∈ d ->
  (forall n, n ∈ snd (snd p) -> n ∈ tc_nodes t /\ (fst (snd p), n) ∈ all_pairs w0 t /\ via w0 dev (fst (snd p), n) = fst p) /\
  NoDup (d_keys (snd (rules p))) /\ Forall (fun q => class_ok b (snd q)) (snd (rules p)).
Proof.
  intros (Hone & Hnd & Hd) Hp. destruct p as [dv [net ns]]. apply (d_elem_get _ _ _ Hnd) in Hp. rewrite Hd in Hp.
  unfold entry in Hp. destruct (at_dev w0 dev (all_pairs w0 t) dv) as [|q l] eqn:Hq; [done|]. injection Hp as <- Hl.
  change (map snd (q :: l) = ns) in Hl. rewrite <-Hq in Hl. subst ns.
  set (L := at_dev w0 dev (all_pairs w0 t) dv) in *. cbn [fst snd].
  assert (HL : forall r, r ∈ L -> r ∈ all_pairs w0 t /\ via w0 dev r = dv) by (intros r [? ?]%list_elem_of_filter; done).
  assert (Hfst : forall r, r ∈ L -> r = (fst q, snd r)).
  { intros r Hr. destruct (HL r Hr) as [Ha Hv]. destruct (HL q) as [Hqa Hqv]; [rewrite Hq; by left|].
    rewrite (surjective_pairing r) at 1. f_equal. apply Hone; [done|done|congruence]. }
  assert (Hns : forall n, n ∈ map snd L -> n ∈ tc_nodes t /\ (fst q, n) ∈ all_pairs w0 t /\ via w0 dev (fst q, n) = dv).
  { intros n (r & -> & Hr)%list_elem_of_fmap. rewrite <-(Hfst r Hr). destruct (HL r Hr) as [Ha Hv]. split_and!; [|done|done].
    rewrite (Hfst r Hr) in Ha. apply in_all_pairs in Ha as [_ Ha]. by apply others_nodes. }
  split_and!; [exact Hns| |].
  - unfold rules, d_keys. cbn [fst snd]. rewrite !map_map. cbn [fst].
    rewrite (map_ext_in _ (fun r => addr w0 (fst r) (snd r))) by (intros r Hr%list_elem_of_In; by rewrite (Hfst r Hr) at 2).
    eapply sublist_NoDup; [apply (fit_addrs Hfits)|]. apply (fmap_sublist (fun r => addr w0 (fst r) (snd r))), sublist_filter.
  - unfold rules. cbn [fst snd]. apply Forall_map, Forall_forall. intros n Hn. cbn [snd]. apply class_of. by apply Hns.
Qed.

(** Once all devices are prepared, packets go to the class of their node. *)
Lemma prepared_pairs {F} `{!Tc F, !TcSpec F} d (f : F) : describes w0 dev (all_pairs w0 t) d ->
  exists f1, tc_all (filter is_tc (concat (map (device_cmds w0 t) d))) f = Some f1 /\
    forall net n, (net, n) ∈ all_pairs w0 t -> let dv := via w0 dev (net, n) in
      bands f1 dv = Some b /\ (forall k, netem f1 dv k = None) /\ goes f1 dv (addr w0 net n) = S (id n) /\
      forall ip, (forall net' n', (net', n') ∈ all_pairs w0 t -> ip <> addr w0 net' n') -> goes f1 dv ip = S (id source).
Proof.
  intros Hd. pose proof Hd as (_ & Hnd & _). pose proof (fit_count Hfits) as Hcount.
  rewrite filter_concat, map_map. rewrite (map_ext_in _ (fun p => dev_cmds b (id source) (rules p))).
  2:{ intros p Hp%list_elem_of_In. apply tc_device_cmds. intros n Hn. by apply (proj1 (entry_rules d p Hd Hp)). }
  rewrite <-(map_map rules (dev_cmds b (id source))).
  destruct (prepare_devices b (id source) (map rules d) f) as (f1 & Hf1 & Hp1 & _).
  - lia.
  - apply (fit_small Hfits), (fit_source Hfits).
  - unfold d_keys. by rewrite map_map.
  - intros q (p & -> & Hp)%list_elem_of_fmap. destruct (entry_rules d p Hd Hp) as (_ & ? & ?). done.
  - exists f1. split; [done|]. intros net n Hp dv. destruct (pair_entry d net n Hd Hp) as (ns & Hin & Hn). fold dv in Hin.
    destruct (entry_rules d _ Hd Hin) as (Hns & Hkeys & _). cbn [fst snd] in Hns.
    destruct (Hp1 (rules (dv, (net, ns)))) as (P1 & P2 & P3); [by apply (list_elem_of_fmap_2 rules)|].
    cbn [fst snd rules] in P1, P2, P3, Hkeys. split_and!; [done|done| |].
    + rewrite P2. rewrite (d_elem_get _ (S (id n)) _ Hkeys); [done|]. apply list_elem_of_fmap. by exists n.
    + intros ip Hip. rewrite P2. rewrite (proj2 (d_get_None ip _)); [done|].
      unfold d_keys. rewrite map_map. cbn [fst]. intros (m & -> & Hm)%list_elem_of_fmap. eapply Hip; [|done]. by apply Hns.
Qed.
End commands.

(** What an object [TrafficControl] and its operations send *)
Section runs.
Context `{SshServer} (g : globals) (job : string) (w0 : world) (dev : string -> string) (t : traffic_control).
Local Abbreviation source := (source_node t).
Local Abbreviation nets := (length (h_addrs (node_info w0 source))).
Context (Hr : routes (node_info w0 source) dev) (Hfile : config_changed (node_at w0 source) = false).
Context (Ha : forall n, n ∈ tc_nodes t -> nets <= length (h_addrs (node_info w0 n))) (Hfit : fits w0 t).

Definition net_cmds (to_node : nat) (cmd : string -> list string) : list (list string) :=
  concat (map (fun net => [["ip"; "-o"; "route"; "get"; addr w0 net to_node]; cmd (via w0 dev (net, to_node))]) (seq 0 nets)).

Lemma init_sends t' w1 : traffic_control_init g job source (tc_nodes t) w0 = (Ok t', w1) ->
  t' = t /\ exists d l, describes w0 dev (all_pairs w0 t) d /\ Forall (fun cmd => ~ is_tc cmd) l /\
    sent_since w0 t w1 (l ++ concat (map (device_cmds w0 t) d)).
Proof.
  unfold traffic_control_init. mred. replace (NewTrafficControl source (tc_nodes t)) with t by by destruct t.
  pose proof (get_nodes_by_dev_spec w0 t dev Hr Ha w0 []) as Hg.
  assert (Hs0 : sent_since w0 t w0 []) by (split; [reflexivity|by rewrite app_nil_r]). specialize (Hg Hs0 (List.Forall_nil _)).
  unfold wp in Hg. destruct (get_nodes_by_dev t w0) as [[d|e] wd]; [|done]. destruct Hg as (Hd & l & Hl & Htc).
  destruct (for_each d (init_device g job t) wd) as [[[]|e] w1'] eqn:Hi; [|done]. intros [= <- <-]. split; [done|].
  exists d, l. split_and!; [done|done|].
  apply (sent_each w0 t (init_device g job t) (device_cmds w0 t) d) with (k := l) in Hi; [exact Hi| |exact Hl].
  intros p w k w' Hp Hk. apply (sent_init_device g job w0 t Hfile); [|exact Hk].
  intros n Hn. destruct (entry_rules w0 t dev Hfit d p Hd Hp) as (Hns & _). destruct (Hns n Hn) as (Hn1 & Hn2 & _).
  apply in_all_pairs in Hn2 as [Hlt _]. specialize (Ha n Hn1). lia.
Qed.

Lemma slow_down_sends to_node w k w' (args : list string) cmd :
  cmd = (fun w dv => netem_cmd dv (node_to_class w to_node) (node_to_handle w to_node) args) \/
  cmd = (fun w dv => netem_del_cmd dv (node_to_class w to_node) (node_to_handle w to_node)) ->
  to_node ∈ tc_nodes t -> sent_since w0 t w k -> each_net g job t to_node cmd w = (Ok tt, w') ->
  sent_since w0 t w' (k ++ net_cmds to_node (cmd w0)).
Proof.
  intros Hcmd Hto Hk Hrun. eapply sent_each_net in Hrun; [exact Hrun|exact Hr|exact Hfile|by apply Ha| |exact Hk].
  intros w1 dv Hsame. destruct (same_objects_info w0 w1 to_node Hsame) as [_ Hn].
  destruct Hcmd as [->| ->]; unfold node_to_class, node_to_handle; by rewrite Hn.
Qed.
End runs.

(** What they do to the packets *)
Lemma slow_down_effect {F} `{!Tc F, !TcSpec F} w0 dev t d to_node args (f : F) :
  fits w0 t -> describes w0 dev (all_pairs w0 t) d -> to_node ∈ others t ->
  let x := node_info w0 (source_node t) in
  let on := map (fun net => via w0 dev (net, to_node)) (seq 0 (length (h_addrs x))) in
  let cls := node_to_class w0 to_node in let handle := node_to_handle w0 to_node in
  exists f1 f2 f3, tc_all (filter is_tc (concat (map (device_cmds w0 t) d))) f = Some f1 /\
    tc_all (map (fun dv => netem_cmd dv cls handle args) on) f1 = Some f2 /\
    tc_all (map (fun dv => netem_del_cmd dv cls handle) on) f2 = Some f3 /\
    forall net n, (net, n) ∈ all_pairs w0 t -> let dv := via w0 dev (net, n) in
      delayed f1 dv (addr w0 net n) = None /\ delayed f3 dv (addr w0 net n) = None /\
      delayed f2 dv (addr w0 net n) = (if decide (n = to_node) then Some (handle, args) else None) /\
      forall ip, (forall net' n', (net', n') ∈ all_pairs w0 t -> ip <> addr w0 net' n') -> delayed f2 dv ip = None.
Proof.
  intros Hfit Hd Hto x on cls handle. destruct (others_nodes t to_node Hto) as [Hto1 Hne].
  destruct (class_of w0 t Hfit to_node Hto1) as [Hcls Hok]. unfold cls. rewrite Hcls.
  destruct (prepared_pairs w0 t dev Hfit d f Hd) as (f1 & Hf1 & Hp1).
  assert (Hon : forall dv, dv ∈ on -> exists net, (net, to_node) ∈ all_pairs w0 t /\ dv = via w0 dev (net, to_node)).
  { intros dv (net & -> & Hnet)%list_elem_of_fmap. apply elem_of_seq in Hnet. exists net. split; [|done].
    apply in_all_pairs. split; [fold x; lia|done]. }
  destruct (slow_devices (S (n_id (node_at w0 to_node))) handle args (length (tc_nodes t)) on f1 Hok) as (f2 & Hf2 & Hp2).
  { intros dv (net & Hnet & ->)%Hon. by apply (Hp1 net to_node). }
  destruct (release_devices (S (n_id (node_at w0 to_node))) handle args on f2 (proj2 Hok)) as (f3 & Hf3 & Hp3).
  - apply NoDup_fmap_2_strong; [|apply NoDup_seq]. intros net net' Hn%elem_of_seq Hn'%elem_of_seq Hv. destruct Hd as [Hone _].
    change net with (fst (net, to_node)). change net' with (fst (net', to_node)). apply Hone; [..|done]; apply in_all_pairs; (split; [fold x; lia|done]).
  - intros dv Hdv. destruct (Hp2 dv) as (_ & _ & ->). by rewrite decide_True.
  - exists f1, f2, f3. split; [exact Hf1|]. split; [exact Hf2|]. split; [exact Hf3|]. intros net n Hp. set (dv := via w0 dev (net, n)). destruct (Hp1 net n Hp) as (B1 & B2 & B3 & B4). fold dv in B1, B2, B3, B4.
    destruct (Hp2 dv) as (_ & G2 & N2), (Hp3 dv) as (_ & G3 & N3). apply in_all_pairs in Hp as [Hnet Hn].
    destruct (others_nodes t n Hn) as [Hn1 Hn2].
    assert (Hsame : S (n_id (node_at w0 n)) = S (n_id (node_at w0 to_node)) <-> n = to_node).
    { split; [|by intros ->]. intros [= Heq]. by apply (id_inj w0 t Hfit). }
    unfold delayed. rewrite G3, G2, B3, N3, N2, !B2. split_and!; [done| | |].
    + by repeat case_decide.
    + destruct (decide (n = to_node)) as [->|Hnt].
      * rewrite decide_True; [done|]. split; [|done]. unfold on. apply list_elem_of_fmap. exists net. split; [done|]. apply elem_of_seq. fold x in Hnet. lia.
      * rewrite decide_False; [done|]. intros [_ Heq]. by apply Hnt, Hsame.
    + intros ip Hip. rewrite G2, (B4 ip Hip), N2, B2, decide_False; [done|]. intros [_ [= Heq]]. apply Hne. symmetry.
      apply (id_inj w0 t Hfit); [apply (fit_source _ _ Hfit)|done|done].
Qed.

(** ** Properties *)

(** [_get_nodes_by_dev] groups the other nodes by the device that leads to
    them: the entry of a device is the network of the nodes behind it and these
    nodes, in the order of the collection; every node is behind one device for
    each network.  It fails exactly when two networks share a device, so that
    the commands for one network never act on the packets of another. *)
Theorem nodes_by_dev_are_grouped `{SshServer} w t dev :
  routes (node_info w (source_node t)) dev ->
  (forall n, n ∈ tc_nodes t -> length (h_addrs (node_info w (source_node t))) <= length (h_addrs (node_info w n))) ->
  let ps := all_pairs w t in
  match get_nodes_by_dev t w with
  | (Ok d, w') => same_objects w w' /\ NoDup (d_keys d) /\ one_net_per_dev w dev ps /\
      (forall dv net ns, d_get dv d = Some (net, ns) <->
        ns <> [] /\ (forall n, n ∈ ns -> via w dev (net, n) = dv) /\ map (pair net) ns = at_dev w dev ps dv) /\
      forall net n, (net, n) ∈ ps -> exists ns, d_get (via w dev (net, n)) d = Some (net, ns) /\ n ∈ ns
  | (Raise e, _) => e = RuntimeError "use same device" /\
      exists p q, p ∈ ps /\ q ∈ ps /\ via w dev p = via w dev q /\ fst p <> fst q
  end.
Proof.
  intros Hr Ha ps.
  pose proof (get_nodes_by_dev_spec w t dev Hr Ha w []) as Hg.
  assert (Hs : sent_since w t w []) by (split; [reflexivity|by rewrite app_nil_r]). specialize (Hg Hs (List.Forall_nil _)).
  unfold wp in Hg. destruct (get_nodes_by_dev t w) as [[d|e] w'].
  - destruct Hg as [Hd (l & [Hsame _] & _)]. pose proof Hd as (Hone & Hnd & Hget). split_and!; [done|done|done| |].
    + intros dv net ns. rewrite Hget. unfold entry. split.
      * destruct (at_dev w dev ps dv) as [|q l'] eqn:Hq; [by fold ps; rewrite Hq|]. fold ps. rewrite Hq. intros [= <- <-].
        assert (Hall : forall r, r ∈ q :: l' -> via w dev r = dv /\ fst r = fst q).
        { intros r Hin. rewrite <-Hq in Hin. apply list_elem_of_filter in Hin as [Hv Hin]. split; [done|]. apply Hone; [done| |].
          - assert (Hqin : q ∈ at_dev w dev ps dv) by (rewrite Hq; by left). by apply list_elem_of_filter in Hqin as [_ ?].
          - rewrite Hv. assert (Hqin : q ∈ at_dev w dev ps dv) by (rewrite Hq; by left). by apply list_elem_of_filter in Hqin as [? _]. }
        split_and!; [done| |].
        -- intros n (r & -> & Hin)%(list_elem_of_fmap snd (q :: l')). destruct (Hall r Hin) as [Hv Hf].
           by rewrite <-Hf, <-surjective_pairing.
        -- change (snd q :: map snd l') with (map snd (q :: l')). rewrite map_map.
           rewrite <-(map_id (q :: l')) at 2. apply map_ext_in. intros r Hin%list_elem_of_In.
           destruct (Hall r Hin) as [_ <-]. by rewrite <-surjective_pairing.
      * intros (Hne & _ & Hps). fold ps. rewrite <-Hps. destruct ns as [|n ns]; [done|]. cbn [map fst].
        do 2 f_equal. cbn. f_equal. rewrite map_map. apply map_id.
    + intros net n Hp. destruct (pair_entry w t dev d net n Hd Hp) as (ns & Hin & Hn). exists ns. split; [|done].
      by apply d_elem_get.
  - destruct Hg as [-> Hno]. split; [done|].
    destruct (decide (Exists (fun p => Exists (fun q => via w dev p = via w dev q /\ fst p <> fst q) ps) ps)) as [He|Hn].
    + apply Exists_exists in He as (p & Hp & He). apply Exists_exists in He as (q & Hq & Hv & Hf). by exists p, q.
    + exfalso. apply Hno. intros p q Hp Hq Hv. destruct (decide (fst p = fst q)) as [|Hf]; [done|]. destruct Hn.
      apply Exists_exists. exists p. split; [done|]. apply Exists_exists. by exists q.
Qed.

(** C18: [TrafficControl] sends packets to each other node of the collection into
    a class of their own.  After [slow_down] for one of them, exactly the
    packets to the addresses of this node are delayed, on every network, with
    the given parameters; packets to the other nodes and to any other address
    are not.  [remove_slow_down] lifts the delay again.  There are at most nine
    nodes, since [tc] reads the numbers of the classes as hexadecimal. *)
Theorem slow_down_delays_one_node {F} `{SshServer} `{!Tc F, !TcSpec F} g job w0 dev source nodes t to_node speed delay
    w1 w2 w3 :
  let x := node_info w0 source in
  routes x dev -> config_changed (node_at w0 source) = false ->
  (forall n, n ∈ nodes -> length (h_addrs x) <= length (h_addrs (node_info w0 n))) ->
  fits w0 (NewTrafficControl source nodes) -> to_node ∈ nodes -> to_node <> source ->
  traffic_control_init g job source nodes w0 = (Ok t, w1) ->
  slow_down g job t to_node speed delay w1 = (Ok tt, w2) ->
  remove_slow_down g job t to_node w2 = (Ok tt, w3) ->
  exists l1 l2 l3, sent_log (w_env w3) = sent_log (w_env w0) ++ map (sent_run x) (l1 ++ l2 ++ l3) /\
    sent_log (w_env w2) = sent_log (w_env w0) ++ map (sent_run x) (l1 ++ l2) /\
    forall f : F, exists f1 f2 f3,
      tc_all (filter is_tc l1) f = Some f1 /\ tc_all (filter is_tc l2) f1 = Some f2 /\ tc_all (filter is_tc l3) f2 = Some f3 /\
      forall net n, net < length (h_addrs x) -> n ∈ nodes -> n <> source ->
        let dv := dev (addr w0 net n) in
        delayed f1 dv (addr w0 net n) = None /\ delayed f3 dv (addr w0 net n) = None /\
        delayed f2 dv (addr w0 net n) =
          (if decide (n = to_node) then Some (node_to_handle w0 to_node, netem_args speed delay) else None) /\
        forall ip, (forall net' n', (net', n') ∈ all_pairs w0 t -> ip <> addr w0 net' n') -> delayed f2 dv ip = None.
Proof.
  intros x Hr Hfile Ha Hfit Hto Hne Hinit Hslow Hrem. set (t0 := NewTrafficControl source nodes) in *.
  destruct (init_sends g job w0 dev t0 Hr Hfile Ha Hfit t w1 Hinit) as (-> & d & ld & Hd & Htc & Hs1).
  pose proof (slow_down_sends g job w0 dev t0 Hr Hfile Ha to_node w1 _ w2 (netem_args speed delay) _ (or_introl eq_refl) Hto Hs1 Hslow) as Hs2.
  pose proof (slow_down_sends g job w0 dev t0 Hr Hfile Ha to_node w2 _ w3 [] _ (or_intror eq_refl) Hto Hs2 Hrem) as Hs3.
  eexists (ld ++ concat (map (device_cmds w0 t0) d)), (net_cmds w0 dev t0 to_node _), (net_cmds w0 dev t0 to_node _).
  split; [rewrite app_assoc; apply Hs3|]. split; [apply Hs2|]. intros f.
  assert (Ho : to_node ∈ others t0) by by apply list_elem_of_filter.
  destruct (slow_down_effect w0 dev t0 d to_node (netem_args speed delay) f Hfit Hd Ho) as (f1 & f2 & f3 & Hf1 & Hf2 & Hf3 & Hp).
  exists f1, f2, f3. unfold net_cmds. cbv beta.
  rewrite (tc_net_cmds w0 t0 dev to_node (fun dv => netem_cmd dv (node_to_class w0 to_node) _ _)) by done.
  rewrite (tc_net_cmds w0 t0 dev to_node (fun dv => netem_del_cmd dv (node_to_class w0 to_node) _)) by done.
  split_and!; [|done|done|].
  - rewrite filter_app. replace (filter is_tc ld) with (@nil (list string)); [done|].
    symmetry. clear -Htc. induction Htc as [|c l Hc _ IH]; [done|]. by rewrite filter_cons_False.
  - intros net n Hnet Hn Hns. apply (Hp net n). apply in_all_pairs. split; [done|]. by apply list_elem_of_filter.
Qed.

(** ** Witnesses *)

(** Devices as functions *)
Record demo_shaper := DemoShaper {
  d_bands : string -> option nat;
  d_goes : string -> string -> nat;
  d_netem : string -> nat -> option (string * list string)
}.
Definition demo_number (text : nat -> string) (s : string) : nat :=
  default 0 (head (filter (fun k => text k = s) (seq 0 17))).
Definition at_key {A B} `{EqDecision A} (k : A) (v : B) (f : A -> B) : A -> B := fun k' => if decide (k' = k) then v else f k'.
Definition demo_tc (cmd : list string) (f : demo_shaper) : option demo_shaper :=
  let word i := nth i cmd EmptyString in
  let dv := word 4 in let k := demo_number class_text (word 6) in
  if decide (word 1 = "filter") then
    Some (DemoShaper (d_bands f) (at_key dv (at_key (word 15) (demo_number class_text (word 17)) (d_goes f dv)) (d_goes f)) (d_netem f))
  else if decide (word 5 = "root") then
    if decide (word 2 = "del") then
      if d_bands f dv is Some _ then Some (DemoShaper (at_key dv None (d_bands f)) (d_goes f) (at_key dv (fun _ => None) (d_netem f))) else None
    else
      Some (DemoShaper (at_key dv (Some (demo_number str_nat (word 10))) (d_bands f))
        (at_key dv (fun _ => S (demo_number str_nat (word 12))) (d_goes f)) (at_key dv (fun _ => None) (d_netem f)))
  else
    if decide (word 2 = "del") then
      if d_netem f dv k is Some _ then Some (DemoShaper (d_bands f) (d_goes f) (at_key dv (at_key k None (d_netem f dv)) (d_netem f))) else None
    else Some (DemoShaper (d_bands f) (d_goes f) (at_key dv (at_key k (Some (word 8, drop 10 cmd)) (d_netem f dv)) (d_netem f))).
#[local] Instance demo_tc_ops : Tc demo_shaper :=
  {| tc := demo_tc; bands := d_bands; goes := d_goes; netem := d_netem |}.

Lemma demo_number_class k : k < 16 -> demo_number class_text (class_text k) = k.
Proof. intros Hk. do 16 (destruct k as [|k]; [by vm_compute|]). lia. Qed.
Lemma demo_number_nat k : k <= 16 -> demo_number str_nat (str_nat k) = k.
Proof. intros Hk. do 17 (destruct k as [|k]; [by vm_compute|]). lia. Qed.

#[local] Instance demo_tc_spec : TcSpec demo_shaper.
Proof.
  split; unfold tc, bands, goes, netem, same_dev, demo_tc_ops.
  - intros f dv f'. unfold demo_tc. cbn. destruct (d_bands f dv); [|done]. intros [= <-] dv' Hne. cbn. unfold at_key.
    by rewrite !decide_False.
  - intros f dv b band Hb Hband. eexists. split; [unfold demo_tc; cbn; reflexivity|]. cbn. unfold at_key.
    rewrite !demo_number_nat by lia. intros dv'. split_and!; [done| |]; intros; by case_decide.
  - intros f dv ip k b band Hb Hk Hk16 Hg. eexists. split; [unfold demo_tc; cbn; reflexivity|]. cbn. unfold at_key.
    rewrite demo_number_class by done. intros dv'. split_and!; [done| |done]. intros ip'.
    destruct (decide (dv' = dv)) as [->|Hne]; [|by rewrite decide_False by naive_solver].
    destruct (decide (ip' = ip)) as [->|Hi]; [by rewrite decide_True|by rewrite decide_False by naive_solver].
  - intros f dv k h args b Hb Hk Hk16. eexists. split; [unfold demo_tc; cbn; reflexivity|]. cbn. unfold at_key.
    rewrite demo_number_class by done. intros dv'. split_and!; [done|done|]. intros j.
    destruct (decide (dv' = dv)) as [->|Hne]; [|by rewrite decide_False by naive_solver].
    destruct (decide (j = k)) as [->|Hi]; [by rewrite decide_True|by rewrite decide_False by naive_solver].
  - intros f dv k h args Hk Hn. unfold demo_tc. cbn. rewrite demo_number_class, Hn by done. eexists. split; [done|]. cbn. unfold at_key.
    intros dv'. split_and!; [done|done|]. intros j.
    destruct (decide (dv' = dv)) as [->|Hne]; [|by rewrite decide_False by naive_solver].
    destruct (decide (j = k)) as [->|Hi]; [by rewrite decide_True|by rewrite decide_False by naive_solver].
Qed.

(** Three hosts; everything is reached through one device. *)
#[local] Instance demo_route_server : SshServer := fun _ _ => Ok (0%Z, "10.0.0.2 dev eth1 src 10.0.0.1").
Definition demo_trio : world :=
  World (Env [] ∅)
    [NewHost (demo_info "a" "10.0.0.1") "lvm" "/dev/vdb" 78 1 None;
     NewHost (demo_info "b" "10.0.0.2") "lvm" "/dev/vdb" 79 1 None;
     NewHost (demo_info "c" "10.0.0.3") "lvm" "/dev/vdb" 79 1 None]
    [NewNode 0 0 77 [] 0 os_empty EmptyString false; NewNode 1 0 78 [] 1 os_empty EmptyString false;
     NewNode 2 0 78 [] 2 os_empty EmptyString false]
    [] [NewResource "r" EmptyString EmptyString EmptyString EmptyString (os_init (Some [0; 1; 2])) 0 None "no" default_patterns].

Definition demo_routes : routes (node_info demo_trio 0) (fun _ => "eth1").
Proof. intros log a. eexists. split; [reflexivity|]. vm_compute. reflexivity. Qed.

Lemma nodes_by_dev_are_grouped_witness :
  match get_nodes_by_dev (NewTrafficControl 0 [0; 1; 2]) demo_trio with
  | (Ok d, _) => d_get "eth1" d = Some (0, [1; 2])
  | (Raise _, _) => False
  end /\ one_net_per_dev demo_trio (fun _ => "eth1") (all_pairs demo_trio (NewTrafficControl 0 [0; 1; 2])).
Proof.
  pose proof (nodes_by_dev_are_grouped demo_trio (NewTrafficControl 0 [0; 1; 2]) (fun _ => "eth1") demo_routes) as Hg.
  split; [vm_compute; reflexivity|].
  assert (Ha : forall n, n ∈ [0; 1; 2] -> length (h_addrs (node_info demo_trio 0)) <= length (h_addrs (node_info demo_trio n))).
  { apply Forall_forall. repeat constructor. }
  specialize (Hg Ha). cbv zeta in Hg.
  assert (Hrun : is_ok (fst (get_nodes_by_dev (NewTrafficControl 0 [0; 1; 2]) demo_trio)) = true) by (vm_compute; reflexivity).
  destruct (get_nodes_by_dev (NewTrafficControl 0 [0; 1; 2]) demo_trio) as [[d|e] w']; [|discriminate Hrun].
  apply (proj1 (proj2 (proj2 Hg))).
Defined.

Lemma slow_down_delays_one_node_witness :
  exists w3 l1 l2 l3, sent_log (w_env w3) = map (sent_run (node_info demo_trio 0)) (l1 ++ l2 ++ l3) /\
    exists f1 f2 : demo_shaper, tc_all (filter is_tc l1) (DemoShaper (fun _ => None) (fun _ _ => 1) (fun _ _ => None)) = Some f1 /\
      tc_all (filter is_tc l2) f1 = Some f2 /\
      delayed f2 "eth1" "10.0.0.2" = Some ("101:", ["delay"; "10ms"]) /\ delayed f2 "eth1" "10.0.0.3" = None.
Proof.
  pose (t := NewTrafficControl 0 [0; 1; 2]).
  pose (w1 := snd (traffic_control_init demo_globals "job" 0 [0; 1; 2] demo_trio)).
  pose (w2 := snd (slow_down demo_globals "job" t 1 EmptyString "10ms" w1)).
  pose (w3 := snd (remove_slow_down demo_globals "job" t 1 w2)).
  destruct (slow_down_delays_one_node (F := demo_shaper) demo_globals "job" demo_trio (fun _ => "eth1") 0 [0; 1; 2] t 1
    EmptyString "10ms" w1 w2 w3) as (l1 & l2 & l3 & Hl & _ & Hf).
  - exact demo_routes.
  - reflexivity.
  - apply Forall_forall. repeat constructor.
  - split; [by left|vm_compute; lia| | |].
    + apply (bool_decide_unpack _). vm_compute. exact I.
    + apply Forall_forall. vm_compute. repeat constructor.
    + apply (bool_decide_unpack _). vm_compute. exact I.
  - right. by left.
  - lia.
  - vm_compute. reflexivity.
  - vm_compute. reflexivity.
  - vm_compute. reflexivity.
  - exists w3, l1, l2, l3. split; [exact Hl|].
    destruct (Hf (DemoShaper (fun _ => None) (fun _ _ => 1) (fun _ _ => None))) as (f1 & f2 & f3 & H1 & H2 & _ & Hp).
    exists f1, f2. split; [exact H1|]. split; [exact H2|]. split.
    + destruct (Hp 0 1) as (_ & _ & Hd & _); [vm_compute; lia|apply (bool_decide_unpack _); vm_compute; exact I|lia|].
      change (delayed f2 "eth1" "10.0.0.2" = Some (node_to_handle demo_trio 1, netem_args EmptyString "10ms")) in Hd.
      rewrite Hd. vm_compute. reflexivity.
    + destruct (Hp 0 2) as (_ & _ & Hd & _); [vm_compute; lia|apply (bool_decide_unpack _); vm_compute; exact I|lia|].
      change (delayed f2 "eth1" "10.0.0.3" = None) in Hd. exact Hd.
Defined.
