(* ===== verification/Platform.v ===== *)
(** * Volumes and roles on the platforms (src/python/drbdtest.py, linuxplatformhelper.py, windowsplatformhelper.py)

    The device of a volume, file systems on it, and becoming primary and
    secondary.  On Windows the disk of a volume is looked up with PowerShell,
    is taken online and offline, and there is no promotion on opening a device,
    so that the helper promotes in a loop. *)

From S2P Require Import Prelude PyStr Dict OrderedSet Host Disktools World Config Collections Cluster Lifecycle.

(** The objects and the volumes with [disk_is_online] *)
Record platform := Platform { p_life : life; p_online : list nat }.
Definition p_world (s : platform) : world := l_world (p_life s).

Definition text (lines : list string) : string := join newline lines.

Section platform.
Context `{SshServer} `{EventScanner} (g : globals) (job : string).

Definition on_life {A} (m : M life A) : M platform A := zoom p_life (fun l s => Platform l (p_online s)) m.
Definition set_online (v : nat) (b : bool) : M platform unit :=
  modify (fun s => Platform (p_life s) (let l := filter (fun v' => v' <> v) (p_online s) in if b then v :: l else l)).

(** [Node.run(..., return_stdout=True)] *)
Definition node_run_out (n : nat) (cmd : list string) : M world string :=
  update_config g job n ;;;
  let* x := gets (fun w => node_info w n) in
  on_env (run_out x cmd).

(** ** Windows disks *)

Definition powershell_get_disk (minor : nat) : string := text
  [EmptyString;
   "            $j = 0";
   "            do {";
   "                $j = $j+1";
   "                $mydisk = Get-Disk | where { $_.Path -like " +:+ dquoted "*#WinDRBD{0}#*" +:+ " -f " +:+ str_nat minor +:+ " }";
   "                if ( $mydisk ) { break }";
   "                sleep 1";
   "            } while ( $j -lt 30 )";
   "            if ( ! $mydisk ) {";
   "                echo " +:+ dquoted "Disk did not come up within 30 seconds.";
   "                exit 42";
   "            }";
   "        "].
Definition run_powershell_on_disk (v : nat) (command : string) : M world string :=
  let* w := get in
  node_run_out (v_node (volume_at w v)) ["powershell"; "-command"; powershell_get_disk (v_minor (volume_at w v)) +:+ command].

Definition quiet_progress : string := "            $ProgressPreference = " +:+ dquoted "SilentlyContinue".
Definition query_number : string := text [EmptyString; quiet_progress; "            $mydisk.Number"; "        "].
Definition online_text : string := text
  [EmptyString; quiet_progress; "                $mydisk | set-disk -IsOffline $false";
   "                " +:+ "$ProgressPreference = " +:+ dquoted "SilentlyContinue";
   "                $mydisk | set-disk -IsReadonly $false"; "            "].
Definition offline_text : string := text [EmptyString; quiet_progress; "            $mydisk | set-disk -IsOffline $true"; "        "].
Definition mkfs_text : string := text
  [EmptyString; quiet_progress;
   "            $mydisk | Initialize-Disk -passthru -PartitionStyle MBR |  New-Partition -UseMaximumSize | format-volume"; "        "].
Definition access_path_text (cmdlet path : string) : string := text
  [EmptyString; quiet_progress;
   "            $mydisk | Get-Partition | " +:+ cmdlet +:+ " -AccessPath " +:+ dquoted path; "        "].

(** ** The helpers *)

Definition on_windows (w : world) (v : nat) : bool := h_windows (node_info w (v_node (volume_at w v))).

(** The name of the device of a disk number, on Windows *)
Definition disk_device (disk_number : Z) : res string :=
  if ((disk_number >? 26) || (disk_number <? 0))%Z then
    Raise (RuntimeError ("Disknumber " +:+ str_int disk_number +:+ " out of range"))
  else if (disk_number =? 0)%Z then Raise (RuntimeError "Refusing to access system partition")
  else Ok ("/dev/sd" +:+ String (ascii_of_N (Z.to_N disk_number + code "a")) EmptyString).
(** [Volume.device] *)
Definition device (v : nat) : M world string :=
  let* w := get in
  if on_windows w v then
    let* out := run_powershell_on_disk v query_number in
    let* disk_number := lift (py_int (strip out)) in
    lift (disk_device disk_number)
  else mret (linux_device (volume_at w v)).

(** [Host.native_filename] *)
Definition native_filename (h : host_info) (filename : string) : M env string :=
  if h_windows h then let* out := run_out h ["cygpath"; "-w"; filename] in mret (strip out)
  else mret filename.
(** [disk_native]; on Linux it calls the text in the attribute [disk]. *)
Definition disk_native (w : world) (v : nat) : res (option string) :=
  if on_windows w v then
    Ok ((fun d => String backslash (String backslash ("." +:+ String backslash ("Volume{" +:+ volume_path d +:+ "}")))) <$> disk_volume (volume_at w v))
  else Raise (TypeError "object is not callable").

Definition on_p_world {A} (m : M world A) : M platform A := on_life (on_world m).
Definition powershell (v : nat) (command : string) : M platform unit :=
  let* _ := on_p_world (run_powershell_on_disk v command) in mret tt.
Definition run_on_volume (v : nat) (cmd : list string) : M platform unit :=
  let* s := get in on_p_world (node_run g job (v_node (volume_at (p_world s) v)) cmd).

Definition set_disk_online (v : nat) : M platform unit :=
  let* s := get in
  when (on_windows (p_world s) v)
    (when (negb (bool_decide (v ∈ p_online s))) (powershell v online_text) ;;;
     set_online v true).
Definition set_disk_offline (v : nat) : M platform unit :=
  let* s := get in
  when (on_windows (p_world s) v) (powershell v offline_text ;;; set_online v false).
(** The file systems of a Linux host *)
Definition linux_mkfs (v : nat) : M platform unit :=
  let* d := on_p_world (device v) in run_on_volume v ["mkfs"; "-t"; "ext4"; d].
Definition linux_mount (v : nat) (where_ : string) : M platform unit :=
  let* d := on_p_world (device v) in run_on_volume v ["mount"; d; where_].
Definition linux_umount (v : nat) (where_ : string) : M platform unit := run_on_volume v ["umount"; where_].
Definition mkfs (v : nat) : M platform unit :=
  let* s := get in
  if on_windows (p_world s) v then powershell v mkfs_text
  else linux_mkfs v.
Definition native_where (v : nat) (where_ : string) : M platform string :=
  let* s := get in on_p_world (on_env (native_filename (node_info (p_world s) (v_node (volume_at (p_world s) v))) where_)).
Definition mount (v : nat) (where_ : string) : M platform unit :=
  let* s := get in
  if on_windows (p_world s) v then
    let* p := native_where v where_ in powershell v (access_path_text "Add-PartitionAccessPath" p)
  else linux_mount v where_.
Definition umount (v : nat) (where_ : string) (set_offline : bool) : M platform unit :=
  let* s := get in
  if on_windows (p_world s) v then
    let* p := native_where v where_ in
    powershell v (access_path_text "Remove-PartitionAccessPath" p) ;;;
    when set_offline (set_disk_offline v)
  else linux_umount v where_.
Definition wipe_ntfs (v : nat) : M platform unit :=
  let* s := get in
  when (on_windows (p_world s) v)
    (let* d := on_p_world (device v) in
     run_on_volume v ["dd"; "if=/dev/zero"; "of=" +:+ d; "count=128"] ;;;
     set_disk_offline v ;;;
     set_disk_online v).

(** ** Roles *)

Definition after_becoming_primary (n : nat) : M platform unit :=
  let* s := get in
  when (h_windows (node_info (p_world s) n)) (for_each (n_disks (node_at (p_world s) n)) set_disk_online).
(** [Node.primary] *)
Definition primary (n : nat) (force wait : bool) : M platform unit :=
  let* name := on_life (look (fun w => Ok (r_name (resource_at w (node_resource w n))))) in
  (if force then
     on_p_world (drbdadm g job n ["primary"; "--force"; name]) ;;;
     let* vs := on_life (look (fun w => node_volumes w n)) in
     let* ds := on_life (look (fun w => volumes_diskful w (items vs))) in
     on_life (nodes_event [n] ((if bool_decide (items ds = []) then [] else ["device .* disk:UpToDate"]) ++
                               (if wait then ["resource .* role:Primary"] else [])))
   else
     on_p_world (drbdadm g job n ["primary"; name]) ;;;
     on_life (when wait (nodes_event [n] ["resource .* role:Primary"]))) ;;;
  after_becoming_primary n.

(** [with node.asPrimary(force=force): body]: the exception that leaves the
    statement is that of [secondary], if there is one, or else that of the body. *)
Definition with_primary {A} (n : nat) (force : bool) (body : M platform A) : M platform A :=
  primary n force true ;;;
  try_finally body (on_life (secondary g job n true false)).

(** The loop of [prepare_auto_promote] and [cleanup_auto_demote], for [fuel]
    turns: [None] when it is still running.  The module does not import [time]. *)
Definition time_sleep : M platform unit := raise (NameError "name 'time' is not defined").
Fixpoint retry (fuel : nat) (m : M platform unit) (s : platform) : option (res unit * platform) :=
  match fuel with
  | O => None
  | S fuel =>
      match m s with
      | (Ok _, s') => Some (Ok tt, s')
      | (Raise _, s') =>
          match time_sleep s' with
          | (Ok _, s'') => retry fuel m s''
          | (Raise e, s'') => Some (Raise e, s'')
          end
      end
  end.
Definition windows_node (n : nat) (s : platform) : bool := h_windows (node_info (p_world s) n).
Definition prepare_auto_promote (fuel n : nat) (s : platform) : option (res unit * platform) :=
  if windows_node n s then retry fuel (primary n false false) s else Some (Ok tt, s).
Definition cleanup_auto_demote (fuel n : nat) (s : platform) : option (res unit * platform) :=
  if windows_node n s then retry fuel (on_life (secondary g job n false false)) s else Some (Ok tt, s).
End platform.

Lemma event_world `{EventScanner} ns yes s : l_world (snd (nodes_event ns yes s)) = l_world s.
Proof. by destruct ns. Qed.

Section outputs.
Context `{SshServer} (g : globals) (job : string).

Lemma keeps_node_run_out n cmd : keeps same_core (node_run_out g job n cmd).
Proof. unfold node_run_out. apply keeps_bind; [exact _|apply keeps_update_config|intros _]. solve_keeps. Qed.
Lemma keeps_device v : keeps same_core (device g job v).
Proof.
  unfold device. apply keeps_bind; [exact _|solve_keeps|intros w]. destruct (on_windows w v); [|solve_keeps].
  apply keeps_bind; [exact _| |intros out; solve_keeps].
  unfold run_powershell_on_disk. apply keeps_bind; [exact _|solve_keeps|intros w']. apply keeps_node_run_out.
Qed.

(** The answer of a node, when it is always the same *)
Lemma node_run_out_answer n cmd out w t w' :
  (forall log, ssh log (sent_run (node_info w n) cmd) = Ok (0%Z, out)) ->
  node_run_out g job n cmd w = (Ok t, w') -> t = strip out.
Proof.
  intros Hans. unfold node_run_out. mred. pose proof (keeps_update_config g job n w) as Hu.
  destruct (update_config g job n w) as [[[]|e] w1]; [|done]. unfold gets, on_env, zoom. cbn in Hu.
  rewrite run_out_answer, (core_node_info w w1 n), Hans by done. cbn. by intros [= <- _].
Qed.
End outputs.

(** ** Properties *)

(** the devices of the disks 1 to 25 on Windows are the letters from [b]
    to [z]; the system disk and numbers out of range are refused, except for
    26, which gives the name of no device. *)
Theorem windows_device_names (disk_number : Z) :
  ((1 <= disk_number <= 25)%Z -> exists c, disk_device disk_number = Ok ("/dev/sd" +:+ String c EmptyString) /\
     Z.of_N (code c) = (97 + disk_number)%Z /\ scontains c "bcdefghijklmnopqrstuvwxyz" = true) /\
  disk_device 26 = Ok "/dev/sd{" /\
  ((disk_number <= 0 \/ 26 < disk_number)%Z -> exists msg, disk_device disk_number = Raise (RuntimeError msg)).
Proof.
  unfold disk_device. split_and!; [|done|].
  - intros Hn.
    assert (Hin : disk_number ∈ map Z.of_nat (seq 1 25)) by (apply list_elem_of_fmap; exists (Z.to_nat disk_number); split; [lia|apply elem_of_seq; lia]).
    assert (Hall : Forall (fun k => exists c, disk_device k = Ok ("/dev/sd" +:+ String c EmptyString) /\
      Z.of_N (code c) = (97 + k)%Z /\ scontains c "bcdefghijklmnopqrstuvwxyz" = true) (map Z.of_nat (seq 1 25))).
    { repeat (apply List.Forall_cons; [eexists; (split; [vm_compute; reflexivity|]); vm_compute; done|]). apply List.Forall_nil. }
    rewrite Forall_forall in Hall. by apply Hall.
  - intros Hn. destruct (disk_number >? 26)%Z eqn:H1; [by eexists|]. destruct (disk_number <? 0)%Z eqn:H2; [by eexists|].
    assert (disk_number = 0)%Z as -> by lia. by eexists.
Qed.

(** however its body ends, the statement that makes a node primary makes
    it secondary again, with the next command, and it passes on the result of
    the body when that succeeds. *)
Theorem with_primary_demotes `{SshServer} `{EventScanner} g job {A} n force (body : M platform A) s s1 r s2 :
  primary g job n force true s = (Ok tt, s1) -> body s1 = (r, s2) ->
  config_changed (node_at (p_world s2) n) = false ->
  let x := node_info (p_world s2) n in
  let name := r_name (resource_at (p_world s2) (node_resource (p_world s2) n)) in
  let s3 := snd (with_primary g job n force body s) in
  sent_log (w_env (p_world s3)) = sent_log (w_env (p_world s2)) ++
    [sent_run x ["drbdadm"; "-c"; drbd_global_config_file_path job x; "-v"; "secondary"; name]] /\
  (fst (on_life (secondary g job n true false) s2) = Ok tt -> fst (with_primary g job n force body s) = r).
Proof.
  intros Hp Hb Hc x name s3. subst s3. unfold with_primary, try_finally. mred. rewrite Hp, Hb.
  split; [|by destruct (on_life _ s2) as [[[]|e] s3]].
  set (cmd := ["drbdadm"; "-c"; drbd_global_config_file_path job x; "-v"; "secondary"; name]).
  assert (Hd : drbdadm g job n ["secondary"; name] (p_world s2) = on_env (run x cmd) (p_world s2)).
  { unfold drbdadm, node_run, update_config, get, gets, when. mred. by rewrite Hc. }
  unfold secondary, on_life, zoom, look. mred. cbn [app].
  change (l_world (p_life s2)) with (p_world s2). fold name. unfold on_world at 1, zoom. change (l_world (p_life s2)) with (p_world s2). rewrite Hd.
  unfold on_env, zoom. rewrite run_answer. fold cmd.
  destruct (ssh _ _) as [[code out]|e]; [|done]. destruct (code =? 0)%Z; [|done].
  set (l := Life _ _). pose proof (event_world [n] ["resource .* role:Secondary"] l) as Hw. cbn [when].
  destruct (nodes_event _ _ l) as [[[]|e] l']; unfold p_world in *; cbn in *; by rewrite Hw.
Qed.

(** on Windows the loops that promote and demote come to an end with their
    first turn: the attempt succeeds, or the loop fails on its way to the pause
    before the next one, with the state that the attempt left. *)
Theorem promotion_is_tried_once `{SshServer} `{EventScanner} g job n s fuel :
  let attempt (m : M platform unit) :=
    (match fst (m s) with Ok _ => Ok tt | Raise _ => Raise (NameError "name 'time' is not defined") end, snd (m s)) in
  prepare_auto_promote g job (S fuel) n s =
    Some (if windows_node n s then attempt (primary g job n false false) else (Ok tt, s)) /\
  cleanup_auto_demote g job (S fuel) n s =
    Some (if windows_node n s then attempt (on_life (secondary g job n false false)) else (Ok tt, s)).
Proof.
  intros attempt. assert (Hr : forall m, retry (S fuel) m s = Some (attempt m)).
  { intros m. unfold attempt. cbn [retry]. by destruct (m s) as [[[]|e] s']. }
  unfold prepare_auto_promote, cleanup_auto_demote. rewrite !Hr. by destruct (windows_node n s).
Qed.

(** ** Witnesses *)

Definition demo_platform : platform := Platform demo_life [].
Lemma windows_device_names_witness : (1 <= 25 <= 25)%Z /\ exists c, disk_device 25 = Ok ("/dev/sd" +:+ String c EmptyString).
Proof.
  split; [lia|]. destruct (windows_device_names 25) as [H1 _]. destruct (H1 ltac:(lia)) as (c & Hc & _). by exists c.
Defined.

#[local] Instance demo_server : SshServer := fun _ _ => Ok (0%Z, EmptyString).
#[local] Instance demo_scanner : EventScanner := fun _ _ _ => Ok tt.
Lemma with_primary_demotes_witness :
  let s1 := snd (primary demo_globals "job" 0 false true demo_platform) in
  last (sent_log (w_env (p_world (snd (with_primary demo_globals "job" 0 false (raise AssertionError : M platform unit) demo_platform))))) =
    Some (sent_run (node_info (p_world s1) 0) ["drbdadm"; "-c"; "/var/lib/drbd-test/job.conf"; "-v"; "secondary"; "r"]).
Proof.
  intros s1.
  destruct (with_primary_demotes demo_globals "job" 0 false (raise AssertionError : M platform unit) demo_platform s1
    (Raise AssertionError) s1) as [Hl _].
  - vm_compute. reflexivity.
  - reflexivity.
  - vm_compute. reflexivity.
  - rewrite Hl. vm_compute. reflexivity.
Defined.
