(* ===== verification/Fio.v ===== *)
(** * Running fio (src/python/drbdtest.py, src/python/busywrite.py)

    [Host.fio_file], which runs fio and reads its results, and [BusyWrite],
    which keeps a device busy in the background: the process is started by the
    shell, its output goes to files on the node, and these are fetched when it
    has ended.  The number of runs on a host is part of the names of the files. *)

From S2P Require Import Prelude PyStr Dict Json OrderedSet Host Disktools World Config Collections Cluster Lifecycle Platform.

(** An object of [BusyWrite]; an attribute that is not set yet is [None]. *)
Record job := Job {
  j_volume : nat;
  fio_pid : option string;
  fio_out_str : option string;
  output_filename : option string;
  stderr_filename : option string
}.
(** The objects, [fio_count] of each host, and the files in the log directory *)
Record fio := Fio {
  f_world : world;
  fio_count : nat -> nat;
  log_files : gmap string string;
  jobs : list job
}.
Definition no_job : job := Job 0 None None None None.
Definition job_at (s : fio) (j : nat) : job := default no_job (jobs s !! j).
Definition job_node (s : fio) (j : nat) : nat := v_node (volume_at (f_world s) (j_volume (job_at s j))).

(** The text from the first opening brace, or the last character, as
    [s[s.find('{'):]] *)
Fixpoint from_brace (s : string) : option string :=
  match s with
  | String c s' => if decide (c = "{"%char) then Some s else from_brace s'
  | EmptyString => None
  end.
Fixpoint last_char (s : string) : string :=
  match s with
  | String c EmptyString => s
  | String _ s' => last_char s'
  | EmptyString => EmptyString
  end.
Definition slice_from_brace (s : string) : string := default (last_char s) (from_brace s).

Definition fio_file_name (name : string) (count : nat) (suffix : string) : string :=
  "fio-" +:+ name +:+ "-" +:+ str_nat count +:+ suffix.

Section fio.
Context `{SshServer} (g : globals) (job_name : string).

Definition on_f_world {A} (m : M world A) : M fio A :=
  zoom f_world (fun w s => Fio w (fio_count s) (log_files s) (jobs s)) m.
Definition set_job (j : nat) (f : job -> job) : M fio unit :=
  modify (fun s => Fio (f_world s) (fio_count s) (log_files s) (alter f j (jobs s))).
Definition count_run (h : nat) : M fio unit :=
  modify (fun s => Fio (f_world s) (fun h' => if decide (h' = h) then S (fio_count s h) else fio_count s h') (log_files s) (jobs s)).
(** A file of the log directory, written anew *)
Definition write_log (name content : string) : M fio unit :=
  modify (fun s => Fio (f_world s) (fio_count s) (<[name := content]> (log_files s)) (jobs s)).

(** ** [Host.fio_file] *)

Definition fio_file (h : nat) (filename : string) (base_args kwargs : dict string string) : M fio json :=
  let* s := get in
  let x := info (host_at (f_world s) h) in
  let* native := on_f_world (on_env (native_filename x filename)) in
  let* result := on_f_world (on_env (run_out x (fio_cmd (h_windows x) native base_args kwargs))) in
  let* s := get in
  write_log (fio_file_name (h_name x) (fio_count s h) ".json") result ;;;
  let* fio_output := lift (loads result) in
  let* jobs := lift (json_key "jobs" fio_output) in
  let* job := lift (json_index 0 jobs) in
  let* r := lift (json_key "read" job) in
  let* _ := lift (json_key "io_kbytes" r) in
  let* w := lift (json_key "write" job) in
  let* _ := lift (json_key "io_kbytes" w) in
  let* _ := lift (json_key "elapsed" job) in
  count_run h ;;;
  mret fio_output.

(** [Volume.write], [Node.write] and [Node.fio]: what [fio_file] returns is dropped. *)
Definition volume_fio (v : nat) (base_args kwargs : dict string string) : M fio unit :=
  let* s := get in
  let* d := on_f_world (device g job_name v) in
  let* _ := fio_file (n_host (node_at (f_world s) (v_node (volume_at (f_world s) v)))) d base_args kwargs in mret tt.
Definition volume_write (v : nat) (kwargs : dict string string) : M fio unit := volume_fio v fio_write_small_args kwargs.
(** [Volumes.fio] and [Volumes.write] *)
Definition volumes_fio (vs : list nat) (base_args kwargs : dict string string) : M fio unit :=
  for_each vs (fun v => volume_fio v base_args kwargs).
Definition volumes_write (vs : list nat) (kwargs : dict string string) : M fio unit := for_each vs (fun v => volume_write v kwargs).
Definition node_fio (n : nat) (base_args kwargs : dict string string) : M fio unit :=
  let* s := get in
  let* vs := lift (node_volumes (f_world s) n) in
  for_each (items vs) (fun v => volume_fio v base_args kwargs).
Definition node_write (n : nat) (kwargs : dict string string) : M fio unit := node_fio n fio_write_small_args kwargs.

(** ** [BusyWrite] *)

Definition new_busy_write (v : nat) : M fio nat := fun s =>
  (Ok (length (jobs s)), Fio (f_world s) (fio_count s) (log_files s) (jobs s ++ [Job v None None None None])).

Definition default_base_args : string := "--rw=randwrite --direct=1 --iodepth=32 --time_based --runtime=600".
Definition escape_filename (native : string) : string :=
  replace backslash (String backslash (String backslash EmptyString)) (replace ":"%char (String backslash ":") native).
Definition start_script (windows : bool) (native base_args arg_str out err : string) : string :=
  "fio --output-format=json --max-jobs=4 --name=test " +:+
  (if windows then "--ioengine=windowsaio --thread " else "--ioengine=libaio ") +:+
  "--filename=" +:+ escape_filename native +:+ " " +:+ base_args +:+ " " +:+ arg_str +:+
  " < /dev/null > /tmp/" +:+ out +:+ " 2> /tmp/" +:+ err +:+ " & echo $!".

Definition start (j : nat) (fio_arg_str fio_base_args : string) : M fio unit :=
  let* s := get in
  let n := job_node s j in
  let h := n_host (node_at (f_world s) n) in
  let x := node_info (f_world s) n in
  let out := fio_file_name (h_name x) (fio_count s h) "-async.json" in
  let err := fio_file_name (h_name x) (fio_count s h) "-async-stderr" in
  set_job j (fun b => Job (j_volume b) (fio_pid b) (fio_out_str b) (Some out) (stderr_filename b)) ;;;
  set_job j (fun b => Job (j_volume b) (fio_pid b) (fio_out_str b) (output_filename b) (Some err)) ;;;
  let* d := on_f_world (device g job_name (j_volume (job_at s j))) in
  let* native := on_f_world (on_env (native_filename x d)) in
  let* pid := on_f_world (node_run_out g job_name n
    ["setsid"; "bash"; "-c"; start_script (h_windows x) native fio_base_args fio_arg_str out err]) in
  set_job j (fun b => Job (j_volume b) (Some pid) (fio_out_str b) (output_filename b) (stderr_filename b)) ;;;
  count_run h.

Definition is_running (j : nat) : M fio bool :=
  let* s := get in
  match fio_pid (job_at s j) with
  | None => mret false
  | Some pid =>
      let* running_str := on_f_world (node_run_out g job_name (job_node s j)
        ["bash"; "-c"; "ps -p " +:+ pid +:+ " > /dev/null && echo true || echo false"]) in
      if decide (running_str = "true") then mret true
      else if decide (running_str = "false") then mret false
      else raise (RuntimeError ("unexpected output from running check: " +:+ running_str))
  end.

(** [cat] of a file whose name may not be set *)
Definition attribute (o : option string) : res string :=
  res_of_option (AttributeError "'BusyWrite' object has no attribute") o.
Definition wait (j : nat) : M fio unit :=
  let* s := get in
  let n := job_node s j in
  on_f_world (node_run g job_name n ["tail"; "--pid=" +:+ default "None" (fio_pid (job_at s j)); "-f"; "/dev/null"]) ;;;
  set_job j (fun b => Job (j_volume b) None (fio_out_str b) (output_filename b) (stderr_filename b)) ;;;
  let* out_name := lift (attribute (output_filename (job_at s j))) in
  let* out := on_f_world (node_run_out g job_name n ["cat"; "/tmp/" +:+ out_name]) in
  set_job j (fun b => Job (j_volume b) (fio_pid b) (Some (slice_from_brace out)) (output_filename b) (stderr_filename b)) ;;;
  write_log out_name (slice_from_brace out) ;;;
  let* err_name := lift (attribute (stderr_filename (job_at s j))) in
  let* fio_stderr := on_f_world (node_run_out g job_name n ["cat"; "/tmp/" +:+ err_name]) in
  write_log err_name fio_stderr.

Definition kill_jobs (j : nat) : M fio unit :=
  let* s := get in
  match fio_pid (job_at s j) with
  | None => raise (RuntimeError "Start first")
  | Some pid => on_f_world (node_run g job_name (job_node s j) ["bash"; "-c"; "kill $(ps --ppid " +:+ pid +:+ " -o pid=)"])
  end.
Definition stop (j : nat) : M fio unit :=
  let* s := get in
  match fio_pid (job_at s j) with
  | None => raise (RuntimeError "Start first")
  | Some pid => on_f_world (node_run g job_name (job_node s j) ["kill"; pid]) ;;; wait j
  end.

Definition get_write_kib (j : nat) : M fio json :=
  let* s := get in
  match fio_out_str (job_at s j) with
  | None => raise (RuntimeError "Wait for fio to stop first")
  | Some out =>
      let* fio_output := lift (loads out) in
      let* jobs := lift (json_key "jobs" fio_output) in
      let* job := lift (json_index 0 jobs) in
      let* w := lift (json_key "write" job) in
      lift (json_key "io_kbytes" w)
  end.
End fio.

(** ** Lemmas: names of files *)

Lemma split_last c a d a' d' : scontains c d = false -> scontains c d' = false ->
  a +:+ String c d = a' +:+ String c d' -> a = a' /\ d = d'.
Proof.
  intros Hd Hd'. assert (Hno : forall b (x y : string), scontains c x = false -> x = b +:+ String c y -> False).
  { intros b x y Hx ->. rewrite scontains_app in Hx. cbn in Hx. by rewrite bool_decide_true, orb_true_r in Hx. }
  revert a'. induction a as [|x a IH]; intros [|x' a'] Heq.
  - rewrite !sapp_nil in Heq. by injection Heq.
  - rewrite sapp_nil, sapp_cons in Heq. injection Heq as -> Heq. by apply Hno in Heq.
  - rewrite sapp_nil, sapp_cons in Heq. injection Heq as <- Heq. symmetry in Heq. by apply Hno in Heq.
  - rewrite !sapp_cons in Heq. injection Heq as <- Heq. apply IH in Heq as [-> ->]. done.
Qed.

Lemma digits_no_dash k : scontains "-" (str_nat k) = false.
Proof. apply sall_contains with (p := is_digit); [apply str_nat_digits|done]. Qed.

Lemma last_char_app s c : last_char (s +:+ String c EmptyString) = String c EmptyString.
Proof.
  induction s as [|d s IH]; [done|]. rewrite sapp_cons. cbn [last_char].
  destruct (s +:+ String c EmptyString) as [|d' s'] eqn:Hs; [|exact IH]. by destruct s.
Qed.

Definition suffixes : list string := ["-async.json"; "-async-stderr"; ".json"].

Lemma fio_file_name_inj n k sf n' k' sf' : sf ∈ suffixes -> sf' ∈ suffixes ->
  fio_file_name n k sf = fio_file_name n' k' sf' -> n = n' /\ k = k' /\ sf = sf'.
Proof.
  intros Hs Hs' Heq. unfold fio_file_name in Heq. apply sapp_inv in Heq.
  assert (Hstem : sf = sf' -> n = n' /\ k = k').
  { intros ->. rewrite <-!(sapp_assoc n), <-!(sapp_assoc n'), <-!(sapp_assoc _ (str_nat _)) in Heq. apply sapp_inv_r in Heq.
    rewrite !sapp_assoc in Heq. change ("-" +:+ ?x) with (String "-" x) in Heq.
    apply split_last in Heq as [-> Hk]; [|apply digits_no_dash..]. split; [done|].
    assert (Hp : py_int (str_nat k) = py_int (str_nat k')) by by rewrite Hk. rewrite !py_int_str_nat in Hp. injection Hp. lia. }
  (* a name with .json only has digits before it *)
  assert (Hjson : forall m l m' l', m +:+ "-" +:+ str_nat l +:+ "-async.json" = m' +:+ "-" +:+ str_nat l' +:+ ".json" -> False).
  { intros m l m' l' He. change "-async.json" with ("-async" +:+ ".json") in He.
    rewrite <-(sapp_assoc (str_nat l)), <-!(sapp_assoc "-"), <-!(sapp_assoc m), <-!(sapp_assoc m') in He. apply sapp_inv_r in He.
    change "-async" with ("-" +:+ "async") in He. rewrite <-!sapp_assoc in He. rewrite !(sapp_assoc _ "-") in He.
    change ("-" +:+ ?x) with (String "-" x) in He. apply split_last in He as [_ Hk]; [|done|apply digits_no_dash].
    pose proof (str_nat_digits l') as Hd. by rewrite <-Hk in Hd. }
  assert (Hend : forall m l m' l' t, (exists t', t = t' +:+ "n") -> m +:+ "-" +:+ str_nat l +:+ "-async-stderr" = m' +:+ "-" +:+ str_nat l' +:+ t -> False).
  { intros m l m' l' t [t' ->] He. change "-async-stderr" with ("-async-stder" +:+ "r") in He. rewrite <-!sapp_assoc in He.
    apply (f_equal last_char) in He. by rewrite !last_char_app in He. }
  assert (Hn : (exists t', "-async.json" = t' +:+ "n") /\ exists t', ".json" = t' +:+ "n") by (split; [by exists "-async.jso"|by exists ".jso"]).
  unfold suffixes in Hs, Hs'. rewrite !elem_of_cons, elem_of_nil in Hs, Hs'.
  destruct Hs as [->|[->|[->|[]]]], Hs' as [->|[->|[->|[]]]];
    first [ destruct Hstem as [-> ->]; [reflexivity|done] | exfalso; naive_solver ].
Qed.

(** ** Lemmas: what a step changes *)

Definition option_list {A} (o : option A) : list A := match o with Some a => [a] | None => [] end.
(** The names of the files of a job *)
Definition names_of (s : fio) (j : nat) : list string :=
  option_list (output_filename (job_at s j)) ++ option_list (stderr_filename (job_at s j)).

(** The same hosts and numbers of runs *)
Definition same_counts (s s' : fio) : Prop :=
  same_core (f_world s) (f_world s') /\ forall h, fio_count s' h = fio_count s h.
(** The same names of files, too *)
Definition same_names (s s' : fio) : Prop := same_counts s s' /\ forall j, names_of s' j = names_of s j.
(** One more run on [h] *)
Definition one_more_run (h : nat) (s s' : fio) : Prop :=
  same_core (f_world s) (f_world s') /\
  (forall h', fio_count s' h' = if decide (h' = h) then S (fio_count s h) else fio_count s h') /\
  forall j, names_of s' j = names_of s j.

#[export] Instance same_counts_preorder : PreOrder same_counts.
Proof.
  split; [by intros s|]. intros a b c [H1 H2] [H3 H4]. split; [by etransitivity|]. intros h. by rewrite H4, H2.
Qed.
#[export] Instance same_names_preorder : PreOrder same_names.
Proof.
  split; [by intros s|]. intros a b c [H1 H2] [H3 H4]. split; [by etransitivity|]. intros h. by rewrite H4, H2.
Qed.
Lemma same_then_counted h s s1 s' : same_names s s1 -> one_more_run h s1 s' -> one_more_run h s s'.
Proof.
  intros [[H1 H2] H3] (H4 & H5 & H6). split_and!; [by etransitivity|..].
  - intros h'. by rewrite H5, !H2.
  - intros j. by rewrite H6, H3.
Qed.

(** A computation that counts one run on [h] when it succeeds and none otherwise *)
Definition counts {A} (h : nat) (m : M fio A) : Prop :=
  forall s, match m s with (Ok _, s') => one_more_run h s s' | (Raise _, s') => same_names s s' end.

Section steps.
Context `{SshServer} (g : globals) (job_name : string).

Lemma counts_bind {A B} h (m : M fio A) (f : A -> M fio B) :
  keeps same_names m -> (forall a, counts h (f a)) -> counts h (m ≫= f).
Proof.
  intros Hm Hf s. specialize (Hm s). mred. destruct (m s) as [[a|e] s1]; [|exact Hm].
  specialize (Hf a s1). destruct (f a s1) as [[b|e] s'].
  - by eapply same_then_counted.
  - by transitivity s1.
Qed.
Lemma counts_count_run h : counts h (count_run h).
Proof. intros s. by split_and!. Qed.
Lemma counts_count_ret {A} h (a : A) : counts h (count_run h ;;; mret a).
Proof. intros s. by split_and!. Qed.

Lemma keeps_on_f_world {A} (m : M world A) : keeps same_core m -> keeps same_names (on_f_world m).
Proof. intros Hm s. specialize (Hm (f_world s)). unfold on_f_world, zoom. by destruct (m (f_world s)) as [r w]. Qed.
Lemma keeps_write_log name content : keeps same_names (write_log name content).
Proof. by intros s. Qed.
Lemma keeps_set_job (R : fio -> fio -> Prop) j f :
  (forall s, same_counts s (snd (set_job j f s)) -> R s (snd (set_job j f s))) -> keeps R (set_job j f).
Proof. intros HR s. by apply HR. Qed.
Lemma names_of_set s j f j' :
  (forall b, output_filename (f b) = output_filename b /\ stderr_filename (f b) = stderr_filename b) ->
  names_of (snd (set_job j f s)) j' = names_of s j'.
Proof.
  intros Hf. unfold names_of, job_at. cbn. destruct (decide (j = j')) as [->|Hne].
  - rewrite list_lookup_alter_eq. destruct (jobs s !! j') as [b|]; [|done]. cbn. by destruct (Hf b) as [-> ->].
  - by rewrite list_lookup_alter_ne.
Qed.
Lemma keeps_names_set j f :
  (forall b, output_filename (f b) = output_filename b /\ stderr_filename (f b) = stderr_filename b) ->
  keeps same_names (set_job j f).
Proof. intros Hf. apply keeps_set_job. intros s Hs. split; [done|]. intros j'. by apply names_of_set. Qed.


(** One bind at a time, with the lemmas above for the parts *)
Ltac solve_fio :=
  repeat first
    [ apply counts_count_run | apply counts_count_ret
    | apply counts_bind; [|intros ?]
    | apply keeps_bind; [exact _| |intros ?]
    | apply keeps_ret; exact _ | apply keeps_raise; exact _ | apply keeps_get; exact _ | apply keeps_lift; exact _
    | apply keeps_write_log | apply keeps_names_set; done
    | apply keeps_on_f_world; first [apply keeps_device | apply keeps_node_run_out | apply keeps_node_run | apply keeps_core_on_env]
    | case_match ].

(** [start] after it has set the names of the files *)
Lemma start_counts j a b s :
  let x := node_info (f_world s) (job_node s j) in
  let h := n_host (node_at (f_world s) (job_node s j)) in
  let names := [fio_file_name (h_name x) (fio_count s h) "-async.json"; fio_file_name (h_name x) (fio_count s h) "-async-stderr"] in
  match start g job_name j a b s with
  | (Ok _, s') => exists s1, same_counts s s1 /\ one_more_run h s1 s' /\ (names_of s1 j = names \/ names_of s1 j = [])
  | (Raise _, s') => same_counts s s' /\ (names_of s' j = names \/ names_of s' j = [])
  end.
Proof.
  intros x h names. unfold start. rewrite (bind_ok get _ s s s) by done. fold x h.
  erewrite bind_ok by reflexivity. erewrite bind_ok by reflexivity. set (s2 := Fio _ _ _ _).
  assert (H2 : same_counts s s2) by (split; [done|intros h'; done]).
  assert (Hn : names_of s2 j = names \/ names_of s2 j = []).
  { unfold names_of, job_at, s2. cbn. rewrite !list_lookup_alter_eq. destruct (jobs s !! j); [by left|by right]. }
  clearbody s2. match goal with |- match ?m s2 with _ => _ end => assert (Hc : counts h m) by solve_fio; specialize (Hc s2); destruct (m s2) as [[u|e] s'] end.
  - by exists s2.
  - destruct Hc as [Hc Hj]. split; [by transitivity s2|by rewrite Hj].
Qed.
Lemma fio_file_counts h filename ba kw : counts h (fio_file h filename ba kw).
Proof. unfold fio_file. solve_fio. Qed.
Lemma wait_same j : keeps same_names (wait g job_name j).
Proof. unfold wait. solve_fio. Qed.
Lemma is_running_same j : keeps same_names (is_running g job_name j).
Proof. unfold is_running. solve_fio. Qed.
Lemma kill_jobs_same j : keeps same_names (kill_jobs g job_name j).
Proof. unfold kill_jobs. solve_fio. Qed.
Lemma stop_same j : keeps same_names (stop g job_name j).
Proof. unfold stop. solve_fio. Qed.
Lemma get_write_kib_same j : keeps same_names (get_write_kib j).
Proof. unfold get_write_kib. solve_fio. Qed.
End steps.

(** ** Runs of operations *)

Inductive fio_op :=
| OpNew (v : nat)
| OpStart (j : nat) (fio_arg_str fio_base_args : string)
| OpIsRunning (j : nat)
| OpWait (j : nat)
| OpKillJobs (j : nat)
| OpStop (j : nat)
| OpWriteKib (j : nat)
| OpFioFile (h : nat) (filename : string) (base_args kwargs : dict string string).

Section ops.
Context `{SshServer} (g : globals) (job_name : string).

(** An operation, and the names that a run of fio forms for its files, also
    when it fails *)
Definition fio_step (o : fio_op) : M fio unit :=
  match o with
  | OpNew v => let* _ := new_busy_write v in mret tt
  | OpStart j a b => start g job_name j a b
  | OpIsRunning j => let* _ := is_running g job_name j in mret tt
  | OpWait j => wait g job_name j
  | OpKillJobs j => kill_jobs g job_name j
  | OpStop j => stop g job_name j
  | OpWriteKib j => let* _ := get_write_kib j in mret tt
  | OpFioFile h f b k => let* _ := fio_file h f b k in mret tt
  end.
Definition names_formed (o : fio_op) (s s' : fio) : list string :=
  match o with
  | OpStart j _ _ => names_of s' j
  | OpFioFile h _ _ _ => [fio_file_name (h_name (info (host_at (f_world s) h))) (fio_count s h) ".json"]
  | _ => []
  end.
(** A sequence of operations, of which any may fail: for each one whether it
    ended well, and the names it has formed *)
Fixpoint fio_run (ops : list fio_op) (s : fio) : list (bool * list string) * fio :=
  match ops with
  | [] => ([], s)
  | o :: ops =>
      let '(r, s1) := fio_step o s in
      let '(runs, s2) := fio_run ops s1 in
      ((is_ok r, names_formed o s s1) :: runs, s2)
  end.

(** Hosts with names of their own, and operations on hosts that exist *)
Definition hosts_wf (w : world) : Prop :=
  (forall h h', h < length (w_hosts w) -> h' < length (w_hosts w) ->
     h_name (info (host_at w h)) = h_name (info (host_at w h')) -> h = h') /\
  forall n, n_host (node_at w n) < length (w_hosts w).
Definition op_ok (hosts : nat) (o : fio_op) : Prop := match o with OpFioFile h _ _ _ => h < hosts | _ => True end.

Definition taken (s : fio) (x : string) : Prop :=
  exists h k sf, h < length (w_hosts (f_world s)) /\ k < fio_count s h /\ sf ∈ suffixes /\
    x = fio_file_name (h_name (info (host_at (f_world s) h))) k sf.
Definition names_inv (hosts : nat) (s : fio) (names : list string) : Prop :=
  length (w_hosts (f_world s)) = hosts /\ hosts_wf (f_world s) /\ NoDup names /\ forall x, x ∈ names -> taken s x.

Lemma same_core_hosts w w' : same_core w w' ->
  length (w_hosts w') = length (w_hosts w) /\ (forall h, info (host_at w' h) = info (host_at w h)) /\
  forall n, n_host (node_at w' n) = n_host (node_at w n).
Proof.
  intros Hc. split_and!.
  - apply (f_equal (fun w => length (w_hosts w))) in Hc. cbn in Hc. by rewrite !length_map in Hc.
  - intros h. apply (f_equal (fun w => info (host_at w h))) in Hc. by rewrite !core_host in Hc.
  - intros n. apply (f_equal (fun w => n_host (node_at w n))) in Hc. by rewrite !core_node in Hc.
Qed.
Lemma hosts_wf_core w w' : same_core w w' -> hosts_wf w -> hosts_wf w'.
Proof.
  intros (Hl & Hi & Hn)%same_core_hosts [H1 H2]. split.
  - intros h h'. rewrite Hl, !Hi. apply H1.
  - intros n. rewrite Hl, Hn. apply H2.
Qed.
Lemma taken_mono s s' x : same_core (f_world s) (f_world s') -> (forall h, fio_count s h <= fio_count s' h) ->
  taken s x -> taken s' x.
Proof.
  intros (Hl & Hi & _)%same_core_hosts Hc (h & k & sf & Hh & Hk & Hs & ->). exists h, k, sf.
  rewrite Hl, Hi. split_and!; [done| |done..]. specialize (Hc h). lia.
Qed.

Lemma inv_same N s s' names : same_counts s s' -> names_inv N s names -> names_inv N s' names.
Proof.
  intros [Hc Hn] (HN & Hw & Hd & Ht). split_and!; [by rewrite (proj1 (same_core_hosts _ _ Hc))|by eapply hosts_wf_core|done|]. intros x Hx.
  eapply taken_mono; [done| |by apply Ht]. intros h. by rewrite Hn.
Qed.
Lemma inv_counted N h s s' names new : h < length (w_hosts (f_world s)) -> names_inv N s names -> one_more_run h s s' -> NoDup new ->
  (forall x, x ∈ new -> exists sf, sf ∈ suffixes /\ x = fio_file_name (h_name (info (host_at (f_world s) h))) (fio_count s h) sf) ->
  names_inv N s' (names ++ new).
Proof.
  intros Hh (HN & Hw & Hd & Ht) (Hc & Hn & _) Hnew Hx. split_and!; [by rewrite (proj1 (same_core_hosts _ _ Hc))|by eapply hosts_wf_core| |].
  - apply NoDup_app. split_and!; [done| |done]. intros x Hin Hin'. destruct (Ht x Hin) as (h' & k & sf & Hh' & Hk & Hs & ->).
    destruct (Hx _ Hin') as (sf' & Hs' & Heq). apply fio_file_name_inj in Heq as (He & -> & _); [|done..].
    apply Hw in He; [|done..]. subst h'. lia.
  - intros x [Hin|Hin]%elem_of_app.
    + eapply taken_mono; [done| |by apply Ht]. intros h'. rewrite Hn. case_decide; subst; lia.
    + destruct (Hx _ Hin) as (sf & Hs & ->). destruct (same_core_hosts _ _ Hc) as (Hl & Hi & _).
      exists h, (fio_count s h), sf. rewrite Hl, Hi, Hn, decide_True by done. split_and!; [done|lia|done..].
Qed.

(** What is formed from the present number of runs is new. *)
Lemma new_names N h s names l : h < length (w_hosts (f_world s)) -> names_inv N s names ->
  let name sf := fio_file_name (h_name (info (host_at (f_world s) h))) (fio_count s h) sf in
  l = [] \/ l = [name "-async.json"; name "-async-stderr"] \/ l = [name ".json"] ->
  NoDup l /\ (forall x, x ∈ l -> x ∉ names) /\ forall x, x ∈ l -> exists sf, sf ∈ suffixes /\ x = name sf.
Proof.
  intros Hh (HN & Hw & Hd & Ht) name Hl.
  assert (Hsf : forall x, x ∈ l -> exists sf, sf ∈ suffixes /\ x = name sf).
  { intros x Hx. destruct Hl as [->|[->| ->]]; rewrite ?elem_of_cons, ?elem_of_nil in Hx; unfold suffixes;
      [done|destruct Hx as [->|[->|[]]]|destruct Hx as [->|[]]]; eexists; (split; [|reflexivity]); set_solver. }
  split_and!; [|intros x Hx Hin|done].
  - destruct Hl as [->|[->| ->]]; [constructor| |apply NoDup_singleton]. apply NoDup_cons. split; [|apply NoDup_singleton].
    intros Heq%list_elem_of_singleton. apply fio_file_name_inj in Heq as (_ & _ & Heq); [done|by left|by right; left].
  - destruct (Hsf x Hx) as (sf & Hs & ->). destruct (Ht _ Hin) as (h' & k & sf' & Hh' & Hk & Hs' & Heq).
    apply fio_file_name_inj in Heq as (He & <- & _); [|done..]. apply Hw in He; [|done..]. subst h'. lia.
Qed.
Lemma new_same v : keeps same_names (new_busy_write v).
Proof.
  intros s. split; [by split|]. intros j. unfold names_of, job_at. cbn.
  destruct (decide (j < length (jobs s))) as [Hj|Hj]; [by rewrite lookup_app_l|].
  rewrite lookup_app_r, (lookup_ge_None_2 (jobs s) j) by lia. by destruct (j - length (jobs s)) as [|k].
Qed.
(** The names of the runs that ended well are kept; a run that fails forms
    none of them. *)
Lemma step_inv N o s names : op_ok N o -> names_inv N s names ->
  let '(r, s') := fio_step o s in
  let new := names_formed o s s' in
  NoDup new /\ (forall x, x ∈ new -> x ∉ names) /\ names_inv N s' (names ++ if is_ok r then new else []).
Proof.
  intros Hok Hinv.
  assert (Hquiet : forall {A} (m : M fio A), keeps same_names m ->
    let '(r, s') := (let* _ := m in mret tt) s in NoDup (A := string) [] /\ (forall x : string, x ∈ [] -> x ∉ names) /\ names_inv N s' (names ++ if is_ok r then [] else [])).
  { intros A m Hm. specialize (Hm s). mred.
    destruct (m s) as [[a|e] s']; cbn [is_ok]; rewrite app_nil_r; (split_and!; [constructor|by intros x ?%elem_of_nil|]; eapply inv_same; [apply Hm|exact Hinv]). }
  assert (Hquiet' : forall (m : M fio unit), keeps same_names m ->
    let '(r, s') := m s in NoDup (A := string) [] /\ (forall x : string, x ∈ [] -> x ∉ names) /\ names_inv N s' (names ++ if is_ok r then [] else [])).
  { intros m Hm. specialize (Hquiet unit m Hm). revert Hquiet. mred. by destruct (m s) as [[[]|e] s']. }
  destruct o as [v|j a b|j|j|j|j|j|h f b k]; cbn [fio_step op_ok names_formed] in *.
  - apply Hquiet, new_same.
  - pose proof (start_counts g job_name j a b s) as Hs. cbv zeta in Hs. set (h := n_host (node_at (f_world s) (job_node s j))) in *.
    assert (Hh : h < length (w_hosts (f_world s))) by apply (proj1 (proj2 Hinv)).
    assert (Hnew : forall l, (l = [fio_file_name (h_name (node_info (f_world s) (job_node s j))) (fio_count s h) "-async.json";
        fio_file_name (h_name (node_info (f_world s) (job_node s j))) (fio_count s h) "-async-stderr"] \/ l = []) ->
      NoDup l /\ (forall x, x ∈ l -> x ∉ names) /\ forall x, x ∈ l -> exists sf, sf ∈ suffixes /\ x = fio_file_name (h_name (info (host_at (f_world s) h))) (fio_count s h) sf).
    { intros l Hl. apply (new_names N h s names l Hh Hinv). destruct Hl as [->| ->]; [|by left]. by right; left. }
    destruct (start g job_name j a b s) as [[[]|e] s']; cbn [is_ok].
    + destruct Hs as (s1 & H1 & H2 & Hn). rewrite (proj2 (proj2 H2)). destruct (Hnew _ Hn) as (N1 & N2 & N3). split_and!; [done|done|].
      pose proof (inv_same _ _ _ _ H1 Hinv) as Hinv1. destruct H1 as [Hc1 Hn1]. destruct (same_core_hosts _ _ Hc1) as (Hl & Hi & _).
      eapply inv_counted; [|exact Hinv1|exact H2|done|]; [by rewrite Hl|]. intros x Hx. rewrite Hi, Hn1. by apply N3.
    + destruct Hs as [H1 Hn]. destruct (Hnew _ Hn) as (N1 & N2 & _). split_and!; [done|done|]. rewrite app_nil_r. by eapply inv_same.
  - apply Hquiet, is_running_same.
  - apply Hquiet', wait_same.
  - apply Hquiet', kill_jobs_same.
  - apply Hquiet', stop_same.
  - apply Hquiet, get_write_kib_same.
  - pose proof (fio_file_counts h f b k s) as Hc. assert (Hh : h < length (w_hosts (f_world s))) by (rewrite (proj1 Hinv); exact Hok).
    destruct (new_names N h s names [fio_file_name (h_name (info (host_at (f_world s) h))) (fio_count s h) ".json"] Hh Hinv) as (N1 & N2 & N3); [by right; right|].
    mred. destruct (fio_file h f b k s) as [[x|e] s']; cbn [is_ok]; (split_and!; [done|done|]).
    + by eapply inv_counted.
    + rewrite app_nil_r. eapply inv_same; [apply Hc|done].
Qed.
(** Later runs form neither the names that are kept nor those of one another. *)
Lemma never_again N ops s names : Forall (op_ok N) ops -> names_inv N s names ->
  let runs := fst (fio_run ops s) in
  (forall j ok later x, runs !! j = Some (ok, later) -> x ∈ names -> x ∉ later) /\
  forall i new, runs !! i = Some (true, new) ->
    NoDup new /\ forall j ok later x, i < j -> runs !! j = Some (ok, later) -> x ∈ new -> x ∉ later.
Proof.
  intros Hops. revert s names. induction Hops as [|o ops Ho _ IH]; intros s names Hinv; [by split|]. cbn [fio_run].
  pose proof (step_inv N o s names Ho Hinv) as Hs. destruct (fio_step o s) as [r s1]. cbv zeta in Hs. destruct Hs as (Hnd & Hnew & Hinv1).
  destruct (IH s1 _ Hinv1) as [IH1 IH2]. destruct (fio_run ops s1) as [runs s2]. cbn [fst] in *. split.
  - intros [|j] ok later x Hj Hx; cbn in Hj; [injection Hj as <- <-; intros Hl; by apply (Hnew x)|].
    eapply IH1; [exact Hj|]. apply elem_of_app. by left.
  - intros [|i] new Hi; cbn in Hi.
    + injection Hi as Hok <-. split; [done|]. intros [|j] ok later x Hlt Hj Hx; [lia|]. eapply IH1; [exact Hj|].
      rewrite Hok. apply elem_of_app. by right.
    + destruct (IH2 i new Hi) as [H1 H2]. split; [done|]. intros [|j] ok later x Hlt Hj; [lia|]. eapply H2; [|exact Hj]. lia.
Qed.
End ops.

(** ** Lemmas: reading the output *)

Lemma from_brace_app p t : scontains "{" p = false -> from_brace (p +:+ String "{" t) = Some (String "{" t).
Proof.
  induction p as [|c p IH]; intros Hp; [done|]. cbn in Hp. apply orb_false_iff in Hp as [Hc Hp].
  apply bool_decide_eq_false in Hc. rewrite sapp_cons. cbn. rewrite decide_False by congruence. by apply IH.
Qed.

Section waits.
Context `{SshServer} (g : globals) (job_name : string).
Lemma wp_world {A} (m : M world A) (Q : A -> fio -> Prop) s : keeps same_core m ->
  (forall a w, same_core (f_world s) w -> Q a (Fio w (fio_count s) (log_files s) (jobs s))) ->
  wp (on_f_world m) Q (fun _ _ => True) s.
Proof. intros Hm HQ. specialize (Hm (f_world s)). unfold wp, on_f_world, zoom. destruct (m (f_world s)) as [[a|e] w]; [by apply HQ|done]. Qed.
Lemma wp_out n cmd out w0 w (Q : string -> fio -> Prop) s : f_world s = w ->
  (forall log, ssh log (sent_run (node_info w0 n) cmd) = Ok (0%Z, out)) -> same_core w0 w ->
  (forall w', same_core w w' -> Q (strip out) (Fio w' (fio_count s) (log_files s) (jobs s))) ->
  wp (on_f_world (node_run_out g job_name n cmd)) Q (fun _ _ => True) s.
Proof.
  intros <- Hans Hc HQ. unfold wp, on_f_world, zoom. pose proof (keeps_node_run_out g job_name n cmd (f_world s)) as Hk.
  assert (Ho : forall t w', node_run_out g job_name n cmd (f_world s) = (Ok t, w') -> t = strip out).
  { intros t w' Hr. eapply node_run_out_answer; [|exact Hr]. intros log. by rewrite (core_node_info w0). }
  destruct (node_run_out _ _ _ _ _) as [[t|e] w']; [|done]. rewrite (Ho t w' eq_refl). by apply HQ.
Qed.
End waits.

(** ** Properties *)

(** C27: through any sequence of operations, runs of fio in the foreground and in
    the background, waits, stops and failures, the names of the files of a run
    that ends well are never formed again by a later run, on any host and
    whether this one fails or not; its own names differ. *)
Theorem fio_files_are_never_reused `{SshServer} g job_name ops s :
  hosts_wf (f_world s) -> Forall (op_ok (length (w_hosts (f_world s)))) ops ->
  let runs := fst (fio_run g job_name ops s) in
  forall i names, runs !! i = Some (true, names) ->
    NoDup names /\ forall j ok later x, i < j -> runs !! j = Some (ok, later) -> x ∈ names -> x ∉ later.
Proof.
  intros Hw Hops runs. set (N := length (w_hosts (f_world s))) in *.
  destruct (never_again g job_name N ops s []) as [_ Hr]; [done| |exact Hr].
  split_and!; [done|done|constructor|]. by intros x ?%elem_of_nil.
Qed.

(** when a run in the background has ended, its results are what fio
    printed, whatever messages came before the JSON text: [wait] keeps them in
    the log directory, [get_write_kib] reads the amount written from them, and
    the process is forgotten. *)
Theorem busy_write_reports_what_fio_wrote `{SshServer} g job_name j s s' b out_name err_name out messages members rest first w kib :
  let result := JObj members in
  jobs s !! j = Some b -> output_filename b = Some out_name -> stderr_filename b = Some err_name -> out_name <> err_name ->
  (forall log, ssh log (sent_run (node_info (f_world s) (job_node s j)) ["cat"; "/tmp/" +:+ out_name]) = Ok (0%Z, out)) ->
  strip out = messages +:+ dumps result -> scontains "{" messages = false -> json_wf result ->
  json_key "jobs" result = Ok (JList (first :: rest)) -> json_key "write" first = Ok w -> json_key "io_kbytes" w = Ok kib ->
  wait g job_name j s = (Ok tt, s') ->
  get_write_kib j s' = (Ok kib, s') /\ fio_pid (job_at s' j) = None /\ log_files s' !! out_name = Some (dumps result).
Proof.
  intros result Hb Ho He Hne Hans Hout Hm Hwf Hj Hf Hw Hrun.
  assert (Hja : job_at s j = b) by (unfold job_at; by rewrite Hb).
  assert (Hslice : slice_from_brace (strip out) = dumps result).
  { rewrite Hout. unfold slice_from_brace, result. cbn [dumps]. change ("{" +:+ ?x) with (String "{" x). by rewrite from_brace_app. }
  assert (Hgoal : jobs s' !! j = Some (Job (j_volume b) None (Some (dumps result)) (Some out_name) (Some err_name)) /\
                  log_files s' !! out_name = Some (dumps result)).
  2: { destruct Hgoal as [Hj' Hl]. assert (Hja' : job_at s' j = Job (j_volume b) None (Some (dumps result)) (Some out_name) (Some err_name)).
       { unfold job_at. by rewrite Hj'. }
       split_and!; [|by rewrite Hja'|done]. unfold get_write_kib. rewrite (bind_ok get _ s' s' s') by done. rewrite Hja'. cbn [fio_out_str].
       unfold lift. mred. rewrite loads_dumps by done. rewrite Hj. cbn [json_index]. rewrite (py_index_nat _ 0). cbn. by rewrite Hf, Hw. }
  pattern s'. eapply (wp_elim _ _ (fun _ _ => True)); [|exact Hrun]. unfold wait. apply wp_bind, wp_get. rewrite Hja.
  set (n := job_node s j) in *. apply wp_bind, wp_world; [apply keeps_node_run|]. intros [] w1 H1.
  apply wp_bind, wp_modify, wp_bind. rewrite Ho, He. apply wp_ret.
  apply wp_bind. eapply wp_out; [|exact Hans|exact H1|]; [reflexivity|]. intros w2 H2. cbn [f_world].
  apply wp_bind, wp_modify, wp_bind, wp_modify, wp_bind, wp_ret, wp_bind, wp_world; [apply keeps_node_run_out|]. intros err w3 H3.
  apply wp_modify. cbn. rewrite lookup_insert_ne by congruence. rewrite lookup_insert_eq, Hslice. split; [|done].
  rewrite !list_lookup_alter_eq, Hb. cbn. by rewrite Ho, He.
Qed.

(** ** Witnesses *)

Definition demo_fio : fio := Fio (demo_config_world EmptyString) (fun _ => 0) ∅ [].
Lemma demo_hosts_wf : hosts_wf (f_world demo_fio).
Proof.
  split.
  - intros h h' Hh Hh'. change (length (w_hosts (f_world demo_fio))) with 2 in *. destruct h as [|[|h]], h' as [|[|h']]; (lia || done).
  - intros [|[|n]]; vm_compute; lia.
Qed.

Definition demo_result : list (string * json) := [("fio version", JStr "3.1"); ("jobs", JList [JObj [("write", JObj [("io_kbytes", JNum "4096")])]])].
Definition demo_out : string := "note: both iodepth >= 1 and synchronous I/O" +:+ newline +:+ dumps (JObj demo_result).
#[local] Instance demo_server : SshServer := fun _ s =>
  Ok (0%Z, if bool_decide (s_command s = "cat /tmp/fio-a-0-async.json") then demo_out else "4242" +:+ newline).
Definition demo_ops : list fio_op := [OpNew 0; OpNew 0; OpStart 0 EmptyString default_base_args; OpStart 1 EmptyString default_base_args; OpWait 0].

Lemma fio_files_are_never_reused_witness :
  let runs := fst (fio_run demo_globals "job" demo_ops demo_fio) in
  runs !! 2 = Some (true, ["fio-a-0-async.json"; "fio-a-0-async-stderr"]) /\
  forall ok later x, runs !! 3 = Some (ok, later) -> x ∈ ["fio-a-0-async.json"; "fio-a-0-async-stderr"] -> x ∉ later.
Proof.
  intros runs. assert (Hi : runs !! 2 = Some (true, ["fio-a-0-async.json"; "fio-a-0-async-stderr"])) by (vm_compute; reflexivity).
  split; [exact Hi|]. intros ok later x. apply (fio_files_are_never_reused demo_globals "job" demo_ops demo_fio) with (i := 2); [| |exact Hi|lia].
  - exact demo_hosts_wf.
  - apply Forall_forall. intros o Ho. unfold demo_ops in Ho. rewrite !elem_of_cons, elem_of_nil in Ho.
    by destruct Ho as [->|[->|[->|[->|[->|[]]]]]].
Defined.

(** A run in the foreground whose output cannot be read has written its file,
    but is not counted: the next run writes to the same file. *)
Example unreadable_run_is_overwritten :
  let server : SshServer := fun _ _ => Ok (0%Z, "fio: failed") in
  let '(runs, s) := @fio_run server demo_globals "job" [OpFioFile 0 "/tmp/x" [] []; OpFioFile 0 "/tmp/y" [] []] demo_fio in
  runs = [(false, ["fio-a-0.json"]); (false, ["fio-a-0.json"])] /\ log_files s !! "fio-a-0.json" = Some "fio: failed" /\ fio_count s 0 = 0.
Proof. vm_compute. by split_and!. Qed.

Lemma busy_write_reports_what_fio_wrote_witness :
  let s := snd (fio_run demo_globals "job" [OpNew 0; OpStart 0 EmptyString default_base_args] demo_fio) in
  let s' := snd (wait demo_globals "job" 0 s) in
  get_write_kib 0 s' = (Ok (JNum "4096"), s').
Proof.
  intros s s'.
  apply (busy_write_reports_what_fio_wrote demo_globals "job" 0 s s' (default no_job (jobs s !! 0)) "fio-a-0-async.json"
    "fio-a-0-async-stderr" demo_out ("note: both iodepth >= 1 and synchronous I/O" +:+ newline) demo_result [] 
    (JObj [("write", JObj [("io_kbytes", JNum "4096")])]) (JObj [("io_kbytes", JNum "4096")]) (JNum "4096")).
  all: try (vm_compute; reflexivity).
  - discriminate.
  - split; [apply (bool_decide_unpack _); vm_compute; exact I|]. cbn. split_and!; try done; repeat constructor; by intros ?%elem_of_nil.
Defined.
