(* ===== verification/Metadata.v ===== *)
(** * Metadata and state of the volumes (src/python/drbdtest.py)

    Setting the generation identifiers of a peer, reading them from memory and
    from the disk, and the other values that are read from the output of a
    command; resizing a volume, suspending its device and injecting faults. *)

From S2P Require Import Prelude PyStr Dict Json OrderedSet Host Disktools World Config Collections Cluster Lifecycle Platform.

(** ** Flags *)

Inductive metadata_flag :=
| CONSISTENT | PRIMARY_IND | WAS_UP_TO_DATE | CRASHED_PRIMARY | AL_CLEAN | AL_DISABLED | PRIMARY_LOST_QUORUM
| PEER_CONNECTED | PEER_OUTDATED | PEER_FENCING | PEER_FULL_SYNC | PEER_DEVICE_SEEN | NODE_EXISTS | HAVE_BITMAP.
#[export] Instance metadata_flag_eq_dec : EqDecision metadata_flag.
Proof. solve_decision. Defined.
(** [auto()] gives the powers of two, in order. *)
Definition flag_value (f : metadata_flag) : Z :=
  Z.shiftl 1
    match f with
    | CONSISTENT => 0 | PRIMARY_IND => 1 | WAS_UP_TO_DATE => 2 | CRASHED_PRIMARY => 3 | AL_CLEAN => 4 | AL_DISABLED => 5
    | PRIMARY_LOST_QUORUM => 6 | PEER_CONNECTED => 7 | PEER_OUTDATED => 8 | PEER_FENCING => 9 | PEER_FULL_SYNC => 10
    | PEER_DEVICE_SEEN => 11 | NODE_EXISTS => 12 | HAVE_BITMAP => 13
    end.
(** [f1 | f2 | ...], and [flag in flags]; without flags, as with the empty
    list that is the default, no flag is in. *)
Definition flags_or (l : list metadata_flag) : Z := foldl (fun z f => Z.lor z (flag_value f)) 0%Z l.
Definition flag_in (f : metadata_flag) (flags : Z) : bool := (Z.land flags (flag_value f) =? flag_value f)%Z.

(** The flags that [set_gi] passes, in the order of [drbdmeta] *)
Definition gi_flags : list metadata_flag :=
  [CONSISTENT; WAS_UP_TO_DATE; PRIMARY_IND; CRASHED_PRIMARY; AL_CLEAN; AL_DISABLED; PRIMARY_LOST_QUORUM;
   PEER_CONNECTED; PEER_OUTDATED; PEER_FENCING; PEER_FULL_SYNC; PEER_DEVICE_SEEN].
Definition flag_val (flags_set flags_unset : Z) (f : metadata_flag) : string :=
  if flag_in f flags_set then "1" else if flag_in f flags_unset then "0" else EmptyString.
Record gi := Gi {
  current_uuid : option string;
  bitmap_uuid : option string;
  history_uuid_0 : option string;
  history_uuid_1 : option string;
  flags_set : Z;
  flags_unset : Z
}.
Definition empty_if_none (o : option string) : string := default EmptyString o.
Definition gi_values (x : gi) : list string :=
  map empty_if_none [current_uuid x; bitmap_uuid x; history_uuid_0 x; history_uuid_1 x] ++
  map (flag_val (flags_set x) (flags_unset x)) gi_flags.

(** ** Values in texts *)

(** The first match of [re.compile(r'Executing tid: (\d+)').search], as a number *)
Fixpoint search_tid (s : string) : option Z :=
  let here := match strip_prefix "Executing tid: " s with
              | Some r => match digits r with
                          | (EmptyString, _) => None
                          | (d, _) => match py_int d with Ok z => Some z | Raise _ => None end
                          end
              | None => None
              end in
  match here with
  | Some z => Some z
  | None => match s with String _ s' => search_tid s' | EmptyString => None end
  end.
(** [re.match(r'\s*agreed_pro_version: ([0-9]+)', s)] *)
Definition parse_protocol (s : string) : res Z :=
  match strip_prefix "agreed_pro_version: " (lstrip s) with
  | Some r => match digits r with
              | (EmptyString, _) => Raise (AttributeError "'NoneType' object has no attribute 'group'")
              | (d, _) => py_int d
              end
  | None => Raise (AttributeError "'NoneType' object has no attribute 'group'")
  end.
(** [_uuid_from_raw] *)
Definition uuid_from_raw (raw : string) : string :=
  upper match strip_prefix "0x" raw with
        | Some r => r
        | None => default raw (strip_prefix "0X" raw)
        end.
Definition uuid_of_json (j : json) : res string :=
  match j with
  | JStr raw => Ok (uuid_from_raw raw)
  | _ => Raise (AttributeError "object has no attribute 'startswith'")
  end.

(** The name of the device of a logical volume *)
Definition dm_escape (s : string) : string := replace "-"%char "--" s.
Definition dm_name (volume_group lv : string) : string := dm_escape volume_group +:+ "-" +:+ dm_escape lv.

Section metadata.
Context `{SshServer} (g : globals) (job helper : string).

Definition node_name_of (w : world) (n : nat) : string := r_name (resource_at w (node_resource w n)).

(** *** Generation identifiers *)

(** [set_gi]: the volume of this node is looked up by its number. *)
Definition set_gi (n peer_volume : nat) (x : gi) : M world unit :=
  let* w := get in
  let* vs := lift (node_volumes w n) in
  let* local := lift (coll_getitem (Z.of_nat (v_volume (volume_at w peer_volume))) vs) in
  node_run g job n
    ["drbdmeta"; str_nat (v_minor (volume_at w local)); "v09"; default "None" (disk (volume_at w local)); "internal";
     "--node-id=" +:+ str_nat (n_id (node_at w (v_node (volume_at w peer_volume)))); "--force";
     "set-gi"; join ":" (gi_values x)].

Definition get_gi (n peer_node volume_nr : nat) (i : Z) : M world string :=
  let* w := get in
  let* out := node_run_out g job n ["drbdsetup"; "get-gi"; node_name_of w n; str_nat (n_id (node_at w peer_node)); str_nat volume_nr] in
  lift (py_index (str_split ":" (strip out)) i).
Definition get_current_uuid (n peer_node volume_nr : nat) : M world string := get_gi n peer_node volume_nr 0.
Definition get_bitmap_uuid (n peer_node volume_nr : nat) : M world string := get_gi n peer_node volume_nr 1.

Definition dump_superblock (n v : nat) : M world json :=
  let* w := get in
  let* out := node_run_out g job n ["drbdmeta"; "--force"; "-"; "v09"; default "None" (disk (volume_at w v)); "internal";
                                    "dump-superblock"; "--output-format"; "json"] in
  lift (loads out).
Definition get_disk_current_uuid (n : nat) (volume_nr : Z) : M world string :=
  let* w := get in
  let* v := lift (py_index (n_disks (node_at w n)) volume_nr) in
  let* data := dump_superblock n v in
  let* raw := lift (json_key "current_uuid" data) in
  lift (uuid_of_json raw).
Definition get_disk_bitmap_uuid (n peer_node : nat) (volume_nr : Z) : M world string :=
  let* w := get in
  let* v := lift (py_index (n_disks (node_at w n)) volume_nr) in
  let* data := dump_superblock n v in
  let* peers := lift (json_key "peers" data) in
  let* peer := lift (json_index (Z.of_nat (n_id (node_at w peer_node))) peers) in
  let* raw := lift (json_key "bitmap_uuid" peer) in
  lift (uuid_of_json raw).

(** *** Other values *)

Definition twopc_tid (n : nat) : M world (option Z) :=
  let* w := get in
  let* text := node_run_out g job n ["cat"; "/sys/kernel/debug/drbd/resources/" +:+ node_name_of w n +:+ "/state_twopc"] in
  mret (search_tid text).
Definition protocol_version (c : nat * nat) : M world Z :=
  let* w := get in
  let* out := node_run_out g job (fst c)
    ["sh"; "-c"; "grep agreed_pro_version: /sys/kernel/debug/drbd/resources/" +:+ node_name_of w (fst c) +:+
                 "/connections/" +:+ node_name w (snd c) +:+ "*/debug"] in
  lift (parse_protocol out).
Definition protocol_versions (cs : list (nat * nat)) : M world (list Z) := map_each cs protocol_version.

(** *** Volumes *)

Definition disk_size (v : nat) : M world Z :=
  let* w := get in
  let* out := node_run_out g job (v_node (volume_at w v)) ["blockdev"; "--getsize64"; default "None" (disk (volume_at w v))] in
  lift (py_int (strip out)).
Definition resize_disk (v : nat) (size : string) : M world unit :=
  let* w := get in
  match disk_volume (volume_at w v) with
  | Some d => on_env (Disktools.resize (node_info w (v_node (volume_at w v))) size d)
  | None => raise (AttributeError "'NoneType' object has no attribute 'resize'")
  end.
Definition zero_cmd (disk_path : string) (old_size length : Z) : list string :=
  ["blkdiscard"; "-z"; "--offset"; str_int old_size; "--length"; str_int length; disk_path].
(** [Volume.resize] *)
Definition volume_resize (v : nat) (size : string) (zero_out : bool) : M world unit :=
  let* w := get in
  if zero_out then
    let* old_size := disk_size v in
    resize_disk v size ;;;
    let* new_size := disk_size v in
    when (new_size - old_size >? 0)%Z
      (node_run g job (v_node (volume_at w v)) (zero_cmd (default "None" (disk (volume_at w v))) old_size (new_size - old_size)))
  else resize_disk v size.
Definition volumes_resize (vs : list nat) (size : string) (zero_out : bool) : M world unit :=
  let* w := get in
  for_each (filter (fun v => has_disk w v = true) vs) (fun v => volume_resize v size zero_out).
Definition volume_snapshot (v : nat) (name_ext : string) : M world string :=
  let* w := get in
  match disk_volume (volume_at w v) with
  | Some d => on_env (snapshot (node_info w (v_node (volume_at w v))) name_ext d)
  | None => raise (AttributeError "'NoneType' object has no attribute 'snapshot'")
  end.
Definition volumes_snapshot (vs : list nat) (name_ext : string) : M world (list string) :=
  let* w := get in
  map_each (filter (fun v => has_disk w v = true) vs) (fun v => volume_snapshot v name_ext).

(** [dmsetup], for a volume whose disk has been made *)
Definition dmsetup (v : nat) (cmd : string) : M world unit :=
  let* w := get in
  let n := v_node (volume_at w v) in
  node_run g job n
    ["dmsetup"; cmd; dm_name (h_volume_group (node_info w n)) (node_name_of w n +:+ "-disk" +:+ str_nat (v_volume (volume_at w v)))].
Definition volumes_dmsetup (vs : list nat) (cmd : string) : M world unit := for_each vs (fun v => dmsetup v cmd).
Definition new_current_uuid (vs : list nat) : M world unit :=
  for_each vs (fun v =>
    let* w := get in
    let n := v_node (volume_at w v) in
    drbdadm g job n ["new-current-uuid"; node_name_of w n +:+ "/" +:+ str_nat (v_volume (volume_at w v))]).
Definition volumes_new_minor (vs : list nat) : M world unit :=
  for_each vs (fun v =>
    let* w := get in
    let n := v_node (volume_at w v) in
    drbdadm g job n ["new-minor"; node_name_of w n +:+ "/" +:+ str_nat (v_volume (volume_at w v))]).

Definition fault_devs (minor : nat) : Z := Z.shiftl 1 (Z.of_nat minor).
Definition set_fault_injection (n v : nat) (faults : Z) : M world unit :=
  let* w := get in
  on_env (run_helper (node_info w n) helper "enable-faults"
    ["--faults=" +:+ str_int faults; "--rate=100"; "--devs=" +:+ str_int (fault_devs (v_minor (volume_at w v)))]).
Definition disable_fault_injection (n v : nat) : M world unit :=
  let* w := get in
  on_env (run_helper (node_info w n) helper "disable-faults" ["--devs=" +:+ str_int (fault_devs (v_minor (volume_at w v)))]).

(** *** Connections and resources *)

(** [Connection.run_cmd], for each connection *)
Definition run_cmd (cs : list (nat * nat)) (args : list string) : M world unit :=
  for_each cs (fun c =>
    let* w := get in
    drbdadm g job (fst c) (args ++ [node_name_of w (fst c) +:+ ":" +:+ h_hostname (node_info w (snd c))])).
Definition pause_sync (c : nat * nat) : M world unit := run_cmd [c] ["pause-sync"].
Definition resume_sync (c : nat * nat) : M world unit := run_cmd [c] ["resume-sync"].
Definition dump_md_to_file (n : nat) (filename : string) : M world unit :=
  let* w := get in
  node_run g job n ["/bin/bash"; "-c"; "drbdadm -c " +:+ drbd_global_config_file_path job (node_info w n) +:+ " dump-md " +:+
                                       node_name_of w n +:+ " > " +:+ filename].
(** The text of [args] on all nodes of a resource *)
Definition log_sync_mark (r : nat) (args : list string) : M world unit :=
  let* w := get in
  for_each (items (r_nodes (resource_at w r))) (fun n =>
    node_run g job n ["bash"; "-c"; "echo " +:+ dquoted "== " +:+ " " +:+ shlex_quote (join " " args) +:+ " > /dev/kmsg"]).
End metadata.

(** ** Lemmas: flags *)

Definition flag_bit (f : metadata_flag) : Z := Z.log2 (flag_value f).
Lemma flag_bit_value f : flag_value f = Z.shiftl 1 (flag_bit f) /\ (0 <= flag_bit f)%Z.
Proof. by destruct f. Qed.
Lemma flag_bit_inj f f' : flag_bit f = flag_bit f' -> f = f'.
Proof. destruct f, f'; (reflexivity || discriminate). Qed.

Lemma testbit_flag f i : (0 <= i)%Z -> Z.testbit (flag_value f) i = bool_decide (i = flag_bit f).
Proof.
  intros Hi. destruct (flag_bit_value f) as [-> Hb]. rewrite Z.shiftl_spec by done. case_bool_decide as Hd.
  - by rewrite Hd, Z.sub_diag.
  - destruct (decide (i < flag_bit f)%Z); [by apply Z.testbit_neg_r; lia|].
    replace (i - flag_bit f)%Z with (Z.succ (i - flag_bit f - 1)) by lia. apply Z.bits_above_log2; [done|]. change (Z.log2 1) with 0%Z. lia.
Qed.
Lemma flag_in_spec f flags : flag_in f flags = Z.testbit flags (flag_bit f).
Proof.
  assert (Hb := proj2 (flag_bit_value f)). unfold flag_in. destruct (Z.testbit flags (flag_bit f)) eqn:Ht.
  - apply Z.eqb_eq, Z.bits_inj'. intros i Hi. rewrite Z.land_spec, testbit_flag by done. case_bool_decide; [subst; by rewrite Ht|by rewrite andb_false_r].
  - apply Z.eqb_neq. intros Heq. apply (f_equal (fun z => Z.testbit z (flag_bit f))) in Heq.
    rewrite Z.land_spec, testbit_flag, Ht, bool_decide_true in Heq by done. done.
Qed.
Lemma flag_in_or f l : flag_in f (flags_or l) = bool_decide (f ∈ l).
Proof.
  rewrite flag_in_spec. unfold flags_or.
  assert (Hgen : forall z, Z.testbit (foldl (fun z f => Z.lor z (flag_value f)) z l) (flag_bit f) = Z.testbit z (flag_bit f) || bool_decide (f ∈ l)).
  { induction l as [|f' l IH]; intros z; cbn [foldl]; [by rewrite bool_decide_false, orb_false_r by by intros ?%elem_of_nil|].
    rewrite IH, Z.lor_spec, testbit_flag, <-orb_assoc by apply flag_bit_value. f_equal.
    destruct (decide (f = f')) as [->|Hne]; [rewrite (bool_decide_true (flag_bit f' = flag_bit f')), (bool_decide_true (f' ∈ f' :: l)) by (done || by left); done|].
    rewrite (bool_decide_false (_ = _)) by (by intros ?%flag_bit_inj). cbn [orb]. apply bool_decide_ext. set_solver. }
  by rewrite Hgen, Z.bits_0.
Qed.

Lemma flag_val_plain s u f : scontains ":" (flag_val s u f) = false.
Proof. unfold flag_val. by repeat case_match. Qed.

(** ** Lemmas: names of the device mapper *)

Definition starts_with_dash (s : string) : bool := match s with String c _ => bool_decide (c = "-"%char) | EmptyString => false end.
Lemma dm_escape_cons c s : dm_escape (String c s) = (if decide ("-"%char = c) then "--" else String c EmptyString) +:+ dm_escape s.
Proof. done. Qed.
Lemma dm_escape_inj s t : dm_escape s = dm_escape t -> s = t.
Proof.
  revert t. induction s as [|c s IH]; intros [|d t] Heq; [done|..].
  - rewrite dm_escape_cons in Heq. by case_decide.
  - rewrite dm_escape_cons in Heq. by case_decide.
  - rewrite !dm_escape_cons in Heq. repeat case_decide; subst.
    + apply sapp_inv in Heq. f_equal. by apply IH.
    + injection Heq as Hc _. congruence.
    + injection Heq as Hc _. congruence.
    + rewrite !sapp_cons, !sapp_nil in Heq. injection Heq as -> Heq. f_equal. by apply IH.
Qed.
Lemma escape_no_dash s t : starts_with_dash s = false -> dm_escape s <> String "-"%char t.
Proof.
  destruct s as [|c s]; [done|]. cbn [starts_with_dash]. intros Hc%bool_decide_eq_false. rewrite dm_escape_cons, decide_False by congruence.
  rewrite sapp_cons. congruence.
Qed.
Lemma dm_name_inj vg lv vg' lv' : starts_with_dash lv = false -> starts_with_dash lv' = false ->
  dm_name vg lv = dm_name vg' lv' -> vg = vg' /\ lv = lv'.
Proof.
  intros Hl Hl'. unfold dm_name. change ("-" +:+ ?x) with (String "-" x). revert vg'. induction vg as [|c vg IH]; intros [|c' vg'] Heq.
  - injection Heq as Heq. split; [done|by apply dm_escape_inj].
  - exfalso. rewrite dm_escape_cons in Heq. case_decide as Hc.
    + injection Heq as Heq. by apply escape_no_dash in Heq.
    + rewrite !sapp_cons in Heq. injection Heq as Hx _. congruence.
  - exfalso. rewrite dm_escape_cons in Heq. case_decide as Hc.
    + injection Heq as Heq. symmetry in Heq. by apply escape_no_dash in Heq.
    + rewrite !sapp_cons in Heq. injection Heq as Hx _. congruence.
  - rewrite !dm_escape_cons in Heq. destruct (decide ("-"%char = c)) as [Hc|Hc], (decide ("-"%char = c')) as [Hc'|Hc'].
    + rewrite !sapp_assoc in Heq. apply sapp_inv in Heq. destruct (IH _ Heq) as [-> ->]. by subst.
    + rewrite !sapp_cons in Heq. injection Heq as Hx _. congruence.
    + rewrite !sapp_cons in Heq. injection Heq as Hx _. congruence.
    + rewrite !sapp_cons, !sapp_nil in Heq. injection Heq as -> Heq. destruct (IH _ Heq) as [-> ->]. done.
Qed.

(** ** Lemmas: hexadecimal numbers *)

Lemma upper_lower_digit n : (0 <= n < 16)%Z -> to_upper (to_lower (hex_digit n)) = hex_digit n.
Proof.
  intros Hn. assert (Hin : n ∈ map Z.of_nat (seq 0 16)) by (apply list_elem_of_fmap; exists (Z.to_nat n); split; [lia|apply elem_of_seq; lia]).
  revert n Hn Hin. assert (Hall : Forall (fun n => to_upper (to_lower (hex_digit n)) = hex_digit n) (map Z.of_nat (seq 0 16))).
  { repeat (apply List.Forall_cons; [vm_compute; reflexivity|]). apply List.Forall_nil. }
  rewrite Forall_forall in Hall. intros n _ Hin. by apply Hall.
Qed.
Lemma upper_lower_hex_go fuel width n acc : (0 <= n)%Z -> upper (lower acc) = acc ->
  upper (lower (hex_go fuel width n acc)) = hex_go fuel width n acc.
Proof.
  revert width n acc. induction fuel as [|fuel IH]; intros width n acc Hn Ha; [done|]. cbn [hex_go]. case_match; [done|].
  apply IH; [apply Z.div_pos; lia|]. unfold upper, lower in *. cbn [smap]. rewrite upper_lower_digit, Ha; [done|]. by apply Z.mod_pos_bound.
Qed.
Lemma upper_lower_hex width n : (0 <= n)%Z -> upper (lower (hex width n)) = hex width n.
Proof. intros Hn. by apply upper_lower_hex_go. Qed.
(** A raw identifier, as [drbdmeta] writes it, in the form of [drbdsetup] *)
Lemma uuid_from_raw_hex width n : (0 <= n)%Z -> uuid_from_raw ("0x" +:+ lower (hex width n)) = hex width n.
Proof. intros Hn. unfold uuid_from_raw. by rewrite strip_prefix_app, upper_lower_hex. Qed.

(** ** Properties *)

(** the text for [set-gi] splits into sixteen fields: the identifiers that
    were given, and for each flag, in the order of [drbdmeta], [1] when it is
    to be set, [0] when it is to be unset, and nothing when it stays. *)
Theorem set_gi_passes_each_field x to_set to_unset :
  let uuids := map empty_if_none [current_uuid x; bitmap_uuid x; history_uuid_0 x; history_uuid_1 x] in
  Forall (fun u => scontains ":" u = false) uuids ->
  flags_set x = flags_or to_set -> flags_unset x = flags_or to_unset ->
  str_split ":" (join ":" (gi_values x)) =
    uuids ++ map (fun f => if decide (f ∈ to_set) then "1" else if decide (f ∈ to_unset) then "0" else EmptyString) gi_flags /\
  length (gi_values x) = 16 /\ NoDup gi_flags.
Proof.
  intros uuids Hu Hs Hn. split_and!; [|done|apply (bool_decide_unpack _); vm_compute; exact I].
  rewrite split_join; [|done|].
  - unfold gi_values. fold uuids. f_equal. apply map_ext. intros f. unfold flag_val. rewrite Hs, Hn, !flag_in_or. by repeat case_decide; repeat case_bool_decide.
  - apply Forall_app. split; [exact Hu|]. apply Forall_forall. intros v (f & -> & _)%list_elem_of_fmap. apply flag_val_plain.
Qed.

(** the identifiers on the disk are given in the form that [drbdsetup] has
    for those in memory, and the one for a peer is found at its node id. *)
Theorem disk_uuids_are_read `{SshServer} g job n peer (volume_nr : nat) v w members peers entry out k m r w' :
  n_disks (node_at w n) !! volume_nr = Some v ->
  (forall log, ssh log (sent_run (node_info w n) ["drbdmeta"; "--force"; "-"; "v09"; default "None" (disk (volume_at w v)); "internal";
                                                 "dump-superblock"; "--output-format"; "json"]) = Ok (0%Z, out)) ->
  strip out = dumps (JObj members) -> json_wf (JObj members) -> (0 <= k)%Z -> (0 <= m)%Z ->
  json_key "current_uuid" (JObj members) = Ok (JStr ("0x" +:+ lower (hex 16 k))) ->
  json_key "peers" (JObj members) = Ok (JList peers) -> peers !! n_id (node_at w peer) = Some entry ->
  json_key "bitmap_uuid" entry = Ok (JStr ("0x" +:+ lower (hex 16 m))) ->
  (get_disk_current_uuid g job n (Z.of_nat volume_nr) w = (Ok r, w') -> r = hex 16 k) /\
  (get_disk_bitmap_uuid g job n peer (Z.of_nat volume_nr) w = (Ok r, w') -> r = hex 16 m).
Proof.
  intros Hv Hans Hout Hwf Hk Hm Hcur Hpeers Hpeer Hbit.
  assert (Hdump : forall j w1, dump_superblock g job n v w = (Ok j, w1) -> j = JObj members).
  { intros j w1. unfold dump_superblock. rewrite (bind_ok get _ w w w) by done. mred.
    destruct (node_run_out _ _ _ _ w) as [[t|e] w2] eqn:Hr; [|done]. apply (node_run_out_answer _ _ _ _ out) in Hr as ->; [|done].
    rewrite Hout, loads_dumps by done. cbn. by intros [= <- _]. }
  unfold get_disk_current_uuid, get_disk_bitmap_uuid. rewrite !(bind_ok get _ w w w) by done. unfold lift. mred. rewrite py_index_nat, Hv. cbn [res_of_option].
  destruct (dump_superblock g job n v w) as [[j|e] w1] eqn:Hd; [|done]. rewrite (Hdump j w1) by done. rewrite Hcur, Hpeers.
  cbn [json_index]. rewrite py_index_nat, Hpeer. cbn [res_of_option]. rewrite Hbit. unfold uuid_of_json. rewrite !uuid_from_raw_hex by done.
  split; by intros [= <- _].
Qed.

(** the names of the device mapper are different for different logical
    volumes, as long as the names of these do not begin with a dash. *)
Theorem dm_names_are_distinct vg lv vg' lv' : starts_with_dash lv = false -> starts_with_dash lv' = false ->
  (dm_name vg lv = dm_name vg' lv' <-> vg = vg' /\ lv = lv').
Proof. intros Hl Hl'. split; [by apply dm_name_inj|by intros [-> ->]]. Qed.

(** A disk of a host, after the commands that were sent: its size and its bytes *)
Class Disk := {
  disk_bytes : list sent -> Z;
  disk_byte : list sent -> Z -> Z
}.
(** What [blockdev] and [blkdiscard -z] do to the disk at [path] *)
Record DiskLaws `{SshServer} `{Disk} (x : host_info) (path : string) : Prop := {
  law_getsize : forall log out, ssh log (sent_run x ["blockdev"; "--getsize64"; path]) = Ok (0%Z, out) ->
    strip out = str_int (disk_bytes log) /\ (0 <= disk_bytes log)%Z /\
    disk_bytes (log ++ [sent_run x ["blockdev"; "--getsize64"; path]]) = disk_bytes log /\
    forall i, disk_byte (log ++ [sent_run x ["blockdev"; "--getsize64"; path]]) i = disk_byte log i;
  law_zero : forall log off len out, ssh log (sent_run x (zero_cmd path off len)) = Ok (0%Z, out) ->
    disk_bytes (log ++ [sent_run x (zero_cmd path off len)]) = disk_bytes log /\
    forall i, disk_byte (log ++ [sent_run x (zero_cmd path off len)]) i =
      if decide (off <= i < off + len)%Z then 0%Z else disk_byte log i
}.

Section resize.
Context `{SshServer} (g : globals) (job : string).

(** Once the configuration is written, [Node.run] is [Host.run]. *)
Lemma node_run_unchanged n cmd w : config_changed (node_at w n) = false ->
  node_run g job n cmd w = on_env (run (node_info w n) cmd) w.
Proof. intros Hc. unfold node_run, update_config, when, gets. mred. cbn [get]. by rewrite Hc. Qed.
Lemma node_run_out_unchanged n cmd w : config_changed (node_at w n) = false ->
  node_run_out g job n cmd w = on_env (run_out (node_info w n) cmd) w.
Proof. intros Hc. unfold node_run_out, update_config, when, gets. mred. cbn [get]. by rewrite Hc. Qed.

Lemma disk_size_ok `{Disk} v w w' z :
  let x := node_info w (v_node (volume_at w v)) in
  let path := default "None" (disk (volume_at w v)) in
  config_changed (node_at w (v_node (volume_at w v))) = false -> DiskLaws x path ->
  disk_size g job v w = (Ok z, w') ->
  z = disk_bytes (sent_log (w_env w)) /\ w' = put_env (push (sent_run x ["blockdev"; "--getsize64"; path]) (w_env w)) w /\
  disk_bytes (sent_log (w_env w')) = z /\ forall i, disk_byte (sent_log (w_env w')) i = disk_byte (sent_log (w_env w)) i.
Proof.
  intros x path Hc HL. unfold disk_size. rewrite (bind_ok get _ w w w) by done. mred. rewrite node_run_out_unchanged by done.
  fold x path. unfold on_env, zoom. rewrite run_out_answer.
  destruct (ssh _ _) as [[c o]|e] eqn:Ha; [|done]. destruct (c =? 0)%Z eqn:Hcode; [|done]. apply Z.eqb_eq in Hcode as ->.
  destruct (law_getsize _ _ HL _ _ Ha) as (Hs & Hpos & Hb & Hy). cbn. rewrite strip_idem, Hs.
  assert (Hp : py_int (str_int (disk_bytes (sent_log (w_env w)))) = Ok (disk_bytes (sent_log (w_env w)))).
  { rewrite <-(Z2Nat.id (disk_bytes _)) by done. apply py_int_str_nat. }
  rewrite Hp. by intros [= <- <-].
Qed.
Lemma resize_disk_env v size w r w' : resize_disk v size w = (r, w') -> exists e, w' = put_env e w.
Proof.
  unfold resize_disk. rewrite (bind_ok get _ w w w) by done. destruct (disk_volume _) as [d|]; [|intros [= _ <-]; exists (w_env w); by destruct w].
  unfold on_env, zoom. destruct (Disktools.resize _ _ _ _) as [r0 e]. intros [= _ <-]. by exists e.
Qed.
End resize.

(** C28: a volume that is resized with [zero_out] has zeros in the part that is
    new, and the rest of it is as the resizing of the disk left it. *)
Theorem resize_zeroes_the_new_part `{SshServer} `{Disk} g job v size w w' :
  let x := node_info w (v_node (volume_at w v)) in
  let path := default "None" (disk (volume_at w v)) in
  config_changed (node_at w (v_node (volume_at w v))) = false -> DiskLaws x path ->
  volume_resize g job v size true w = (Ok tt, w') ->
  let old_size := disk_bytes (sent_log (w_env w)) in
  exists w1 w2, resize_disk v size w1 = (Ok tt, w2) /\ sent_log (w_env w1) = sent_log (w_env w) ++ [sent_run x ["blockdev"; "--getsize64"; path]] /\
    let resized := sent_log (w_env w2) in
    disk_bytes (sent_log (w_env w')) = disk_bytes resized /\
    forall i, disk_byte (sent_log (w_env w')) i =
      if decide (old_size <= i < disk_bytes resized)%Z then 0%Z else disk_byte resized i.
Proof.
  intros x path Hc HL Hr old_size. unfold volume_resize in Hr. rewrite (bind_ok get _ w w w) in Hr by done. revert Hr. mred.
  destruct (disk_size g job v w) as [[old|e] w1] eqn:H1; [|done]. eapply disk_size_ok in H1 as (-> & Hw1 & Hb1 & Hy1); [|done|exact HL].
  destruct (resize_disk v size w1) as [[[]|e] w2] eqn:H2; [|done]. destruct (resize_disk_env _ _ _ _ _ H2) as [e2 Hw2].
  destruct (disk_size g job v w2) as [[new|e] w3] eqn:H3; [|done].
  eapply disk_size_ok in H3 as (-> & Hw3 & Hb3 & Hy3); [|by subst w2 w1|by subst w2 w1].
  intros Hz. exists w1, w2. split; [done|]. split; [by subst w1|]. cbn zeta. fold old_size in Hz. revert Hz.
  destruct (disk_bytes (sent_log (w_env w2)) - old_size >? 0)%Z eqn:Hgt; cbn [when].
  - rewrite node_run_unchanged by by subst w3 w2 w1. fold path. replace (node_info w3 (v_node (volume_at w v))) with x by by subst w3 w2 w1.
    unfold on_env, zoom. rewrite run_answer. destruct (ssh _ _) as [[c o]|e] eqn:Ha; [|done].
    destruct (c =? 0)%Z eqn:Hcode; [|done]. apply Z.eqb_eq in Hcode as ->. intros [= <-]. cbn [w_env push sent_log].
    destruct (law_zero _ _ HL _ _ _ _ Ha) as [Hb Hy]. rewrite Hb, Hb3. split; [done|]. intros i. rewrite Hy, Hy3.
    apply decide_ext. lia.
  - intros [= <-]. rewrite Hb3. split; [done|]. intros i. rewrite Hy3, decide_False; [done|]. lia.
Qed.

(** ** Witnesses *)

Definition demo_gi : gi := Gi (Some "B538C3C871A9B22E") None None None (flags_or [CONSISTENT; WAS_UP_TO_DATE]) (flags_or [PRIMARY_IND]).
Lemma set_gi_passes_each_field_witness :
  str_split ":" (join ":" (gi_values demo_gi)) =
    ["B538C3C871A9B22E"; EmptyString; EmptyString; EmptyString; "1"; "1"; "0"] ++ replicate 9 EmptyString.
Proof.
  destruct (set_gi_passes_each_field demo_gi [CONSISTENT; WAS_UP_TO_DATE] [PRIMARY_IND]) as [H _].
  - repeat constructor.
  - reflexivity.
  - reflexivity.
  - rewrite H. vm_compute. reflexivity.
Defined.

Definition demo_ready : world := World (w_env (demo_config_world EmptyString)) (w_hosts (demo_config_world EmptyString))
  (map (set_changed false) (w_nodes (demo_config_world EmptyString))) (w_volumes (demo_config_world EmptyString)) (w_resources (demo_config_world EmptyString)).
Definition demo_path : string := "/dev/scratch/r-disk0".

Module DemoDisk.
Definition query : sent := sent_run (node_info demo_ready 0) ["blockdev"; "--getsize64"; demo_path].
Definition zero : sent := sent_run (node_info demo_ready 0) (zero_cmd demo_path 10 10).
Definition grow : sent := sent_run (node_info demo_ready 0) ["lvresize"; "-L"; "20"; demo_path].
#[export] Instance sent_eq_dec : EqDecision sent.
Proof. solve_decision. Defined.
#[local] Instance disk : Disk := {|
  disk_bytes log := if decide (grow ∈ log) then 20%Z else 10%Z;
  disk_byte log i := if decide (zero ∈ log /\ (10 <= i < 20)%Z) then 0%Z else 7%Z
|}.
#[local] Instance server : SshServer := fun log s =>
  if decide (s = query) then Ok (0%Z, str_int (disk_bytes log))
  else if decide (s = zero \/ s = grow) then Ok (0%Z, EmptyString) else Ok (1%Z, EmptyString).

Lemma laws : DiskLaws (node_info demo_ready 0) demo_path.
Proof.
  split.
  - intros log out. fold query. unfold ssh, server. rewrite decide_True by done. intros [= <-].
    assert (Hin : forall s, s <> query -> (s ∈ log ++ [query] <-> s ∈ log)) by set_solver.
    cbn. split_and!.
    + by destruct (decide (grow ∈ log)).
    + by destruct (decide (grow ∈ log)).
    + rewrite (decide_ext (grow ∈ log ++ [query]) (grow ∈ log)); [done|]. by apply Hin.
    + intros i. rewrite (decide_ext (zero ∈ log ++ [query] /\ (10 <= i < 20)%Z) (zero ∈ log /\ (10 <= i < 20)%Z)); [done|]. by rewrite Hin.
  - intros log off len out. unfold ssh, server. set (s := sent_run _ _).
    assert (Hs : s = zero -> off = 10%Z /\ len = 10%Z).
    { intros Heq. apply (f_equal (fun s => sh_words (s_command s))) in Heq. unfold s, zero, sent_run in Heq. cbn [s_command] in Heq.
      rewrite !command_words in Heq by done. injection Heq as Ho Hl. split; by apply (inj str_int). }
    assert (Hne : s <> query /\ s <> grow).
    { split; intros Heq; apply (f_equal (fun s => sh_words (s_command s))) in Heq; unfold s, query, grow, sent_run in Heq; cbn [s_command] in Heq;
        rewrite !command_words in Heq by done; discriminate. }
    rewrite decide_False by apply Hne. destruct (decide (s = zero \/ s = grow)) as [[Hz|Hg]|]; [|by destruct Hne|done].
    destruct (Hs Hz) as [-> ->]. rewrite Hz. intros _. cbn. split.
    + rewrite (decide_ext (grow ∈ log ++ [zero]) (grow ∈ log)); [done|]. assert (grow <> zero) by done. set_solver.
    + intros i. destruct (decide (10 <= i < 20)%Z) as [Hi|Hi].
      * rewrite !decide_True; [done|lia|set_solver].
      * rewrite !decide_False; [done|lia|tauto|tauto].
Qed.

Lemma resize_zeroes_the_new_part_witness :
  let w' := snd (volume_resize demo_globals "job" 0 "20" true demo_ready) in
  disk_byte (sent_log (w_env w')) 9 = 7%Z /\ disk_byte (sent_log (w_env w')) 15 = 0%Z.
Proof.
  intros w'.
  destruct (resize_zeroes_the_new_part demo_globals "job" 0 "20" demo_ready w') as (w1 & w2 & _ & _ & _ & Hb).
  - reflexivity.
  - exact laws.
  - vm_compute. reflexivity.
  - split; vm_compute; reflexivity.
Defined.
End DemoDisk.

Lemma dm_names_are_distinct_witness : dm_name "vg-a" "r-disk0" <> dm_name "vg" "a-r-disk0".
Proof.
  intros H. apply (dm_names_are_distinct "vg-a" "r-disk0" "vg" "a-r-disk0" eq_refl eq_refl) in H. destruct H as [H _]. discriminate H.
Defined.

Definition demo_members : list (string * json) :=
  [("current_uuid", JStr ("0x" +:+ lower (hex 16 3054)));
   ("peers", JList [JObj [("bitmap_uuid", JStr ("0x" +:+ lower (hex 16 0)))]; JObj [("bitmap_uuid", JStr ("0x" +:+ lower (hex 16 171)))]])].
#[local] Instance demo_server : SshServer := fun _ s => Ok (0%Z, dumps (JObj demo_members)).
Lemma demo_members_wf : json_wf (JObj demo_members).
Proof.
  split; [apply (bool_decide_unpack _); vm_compute; exact I|]. cbn. split_and!; try done; repeat constructor; by intros ?%elem_of_nil.
Qed.
Lemma disk_uuids_are_read_witness :
  fst (get_disk_bitmap_uuid demo_globals "job" 0 1 0 demo_ready) = Ok "00000000000000AB".
Proof.
  destruct (get_disk_bitmap_uuid demo_globals "job" 0 1 0 demo_ready) as [[r|e] w'] eqn:Hr.
  - cbn. f_equal.
    refine (proj2 (disk_uuids_are_read demo_globals "job" 0 1 0 0 demo_ready demo_members
      [JObj [("bitmap_uuid", JStr ("0x" +:+ lower (hex 16 0)))]; JObj [("bitmap_uuid", JStr ("0x" +:+ lower (hex 16 171)))]]
      (JObj [("bitmap_uuid", JStr ("0x" +:+ lower (hex 16 171)))]) (dumps (JObj demo_members)) 3054 171 r w'
      _ _ _ _ _ _ _ _ _ _) Hr).
    + reflexivity.
    + reflexivity.
    + vm_compute. reflexivity.
    + exact demo_members_wf.
    + lia.
    + lia.
    + reflexivity.
    + reflexivity.
    + reflexivity.
    + reflexivity.
  - exfalso. vm_compute in Hr. discriminate Hr.
Defined.
