(* ===== verification/Members.v ===== *)
(** * Single objects and their parts (src/python/drbdtest.py)

    The methods of one node, volume, connection or peer device, most of which
    are those of a collection with one member; the look-up of volumes and peer
    devices by the number of the volume; and the identity of connections and
    peer devices. *)

From S2P Require Import Prelude PyStr Dict OrderedSet Host Disktools World Config Collections Cluster.
From S2P Require Import ConfigFiles HeapTypes Firewall Lifecycle Metadata Platform.
From Stdlib Require Import QArith.
#[local] Open Scope nat_scope.

(** ** Look-ups *)

Section lookups.
Context (w : world).

Definition members (r : nat) : list nat := items (r_nodes (resource_at w r)).
(** [Resource.volumes_by_vnr] *)
Definition volumes_by_vnr (r vnr : nat) : res (oset nat) :=
  let* vs := nodes_volumes w (members r) in
  coll_init (volume_resource w) (filter (fun v => v_volume (volume_at w v) = vnr) (items vs)).
(** [Node.volume_by_vnr]: [next] of a generator that may be empty *)
Definition volume_by_vnr (n vol_nr : nat) : res nat :=
  let* vs := volumes_by_vnr (node_resource w n) vol_nr in
  match filter (fun v => v_node (volume_at w v) = n) (items vs) with
  | v :: _ => Ok v
  | [] => Raise StopIteration
  end.
(** [Volumes.get_diskless] *)
Definition volumes_diskless (vs : list nat) : res (oset nat) :=
  coll_init (volume_resource w) (filter (fun v => disk (volume_at w v) = None) vs).

Definition pd_resource (p : peer_device) : nat := connection_resource (node_resource w) (fst p).
(** [Node.get_peer_devices] *)
Definition node_peer_devices (n : nat) : res (oset peer_device) :=
  let '(r, s) := for_each (elems (n_connections (node_at w n))) (fun c =>
    for_each (n_disks (node_at w n)) (fun v => coll_add pd_resource (c, v))) os_empty in
  let* _ := r in Ok s.
Definition resource_peer_devices (r : nat) : res (oset peer_device) :=
  let* pds := map_res (members r) node_peer_devices in coll_property pd_resource items pds.
Definition peer_devices_by_vnr (r vnr : nat) : res (oset peer_device) :=
  let* pds := resource_peer_devices r in
  coll_init pd_resource (filter (fun p => v_volume (volume_at w (snd p)) = vnr) (items pds)).
Definition node_peer_devices_by_vnr (n vol_nr : nat) : res (oset peer_device) :=
  let* pds := peer_devices_by_vnr (node_resource w n) vol_nr in
  coll_init pd_resource (filter (fun p => v_node (volume_at w (snd p)) = n) (items pds)).
(** [PeerDevice.diskful] *)
Definition diskful (p : peer_device) : res bool :=
  let vol_nr := v_volume (volume_at w (snd p)) in
  let '(node1, node2) := fst p in
  let* v1 := volume_by_vnr node1 vol_nr in
  if decide (disk_volume (volume_at w v1) = None) then Ok false
  else
    let* v2 := volume_by_vnr node2 vol_nr in
    Ok (bool_decide (disk_volume (volume_at w v2) <> None)).
End lookups.

(** ** Methods of one object *)

Section methods.
Context `{SshServer} `{EventScanner} (g : globals) (job : string).

(** *** Nodes *)

Definition node_up (n : nat) (extra_options : list string) : M life unit := nodes_up g job [n] extra_options.
Definition node_up_wait (n : nat) (extra_options : list string) : M life unit := node_up n extra_options.
Definition node_down (n : nat) : M life unit := nodes_down g job [n].
Definition node_attach (n : nat) : M life unit :=
  let* vs := look (fun w => node_volumes w n) in volumes_attach g job (items vs).
Definition node_detach (n : nat) (force : bool) : M life unit :=
  let* vs := look (fun w => node_volumes w n) in volumes_detach g job (items vs) force.
Definition node_new_resource (n : nat) : M life unit := new_resource_cmd g job [n].
Definition node_new_minor (n : nat) : M life unit := new_minor g job [n].
Definition node_new_peer (n : nat) : M life unit := new_peer g job [n].
Definition node_resource_options (n : nat) (opts : list string) : M life unit := resource_options g job [n] opts.
(** [Nodes.peer_device_options] without its arguments *)
Definition node_peer_device_options (n : nat) : M life unit := peer_device_options g job [n] [].
Definition node_new_path (n : nat) (peer : option (nat * Z)) : M life unit := new_path g job [n] peer.
Definition node_del_path (n : nat) (peer : option (nat * Z)) : M life unit := del_path g job [n] peer.
Definition node_up_unconnected (n : nat) : M life unit := up_unconnected g job [n].
Definition node_event (n : nat) (yes : list string) : M life unit := nodes_event [n] yes.
Definition nodes_adjust (ns : list nat) : M life unit := for_each ns (adjust g job).
Definition resource_up (r : nat) (extra_options : list string) : M life unit :=
  let* ns := resource_nodes r in nodes_up g job ns extra_options.

(** *** Volumes *)

Definition volume_event (v : nat) (yes : list string) : M life unit := volumes_wait [v] yes.
Definition volume_attach (v : nat) : M life unit := volumes_attach g job [v].
Definition volume_detach (v : nat) (force : bool) : M life unit := volumes_detach g job [v] force.
Definition volume_suspend (v : nat) : M world unit := dmsetup g job v "suspend".
Definition volume_resume (v : nat) : M world unit := dmsetup g job v "resume".
Definition volume_name (w : world) (v : nat) : string :=
  r_name (resource_at w (volume_resource w v)) +:+ "/" +:+ str_nat (v_volume (volume_at w v)).
Definition volume_drbdadm (cmd : string) (v : nat) : M world unit :=
  let* w := get in drbdadm g job (v_node (volume_at w v)) [cmd; volume_name w v].
Definition volume_new_current_uuid (v : nat) : M world unit := volume_drbdadm "new-current-uuid" v.
Definition volume_new_minor (v : nat) : M world unit := volume_drbdadm "new-minor" v.

(** *** Connections *)

Definition connection_event (c : nat * nat) (yes : list string) : M life unit := connections_wait [c] yes.
Definition connection_connect (c : nat * nat) (wait : bool) (options : list string) : M life unit := connect g job [c] wait options.
Definition connection_disconnect (c : nat * nat) (wait force : bool) : M life unit := disconnect g job [c] wait force.
Definition connection_run_cmd (c : nat * nat) (args : list string) : M world unit :=
  let* w := get in
  drbdadm g job (fst c) (args ++ [r_name (resource_at w (connection_resource (node_resource w) c)) +:+ ":" +:+ h_hostname (node_info w (snd c))]).
(** [Node.connect] and [Node.disconnect] make the connection first. *)
Definition node_connect (n node : nat) : M life unit :=
  let* c := look (fun w => new_connection (node_resource w) n node) in connect g job [c] true [].
Definition node_disconnect (n node : nat) (wait : bool) : M life unit :=
  let* c := look (fun w => new_connection (node_resource w) n node) in disconnect g job [c] wait false.
Definition bidir_add (node1 node2 : nat) : M (world * oset (nat * nat)) unit := fun '(w, cs) =>
  let '(r, cs) := (let add a b := let* c := lift (new_connection (node_resource w) a b) in
                     coll_add (connection_resource (node_resource w)) c in
                   add node1 node2 ;;; add node2 node1) cs in
  (r, (w, cs)).
Definition connection_block (c : nat * nat) (net_number : Z) (jump_to : string) (lead_seconds : option Q) (for_seconds : option Z)
    (iptables_filter : list string) : M world unit :=
  block_path g job (fst c) (snd c) net_number jump_to lead_seconds for_seconds iptables_filter.
Definition connection_unblock (c : nat * nat) (net_number : Z) (jump_to : string) : M world unit :=
  unblock_path g job (fst c) (snd c) net_number jump_to.
Definition connections_block (cs : list (nat * nat)) (net_number : Z) (jump_to : string) (lead_seconds : option Q) (for_seconds : option Z)
    (iptables_filter : list string) : M world unit :=
  for_each cs (fun c => connection_block c net_number jump_to lead_seconds for_seconds iptables_filter).
Definition connections_unblock (cs : list (nat * nat)) (net_number : Z) (jump_to : string) : M world unit :=
  for_each cs (fun c => connection_unblock c net_number jump_to).

(** *** Peer devices *)

(** The text of a list of texts, which is one argument of the command *)
Definition list_text (l : list string) : string := repr_list (map repr_str l).
Definition peer_devices_options (pds : list peer_device) (opts : list string) : M world unit :=
  for_each pds (fun p =>
    let* w := get in
    let '(node0, node1) := fst p in
    drbdadm g job node0 ["peer-device-options"; r_name (resource_at w (pd_resource w p)) +:+ ":" +:+ h_hostname (node_info w node1); list_text opts]).
(** [self] is passed to a method that has it already. *)
Definition peer_device_verify (p : peer_device) (wait : bool) (options : list string) : M life unit :=
  raise (TypeError "PeerDevices.verify() takes from 1 to 3 positional arguments but 4 were given").
Definition peer_device_event (p : peer_device) (yes : list string) (timeout : option Z) : M life unit := peer_devices_wait [p] yes timeout.

(** ** The block of [AutoPromote]: whatever happens in the body, the end of the
    block is reached. *)
Definition auto_promote {A} (fuel n : nat) (body : platform -> option (res A * platform)) (s : platform) : option (res A * platform) :=
  match prepare_auto_promote g job fuel n s with
  | Some (Ok _, s) =>
      match body s with
      | Some (r, s) =>
          match cleanup_auto_demote g job fuel n s with
          | Some (Ok _, s) => Some (r, s)
          | Some (Raise e, s) => Some (Raise e, s)
          | None => None
          end
      | None => None
      end
  | Some (Raise e, s) => Some (Raise e, s)
  | None => None
  end.

(** [Host.install_file], of a file with this text *)
Definition install_file (h : host_info) (file target_path : string) : M env unit :=
  run_in h ["bash"; "-c"; "cat > " +:+ target_path] file.
End methods.

(** [Collection.__getattr__] and the call of its result: [attr] says of the
    attributes of the member class which are callable. *)
Definition call_each {S K} (class_name : string) (attr : string -> option bool) (call : K -> string -> M S unit) (ms : list K) (name : string) : M S unit :=
  match attr name with
  | Some true => for_each ms (fun m => call m name)
  | Some false => raise (AttributeError EmptyString)
  | None => raise (AttributeError ("type object '" +:+ class_name +:+ "' has no attribute '" +:+ name +:+ "'"))
  end.

(** [ensure] *)
Definition ensure {A} `{EqDecision A} (want have : A) : res unit :=
  if decide (want = have) then Ok tt else Raise (RuntimeError "assert trigger").

(** ** Lemmas: collections whose members all have one resource *)

Section one_resource.
Context {K T R : Type} `{EqDecision K} `{EqDecision R} `{!OrderedSetOps K T, !OrderedSetSpec K T}.
Context (resource : K -> R) (x : R).

Definition all_of (l : list K) : Prop := forall k, k ∈ l -> resource k = x.
Lemma all_of_shares l : all_of l -> shares resource l = true.
Proof. intros Hl. apply shares_spec. intros a b Ha Hb. by rewrite (Hl a), (Hl b). Qed.
Lemma coll_init_all l : all_of l -> exists s : T, coll_init resource l = Ok s /\ coll_wf resource s /\ forall k, k ∈ elems s <-> k ∈ l.
Proof using OrderedSetSpec0.
  intros Hl. destruct (coll_init_spec (T := T) resource l) as [(s & Hs & Hw & He & _)|[_ Hsh]]; [|by rewrite all_of_shares in Hsh].
  exists s. split_and!; [done..|]. intros k. rewrite He, aset_union_elem, elem_of_nil. tauto.
Qed.
Lemma all_of_app l l' : all_of l -> all_of l' -> all_of (l ++ l').
Proof. intros Hl Hl' k [Hk|Hk]%elem_of_app; auto. Qed.
Lemma add_all {A} (f : A -> K) xs (s : T) : coll_wf resource s -> all_of (elems s) -> all_of (map f xs) ->
  exists s', for_each xs (fun a => coll_add resource (f a)) s = (Ok tt, s') /\ coll_wf resource s' /\
    forall k, k ∈ elems s' <-> k ∈ elems s \/ k ∈ map f xs.
Proof using OrderedSetSpec0.
  revert s. induction xs as [|a xs IH]; intros s Hw Hs Hx.
  { exists s. cbn. split_and!; [done..|]. intros k. rewrite elem_of_nil. tauto. }
  cbn [for_each map] in *. mred. assert (Ha : resource (f a) = x) by (apply Hx; by left).
  rewrite coll_add_run, all_of_shares by (done || (apply all_of_app; [done|]; by intros k ->%list_elem_of_singleton)).
  destruct (spec_add (f a) s (proj1 Hw)) as [Hg He].
  assert (Hin : forall k, k ∈ elems (osAdd (f a) s) <-> k ∈ elems s \/ k = f a).
  { intros k. rewrite He, aset_add_elem. tauto. }
  destruct (IH (osAdd (f a) s)) as (s' & Hr & Hw' & Hs').
  - split; [done|]. apply all_of_shares. intros k [Hk| ->]%Hin; auto.
  - intros k [Hk| ->]%Hin; auto.
  - intros k Hk. apply Hx. by right.
  - exists s'. split; [done|]. split; [done|]. intros k. rewrite Hs', Hin, elem_of_cons. tauto.
Qed.
Lemma extend_all {J} (prop : J -> list K) ms (s : T) : coll_wf resource s -> all_of (elems s) -> (forall m, m ∈ ms -> all_of (prop m)) ->
  exists s', for_each ms (fun m => coll_extend resource (prop m)) s = (Ok tt, s') /\ coll_wf resource s' /\
    forall k, k ∈ elems s' <-> k ∈ elems s \/ exists m, m ∈ ms /\ k ∈ prop m.
Proof using OrderedSetSpec0.
  revert s. induction ms as [|m ms IH]; intros s Hw Hs Hp.
  { exists s. cbn. split_and!; [done..|]. intros k. setoid_rewrite elem_of_nil. naive_solver. }
  cbn [for_each]. mred. assert (Hm : all_of (prop m)) by (apply Hp; by left).
  rewrite coll_extend_run, all_of_shares by (done || by apply all_of_app).
  destruct (spec_update (prop m) s (proj1 Hw)) as [Hg He].
  assert (Hin : forall k, k ∈ elems (osUpdate (prop m) s) <-> k ∈ elems s \/ k ∈ prop m).
  { intros k. rewrite He, aset_union_elem. tauto. }
  destruct (IH (osUpdate (prop m) s)) as (s' & Hr & Hw' & Hs').
  - split; [done|]. apply all_of_shares. intros k [Hk|Hk]%Hin; auto.
  - intros k [Hk|Hk]%Hin; auto.
  - intros m' Hm'. apply Hp. by right.
  - exists s'. split; [done|]. split; [done|]. intros k. rewrite Hs', Hin. setoid_rewrite elem_of_cons. naive_solver.
Qed.
Lemma coll_property_all {J} (prop : J -> list K) ms : (forall m, m ∈ ms -> all_of (prop m)) ->
  exists s : T, coll_property resource prop ms = Ok s /\ coll_wf resource s /\ forall k, k ∈ elems s <-> exists m, m ∈ ms /\ k ∈ prop m.
Proof using OrderedSetSpec0.
  intros Hp. unfold coll_property. mred. destruct (coll_init_all []) as (s0 & Hr0 & Hw & He); [by intros k ?%elem_of_nil|].
  rewrite Hr0. destruct (extend_all prop ms s0 Hw) as (s & Hr & Hs & Hk); [by intros k Hk%He%elem_of_nil|done|]. rewrite Hr.
  exists s. split; [done|]. split; [done|]. intros k. rewrite Hk, He, elem_of_nil. naive_solver.
Qed.
End one_resource.

Lemma map_res_all {A B} (f : A -> res B) (P : A -> B -> Prop) l : (forall a, a ∈ l -> exists b, f a = Ok b /\ P a b) ->
  exists bs, map_res l f = Ok bs /\ Forall2 P l bs.
Proof.
  induction l as [|a l IH]; intros Hf; [by exists []|]. cbn [map_res]. mred. destruct (Hf a) as (b & -> & Hb); [by left|].
  destruct IH as (bs & -> & Hbs); [intros a' Ha; apply Hf; by right|]. exists (b :: bs). split; [done|by constructor].
Qed.

(** ** Lemmas: the volumes of a resource *)

Section resource.
Context (w : world) (r : nat) (Htyped : well_typed w) (Hwf : volumes_wf w r).

Lemma member_node n : n ∈ members w r -> n < length (w_nodes w) /\ node_resource w n = r /\
  forall i v, n_disks (node_at w n) !! i = Some v -> v_volume (volume_at w v) = i /\ v_node (volume_at w v) = n.
Proof using Htyped Hwf.
  intros Hn. destruct Hwf as (Hr & _ & Hall). destruct (wt_member w Htyped r n Hr Hn) as [Hlt Hres].
  destruct (Hall n Hn) as (_ & _ & _ & Hd). split_and!; [done|exact Hres|]. intros i v Hv. by destruct (Hd i v Hv) as (_ & ? & ?).
Qed.
Lemma member_disk n v : n ∈ members w r -> v ∈ n_disks (node_at w n) -> volume_resource w v = r /\ v_node (volume_at w v) = n /\
  n_disks (node_at w n) !! v_volume (volume_at w v) = Some v.
Proof using Htyped Hwf.
  intros Hn [i Hi]%list_elem_of_lookup. destruct (member_node n Hn) as (_ & Hr & Hd). destruct (Hd i v Hi) as [Hv Hnode].
  unfold volume_resource. rewrite Hnode, Hv. done.
Qed.
Lemma node_volumes_ok n : n ∈ members w r -> exists vs, node_volumes w n = Ok vs /\ forall v, v ∈ items vs <-> v ∈ n_disks (node_at w n).
Proof using Htyped Hwf.
  intros Hn. destruct (coll_init_all (T := oset nat) (volume_resource w) r (n_disks (node_at w n))) as (s & Hs & _ & He).
  - intros v Hv. by apply (member_disk n).
  - by exists s.
Qed.
Lemma resource_volumes_ok : exists vs, nodes_volumes w (members w r) = Ok vs /\
  forall v, v ∈ items vs <-> exists n, n ∈ members w r /\ v ∈ n_disks (node_at w n).
Proof using Htyped Hwf.
  unfold nodes_volumes. mred.
  destruct (map_res_all (node_volumes w) (fun n vs => forall v, v ∈ items vs <-> v ∈ n_disks (node_at w n)) (members w r)) as (vss & Hvss & Hall).
  { apply node_volumes_ok. }
  rewrite Hvss. assert (Hin : forall v, (exists vs, vs ∈ vss /\ v ∈ items vs) <-> exists n, n ∈ members w r /\ v ∈ n_disks (node_at w n)).
  { intros v. split.
    - intros (vs & [i Hi]%list_elem_of_lookup & Hv). destruct (Forall2_lookup_r _ _ _ _ _ Hall Hi) as (n & Hn & Heq).
      exists n. split; [by eapply list_elem_of_lookup_2|by apply Heq].
    - intros (n & [i Hi]%list_elem_of_lookup & Hv). destruct (Forall2_lookup_l _ _ _ _ _ Hall Hi) as (vs & Hvs & Heq).
      exists vs. split; [by eapply list_elem_of_lookup_2|by apply Heq]. }
  destruct (coll_property_all (T := oset nat) (volume_resource w) r items vss) as (s & Hs & _ & He).
  { intros vs Hvs v Hv. assert (Hex : exists vs, vs ∈ vss /\ v ∈ items vs) by by exists vs. apply Hin in Hex as (n & Hn & Hd). by apply (member_disk n). }
  exists s. split; [done|]. intros v. rewrite <-Hin. apply He.
Qed.
Lemma volumes_by_vnr_ok k : exists vs, volumes_by_vnr w r k = Ok vs /\
  forall v, v ∈ items vs <-> exists n, n ∈ members w r /\ n_disks (node_at w n) !! k = Some v.
Proof using Htyped Hwf.
  unfold volumes_by_vnr. mred. destruct resource_volumes_ok as (vs & -> & Hvs).
  destruct (coll_init_all (T := oset nat) (volume_resource w) r (filter (fun v => v_volume (volume_at w v) = k) (items vs))) as (s & -> & _ & He).
  { intros v [_ Hv]%list_elem_of_filter. apply Hvs in Hv as (n & Hn & Hd). by apply (member_disk n). }
  exists s. split; [done|]. intros v. transitivity (v ∈ elems s); [done|]. rewrite He, list_elem_of_filter, Hvs. split.
  - intros (<- & n & Hn & Hd). exists n. split; [done|]. by apply (member_disk n).
  - intros (n & Hn & Hk). split; [by apply (member_node n Hn)|]. exists n. split; [done|]. by eapply list_elem_of_lookup_2.
Qed.
Lemma volume_by_vnr_ok n k : n ∈ members w r ->
  volume_by_vnr w n k = match n_disks (node_at w n) !! k with Some v => Ok v | None => Raise StopIteration end.
Proof using Htyped Hwf.
  intros Hn. unfold volume_by_vnr. mred. destruct (member_node n Hn) as (_ & -> & Hd). destruct (volumes_by_vnr_ok k) as (vs & -> & Hvs).
  assert (Hin : forall v, v ∈ filter (fun v => v_node (volume_at w v) = n) (items vs) <-> n_disks (node_at w n) !! k = Some v).
  { intros v. rewrite list_elem_of_filter, Hvs. split.
    - intros (Hnode & m & Hm & Hk). destruct (member_node m Hm) as (_ & _ & Hdm). destruct (Hdm k v Hk) as [_ Heq]. congruence.
    - intros Hk. split; [by destruct (Hd k v Hk)|by exists n]. }
  destruct (filter _ (items vs)) as [|v l].
  - destruct (n_disks (node_at w n) !! k) as [v|] eqn:Hk; [|done]. by destruct (proj1 (elem_of_nil v) (proj2 (Hin v) eq_refl)).
  - assert (Hk : n_disks (node_at w n) !! k = Some v) by (apply Hin; by left). by rewrite Hk.
Qed.
End resource.

(** ** Lemmas: the peer devices of a resource *)

Lemma for_each_pairs {S A B} (l1 : list A) (l2 : list B) (f : A -> B -> M S unit) s :
  for_each l1 (fun a => for_each l2 (f a)) s = for_each (l1 ≫= fun a => map (pair a) l2) (fun p => f (fst p) (snd p)) s.
Proof.
  assert (Happ : forall (l l' : list (A * B)) s, for_each (l ++ l') (fun p => f (fst p) (snd p)) s =
    (for_each l (fun p => f (fst p) (snd p)) ;;; for_each l' (fun p => f (fst p) (snd p))) s).
  { intros l l'. induction l as [|p l IH]; intros s0; [done|]. cbn [for_each app]. mred. destruct (f p.1 p.2 s0) as [[[]|e] s1]; [apply IH|done]. }
  assert (Hmap : forall a s, for_each (map (pair a) l2) (fun p => f (fst p) (snd p)) s = for_each l2 (f a) s).
  { intros a. induction l2 as [|b l IH]; intros s0; [done|]. cbn [for_each map fst snd]. mred. destruct (f a b s0) as [[[]|e] s1]; [apply IH|done]. }
  revert s. induction l1 as [|a l1 IH]; intros s; [done|]. cbn [mbind list_bind]. rewrite Happ. cbn [for_each]. mred. rewrite Hmap.
  destruct (for_each l2 (f a) s) as [[[]|e] s1]; [apply IH|done].
Qed.

Section peer_devices.
Context (w : world) (r : nat) (Htyped : well_typed w) (Hwf : volumes_wf w r).

Lemma node_peer_devices_ok n : n ∈ members w r -> exists s, node_peer_devices w n = Ok s /\
  forall c v, (c, v) ∈ items s <-> c ∈ elems (n_connections (node_at w n)) /\ v ∈ n_disks (node_at w n).
Proof using Htyped Hwf.
  intros Hn. unfold node_peer_devices. rewrite for_each_pairs. destruct (member_node w r Htyped Hwf n Hn) as (Hlt & Hres & _).
  set (l := _ ≫= _).
  assert (Hl : forall c v, (c, v) ∈ map (fun p : nat * nat * nat => (fst p, snd p)) l <-> c ∈ elems (n_connections (node_at w n)) /\ v ∈ n_disks (node_at w n)).
  { intros c v. unfold l. rewrite list_elem_of_fmap. setoid_rewrite list_elem_of_bind. setoid_rewrite list_elem_of_fmap. split.
    - intros ([c' v'] & [= -> ->] & a & (b & [= -> ->] & Hb) & Ha). done.
    - intros [Hc Hv]. exists (c, v). split; [done|]. exists c. split; [by exists v|done]. }
  destruct (add_all (T := oset peer_device) (pd_resource w) r (fun p : nat * nat * nat => (fst p, snd p)) l os_empty) as (s & Hs & _ & He).
  - split; [exact (proj1 (spec_new (K := peer_device) (T := oset peer_device) []))|done].
  - by intros k Hk%elem_of_nil.
  - intros [c v] [Hc _]%Hl. destruct (wt_connection w Htyped n c Hlt Hc) as (Hf & _). unfold pd_resource, connection_resource. cbn [fst]. by rewrite Hf.
  - rewrite Hs. exists s. split; [done|]. intros c v. transitivity ((c, v) ∈ elems s); [done|]. rewrite He, Hl. split; [|by right].
    intros [Hk|Hk]; [|done]. by apply elem_of_nil in Hk.
Qed.

Definition peer_device_of (n : nat) (p : peer_device) : Prop :=
  fst p ∈ elems (n_connections (node_at w n)) /\ snd p ∈ n_disks (node_at w n).
Lemma pd_of_member n p : n ∈ members w r -> peer_device_of n p -> pd_resource w p = r.
Proof using Htyped Hwf.
  intros Hn [Hc _]. destruct (member_node w r Htyped Hwf n Hn) as (Hlt & Hres & _).
  destruct (wt_connection w Htyped n (fst p) Hlt Hc) as (Hf & _). unfold pd_resource, connection_resource. by rewrite Hf.
Qed.
Lemma resource_peer_devices_ok : exists s, resource_peer_devices w r = Ok s /\
  forall p, p ∈ items s <-> exists n, n ∈ members w r /\ peer_device_of n p.
Proof using Htyped Hwf.
  unfold resource_peer_devices. mred.
  destruct (map_res_all (node_peer_devices w) (fun n s => forall p, p ∈ items s <-> peer_device_of n p) (members w r)) as (ss & Hss & Hall).
  { intros n Hn. destruct (node_peer_devices_ok n Hn) as (s & Hs & He). exists s. split; [done|]. intros [c v]. apply He. }
  rewrite Hss. assert (Hin : forall p, (exists s, s ∈ ss /\ p ∈ items s) <-> exists n, n ∈ members w r /\ peer_device_of n p).
  { intros p. split.
    - intros (s & [i Hi]%list_elem_of_lookup & Hp). destruct (Forall2_lookup_r _ _ _ _ _ Hall Hi) as (n & Hn & Heq).
      exists n. split; [by eapply list_elem_of_lookup_2|by apply Heq].
    - intros (n & [i Hi]%list_elem_of_lookup & Hp). destruct (Forall2_lookup_l _ _ _ _ _ Hall Hi) as (s & Hs & Heq).
      exists s. split; [by eapply list_elem_of_lookup_2|by apply Heq]. }
  destruct (coll_property_all (T := oset peer_device) (pd_resource w) r items ss) as (s & Hs & _ & He).
  { intros s Hs p Hp. assert (Hex : exists s, s ∈ ss /\ p ∈ items s) by by exists s. apply Hin in Hex as (n & Hn & Hd). by apply (pd_of_member n). }
  exists s. split; [done|]. intros p. rewrite <-Hin. apply He.
Qed.
(** A selection of the peer devices of the resource *)
Lemma select_ok (P : peer_device -> Prop) `{!forall p, Decision (P p)} s (Q : peer_device -> Prop) : (forall p, p ∈ items s <-> Q p) ->
  (forall p, Q p -> pd_resource w p = r) ->
  exists s', coll_init (T := oset peer_device) (pd_resource w) (filter P (items s)) = Ok s' /\ forall p, p ∈ items s' <-> P p /\ Q p.
Proof.
  intros Hs HQ. destruct (coll_init_all (T := oset peer_device) (pd_resource w) r (filter P (items s))) as (s' & Hs' & _ & He).
  { intros p [_ Hp]%list_elem_of_filter. by apply HQ, Hs. }
  exists s'. split; [done|]. intros p. transitivity (p ∈ elems s'); [done|]. by rewrite He, list_elem_of_filter, Hs.
Qed.
Lemma peer_devices_by_vnr_ok k : exists s, peer_devices_by_vnr w r k = Ok s /\
  forall p, p ∈ items s <-> v_volume (volume_at w (snd p)) = k /\ exists n, n ∈ members w r /\ peer_device_of n p.
Proof using Htyped Hwf.
  unfold peer_devices_by_vnr. mred. destruct resource_peer_devices_ok as (s & -> & Hs).
  match goal with |- context [@filter _ _ _ ?P ?D (items s)] => destruct (@select_ok P D s _ Hs) as (s1 & Hr1 & Hs1) end.
  { intros p (m & Hm & Hp). by apply (pd_of_member m). }
  exists s1. split; [exact Hr1|exact Hs1].
Qed.
Lemma node_peer_devices_by_vnr_ok n k : n ∈ members w r -> exists s, node_peer_devices_by_vnr w n k = Ok s /\
  forall c v, (c, v) ∈ items s <-> c ∈ elems (n_connections (node_at w n)) /\ n_disks (node_at w n) !! k = Some v.
Proof using Htyped Hwf.
  intros Hn. unfold node_peer_devices_by_vnr. mred. destruct (member_node w r Htyped Hwf n Hn) as (_ & -> & Hd).
  destruct (peer_devices_by_vnr_ok k) as (s & -> & Hs).
  match goal with |- context [@filter _ _ _ ?P ?D (items s)] => destruct (@select_ok P D s _ Hs) as (s1 & Hr1 & Hs1) end.
  { intros p (_ & m & Hm & Hp). by apply (pd_of_member m). }
  exists s1. split; [exact Hr1|]. intros c v. rewrite Hs1. cbn [snd]. split.
  - intros (Hnode & Hk & m & Hm & Hc & Hv). destruct (member_disk w r Htyped Hwf m v Hm Hv) as (_ & Heq & Hl). cbn [snd] in *.
    assert (Hmn : m = n) by congruence. rewrite Hmn in Hc, Hl. split; [exact Hc|]. by rewrite <-Hk.
  - intros (Hc & Hk). destruct (Hd k v Hk) as [Hvol Hnode]. split_and!; [done..|]. exists n. split; [done|]. split; [done|]. by eapply list_elem_of_lookup_2.
Qed.
End peer_devices.

(** ** Properties *)

(** in a resource to which the disks were added as [add_disk] does it, the
    volume of a node with a number is the node's disk of that number; a node
    without such a disk gives [StopIteration]. *)
Theorem volume_is_found_by_number w r n k : well_typed w -> volumes_wf w r -> n ∈ members w r ->
  volume_by_vnr w n k = match n_disks (node_at w n) !! k with Some v => Ok v | None => Raise StopIteration end.
Proof. intros Ht Hw. by apply volume_by_vnr_ok. Qed.

(** the peer devices of a node with the number of a volume are one for each
    connection of the node, with the disk of this number; such a peer device is
    diskful exactly when the volumes with this number have a backing disk on
    both of its ends. *)
Theorem peer_devices_are_found_by_number w r n k : well_typed w -> volumes_wf w r -> n ∈ members w r ->
  exists s, node_peer_devices_by_vnr w n k = Ok s /\
  (forall c v, (c, v) ∈ items s <-> c ∈ elems (n_connections (node_at w n)) /\ n_disks (node_at w n) !! k = Some v) /\
  forall c v, (c, v) ∈ items s -> snd c ∈ members w r -> exists v',
    n_disks (node_at w (snd c)) !! k = Some v' /\
    diskful w (c, v) = Ok (bool_decide (disk_volume (volume_at w v) <> None) && bool_decide (disk_volume (volume_at w v') <> None)).
Proof.
  intros Ht Hw Hn. destruct (node_peer_devices_by_vnr_ok w r Ht Hw n k Hn) as (s & Hs & He). exists s. split; [done|]. split; [done|].
  intros [n1 n2] v [Hc Hk]%He Hm. cbn [fst snd] in *. destruct (member_node w r Ht Hw n Hn) as (Hlt & _ & Hd).
  destruct (wt_connection w Ht n (n1, n2) Hlt Hc) as (Hf & _). cbn [fst] in Hf. subst n1. pose proof Hw as (_ & _ & Hall).
  destruct (Hall n Hn) as (_ & _ & Hl1 & _), (Hall n2 Hm) as (_ & _ & Hl2 & _).
  destruct (lookup_lt_is_Some_2 (n_disks (node_at w n2)) k) as [v' Hv']; [apply lookup_lt_Some in Hk; lia|].
  exists v'. split; [done|]. unfold diskful. cbn [fst snd]. destruct (Hd k v Hk) as [-> _]. mred.
  rewrite (volume_by_vnr_ok w r Ht Hw n k Hn), Hk. case_decide as Hdisk; [by rewrite bool_decide_false by (intros []; done)|].
  rewrite (volume_by_vnr_ok w r Ht Hw n2 k Hm), Hv'. by rewrite (bool_decide_true (disk_volume (volume_at w v) <> None)).
Qed.

(** ** The identity of connections and peer devices

    Connections are equal when their nodes are, but peer devices are equal only
    when their connections are the same object, so a connection carries its
    address here. *)

Record connection_object := ConnectionObject { c_address : nat; c_nodes : nat * nat }.
Definition connection_eq (a b : connection_object) : bool :=
  bool_decide (fst (c_nodes a) = fst (c_nodes b)) && bool_decide (snd (c_nodes a) = snd (c_nodes b)).
Definition peer_device_eq (p q : connection_object * nat) : bool :=
  bool_decide (c_address (fst p) = c_address (fst q)) && bool_decide (snd p = snd q).
Section hashes.
Context (hash : nat * nat -> Z) (hash2 : Z * nat -> Z).
Definition connection_hash (c : connection_object) : Z := hash (c_nodes c).
Definition peer_device_hash (p : connection_object * nat) : Z := hash2 (connection_hash (fst p), snd p).
End hashes.

(** Equal objects have equal hashes, when an address belongs to one connection;
    but two peer devices that were made for the same nodes and the same volume
    with a new connection each have the same hash and are not equal. *)
Theorem equal_objects_have_equal_hashes hash hash2 (objects : list connection_object) a b v v' :
  (forall x y, x ∈ objects -> y ∈ objects -> c_address x = c_address y -> x = y) -> a ∈ objects -> b ∈ objects ->
  (connection_eq a b = true -> connection_hash hash a = connection_hash hash b) /\
  (peer_device_eq (a, v) (b, v') = true -> peer_device_hash hash hash2 (a, v) = peer_device_hash hash hash2 (b, v')) /\
  (c_nodes a = c_nodes b -> a <> b -> peer_device_hash hash hash2 (a, v) = peer_device_hash hash hash2 (b, v) /\ peer_device_eq (a, v) (b, v) = false).
Proof.
  intros Hu Ha Hb. unfold connection_eq, peer_device_eq, peer_device_hash, connection_hash. cbn [fst snd].
  rewrite !andb_true_iff, !bool_decide_eq_true. split_and!.
  - intros [H1 H2]. destruct (c_nodes a), (c_nodes b). cbn in *. by subst.
  - intros [H1 ->]. by rewrite (Hu a b Ha Hb H1).
  - intros Hn Hne. rewrite Hn. split; [done|]. apply andb_false_iff. left. apply bool_decide_eq_false. intros Heq. by apply Hne, Hu.
Qed.

(** ** Witnesses *)

#[local] Existing Instance Cluster.quiet_server.
(** Two nodes, with a disk on the first only *)
Definition demo_disks : world :=
  foldl (fun w o => snd (heap_step demo_globals "job" (fun s => s) o w)) demo_cluster
    [HConf (OpCreate "r" None "no"); HConf (OpAddDisk 0 "10M" (Some [0]) None [] demo_args (MdFlags None false false false false))].
Lemma demo_typed : well_typed demo_disks.
Proof.
  unfold demo_disks. eapply heap_runs_typed; [apply demo_heap_runs|constructor; cbn; lia].
  repeat (apply List.Forall_cons; [intros w; exact I|]). apply List.Forall_nil.
Qed.
Lemma demo_volumes : volumes_wf demo_disks 0.
Proof.
  assert (Hs : r_nodes (resource_at demo_disks 0) = osNew [0; 1]) by (vm_compute; reflexivity).
  split; [vm_compute; lia|]. split; [rewrite Hs; apply spec_new|]. rewrite Hs. intros n Hn.
  assert (Hl0 : elems (osNew [0; 1] : oset nat) = [0; 1]) by (vm_compute; reflexivity). rewrite Hl0 in Hn.
  assert (Hn' : n = 0 \/ n = 1) by (rewrite !elem_of_cons, elem_of_nil in Hn; tauto).
  assert (Hl : num_volumes (resource_at demo_disks 0) = 1) by (vm_compute; reflexivity).
  split; [destruct Hn' as [-> | ->]; vm_compute; lia|]. split; [destruct Hn' as [-> | ->]; vm_compute; lia|]. rewrite Hl.
  split; [destruct Hn' as [-> | ->]; vm_compute; reflexivity|].
  intros i v Hv. destruct Hn' as [-> | ->]; destruct i as [|i]; vm_compute in Hv; [|destruct i; discriminate| |destruct i; discriminate];
    injection Hv as <-; vm_compute; lia.
Qed.
Lemma volume_is_found_by_number_witness : volume_by_vnr demo_disks 1 0 = Ok 1 /\ volume_by_vnr demo_disks 1 1 = Raise StopIteration.
Proof.
  split.
  - exact (volume_is_found_by_number demo_disks 0 1 0 demo_typed demo_volumes ltac:(apply (bool_decide_unpack _); vm_compute; exact I)).
  - exact (volume_is_found_by_number demo_disks 0 1 1 demo_typed demo_volumes ltac:(apply (bool_decide_unpack _); vm_compute; exact I)).
Defined.
Lemma peer_devices_are_found_by_number_witness : exists v, diskful demo_disks ((0, 1), v) = Ok false.
Proof.
  assert (Hm : forall n, n < 2 -> n ∈ members demo_disks 0).
  { intros n Hn. change (members demo_disks 0) with (items (r_nodes (resource_at demo_disks 0))).
    assert (Hs : items (r_nodes (resource_at demo_disks 0)) = [0; 1]) by (vm_compute; reflexivity). rewrite Hs. destruct n as [|[|n]]; [left|right; left|lia]. }
  destruct (peer_devices_are_found_by_number demo_disks 0 0 0 demo_typed demo_volumes (Hm 0 ltac:(lia))) as (s & _ & Hin & Hd).
  assert (H0 : ((0, 1), 0) ∈ items s).
  { apply Hin. split; [apply (bool_decide_unpack _); vm_compute; exact I|vm_compute; reflexivity]. }
  destruct (Hd (0, 1) 0 H0 (Hm 1 ltac:(lia))) as (v' & Hv' & Hb). exists 0. rewrite Hb. vm_compute in Hv'. injection Hv' as <-. vm_compute. reflexivity.
Defined.
Lemma equal_objects_have_equal_hashes_witness :
  peer_device_eq (ConnectionObject 0 (1, 2), 7) (ConnectionObject 1 (1, 2), 7) = false.
Proof.
  apply (equal_objects_have_equal_hashes (fun _ => 0%Z) (fun _ => 0%Z) [ConnectionObject 0 (1, 2); ConnectionObject 1 (1, 2)] _ _ 7 7).
  - intros x y Hx Hy. apply elem_of_cons in Hx as [->|Hx]; [|apply list_elem_of_singleton in Hx as ->];
      (apply elem_of_cons in Hy as [->|Hy]; [|apply list_elem_of_singleton in Hy as ->]); done.
  - left.
  - right. left.
  - reflexivity.
  - discriminate.
Defined.
