(* ===== verification/Teardown.v ===== *)
(** * The end of a test (src/python/drbdtest.py)

    [teardown] at the end of a successful test, and the handlers that run when
    the program ends: cleaning up the resources, which depends on the option
    [--cleanup] and on how the test ended, and cleaning up what the framework
    has changed on the hosts. *)

From S2P Require Import Prelude PyStr Dict OrderedSet Host HostSetup Disktools World Config Collections Cluster.

(** The copy of the kernel log of a host: whether its process, its thread and
    its file are there, the first line, which is the process id, and the rest,
    as it is when no thread adds to it *)
Record dmesg := Dmesg {
  dmesg_process : bool;
  dmesg_thread : bool;
  dmesg_out_file : bool;
  dmesg_first : option string;
  dmesg_text : string
}.
(** The objects, the kernel logs and the closed connections of the hosts *)
Record ending := Ending {
  e_world : world;
  e_dmesg : nat -> dmesg;
  e_closed : list nat
}.
(** What the thread has copied of the kernel log of the host of this name, when
    these commands have been sent: messages may come at any time *)
Class KernelLog := kernel_log : list sent -> string -> string.
Definition e_info (s : ending) (h : nat) : host_info := info (host_at (e_world s) h).

(** [--cleanup] *)
Inductive cleanup_mode := CleanupSuccess | CleanupAlways | CleanupNever.

Section ending.
Context `{SshServer} `{KernelLog} (no_rmmod selinux_debug : bool).

Definition on_e_world {A} (m : M world A) : M ending A := zoom e_world (fun w s => Ending w (e_dmesg s) (e_closed s)) m.
Definition on_e_host {A} (h : nat) (m : host_info -> M env A) : M ending A := fun s => on_e_world (on_env (m (e_info s h))) s.
Definition set_dmesg (h : nat) (f : dmesg -> dmesg) : M ending unit :=
  modify (fun s => Ending (e_world s) (fun h' => if decide (h' = h) then f (e_dmesg s h) else e_dmesg s h') (e_closed s)).
Definition close_connection (h : nat) : M ending unit :=
  modify (fun s => Ending (e_world s) (e_dmesg s) (e_closed s ++ [h])).
(** An operation on a host that is set up *)
Definition with_setup (x : host_info) (m : M setup unit) : M env unit := fun e =>
  let '(r, s) := m (Setup e x EmptyString EmptyString None None []) in (r, s_env s).

(** ** Hosts *)

Definition kill_dmesg_cmd (windows : bool) (first_message : string) : list string :=
  ["bash"; "-c"; if windows then "kill " +:+ strip first_message else "kill $(ps -s " +:+ strip first_message +:+ " -o pid=)"].
(** The text, when the thread ends that copies it *)
Definition captured (d : dmesg) (log : list sent) (name : string) : string :=
  if dmesg_thread d then kernel_log log name else dmesg_text d.
Definition stop_dmesg (h : nat) : M ending unit :=
  let* s := get in
  let d := e_dmesg s h in
  when (dmesg_process d)
    (let* first := lift (res_of_option (AttributeError "'NoneType' object has no attribute 'strip'") (dmesg_first d)) in
     on_e_host h (fun x => run x (kill_dmesg_cmd (h_windows x) first))) ;;;
  set_dmesg h (fun d => Dmesg false (dmesg_thread d) (dmesg_out_file d) (dmesg_first d) (dmesg_text d)) ;;;
  let* s := get in
  let log := sent_log (w_env (e_world s)) in
  set_dmesg h (fun d => Dmesg (dmesg_process d) false (dmesg_out_file d) (dmesg_first d) (captured d log (h_name (e_info s h)))) ;;;
  set_dmesg h (fun d => Dmesg (dmesg_process d) (dmesg_thread d) false (dmesg_first d) (dmesg_text d)).

Definition host_rmmod (h : nat) : M ending unit :=
  when (negb no_rmmod) (on_e_host h (fun x => when (negb (h_windows x)) (with_setup x linux_rmmod))).
Definition host_teardown (h : nat) (validate_dmesg : bool) : M ending bool :=
  stop_dmesg h ;;;
  let* s := get in
  mret (teardown_ok validate_dmesg (dmesg_text (e_dmesg s h))).
Definition host_cleanup (h : nat) : M ending unit :=
  let* s := get in
  when (bool_decide (is_Some (storage_pool (host_at (e_world s) h)))) (on_e_world (host_remove_storage_pool h)).
Definition host_cleanup_framework (h : nat) : M ending unit :=
  stop_dmesg h ;;;
  when selinux_debug
    (on_e_host h (fun x => let* _ := run_with x true true true false None ["cat"; "/var/log/audit/audit.log"] in mret tt)) ;;;
  on_e_host h (fun x => when (negb (h_windows x)) (with_setup x linux_cleanup_framework)) ;;;
  close_connection h.

(** ** Nodes, resources and the cluster *)

Definition node_cleanup (n : nat) : M ending unit :=
  let* s := get in
  let w := e_world s in
  on_e_world (on_env (run (node_info w n)
    ["bash"; "-c"; "! [ -e /proc/drbd ] || drbdsetup down " +:+ r_name (resource_at w (n_resource (node_at w n)))])) ;;;
  on_e_world (remove_disks n).
Definition resource_cleanup (skip_cleanup : bool) (r : nat) : M ending unit :=
  when (negb skip_cleanup)
    (let* s := get in for_each (items (r_nodes (resource_at (e_world s) r))) node_cleanup).
Definition cluster_cleanup (skip_cleanup : bool) : M ending unit :=
  let* s := get in
  let hosts := seq 0 (length (w_hosts (e_world s))) in
  when (negb skip_cleanup) (for_each hosts host_cleanup) ;;;
  for_each hosts host_cleanup_framework.

(** [Cluster.teardown] *)
Definition teardown_host (validate_dmesg ok : bool) (h : nat) : M ending bool :=
  host_rmmod h ;;;
  let* host_ok := host_teardown h validate_dmesg in
  mret (ok && host_ok).
Definition cluster_teardown (validate_dmesg : bool) : M ending unit :=
  let* s := get in
  let* ok := fold_each (seq 0 (length (w_hosts (e_world s)))) (teardown_host validate_dmesg) true in
  when (negb ok) (raise (SystemExit 3)).

(** ** The end of the program *)

(** [Cleanup]: the hook is not called for [SystemExit]. *)
Definition hook_called (r : res unit) : bool :=
  match r with Ok _ => false | Raise (SystemExit _) => false | Raise _ => true end.
Definition skip_cleanup_after (mode : cleanup_mode) (r : res unit) : bool :=
  match mode with
  | CleanupNever => true
  | CleanupSuccess => hook_called r
  | CleanupAlways => false
  end.
(** A handler that raises does not keep the others from running. *)
Fixpoint run_handlers (l : list (M ending unit)) : M ending unit :=
  match l with
  | [] => mret tt
  | h :: l => try_except h (fun _ => mret tt) ;;; run_handlers l
  end.
(** The handlers run in the opposite order of their registration: those of the
    resources, the last first, and then that of the cluster. *)
Definition at_exit (mode : cleanup_mode) (r : res unit) : M ending unit :=
  let* s := get in
  let skip := skip_cleanup_after mode r in
  run_handlers (map (resource_cleanup skip) (rev (seq 0 (length (w_resources (e_world s))))) ++ [cluster_cleanup skip]).
(** A program that sets up its cluster and resources and runs [test] *)
Definition run_program (mode : cleanup_mode) (test : M ending unit) : M ending unit := fun s =>
  let '(r, s1) := test s in
  let '(_, s2) := at_exit mode r s1 in (r, s2).
End ending.

(** ** Lemmas: hosts that answer every command *)

(** Every command ends well. *)
Definition willing `{SshServer} : Prop := forall log c, exists out, ssh log c = Ok (0%Z, out).
(** A computation that ends well from every state *)
Definition fine {S A} (m : M S A) : Prop := forall s, exists a s', m s = (Ok a, s').

Lemma fine_bind {S A B} (m : M S A) (f : A -> M S B) : fine m -> (forall a, fine (f a)) -> fine (m ≫= f).
Proof. intros Hm Hf s. destruct (Hm s) as (a & s1 & Hs). destruct (Hf a s1) as (b & s2 & Hb). exists b, s2. by rewrite (bind_ok _ _ _ _ _ Hs). Qed.
Lemma fine_ret {S A} (a : A) : fine (mret a : M S A).
Proof. intros s. by exists a, s. Qed.
Lemma fine_for_each {S A} (l : list A) (body : A -> M S unit) : (forall x, fine (body x)) -> fine (for_each l body).
Proof. intros Hb. induction l as [|x l IH]; [apply fine_ret|]. apply fine_bind; [apply Hb|by intros _]. Qed.
Lemma fine_when {S} b (m : M S unit) : fine m -> fine (when b m).
Proof. destruct b; [done|]. intros _. apply fine_ret. Qed.

Section fine.
Context `{SshServer} (Hw : willing).

Lemma fine_run_with x quote catch ret ns stdin cmd : fine (run_with x quote catch ret ns stdin cmd).
Proof.
  intros e. rewrite run_with_answer. destruct (Hw (sent_log e) (Sent (h_name x) (command_string x quote ns cmd) stdin)) as [out ->].
  by eexists _, _.
Qed.
Lemma fine_run x cmd : fine (run x cmd).
Proof. apply fine_bind; [apply fine_run_with|intros o; apply fine_ret]. Qed.
Lemma fine_remove x v : fine (remove x v).
Proof. induction v; cbn [remove]; try apply fine_run. apply fine_bind; [apply fine_run|by intros _]. Qed.
Lemma fine_remove_pool x p : fine (remove_pool x p).
Proof. destruct p; cbn [remove_pool]; first [apply fine_run|apply fine_ret]. Qed.
Lemma fine_do_run cmd : fine (do_run cmd).
Proof. intros s. unfold do_run, on_host. destruct (fine_run (s_info s) cmd (s_env s)) as (a & e & ->). by eexists _, _. Qed.
Lemma fine_do_run_out cmd : fine (do_run_out cmd).
Proof.
  intros s. unfold do_run_out, on_host.
  assert (Hf : fine (run_out (s_info s) cmd)) by (apply fine_bind; [apply fine_run_with|intros o; apply fine_ret]).
  destruct (Hf (s_env s)) as (a & e & ->). by eexists _, _.
Qed.
Lemma fine_linux_cleanup x : fine (with_setup x linux_cleanup_framework).
Proof.
  intros e. unfold with_setup.
  assert (Hf : fine linux_cleanup_framework) by (apply fine_bind; [apply fine_do_run_out|intros _; apply fine_do_run]).
  destruct (Hf (Setup e x EmptyString EmptyString None None [])) as (a & s & ->). by eexists _, _.
Qed.
End fine.

(** ** Lemmas: what the operations leave alone *)

Definition with_world_env (e : env) (s : ending) : ending := Ending (put_env e (e_world s)) (e_dmesg s) (e_closed s).
Section frames.
Context `{SshServer} `{KernelLog}.

Lemma on_e_host_env {A} h (m : host_info -> M env A) s : exists r e, on_e_host h m s = (r, with_world_env e s) /\
  (fine (m (e_info s h)) -> exists a, r = Ok a).
Proof.
  unfold on_e_host, on_e_world, on_env, zoom. destruct (m (e_info s h) (w_env (e_world s))) as [r e] eqn:Hm.
  exists r, e. split; [done|]. intros Hf. destruct (Hf (w_env (e_world s))) as (a & e' & Heq). rewrite Hm in Heq. injection Heq as -> _. by exists a.
Qed.

(** The kernel log of [h] is stopped with what has been copied of it, and the
    rest is as before but for commands. *)
Definition stopped (h : nat) (s s' : ending) : Prop :=
  (exists e, e_world s' = put_env e (e_world s)) /\ e_closed s' = e_closed s /\
  (forall h', h' <> h -> e_dmesg s' h' = e_dmesg s h') /\
  e_dmesg s' h = Dmesg false false false (dmesg_first (e_dmesg s h))
    (captured (e_dmesg s h) (sent_log (w_env (e_world s'))) (h_name (e_info s h))).
Lemma stopped_logs h s s' h' : stopped h s s' ->
  dmesg_first (e_dmesg s' h') = dmesg_first (e_dmesg s h') /\
  (dmesg_process (e_dmesg s' h') = true -> dmesg_process (e_dmesg s h') = true).
Proof. intros (_ & _ & Ho & Hh). destruct (decide (h' = h)) as [->|Hne]; [by rewrite Hh|by rewrite Ho]. Qed.
Definition has_pid (s : ending) (h : nat) : Prop := dmesg_process (e_dmesg s h) = true -> is_Some (dmesg_first (e_dmesg s h)).

Definition put_away (h : nat) : M ending unit :=
  set_dmesg h (fun d => Dmesg false (dmesg_thread d) (dmesg_out_file d) (dmesg_first d) (dmesg_text d)) ;;;
  let* s := get in
  let log := sent_log (w_env (e_world s)) in
  set_dmesg h (fun d => Dmesg (dmesg_process d) false (dmesg_out_file d) (dmesg_first d) (captured d log (h_name (e_info s h)))) ;;;
  set_dmesg h (fun d => Dmesg (dmesg_process d) (dmesg_thread d) false (dmesg_first d) (dmesg_text d)).
Lemma put_away_stops h s e : exists s', put_away h (with_world_env e s) = (Ok tt, s') /\ stopped h s s' /\ w_env (e_world s') = e.
Proof.
  exists (snd (put_away h (with_world_env e s))). split; [reflexivity|]. split; [|done]. split_and!; [by exists e|done| |].
  - intros h' Hne. unfold put_away, set_dmesg, modify, get. mred. cbn. by repeat case_decide.
  - unfold put_away, set_dmesg, modify, get. mred. cbn. by repeat case_decide.
Qed.
Lemma stop_dmesg_spec h s :
  wp (stop_dmesg h) (fun _ s' => stopped h s s' /\ exists new, sent_log (w_env (e_world s')) = sent_log (w_env (e_world s)) ++ new)
    (fun _ s' => exists e, s' = with_world_env e s) s /\
  (willing -> has_pid s h -> is_ok (fst (stop_dmesg h s)) = true).
Proof.
  unfold wp, stop_dmesg. rewrite !(bind_ok get _ s s s) by done. fold (put_away h).
  assert (Hself : s = with_world_env (w_env (e_world s)) s) by (by destruct s as [[] ? ?]).
  destruct (dmesg_process (e_dmesg s h)) eqn:Hp; cbn [when].
  2: { mred. destruct (put_away_stops h s (w_env (e_world s))) as (s' & Hs & Hst & Hl). rewrite <-Hself in Hs. rewrite Hs.
       split; [|done]. split; [done|]. exists []. by rewrite Hl, app_nil_r. }
  unfold lift. mred. destruct (dmesg_first (e_dmesg s h)) as [first|] eqn:Hf; cbn [res_of_option].
  2: { split; [by exists (w_env (e_world s))|]. intros _ Hpid. destruct (Hpid Hp) as [? ?]. congruence. }
  unfold on_e_host, on_e_world, on_env, zoom. rewrite run_answer. set (c := sent_run _ _).
  destruct (put_away_stops h s (push c (w_env (e_world s)))) as (s' & Hs & Hst & Hl). unfold with_world_env, put_env in Hs.
  split.
  - destruct (ssh _ c) as [[code out]|x]; [|by eexists]. destruct (code =? 0)%Z; [|by eexists]. rewrite Hs.
    split; [done|]. exists [c]. by rewrite Hl.
  - intros Hw _. destruct (Hw (sent_log (w_env (e_world s))) c) as [out ->]. cbn [Z.eqb]. by rewrite Hs.
Qed.
End frames.

(** Only commands have been sent. *)
Definition env_only (s s' : ending) : Prop := exists e, e_world s' = put_env e (e_world s).
#[export] Instance env_only_preorder : PreOrder env_only.
Proof.
  split; [intros s; exists (w_env (e_world s)); by destruct (e_world s)|].
  intros a b c [e He] [e' He']. exists e'. by rewrite He', He.
Qed.

(** *** Exceptions *)

Definition not_exit (e : exn) : Prop := match e with SystemExit _ => False | _ => True end.
(** Only exceptions other than [SystemExit] leave a computation. *)
Definition no_exit {S A} (m : M S A) : Prop := forall s e s', m s = (Raise e, s') -> not_exit e.

Section no_exit.
Context `{SshServer} `{KernelLog}.

Lemma no_exit_bind {S A B} (m : M S A) (f : A -> M S B) : no_exit m -> (forall a, no_exit (f a)) -> no_exit (m ≫= f).
Proof. intros Hm Hf s e s'. mred. destruct (m s) as [[a|x] s1] eqn:Hs; [apply Hf|]. intros [= <- _]. by eapply Hm. Qed.
Lemma no_exit_ret {S A} (a : A) : no_exit (mret a : M S A).
Proof. done. Qed.
Lemma no_exit_gets {S A} (f : S -> A) : no_exit (gets f).
Proof. done. Qed.
Lemma no_exit_when {S} b (m : M S unit) : no_exit m -> no_exit (when b m).
Proof. by destruct b. Qed.
Lemma no_exit_called {S A} (m : M S A) h : no_exit m -> (forall e, not_exit e -> no_exit (h e)) -> no_exit (except_called m h).
Proof.
  intros Hm Hh s e s'. unfold except_called, try_except. destruct (m s) as [[a|x] s1] eqn:Hs; [done|]. apply Hm in Hs.
  destruct x; try (intros [= <- _]; done). by apply Hh.
Qed.
Lemma no_exit_try {S A} (m : M S A) h : (forall e, no_exit (h e)) -> no_exit (try_except m h).
Proof. intros Hh s e s'. unfold try_except. destruct (m s) as [[a|x] s1]; [done|apply Hh]. Qed.

Context (Hssh : forall log c code, ssh log c <> Raise (SystemExit code)).
Lemma no_exit_run_with x quote catch ret ns stdin cmd : no_exit (run_with x quote catch ret ns stdin cmd).
Proof.
  intros e y e'. rewrite run_with_answer. destruct (ssh _ _) as [[c o]|z] eqn:Ha; [|intros [= <- _]; by destruct z; try apply Hssh in Ha].
  destruct (_ || _); [done|]. destruct catch; by intros [= <- _].
Qed.
Lemma no_exit_on_host {A} (m : host_info -> M env A) : (forall x, no_exit (m x)) -> no_exit (on_host m).
Proof. intros Hm s e s'. unfold on_host. destruct (m _ _) as [[a|x] e1] eqn:Hx; [done|]. intros [= <- _]. by eapply Hm. Qed.
Lemma no_exit_run x cmd : no_exit (run x cmd).
Proof. apply no_exit_bind; [apply no_exit_run_with|intros o; apply no_exit_ret]. Qed.
Lemma no_exit_rmmod : no_exit linux_rmmod.
Proof.
  unfold linux_rmmod. apply no_exit_bind; [apply no_exit_gets|intros h]. apply no_exit_bind; [|intros _].
  - apply no_exit_when. repeat (apply no_exit_bind; [|intros _]); by apply no_exit_try.
  - apply no_exit_called; [apply no_exit_on_host; intros x; apply no_exit_run|]. intros e He.
    apply no_exit_bind; [|intros _ s y s' [= <- _]; done]. apply no_exit_on_host. intros x.
    apply no_exit_bind; [apply no_exit_run_with|intros o; apply no_exit_ret].
Qed.
Lemma no_exit_on_e_host {A} h (m : host_info -> M env A) : (forall x, no_exit (m x)) -> no_exit (on_e_host h m).
Proof.
  intros Hm s e s'. unfold on_e_host, on_e_world, on_env, zoom. destruct (m _ _) as [[a|x] e1] eqn:Hx; [done|]. intros [= <- _]. by eapply Hm.
Qed.
Lemma no_exit_host_rmmod no_rmmod h : no_exit (host_rmmod no_rmmod h).
Proof.
  apply no_exit_when, no_exit_on_e_host. intros x. apply no_exit_when. intros e y e'. unfold with_setup.
  destruct (linux_rmmod _) as [r s] eqn:Hr. intros [= -> _]. by eapply no_exit_rmmod.
Qed.
Lemma no_exit_stop_dmesg h : no_exit (stop_dmesg h).
Proof.
  apply no_exit_bind; [done|intros s]. apply no_exit_bind; [|intros []; by intros ? ? ?]. apply no_exit_when.
  apply no_exit_bind; [|intros f; apply no_exit_on_e_host; intros x; apply no_exit_run].
  intros s0 e s'. unfold lift. destruct (dmesg_first _); [done|]. by intros [= <- _].
Qed.

(** What is sent to unload the modules *)
Definition rmmod_drbd (x : host_info) : sent := sent_run x ["rmmod"; "drbd"].
Lemma do_run_log cmd s : let '(r, s') := do_run cmd s in s_info s' = s_info s /\ sent_log (s_env s') = sent_log (s_env s) ++ [sent_run (s_info s) cmd].
Proof. unfold do_run, on_host. by rewrite run_answer. Qed.
Lemma try_run_log cmd s : exists s', try_except (do_run cmd) (fun _ => mret tt) s = (Ok tt, s') /\
  s_info s' = s_info s /\ sent_log (s_env s') = sent_log (s_env s) ++ [sent_run (s_info s) cmd].
Proof. pose proof (do_run_log cmd s) as Hd. unfold try_except. destruct (do_run cmd s) as [[[]|e] s']; by exists s'. Qed.
Lemma linux_rmmod_log s s' : linux_rmmod s = (Ok tt, s') -> exists l, sent_log (s_env s') = sent_log (s_env s) ++ l /\ rmmod_drbd (s_info s) ∈ l.
Proof.
  unfold linux_rmmod, gets. mred.
  match goal with |- context [when ?b ?m s] => assert (Hw : exists s1 l, when b m s = (Ok tt, s1) /\ s_info s1 = s_info s /\ sent_log (s_env s1) = sent_log (s_env s) ++ l) end.
  { destruct (version_geb _ _); cbn [when]; [|exists s, []; by rewrite app_nil_r]. mred.
    destruct (try_run_log ["rmmod"; "drbd_transport_tcp"] s) as (s1 & H1 & I1 & L1). cbv [mret M_ret] in H1. rewrite H1.
    destruct (try_run_log ["rmmod"; "drbd_transport_lb-tcp"] s1) as (s2 & H2 & I2 & L2). cbv [mret M_ret] in H2. rewrite H2.
    destruct (try_run_log ["rmmod"; "drbd_transport_rdma"] s2) as (s3 & H3 & I3 & L3). cbv [mret M_ret] in H3. rewrite H3.
    eexists s3, _. split_and!; [done|congruence|]. by rewrite L3, L2, L1, <-!app_assoc. }
  destruct Hw as (s1 & l & -> & Hi & Hl). pose proof (do_run_log ["rmmod"; "drbd"] s1) as Hd. rewrite Hi in Hd. unfold except_called, try_except.
  destruct (do_run ["rmmod"; "drbd"] s1) as [[[]|e] s2].
  - intros [= <-]. exists (l ++ [rmmod_drbd (s_info s)]). destruct Hd as [_ ->]. rewrite Hl, <-app_assoc. split; [done|].
    apply elem_of_app. right. by apply list_elem_of_singleton.
  - destruct e; try done. mred. by destruct (on_host _ s2) as [[[]|y] s3].
Qed.
Lemma host_rmmod_spec no_rmmod h s :
  wp (host_rmmod no_rmmod h) (fun _ s' => exists e, s' = with_world_env e s /\ exists l, sent_log e = sent_log (w_env (e_world s)) ++ l /\
      (no_rmmod = false -> h_windows (e_info s h) = false -> rmmod_drbd (e_info s h) ∈ l)) (fun e _ => not_exit e) s.
Proof.
  pose proof (no_exit_host_rmmod no_rmmod h s) as Hx. unfold wp. destruct (host_rmmod no_rmmod h s) as [[[]|e] s'] eqn:Hr; [|by eapply Hx].
  clear Hx. assert (Hself : forall t, t = with_world_env (w_env (e_world t)) t) by (by intros [[] ? ?]).
  revert Hr. unfold host_rmmod. destruct no_rmmod; cbn [negb when].
  { intros [= <-]. exists (w_env (e_world s)). split; [apply Hself|]. exists []. by rewrite app_nil_r. }
  unfold on_e_host, on_e_world, on_env, zoom. destruct (h_windows (e_info s h)) eqn:Hwin; cbn [negb when].
  { intros [= <-]. exists (w_env (e_world s)). split; [by destruct s as [[] ? ?]|]. exists []. by rewrite app_nil_r. }
  unfold with_setup. destruct (linux_rmmod _) as [[[]|y] t] eqn:Ht; [|done]. intros [= <-]. apply linux_rmmod_log in Ht as (l & Hl & Hin).
  exists (s_env t). split; [done|]. by exists l.
Qed.

(** One host of [teardown]: the log that is checked has what is copied until
    after the modules have been unloaded. *)
Lemma teardown_host_spec no_rmmod validate ok h s :
  wp (teardown_host no_rmmod validate ok h) (fun ok' s' =>
       ok' = ok && teardown_ok validate (dmesg_text (e_dmesg s' h)) /\ env_only s s' /\
       (forall h', h' <> h -> e_dmesg s' h' = e_dmesg s h') /\ dmesg_process (e_dmesg s' h) = false /\
       exists new, sent_log (w_env (e_world s')) = sent_log (w_env (e_world s)) ++ new /\
         (no_rmmod = false -> h_windows (e_info s h) = false -> rmmod_drbd (e_info s h) ∈ new) /\
         dmesg_text (e_dmesg s' h) = captured (e_dmesg s h) (sent_log (w_env (e_world s')) ) (h_name (e_info s h)))
     (fun e _ => not_exit e) s.
Proof.
  unfold teardown_host. apply wp_bind. eapply wp_mono; [apply host_rmmod_spec| |done]. intros [] s1 (e & -> & l & Hl & Hin).
  set (s1 := with_world_env e s). unfold host_teardown. apply wp_bind, wp_bind.
  destruct (stop_dmesg_spec h s1) as [Hs _]. pose proof (no_exit_stop_dmesg h s1) as He. unfold wp in Hs |- * at 1.
  destruct (stop_dmesg h s1) as [[[]|x] s2]; [|by eapply He]. destruct Hs as [(Hw & _ & Ho & Hh) (new & Hn)].
  apply wp_bind, wp_get, wp_ret, wp_ret. split_and!; [done| |done|by rewrite Hh|].
  - destruct Hw as [e2 Hw]. exists e2. by rewrite Hw.
  - exists (l ++ new). cbn [s1 with_world_env e_world put_env w_env] in Hn. rewrite Hn, Hl, <-app_assoc. split_and!; [done| |].
    + intros H1 H2. apply elem_of_app. left. by apply Hin.
    + rewrite Hh. cbn [dmesg_text]. by rewrite Hn, Hl, <-app_assoc.
Qed.
(** What [teardown] has found on the hosts of [visited] *)
Definition checked (no_rmmod validate : bool) (s : ending) (visited : list nat) (ok : bool) (s' : ending) : Prop :=
  let log := sent_log (w_env (e_world s)) in
  ok = negb (existsb (fun h => validate && existsb (fun p => has_sub p (dmesg_text (e_dmesg s' h))) dmesg_patterns) visited) /\
  env_only s s' /\ (forall h, h ∉ visited -> e_dmesg s' h = e_dmesg s h) /\
  forall h, h ∈ visited -> dmesg_process (e_dmesg s' h) = false /\
    exists new rest, sent_log (w_env (e_world s')) = log ++ new ++ rest /\
      (no_rmmod = false -> h_windows (e_info s h) = false -> rmmod_drbd (e_info s h) ∈ new) /\
      dmesg_text (e_dmesg s' h) = captured (e_dmesg s h) (log ++ new) (h_name (e_info s h)).
Lemma existsb_ext_in {A} (f f' : A -> bool) l : (forall x, x ∈ l -> f x = f' x) -> existsb f l = existsb f' l.
Proof. induction l as [|x l IH]; [done|]. intros Hf. cbn. rewrite Hf by (by left). f_equal. apply IH. intros y Hy. apply Hf. by right. Qed.
Lemma teardown_host_checks no_rmmod validate s visited ok h s1 : h ∉ visited -> env_only s s1 /\ sent_log (w_env (e_world s)) `prefix_of` sent_log (w_env (e_world s1)) ->
  checked no_rmmod validate s visited ok s1 ->
  wp (teardown_host no_rmmod validate ok h) (fun ok' s2 => checked no_rmmod validate s (visited ++ [h]) ok' s2 /\
    sent_log (w_env (e_world s)) `prefix_of` sent_log (w_env (e_world s2))) (fun e _ => not_exit e) s1.
Proof.
  intros Hh [_ [l0 Hl0]] (-> & He & Ho & Hv). eapply wp_mono; [apply teardown_host_spec| |done].
  intros ok' s2 (-> & He2 & Ho2 & Hp & new & Hl & Hin & Ht).
  assert (Hi : e_info s1 h = e_info s h) by (destruct He as [e He]; unfold e_info; by rewrite He).
  split; [|rewrite Hl, Hl0; apply prefix_app_r; by apply prefix_app_r].
  split_and!; [|by transitivity s1| |].
  - rewrite existsb_app, negb_orb. cbn [existsb]. rewrite orb_false_r, teardown_checks_the_whole_log. f_equal. f_equal.
    apply existsb_ext_in. intros x Hx. by rewrite Ho2 by (intros ->; by apply Hh).
  - intros h' Hnot. apply not_elem_of_app in Hnot as [H1 H2]. rewrite Ho2; [by apply Ho|]. intros ->. apply H2. by left.
  - intros h' [Hin'| ->%list_elem_of_singleton]%elem_of_app.
    + rewrite Ho2 by (intros ->; by apply Hh). destruct (Hv h' Hin') as (Hp' & n1 & rest & Hl1 & Hr1 & Ht1). split; [done|]. exists n1, (rest ++ new).
      rewrite Hl, Hl1, <-!app_assoc. done.
    + split; [done|]. exists (l0 ++ new), []. rewrite app_nil_r, Hl, Hl0, <-app_assoc. split; [done|]. rewrite <-Hi, <-(Ho h Hh). split.
      * intros H1 H2. apply elem_of_app. right. by apply Hin.
      * by rewrite Ht, Hl, Hl0, <-app_assoc.
Qed.
Lemma teardown_loop no_rmmod validate s : let hs := seq 0 (length (w_hosts (e_world s))) in
  wp (fold_each hs (teardown_host no_rmmod validate) true) (checked no_rmmod validate s hs) (fun e _ => not_exit e) s.
Proof.
  intros hs. pose (I := fun visited ok s' => checked no_rmmod validate s visited ok s' /\ sent_log (w_env (e_world s)) `prefix_of` sent_log (w_env (e_world s'))).
  eapply wp_mono; [apply (wp_fold_each _ _ I (fun e _ => not_exit e))| |done].
  - split; [|done]. split_and!; [done|reflexivity|done|]. intros h Hh. by apply not_elem_of_nil in Hh.
  - intros visited ok h todo s1 Heq [Hc Hl]. apply teardown_host_checks; [|by split; [apply Hc|]|done].
    pose proof (NoDup_seq 0 (length (w_hosts (e_world s)))) as Hnd. fold hs in Hnd. rewrite Heq in Hnd.
    apply NoDup_app in Hnd as (_ & Hnd & _). intros Hin. eapply Hnd; [exact Hin|by left].
  - by intros ok s' [Hc _].
Qed.
End no_exit.

(** ** Lemmas: what cleaning up removes *)

(** The resources, the number of hosts and the logs stay, and what is gone stays gone. *)
Definition shrinks (s s' : ending) : Prop :=
  w_resources (e_world s') = w_resources (e_world s) /\
  length (w_hosts (e_world s')) = length (w_hosts (e_world s)) /\
  (forall n, n_disks (node_at (e_world s) n) = [] -> n_disks (node_at (e_world s') n) = []) /\
  (forall h, storage_pool (host_at (e_world s) h) = None -> storage_pool (host_at (e_world s') h) = None) /\
  (forall h, dmesg_first (e_dmesg s' h) = dmesg_first (e_dmesg s h) /\
     (dmesg_process (e_dmesg s h) = false -> dmesg_process (e_dmesg s' h) = false)).
#[export] Instance shrinks_preorder : PreOrder shrinks.
Proof.
  split; [by intros s|]. intros a b c (H1 & H2 & H3 & H4 & H5) (K1 & K2 & K3 & K4 & K5).
  split_and!; [congruence|congruence|auto..]. intros h. destruct (H5 h), (K5 h). split; [congruence|auto].
Qed.

Section shrinks.
Context `{SshServer}.

Lemma with_world_env_shrinks e s : shrinks s (with_world_env e s).
Proof. done. Qed.
Lemma on_e_host_shrinks {A} h (m : host_info -> M env A) : keeps shrinks (on_e_host h m).
Proof. intros s. by destruct (on_e_host_env h m s) as (r & e & -> & _). Qed.

(** [m] always ends well, and then [P] holds of what is left. *)
Definition clears {A} (P : ending -> Prop) (m : M ending A) : Prop :=
  forall s, exists a s', m s = (Ok a, s') /\ shrinks s s' /\ P s'.
Lemma clears_on_e_host {A} h (m : host_info -> M env A) : (forall x, fine (m x)) -> clears (fun _ => True) (on_e_host h m).
Proof. intros Hm s. destruct (on_e_host_env h m s) as (r & e & -> & Hr). destruct Hr as [a ->]; [apply Hm|]. by exists a, (with_world_env e s). Qed.
Lemma clears_for_each {A} (P : A -> ending -> Prop) (l : list A) body :
  (forall x s s', shrinks s s' -> P x s -> P x s') -> (forall x, x ∈ l -> clears (P x) (body x)) ->
  clears (fun s => forall x, x ∈ l -> P x s) (for_each l body).
Proof.
  intros Hmono. induction l as [|x l IH]; intros Hb s.
  - exists tt, s. split_and!; [done|done|]. intros x Hx. by apply not_elem_of_nil in Hx.
  - destruct (Hb x ltac:(left) s) as ([] & s1 & H1 & Hs1 & Hx).
    destruct (IH ltac:(intros y Hy; apply Hb; by right) s1) as ([] & s2 & H2 & Hs2 & Hl).
    exists tt, s2. cbn [for_each]. rewrite (bind_ok _ _ _ _ _ H1). split_and!; [done|by transitivity s1|].
    intros y Hy. apply elem_of_cons in Hy as [->|Hy]; [by eapply Hmono|by apply Hl].
Qed.

(** Objects of the world: a call that only sends commands *)
Lemma fine_on_env {A} (m : M env A) w : fine m -> exists a e, on_env m w = (Ok a, put_env e w).
Proof. intros Hm. unfold on_env, zoom. destruct (Hm (w_env w)) as (a & e & ->). by exists a, e. Qed.
Lemma put_env_put_env e e' w : put_env e (put_env e' w) = put_env e w.
Proof. done. Qed.
Lemma put_env_self w : put_env (w_env w) w = w.
Proof. by destruct w. Qed.

Context (Hw : willing).

Lemma remove_disks_fine n w : exists e,
  remove_disks n w = (Ok tt, World e (w_hosts w) (alter (set_disks []) n (w_nodes w)) (w_volumes w) (w_resources w)).
Proof.
  unfold remove_disks. mred. cbn [gets].
  match goal with |- exists e, match for_each _ ?b w with _ => _ end = _ => assert (Hl : forall ds w, exists e, for_each ds b w = (Ok tt, put_env e w)) end.
  { induction ds as [|v ds IH]; intros w0; [exists (w_env w0); cbn [for_each]; by rewrite put_env_self|]. cbn [for_each]. mred. cbn [gets].
    assert (Hd : forall o w1, exists e, (match o with Some d => on_env (remove (node_info w n) d) | None => mret tt end) w1 = (Ok tt, put_env e w1)).
    { intros [d|] w1; [|by exists (w_env w1); rewrite put_env_self]. destruct (fine_on_env (remove (node_info w n) d) w1) as ([] & e & Hd); [by apply fine_remove|by exists e]. }
    destruct (Hd (disk_volume (volume_at w0 v)) w0) as [e1 He1]. cbv [mret M_ret] in He1. rewrite He1.
    destruct (Hd (meta_volume (volume_at w0 v)) (put_env e1 w0)) as [e2 He2]. cbv [mret M_ret] in He2.
    change (volume_at (put_env e1 w0) v) with (volume_at w0 v). rewrite He2.
    destruct (IH (put_env e2 (put_env e1 w0))) as [e3 ->]. by exists e3. }
  destruct (Hl (n_disks (node_at w n)) w) as [e ->]. by exists e.
Qed.

Lemma node_cleanup_clears n : clears (fun s => n_disks (node_at (e_world s) n) = []) (node_cleanup n).
Proof.
  intros s. unfold node_cleanup. rewrite (bind_ok get _ s s s) by done.
  unfold on_e_world, zoom. mred. cbn beta.
  match goal with |- context [on_env (run ?x ?c) (e_world s)] => destruct (fine_on_env (run x c) (e_world s)) as ([] & e & ->); [by apply fine_run|] end.
  cbn [e_world].
  destruct (remove_disks_fine n (put_env e (e_world s))) as [e' ->].
  eexists tt, _. split; [done|].
  assert (Hn : forall k, n_disks (default no_node (alter (set_disks []) n (w_nodes (e_world s)) !! k)) =
    if decide (k = n) then [] else n_disks (node_at (e_world s) k)).
  { intros k. case_decide as Hk; [subst|by rewrite list_lookup_alter_ne].
    rewrite list_lookup_alter_eq. by destruct (w_nodes (e_world s) !! n). }
  unfold shrinks, node_at, host_at. cbn [e_world e_dmesg w_env w_nodes w_resources w_hosts put_env]. split; [split_and!; try done|by rewrite Hn, decide_True].
  intros k Hk. rewrite Hn. by case_decide.
Qed.

Lemma host_cleanup_clears h : clears (fun s => storage_pool (host_at (e_world s) h) = None) (host_cleanup h).
Proof.
  intros s. unfold host_cleanup. rewrite (bind_ok get _ s s s) by done.
  destruct (storage_pool (host_at (e_world s) h)) as [p|] eqn:Hp; [|by exists tt, s].
  cbn [when bool_decide is_Some_dec].
  unfold on_e_world, zoom, host_remove_storage_pool. mred. cbn [gets]. rewrite Hp.
  destruct (fine_on_env (remove_pool (info (host_at (e_world s) h)) p) (e_world s)) as ([] & e & ->); [by apply fine_remove_pool|].
  eexists tt, _. split; [done|].
  assert (Hn : forall k, storage_pool (default no_host (alter (set_pool None) h (w_hosts (e_world s)) !! k)) =
    if decide (k = h) then None else storage_pool (host_at (e_world s) k)).
  { intros k. case_decide as Hk; [subst|by rewrite list_lookup_alter_ne].
    rewrite list_lookup_alter_eq. by destruct (w_hosts (e_world s) !! h). }
  unfold shrinks, node_at, host_at. cbn [e_world e_dmesg w_env w_nodes w_resources w_hosts put_env]. split; [split_and!; try done|by rewrite Hn, decide_True].
  - apply length_alter.
  - intros k Hk. rewrite Hn. by case_decide.
Qed.
End shrinks.

(** ** Lemmas: the handlers *)

(** The copies of the kernel logs and the connections are left alone. *)
Definition logs_kept (s s' : ending) : Prop := e_closed s' = e_closed s /\ e_dmesg s' = e_dmesg s.
#[export] Instance logs_kept_preorder : PreOrder logs_kept.
Proof. split; [by intros s|]. unfold logs_kept. intros a b c. naive_solver congruence. Qed.
Section handlers.
Context `{SshServer} `{KernelLog} (selinux_debug : bool).

Lemma on_e_world_logs {A} (m : M world A) : keeps logs_kept (on_e_world m).
Proof. intros s. unfold on_e_world, zoom. by destruct (m (e_world s)). Qed.
Lemma on_e_host_env_only {A} h (m : host_info -> M env A) : keeps env_only (on_e_host h m).
Proof. intros s. destruct (on_e_host_env h m s) as (r & e & -> & _). by exists e. Qed.
Lemma host_cleanup_logs h : keeps logs_kept (host_cleanup h).
Proof. apply keeps_bind; [apply _|apply keeps_get; apply _|intros s]. apply keeps_when; [apply _|]. apply on_e_world_logs. Qed.
Lemma node_cleanup_logs n : keeps logs_kept (node_cleanup n).
Proof.
  apply keeps_bind; [apply _|apply keeps_get; apply _|intros s].
  apply keeps_bind; [apply _|apply on_e_world_logs|intros _; apply on_e_world_logs].
Qed.
Lemma resource_cleanup_logs skip r : keeps logs_kept (resource_cleanup skip r).
Proof.
  apply keeps_when; [apply _|]. apply keeps_bind; [apply _|apply keeps_get; apply _|intros s].
  apply keeps_for_each; [apply _|]. intros n _. apply node_cleanup_logs.
Qed.

Lemma run_handlers_map {A} (f : A -> M ending unit) l s :
  run_handlers (map f l) s = for_each l (fun x => try_except (f x) (fun _ => mret tt)) s.
Proof.
  revert s. induction l as [|x l IH]; intros s; [done|]. cbn [map run_handlers for_each]. mred.
  destruct (try_except _ _ s) as [[]]; [apply IH|done].
Qed.
Lemma run_handlers_app (l : list (M ending unit)) c s s1 :
  run_handlers l s = (Ok tt, s1) -> run_handlers (l ++ [c]) s = (Ok tt, snd (c s1)).
Proof.
  revert s. induction l as [|x l IH]; intros s; cbn [app run_handlers].
  - intros [= ->]. unfold try_except. mred. by destruct (c s1) as [[[]|e] s2].
  - mred. unfold try_except. destruct (x s) as [[[]|e] s2]; apply IH.
Qed.
Lemma clears_try {A} (P : ending -> Prop) (m : M ending A) h : clears P m -> clears P (try_except m h).
Proof. intros Hm s. destruct (Hm s) as (a & s' & Hs & HP). exists a, s'. split; [|done]. unfold try_except. by rewrite Hs. Qed.

(** The connection of one host is closed after its process has been stopped. *)
Definition let_go (hs : list nat) (s s' : ending) : Prop :=
  env_only s s' /\ e_closed s' = e_closed s ++ hs /\
  (forall h, dmesg_first (e_dmesg s' h) = dmesg_first (e_dmesg s h) /\
     (dmesg_process (e_dmesg s' h) = true -> dmesg_process (e_dmesg s h) = true)) /\
  forall h, h ∈ hs -> dmesg_process (e_dmesg s' h) = false.
Lemma framework_lets_go h s : willing -> has_pid s h ->
  exists s', host_cleanup_framework selinux_debug h s = (Ok tt, s') /\ let_go [h] s s'.
Proof.
  intros Hw Hpid. unfold host_cleanup_framework. destruct (stop_dmesg_spec h s) as [Hs Hok]. specialize (Hok Hw Hpid).
  unfold wp in Hs. destruct (stop_dmesg h s) as [[[]|e] s1] eqn:H1; [|done]. rewrite (bind_ok _ _ _ _ _ H1).
  destruct Hs as [Hst _]. pose proof (stopped_logs h s s1) as Hd. specialize (fun h' => Hd h' Hst).
  destruct Hst as (He1 & Hc & _ & Hp).
  assert (H2 : exists e, when selinux_debug (on_e_host h (fun x =>
    let* _ := run_with x true true true false None ["cat"; "/var/log/audit/audit.log"] in mret tt)) s1 = (Ok tt, with_world_env e s1)).
  { destruct selinux_debug; cbn [when]; [|exists (w_env (e_world s1)); by destruct s1 as [[] ? ?]].
    match goal with |- context [on_e_host h ?m s1] => destruct (on_e_host_env h m s1) as (r & e & -> & Hr) end.
    destruct Hr as [[] ->]; [|by exists e]. apply fine_bind; [by apply fine_run_with|intros o; apply fine_ret]. }
  destruct H2 as [e2 H2]. rewrite (bind_ok _ _ _ _ _ H2).
  match goal with |- context [on_e_host h ?m] => destruct (on_e_host_env h m (with_world_env e2 s1)) as (r & e3 & H3 & Hr) end.
  destruct Hr as [[] ->]; [apply fine_when; by apply fine_linux_cleanup|]. rewrite (bind_ok _ _ _ _ _ H3).
  eexists. split; [done|]. split_and!; cbn.
  - destruct He1 as [e1 He1]. exists e3. by rewrite He1.
  - by rewrite Hc.
  - intros h'. apply (Hd h').
  - intros h' ->%list_elem_of_singleton. by rewrite Hp.
Qed.

Lemma frameworks_let_go hs s : willing -> (forall h, h ∈ hs -> has_pid s h) ->
  exists s', for_each hs (host_cleanup_framework selinux_debug) s = (Ok tt, s') /\ let_go hs s s'.
Proof.
  intros Hw. revert s. induction hs as [|h hs IH]; intros s Hpid.
  - exists s. split; [done|]. split_and!; [reflexivity|by rewrite app_nil_r|done|]. intros h Hh. by apply not_elem_of_nil in Hh.
  - destruct (framework_lets_go h s Hw (Hpid h ltac:(left))) as (s1 & H1 & He & Hc & Hd & Hp).
    destruct (IH s1) as (s2 & H2 & He' & Hc' & Hd' & Hp').
    { intros h' Hh'. unfold has_pid. destruct (Hd h') as [-> Hpr]. intros Hx. apply (Hpid h'); [by right|auto]. }
    exists s2. rewrite (for_each_ok _ _ _ _ _ H1). split; [done|]. split_and!.
    + by transitivity s1.
    + by rewrite Hc', Hc, <-app_assoc.
    + intros h'. destruct (Hd h'), (Hd' h'). split; [congruence|auto].
    + intros h' Hh'. apply elem_of_cons in Hh' as [->|Hh']; [|by apply Hp'].
      apply not_true_is_false. intros Hx. apply Hd' in Hx. rewrite (Hp h) in Hx by (by apply list_elem_of_singleton). done.
Qed.

(** What is left of the resources in a state *)
Definition disks_gone (r : nat) (s : ending) : Prop :=
  forall n, n ∈ items (r_nodes (resource_at (e_world s) r)) -> n_disks (node_at (e_world s) n) = [].
Lemma disks_gone_shrinks r s s' : shrinks s s' -> disks_gone r s -> disks_gone r s'.
Proof. intros (Hr & _ & Hn & _) Hd n. unfold resource_at. rewrite Hr. intros Hin. by apply Hn, Hd. Qed.
Lemma resource_cleanup_clears r : willing -> clears (disks_gone r) (resource_cleanup false r).
Proof.
  intros Hw s. unfold resource_cleanup. cbn [when negb]. rewrite (bind_ok get _ s s s) by done.
  destruct (clears_for_each (fun n s => n_disks (node_at (e_world s) n) = []) (items (r_nodes (resource_at (e_world s) r))) node_cleanup)
    with (s := s) as ([] & s' & Hs & Hsh & Hn).
  - intros n s0 s1 (_ & _ & Hn & _). apply Hn.
  - intros n _. by apply node_cleanup_clears.
  - exists tt, s'. split_and!; [done|done|]. intros n. destruct Hsh as (Hr & _). unfold resource_at. rewrite Hr. apply Hn.
Qed.
Lemma resources_cleanup_clear rs s : willing ->
  exists s', run_handlers (map (resource_cleanup false) rs) s = (Ok tt, s') /\ shrinks s s' /\ forall r, r ∈ rs -> disks_gone r s'.
Proof.
  intros Hw. rewrite run_handlers_map.
  destruct (clears_for_each disks_gone rs (fun x => try_except (resource_cleanup false x) (fun _ => mret tt))) with (s := s)
    as ([] & s' & Hs & Hsh & Hr); [intros; by eapply disks_gone_shrinks|intros r _; by apply clears_try, resource_cleanup_clears|].
  by exists s'.
Qed.
Lemma resources_cleanup_skipped rs s : run_handlers (map (resource_cleanup true) rs) s = (Ok tt, s).
Proof. induction rs as [|r rs IH]; [done|]. cbn [map run_handlers]. mred. apply IH. Qed.
Lemma hosts_cleanup_clear skip hs s : willing ->
  exists s', when (negb skip) (for_each hs host_cleanup) s = (Ok tt, s') /\ shrinks s s' /\ logs_kept s s' /\
    if skip then s' = s else forall h, h ∈ hs -> storage_pool (host_at (e_world s') h) = None.
Proof.
  intros Hw. destruct skip; cbn [negb when]; [by exists s|].
  destruct (clears_for_each (fun h s => storage_pool (host_at (e_world s) h) = None) hs host_cleanup) with (s := s)
    as ([] & s' & Hs & Hsh & Hp); [intros h s0 s1 (_ & _ & _ & Hp & _); apply Hp|intros h _; by apply host_cleanup_clears|].
  exists s'. split_and!; [done..| |done].
  pose proof (keeps_for_each logs_kept hs host_cleanup ltac:(intros h _; apply host_cleanup_logs) s) as Hl. by rewrite Hs in Hl.
Qed.
Lemma resources_cleanup_logs skip rs : keeps logs_kept (run_handlers (map (resource_cleanup skip) rs)).
Proof.
  intros s. rewrite run_handlers_map. revert s. apply keeps_for_each; [apply _|]. intros r _.
  apply keeps_try; [apply _|apply resource_cleanup_logs|intros _; apply keeps_ret; apply _].
Qed.
End handlers.

(** *** Storage pools that cannot be removed *)

Section stuck.
Context `{SshServer} (h : nat) (x : host_info) (p : pool).

(** The host [h] has the pool [p]. *)
Definition has_pool (s : ending) : Prop :=
  info (host_at (e_world s) h) = x /\ storage_pool (host_at (e_world s) h) = Some p.
Definition keeps_pool (s s' : ending) : Prop := has_pool s -> has_pool s'.
#[local] Instance keeps_pool_preorder : PreOrder keeps_pool.
Proof. split; [intros s Hs; exact Hs|]. intros a b c Hab Hbc Ha. by apply Hbc, Hab. Qed.

Lemma on_e_world_pool {A} (m : M world A) : keeps (fun w w' => w_hosts w' = w_hosts w) m -> keeps keeps_pool (on_e_world m).
Proof.
  intros Hm s. unfold on_e_world, zoom. specialize (Hm (e_world s)). destruct (m (e_world s)) as [r w'].
  unfold keeps_pool, has_pool, host_at. cbn in *. by rewrite Hm.
Qed.
Lemma remove_disks_hosts n : keeps (fun w w' => w_hosts w' = w_hosts w) (remove_disks n).
Proof.
  assert (Hpre : PreOrder (fun w w' : world => w_hosts w' = w_hosts w)) by (split; [done|intros a b c; congruence]).
  assert (Henv : forall B (m : M env B), keeps (fun w w' => w_hosts w' = w_hosts w) (on_env m)).
  { intros B m w. by destruct (keeps_on_env m w) as [-> _]. }
  apply keeps_bind; [done|by apply keeps_gets|intros disks]. apply keeps_bind; [done|by apply keeps_gets|intros y].
  apply keeps_bind; [done| |by intros _ w].
  apply keeps_for_each; [done|]. intros v _. apply keeps_bind; [done|by apply keeps_gets|intros d].
  apply keeps_bind; [done|destruct (disk_volume d); [apply Henv|by apply keeps_ret]|intros _].
  destruct (meta_volume d); [apply Henv|by apply keeps_ret].
Qed.
Lemma resource_cleanup_hosts r s :
  length (w_hosts (e_world (snd (resource_cleanup false r s)))) = length (w_hosts (e_world s)).
Proof.
  revert s. assert (Hpre : PreOrder (fun s s' => length (w_hosts (e_world s')) = length (w_hosts (e_world s)))) by (split; [done|intros a b c; congruence]).
  assert (Hzoom : forall B (m : M world B), keeps (fun w w' => w_hosts w' = w_hosts w) m ->
    keeps (fun s s' => length (w_hosts (e_world s')) = length (w_hosts (e_world s))) (on_e_world m)).
  { intros B m Hm s. unfold on_e_world, zoom. specialize (Hm (e_world s)). destruct (m (e_world s)) as [y w']. cbn in *. by rewrite Hm. }
  change (keeps (fun s s' => length (w_hosts (e_world s')) = length (w_hosts (e_world s))) (resource_cleanup false r)).
  apply keeps_when; [done|]. apply keeps_bind; [done|by apply keeps_get|intros s].
  apply keeps_for_each; [done|]. intros n _. apply keeps_bind; [done|by apply keeps_get|intros s'].
  apply keeps_bind; [done|apply Hzoom; intros w; apply keeps_on_env|intros _; apply Hzoom, remove_disks_hosts].
Qed.
Lemma resource_cleanup_pool skip r : keeps keeps_pool (resource_cleanup skip r).
Proof.
  apply keeps_when; [apply _|]. apply keeps_bind; [apply _|apply keeps_get; apply _|intros s].
  apply keeps_for_each; [apply _|]. intros n _. apply keeps_bind; [apply _|apply keeps_get; apply _|intros s'].
  apply keeps_bind; [apply _|apply on_e_world_pool; intros w; by destruct (keeps_on_env (run (node_info (e_world s') n)
    ["bash"; "-c"; "! [ -e /proc/drbd ] || drbdsetup down " +:+ r_name (resource_at (e_world s') (n_resource (node_at (e_world s') n)))]) w) as [-> _]|].
  intros _. apply on_e_world_pool, remove_disks_hosts.
Qed.

Context (Hstuck : forall e, is_ok (fst (remove_pool x p e)) = false).
Lemma other_host_cleanup h' s : h' <> h -> has_pool s -> has_pool (snd (host_cleanup h' s)).
Proof.
  intros Hne [Hx Hp]. unfold host_cleanup. rewrite (bind_ok get _ s s s) by done.
  destruct (storage_pool (host_at (e_world s) h')) as [q|] eqn:Hq; [|done]. cbn [when bool_decide is_Some_dec].
  unfold on_e_world, zoom, host_remove_storage_pool. mred. cbn [gets]. rewrite Hq. unfold on_env, zoom.
  destruct (remove_pool _ q _) as [[[]|e] e']; cbn; [|done]. unfold has_pool, host_at in *. cbn.
  rewrite !list_lookup_alter_ne by done. done.
Qed.
Lemma stuck_host_cleanup s : has_pool s -> is_ok (fst (host_cleanup h s)) = false.
Proof.
  intros [Hx Hp]. unfold host_cleanup. rewrite (bind_ok get _ s s s) by done. rewrite Hp. cbn [when bool_decide is_Some_dec].
  unfold on_e_world, zoom, host_remove_storage_pool. mred. cbn [gets]. rewrite Hp, Hx. unfold on_env, zoom.
  specialize (Hstuck (w_env (e_world s))). by destruct (remove_pool x p _) as [[[]|e] e'].
Qed.
Lemma stuck_hosts_cleanup hs s : h ∈ hs -> has_pool s -> is_ok (fst (for_each hs host_cleanup s)) = false.
Proof.
  intros Hin Hp. revert s Hp. induction hs as [|h' hs IH]; intros s Hp; [by apply not_elem_of_nil in Hin|].
  cbn [for_each]. mred. destruct (decide (h' = h)) as [->|Hne].
  - pose proof (stuck_host_cleanup s Hp) as Hs. by destruct (host_cleanup h s) as [[[]|e] s1].
  - pose proof (other_host_cleanup h' s Hne Hp) as Hs. destruct (host_cleanup h' s) as [[[]|e] s1]; [|done].
    apply IH; [|done]. by apply elem_of_cons in Hin as [->|Hin].
Qed.

Lemma resources_cleanup_pool rs s : let '(r, s') := run_handlers (map (resource_cleanup false) rs) s in
  r = Ok tt /\ length (w_hosts (e_world s')) = length (w_hosts (e_world s)) /\ (has_pool s -> has_pool s').
Proof.
  rewrite run_handlers_map. revert s. induction rs as [|r rs IH]; intros s; [done|]. cbn [for_each]. mred.
  pose proof (resource_cleanup_pool false r s) as Hp. pose proof (resource_cleanup_hosts r s) as Hh.
  unfold try_except. destruct (resource_cleanup false r s) as [[[]|e] s1]; cbn in Hp, Hh;
    specialize (IH s1); destruct (for_each rs _ s1) as [r2 s2]; (split_and!; [apply IH|by etransitivity; [apply IH|]|intros Hx; by apply IH, Hp]).
Qed.
End stuck.

(** *** The two handlers together *)

Lemma at_exit_ends `{SshServer} `{KernelLog} selinux_debug mode (r : res unit) s :
  willing -> (forall h, h < length (w_hosts (e_world s)) -> has_pid s h) ->
  exists s', at_exit selinux_debug mode r s = (Ok tt, s') /\
    e_closed s' = e_closed s ++ seq 0 (length (w_hosts (e_world s))) /\
    (forall h, h < length (w_hosts (e_world s)) -> dmesg_process (e_dmesg s' h) = false) /\
    if skip_cleanup_after mode r then env_only s s'
    else (forall i, i < length (w_resources (e_world s)) -> disks_gone i s') /\
         forall h, h < length (w_hosts (e_world s)) -> storage_pool (host_at (e_world s') h) = None.
Proof.
  intros Hw Hpid. unfold at_exit. rewrite (bind_ok get _ s s s) by done. set (skip := skip_cleanup_after mode r). set (rs := rev _).
  assert (H1 : exists s1, run_handlers (map (resource_cleanup skip) rs) s = (Ok tt, s1) /\ shrinks s s1 /\ logs_kept s s1 /\
    if skip then s1 = s else forall i, i ∈ rs -> disks_gone i s1).
  { pose proof (resources_cleanup_logs skip rs s) as Hl. destruct skip.
    - rewrite resources_cleanup_skipped in Hl |- *. by exists s.
    - destruct (resources_cleanup_clear rs s Hw) as (s1 & H1 & Hs & Hd). rewrite H1 in Hl. by exists s1. }
  destruct H1 as (s1 & H1 & Hs1 & [Hc1 Hd1] & Hcase1). rewrite (run_handlers_app _ _ _ _ H1). eexists. split; [done|].
  unfold cluster_cleanup. rewrite (bind_ok get _ s1 s1 s1) by done. destruct Hs1 as (Hr1 & Hh1 & Hsh1). rewrite Hh1.
  set (hs := seq 0 (length (w_hosts (e_world s)))).
  destruct (hosts_cleanup_clear skip hs s1 Hw) as (s2 & H2 & Hs2 & [Hc2 Hd2] & Hcase2). rewrite (bind_ok _ _ _ _ _ H2).
  destruct (frameworks_let_go selinux_debug hs s2 Hw) as (s3 & H3 & He & Hc3 & Hd3 & Hp3).
  { intros h Hh%elem_of_seq. unfold has_pid. rewrite Hd2, Hd1. apply Hpid. lia. }
  rewrite H3. cbn [snd]. split_and!.
  - by rewrite Hc3, Hc2, Hc1.
  - intros h Hh. apply Hp3, elem_of_seq. lia.
  - destruct skip; [by subst s1 s2|]. destruct He as [e He]. split.
    + intros i Hi. unfold disks_gone. rewrite He. apply (disks_gone_shrinks i s1 s2 Hs2), Hcase1.
      unfold rs. rewrite list_elem_of_In, <-in_rev, in_seq. lia.
    + intros h Hh. rewrite He. apply Hcase2, elem_of_seq. lia.
Qed.

(** ** Properties *)

(** C40: [teardown] unloads the modules on every host and checks the kernel log
    of every host, whatever it finds on the others, and messages may come at any
    time: when it ends without another exception, the kernel log of no host is
    copied any longer, what has been copied of it has all that had been copied
    after the modules of the host were unloaded, and it has left the program
    with status 3 exactly when what is copied of at least one host holds a
    message that should not be there. *)
Theorem teardown_checks_every_host `{SshServer} `{KernelLog} no_rmmod validate_dmesg s r s' :
  (forall log c code, ssh log c <> Raise (SystemExit code)) ->
  cluster_teardown no_rmmod validate_dmesg s = (r, s') -> (forall e, r = Raise e -> ~ not_exit e) ->
  let hs := seq 0 (length (w_hosts (e_world s))) in
  let log := sent_log (w_env (e_world s)) in
  let bad h := validate_dmesg && existsb (fun p => has_sub p (dmesg_text (e_dmesg s' h))) dmesg_patterns in
  r = (if existsb bad hs then Raise (SystemExit 3) else Ok tt) /\
  forall h, h ∈ hs -> dmesg_process (e_dmesg s' h) = false /\
    exists new rest, sent_log (w_env (e_world s')) = log ++ new ++ rest /\
      (no_rmmod = false -> h_windows (e_info s h) = false -> rmmod_drbd (e_info s h) ∈ new) /\
      dmesg_text (e_dmesg s' h) = captured (e_dmesg s h) (log ++ new) (h_name (e_info s h)).
Proof.
  intros Hssh Hrun Hr hs log bad. pose proof (teardown_loop Hssh no_rmmod validate_dmesg s) as Hloop. cbv zeta in Hloop. fold hs in Hloop.
  unfold cluster_teardown in Hrun. rewrite (bind_ok get _ s s s) in Hrun by done. fold hs in Hrun. revert Hrun. mred. unfold wp in Hloop.
  destruct (fold_each _ _ _ s) as [[ok|e] s1]; [|intros [= <- <-]; by destruct (Hr e eq_refl)].
  destruct Hloop as (-> & _ & _ & Hp). rewrite negb_involutive. intros Hrun.
  assert (s1 = s') as -> by (destruct (existsb _ hs); by injection Hrun as _ <-).
  split; [|exact Hp]. unfold bad. destruct (existsb _ hs); by injection Hrun as <- .
Qed.

(** at the end of the program, on hosts that answer every command, the
    copies of the kernel logs are stopped and every connection is closed, the
    hosts in their order, however the test has ended; the disks and storage
    pools are all kept with [--cleanup never], and with [--cleanup success] if
    an exception other than [SystemExit] has ended the test, and otherwise all
    of them are gone. *)
Theorem cleanup_follows_the_option `{SshServer} `{KernelLog} selinux_debug mode (r : res unit) s :
  willing -> (forall h, h < length (w_hosts (e_world s)) -> has_pid s h) ->
  let kept := mode = CleanupNever \/ mode = CleanupSuccess /\ exists e, r = Raise e /\ not_exit e in
  exists s', at_exit selinux_debug mode r s = (Ok tt, s') /\
    e_closed s' = e_closed s ++ seq 0 (length (w_hosts (e_world s))) /\
    (forall h, h < length (w_hosts (e_world s)) -> dmesg_process (e_dmesg s' h) = false) /\
    (kept -> env_only s s') /\
    (~ kept -> (forall i, i < length (w_resources (e_world s)) -> disks_gone i s') /\
               forall h, h < length (w_hosts (e_world s)) -> storage_pool (host_at (e_world s') h) = None).
Proof.
  intros Hw Hpid kept.
  assert (Hk : kept <-> skip_cleanup_after mode r = true).
  { unfold kept, skip_cleanup_after, hook_called. destruct mode, r as [[]|[]]; cbn; naive_solver. }
  destruct (at_exit_ends selinux_debug mode r s Hw Hpid) as (s' & Hs & Hc & Hp & Hcase). exists s'. split_and!; [done..| |].
  - intros Hkept%Hk. by rewrite Hkept in Hcase.
  - intros Hnot. rewrite Hk in Hnot. apply not_true_is_false in Hnot. by rewrite Hnot in Hcase.
Qed.

(** what the framework has changed on the hosts is not undone when the
    storage pool of one host cannot be removed: the exception ends the handler
    of the cluster before it reaches the first of them, so that the processes
    go on and no connection is closed, on any host. *)
Theorem failed_cleanup_skips_the_framework `{SshServer} `{KernelLog} selinux_debug mode (r : res unit) s h x p :
  h < length (w_hosts (e_world s)) -> has_pool h x p s -> (forall e, is_ok (fst (remove_pool x p e)) = false) ->
  skip_cleanup_after mode r = false ->
  logs_kept s (snd (at_exit selinux_debug mode r s)).
Proof.
  intros Hh Hp Hstuck Hskip. unfold at_exit. rewrite (bind_ok get _ s s s) by done. rewrite Hskip.
  set (rs := rev _).
  destruct (run_handlers (map (resource_cleanup false) rs) s) as [r1 s1] eqn:H1.
  pose proof (resources_cleanup_logs false rs s) as Hl. rewrite H1 in Hl.
  pose proof (resources_cleanup_pool h x p rs s) as Hrp. rewrite H1 in Hrp. destruct Hrp as (-> & Hhosts & Hp1).
  rewrite (run_handlers_app _ _ _ _ H1). transitivity s1; [done|]. cbn [snd].
  unfold cluster_cleanup. rewrite (bind_ok get _ s1 s1 s1) by done. cbn [negb when].
  pose proof (stuck_hosts_cleanup h x p Hstuck (seq 0 (length (w_hosts (e_world s1)))) s1 ltac:(apply elem_of_seq; lia) (Hp1 Hp)) as Hst.
  assert (Hkl : keeps logs_kept (for_each (seq 0 (length (w_hosts (e_world s1)))) host_cleanup)).
  { apply keeps_for_each; [apply _|]. intros h' _. apply host_cleanup_logs. }
  specialize (Hkl s1). mred. destruct (for_each _ host_cleanup s1) as [[[]|e] s2]; [|done].
  discriminate Hst.
Qed.

(** ** Witnesses *)

(** Two hosts with a resource of one volume, whose kernel log has its first line *)
Definition demo_dmesg (h : nat) : dmesg := Dmesg true true true (Some "4711") EmptyString.
Module DemoQuiet.
#[local] Instance quiet_server : SshServer := fun _ _ => Ok (0%Z, EmptyString).
(** The second host complains when its module is unloaded. *)
#[local] Instance demo_kernel_log : KernelLog := fun log name =>
  if bool_decide (name = "b") && existsb (fun c => bool_decide (s_host c = name /\ s_command c = "rmmod drbd")) log then "INFO: task blocked" else "drbd: loaded".
Definition demo_ending : ending :=
  Ending (snd (add_disk demo_globals "job" (fun s => s) 0 "10M" None None [] demo_args
    (MdFlags None false false false false) demo_resource)) demo_dmesg [].

Lemma teardown_checks_every_host_witness :
  fst (cluster_teardown false true demo_ending) = Raise (SystemExit 3) /\
  fst (cluster_teardown false false demo_ending) = Ok tt.
Proof.
  split.
  - refine (eq_trans (proj1 (teardown_checks_every_host false true demo_ending
      (fst (cluster_teardown false true demo_ending)) (snd (cluster_teardown false true demo_ending)) _ _ _)) _).
    + intros log c code. discriminate.
    + vm_compute. reflexivity.
    + intros e He. vm_compute in He. injection He as <-. intros [].
    + vm_compute. reflexivity.
  - vm_compute. reflexivity.
Defined.

Lemma cleanup_follows_the_option_witness :
  e_closed (snd (at_exit false CleanupSuccess (Raise (SystemExit 3)) demo_ending)) = [0; 1] /\
  n_disks (node_at (e_world demo_ending) 1) <> [] /\
  n_disks (node_at (e_world (snd (at_exit false CleanupSuccess (Raise (SystemExit 3)) demo_ending))) 1) = [].
Proof.
  destruct (cleanup_follows_the_option false CleanupSuccess (Raise (SystemExit 3)) demo_ending) as (s' & Hs & Hc & _ & _ & Hn).
  - intros log c. exists EmptyString. reflexivity.
  - intros h Hh _. exists "4711". reflexivity.
  - rewrite Hs. split_and!; [exact Hc|vm_compute; discriminate|]. cbn [snd].
    destruct Hn as [Hd _]; [intros [He|[_ (e & He & Hx)]]; [discriminate|injection He as <-; exact Hx]|].
    assert (Hr : w_resources (e_world s') = w_resources (e_world demo_ending)).
    { assert (Hs' : s' = snd (at_exit false CleanupSuccess (Raise (SystemExit 3)) demo_ending)) by (rewrite Hs; reflexivity).
      rewrite Hs'. vm_compute. reflexivity. }
    apply (Hd 0); [vm_compute; lia|]. unfold resource_at. rewrite Hr. vm_compute. right. left.
Defined.
End DemoQuiet.

Module DemoStuck.
#[local] Existing Instance DemoQuiet.demo_kernel_log.
#[local] Instance stuck_server : SshServer := fun _ c =>
  Ok (if has_sub "vgremove" (s_command c) then 5%Z else 0%Z, EmptyString).

Lemma failed_cleanup_skips_the_framework_witness :
  e_closed (snd (at_exit false CleanupAlways (Ok tt) DemoQuiet.demo_ending)) = [] /\
  dmesg_process (e_dmesg (snd (at_exit false CleanupAlways (Ok tt) DemoQuiet.demo_ending)) 1) = true.
Proof.
  destruct (failed_cleanup_skips_the_framework false CleanupAlways (Ok tt) DemoQuiet.demo_ending 0
    (demo_info "a" "10.0.0.1") (LvmPool false None)) as [Hc Hd].
  - vm_compute. lia.
  - split; vm_compute; reflexivity.
  - intros e. cbn [remove_pool]. rewrite run_answer. vm_compute. reflexivity.
  - reflexivity.
  - split; [exact Hc|]. rewrite Hd. vm_compute. reflexivity.
Defined.
End DemoStuck.
