(* ===== verification/Creation.v ===== *)
(** * The commands that make disks (src/python/disktools.py)

    Which of the commands sent to a host make a disk, and which disk: whatever
    [create_disk] makes is the volume that it returns, with its layers.  The
    file [Storage] uses it to show that [add_disk] remembers every disk that it
    makes. *)

From S2P Require Import Prelude PyStr Dict Host Disktools World Config Collections Cluster ConfigFiles.
#[local] Open Scope nat_scope.

(** The words of a command that makes a disk: a logical volume that is not the
    pool itself, a virtual disk, a partition, a ZFS volume or a target of the
    device mapper *)
Definition makes_disk (ws : list string) : bool :=
  bool_decide (take 2 ws = ["lvcreate"; "--name"] /\ (ws !! 3 = Some "--size" \/ ws !! 3 = Some "--virtualsize")) ||
  bool_decide (take 3 ws = ["./linstor-wmi-helper"; "virtual-disk"; "create"]) ||
  bool_decide (head ws = Some "sgdisk") && startswith "--new=0:" (default EmptyString (ws !! 1)) ||
  bool_decide (take 2 ws = ["zfs"; "create"]) ||
  bool_decide (take 2 ws = ["dmsetup"; "create"]).
(** These words make this volume, or one of the layers it is on. *)
Fixpoint creates (d : disk_vol) (ws : list string) : Prop :=
  match d with
  | LvmVolume name _ size => exists option rest, ws = ["lvcreate"; "--name"; name; option; size] ++ rest
  | StorageSpacesVolume name _ => exists dev rest, ws = ["./linstor-wmi-helper"; "virtual-disk"; "create"; dev; name] ++ rest
  | RawVolume dev guid _ start _ => exists size, ws = ["sgdisk"; "--new=0:" +:+ start +:+ ":+" +:+ size; "--partition-guid=0:" +:+ guid; dev]
  | ZfsVolume dataset_name => exists size rest, ws = ["zfs"; "create"; "-V"; size; dataset_name] ++ rest
  | DeviceMapper _ device_name _ backing_volume => ws = ["dmsetup"; "create"; device_name] \/ creates backing_volume ws
  end.

(** A command sent to the host with this information, and its words *)
Definition runs_on (x : host_info) (ws : list string) (s : sent) : Prop :=
  s_host s = h_name x /\ s_command s = command_string x true false ws.
(** A command on the host which makes no disk but those of [ds] *)
Definition by_host (x : host_info) (ds : list disk_vol) (s : sent) : Prop :=
  exists ws, runs_on x ws s /\ (makes_disk ws = true -> exists d, d ∈ ds /\ creates d ws).

Lemma sends_mono (P Q : sent -> Prop) e e' : (forall s, P s -> Q s) -> sends P e e' -> sends Q e e'.
Proof. intros HPQ (l & Hl & HP). exists l. split; [done|]. by eapply Forall_impl. Qed.
Lemma by_host_more x ds ds' s : ds ⊆ ds' -> by_host x ds s -> by_host x ds' s.
Proof. intros Hs (ws & Hr & Hm). exists ws. split; [done|]. intros Hw. destruct (Hm Hw) as (d & Hd & Hc). exists d. split; [by apply Hs|done]. Qed.
Lemma sends_more x ds ds' e e' : ds ⊆ ds' -> sends (by_host x ds) e e' -> sends (by_host x ds') e e'.
Proof. intros Hs. apply sends_mono. intros s. by apply by_host_more. Qed.
Lemma sends_same P e e' : sent_log e' = sent_log e -> sends P e e'.
Proof. intros Hl. exists []. by rewrite Hl, app_nil_r. Qed.

(** ** What the operations on disks make *)

Section making.
Context `{SshServer} (x : host_info).

Lemma makes_run_with ds catch ret stdin cmd : (makes_disk cmd = true -> exists d, d ∈ ds /\ creates d cmd) ->
  keeps (sends (by_host x ds)) (run_with x true catch ret false stdin cmd).
Proof. intros Hc e. rewrite run_with_answer. eexists [_]. split; [done|]. apply Forall_singleton. by exists cmd. Qed.
Lemma makes_run ds cmd : (makes_disk cmd = true -> exists d, d ∈ ds /\ creates d cmd) -> keeps (sends (by_host x ds)) (run x cmd).
Proof. intros Hc. apply keeps_bind; [exact _|by apply makes_run_with|intros o]. apply keeps_ret. exact _. Qed.
Lemma makes_run_out ds cmd : (makes_disk cmd = true -> exists d, d ∈ ds /\ creates d cmd) -> keeps (sends (by_host x ds)) (run_out x cmd).
Proof. intros Hc. apply keeps_bind; [exact _|by apply makes_run_with|intros o]. apply keeps_ret. exact _. Qed.
Lemma makes_run_in ds cmd stdin : (makes_disk cmd = true -> exists d, d ∈ ds /\ creates d cmd) -> keeps (sends (by_host x ds)) (run_in x cmd stdin).
Proof. intros Hc. apply keeps_bind; [exact _|by apply makes_run_with|intros o]. apply keeps_ret. exact _. Qed.
Lemma sends_uuid ds f : keeps (sends (by_host x ds)) (modify (fun e => Env (sent_log e) (f e))).
Proof. intros e. by apply sends_same. Qed.

(** Operations that make no disk *)
Ltac solve_plain :=
  repeat lazymatch goal with
  | |- keeps _ (mbind _ _) => apply keeps_bind; [exact _| |intros ?]
  | |- keeps _ (when _ _) => apply keeps_when; [exact _|]
  | |- keeps _ (mret _) => apply keeps_ret; exact _
  | |- keeps _ (raise _) => apply keeps_raise; exact _
  | |- keeps _ (lift _) => apply keeps_lift; exact _
  | |- keeps _ (gets _) => apply keeps_gets; exact _
  | |- keeps _ (py_assert _) => apply keeps_assert; exact _
  | |- keeps _ (run _ _) => apply makes_run; discriminate
  | |- keeps _ (run_out _ _) => apply makes_run_out; discriminate
  | |- keeps _ (modify _) => apply sends_uuid
  | |- keeps _ (match _ with _ => _ end) => case_match
  end.
Lemma plain_refresh dev : keeps (sends (by_host x [])) (refresh_partitions x dev).
Proof. unfold refresh_partitions. solve_plain. Qed.
Lemma pool_is_no_disk args : makes_disk (["lvcreate"; h_volume_group x; "--thinpool"; "drbdthinpool"; "--extents"; "100%FREE"] ++ args) = false.
Proof.
  unfold makes_disk. rewrite bool_decide_eq_false_2; [done|]. cbn. intros [_ [?|?]]; discriminate.
Qed.
Lemma plain_create_pool backend dev thin gran : keeps (sends (by_host x [])) (create_storage_pool x backend dev thin gran).
Proof.
  assert (Hp : forall args, keeps (sends (by_host x [])) (run x (["lvcreate"; h_volume_group x; "--thinpool"; "drbdthinpool"; "--extents"; "100%FREE"] ++ args))).
  { intros args. apply makes_run. by rewrite pool_is_no_disk. }
  unfold create_storage_pool. destruct (decide (backend = "lvm")).
  - apply keeps_bind; [exact _|apply makes_run; discriminate|intros _]. apply keeps_bind; [exact _| |intros _; apply keeps_ret; exact _].
    apply keeps_when; [exact _|apply Hp].
  - solve_plain.
Qed.
Lemma plain_create_md name vnr mp bbs f : keeps (sends (by_host x [])) (create_md x name vnr mp bbs f).
Proof. unfold create_md, drbdmeta_supports_uuid_options. cbv zeta. solve_plain. Qed.

(** One command after the other, in an operation that succeeds *)
Lemma wp_sends {A B} P (m : M env A) (f : A -> M env B) Q e : keeps (sends P) m ->
  (forall a e', sends P e e' -> wp (f a) Q (fun _ _ => True) e') -> wp (m ≫= f) Q (fun _ _ => True) e.
Proof. intros Hm Hf. apply wp_bind. by apply (wp_keeps (sends P)). Qed.
Lemma keeps_runs_on cmd : keeps (sends (runs_on x cmd)) (run x cmd).
Proof. intros e. rewrite run_answer. eexists [_]. split; [done|]. by apply Forall_singleton. Qed.
Lemma keeps_runs_on_in cmd stdin : keeps (sends (runs_on x cmd)) (run_in x cmd stdin).
Proof. intros e. rewrite run_in_answer. eexists [_]. split; [done|]. by apply Forall_singleton. Qed.
(** A command that makes [d], and others that make none *)
Lemma made_first d cmd e e1 e2 : creates d cmd -> sends (runs_on x cmd) e e1 -> sends (by_host x []) e1 e2 -> sends (by_host x [d]) e e2.
Proof.
  intros Hc H1 H2. transitivity e1.
  - revert H1. apply sends_mono. intros s Hs. exists cmd. split; [done|]. intros _. exists d. split; [by left|done].
  - apply (sends_more x []); [|done]. intros d' Hd. by apply elem_of_nil in Hd.
Qed.
(** The volume returned is all that is made. *)
Definition makes (m : M env disk_vol) : Prop := forall e, wp m (fun d e' => sends (by_host x [d]) e e') (fun _ _ => True) e.

Lemma makes_lvm name size thin : makes (new_lvm_volume x name size thin).
Proof.
  intros e. unfold new_lvm_volume. eapply wp_sends; [apply keeps_runs_on|intros [] e1 H1]. apply wp_ret.
  eapply made_first; [|exact H1|done]. destruct thin; eexists _, _; reflexivity.
Qed.
Lemma makes_storage_spaces name size thin dev : makes (new_storage_spaces_volume x name size thin dev).
Proof.
  intros e. unfold new_storage_spaces_volume. apply wp_bind. unfold wp at 1, lift. destruct (size_in_bytes size) as [bytes|y]; [|done].
  eapply wp_sends; [apply keeps_runs_on|intros [] e1 H1].
  eapply (wp_sends (by_host x [])); [apply makes_run_out; discriminate|intros line e2 H2].
  eapply (wp_sends (by_host x [])); [apply keeps_lift; exact _|intros field e3 H3]. apply wp_ret.
  eapply made_first; [|exact H1|by transitivity e2]. eexists _, _. reflexivity.
Qed.
Lemma makes_raw uuid5 dev name size ms : makes (new_raw_volume uuid5 x dev name size ms).
Proof.
  intros e. unfold new_raw_volume. cbv zeta. eapply wp_sends; [apply keeps_runs_on|intros [] e1 H1].
  eapply (wp_sends (by_host x [])); [apply plain_refresh|intros [] e2 H2].
  eapply (wp_sends (by_host x [])); [apply makes_run_out; discriminate|intros part e3 H3]. apply wp_ret.
  eapply made_first; [|exact H1|by transitivity e2]. eexists. reflexivity.
Qed.
Lemma makes_zfs name size thin gran : makes (new_zfs_volume x name size thin gran).
Proof.
  intros e. unfold new_zfs_volume. cbv zeta. eapply wp_sends; [apply keeps_runs_on|intros [] e1 H1].
  eapply (wp_sends (by_host x [])); [apply makes_run; discriminate|intros [] e2 H2].
  eapply (wp_sends (by_host x [])); [apply makes_run; discriminate|intros [] e3 H3]. apply wp_ret.
  eapply made_first; [|exact H1|by transitivity e2]. eexists _, _. reflexivity.
Qed.
Lemma makes_pool uuid5 p name size ms : makes (pool_create_disk uuid5 x p name size ms).
Proof. destruct p; [apply makes_lvm|apply makes_storage_spaces|apply makes_raw|apply makes_zfs]. Qed.

(** A layer on a volume *)
Lemma makes_layer name b k e0 e : sends (by_host x [b]) e0 e ->
  wp (new_device_mapper x name b k) (fun d e' => sends (by_host x [d]) e0 e') (fun _ _ => True) e.
Proof.
  intros H0. unfold new_device_mapper. cbv zeta.
  eapply (wp_sends (by_host x [])); [apply makes_run_out; discriminate|intros sectors e1 H1].
  eapply wp_sends; [apply keeps_runs_on_in|intros [] e2 H2]. apply wp_ret. transitivity e.
  - revert H0. apply sends_mono. intros s (ws & Hr & Hm). exists ws. split; [done|]. intros Hw. destruct (Hm Hw) as (d & Hd & Hc).
    apply list_elem_of_singleton in Hd as ->. eexists. split; [by left|]. by right.
  - transitivity e1; [apply (sends_more x []); [|done]; intros d Hd; by apply elem_of_nil in Hd|].
    eapply made_first; [|exact H2|done]. by left.
Qed.
Lemma makes_create_disk uuid5 p name size ms delay lbs : makes (create_disk uuid5 x p name size ms delay lbs).
Proof.
  intros e. unfold create_disk. apply wp_bind. eapply wp_mono; [apply makes_pool| |done]. intros v e1 H1. apply wp_bind.
  apply (wp_mono _ (fun d e' => sends (by_host x [d]) e e') _ (fun _ _ => True)); [| |done].
  - destruct delay; [by apply makes_layer|by apply wp_ret].
  - intros v2 e2 H2. destruct lbs; [by apply makes_layer|by apply wp_ret].
Qed.
End making.
