(* ===== verification/Storage.v ===== *)
(** * The storage that a test creates and gives back (src/python/drbdtest.py)

    [Node.add_disk] creates disks, [Node.remove_disks] and the handlers at the
    end of the program remove them.  This file follows every disk through any
    sequence of operations of [HeapTypes], failing ones included, to the
    commands that take it down. *)

From S2P Require Import Prelude PyStr Dict OrderedSet Host HostSetup Disktools World Config Collections Cluster.
From S2P Require Import ConfigFiles HeapTypes Teardown Creation.

(** The disks of a volume, and the commands that remove them, in their order *)
Definition vol_disks (x : volume) : list disk_vol := option_list (disk_volume x) ++ option_list (meta_volume x).
Definition removals (h : host_info) (x : volume) : list sent :=
  map (sent_run h) (concat (map remove_commands (vol_disks x))).

Lemma removal_of_disk x h d : d ∈ vol_disks x -> map (sent_run h) (remove_commands d) `sublist_of` removals h x.
Proof.
  unfold removals. intros (l1 & l2 & ->)%list_elem_of_split. rewrite map_app, concat_app, !map_app. cbn [map concat]. rewrite map_app.
  by apply sublist_inserts_l, sublist_inserts_r.
Qed.

(** ** What an operation leaves alone *)

(** Commands may have been sent; the disks of the first [k] volumes stay. *)
Definition grows (k : nat) (w w' : world) : Prop :=
  sends (fun _ => True) (w_env w) (w_env w') /\
  forall v, v < k -> vol_disks (volume_at w' v) = vol_disks (volume_at w v).
#[export] Instance grows_preorder k : PreOrder (grows k).
Proof.
  split; [intros w; by split|]. intros a b c [H1 H2] [K1 K2].
  split; [by transitivity (w_env b)|]. intros v Hv. by rewrite K2, H2.
Qed.

(** How often a node is in a list *)
Definition times (n : nat) (ns : list nat) : nat := length (filter (fun m => m = n) ns).
Lemma times_app n ns ns' : times n (ns ++ ns') = times n ns + times n ns'.
Proof. unfold times. by rewrite filter_app, length_app. Qed.

Lemma times_fresh n ns : n ∉ ns -> times n ns = 0.
Proof. intros Hn. unfold times. induction ns as [|m ns IH]; [done|]. cbn. rewrite decide_False by set_solver. apply IH. set_solver. Qed.

(** What nodes, volumes and members refer to stays; new volumes may come, and
    each node of [ns] may get one at the end of its list. *)
Record added (ns : list nat) (w w' : world) : Prop := Added {
  ad_infos : map info (w_hosts w') = map info (w_hosts w);
  ad_nodes : length (w_nodes w') = length (w_nodes w);
  ad_host n : n_host (node_at w' n) = n_host (node_at w n);
  ad_prefix n : n_disks (node_at w n) `prefix_of` n_disks (node_at w' n);
  ad_length n : length (n_disks (node_at w' n)) <= length (n_disks (node_at w n)) + times n ns;
  ad_members r : r_nodes (resource_at w' r) = r_nodes (resource_at w r);
  ad_numbers r : num_volumes (resource_at w' r) = num_volumes (resource_at w r);
  ad_volumes : length (w_volumes w) <= length (w_volumes w');
  ad_volume v : v < length (w_volumes w) -> v_node (volume_at w' v) = v_node (volume_at w v)
}.
Lemma added_trans ns ns' a b c : added ns a b -> added ns' b c -> added (ns ++ ns') a c.
Proof.
  intros [] []. constructor; intros; try congruence; try lia.
  - by transitivity (n_disks (node_at b n)).
  - rewrite times_app. specialize (ad_length0 n). specialize (ad_length1 n). lia.
  - rewrite ad_volume1 by lia. by apply ad_volume0.
Qed.
Lemma added_more ns ns' w w' : (forall n, times n ns <= times n ns') -> added ns w w' -> added ns' w w'.
Proof. intros Hm []. constructor; try done. intros n. specialize (ad_length0 n). specialize (Hm n). lia. Qed.
(** Nothing is added. *)
Definition still : world -> world -> Prop := added [].
#[export] Instance still_preorder : PreOrder still.
Proof. split; [intros w; constructor; intros; try done; lia|]. intros a b c. apply (added_trans [] []). Qed.
Lemma still_disks w w' n : still w w' -> n_disks (node_at w' n) = n_disks (node_at w n).
Proof.
  intros Hs. symmetry. apply prefix_length_eq; [apply (ad_prefix [] w w' Hs)|]. pose proof (ad_length [] w w' Hs n) as Hl. cbn in Hl. lia.
Qed.

Lemma core_still w w' : same_core w w' -> still w w'.
Proof.
  intros Hc.
  assert (Hn : forall n, set_changed false (node_at w' n) = set_changed false (node_at w n)).
  { intros n. by rewrite <-!core_node, Hc. }
  assert (Hv : forall v, bare_volume (volume_at w' v) = bare_volume (volume_at w v)).
  { intros v. by rewrite <-!core_volume, Hc. }
  assert (Hd : forall n, n_disks (node_at w' n) = n_disks (node_at w n)) by (intros n; by injection (Hn n)).
  unfold same_core, core in Hc. injection Hc as Hh Hns Hvs Hr. constructor; intros; rewrite ?Hd; try done; try lia.
  - apply (f_equal (map info)) in Hh. by rewrite !map_map in Hh.
  - apply (f_equal length) in Hns. by rewrite !length_map in Hns.
  - by injection (Hn n).
  - unfold resource_at. by rewrite Hr.
  - unfold resource_at. by rewrite Hr.
  - apply (f_equal length) in Hvs. rewrite !length_map in Hvs. lia.
  - by injection (Hv v).
Qed.
Lemma keeps_still {A} (m : M world A) : keeps same_core m -> keeps still m.
Proof. intros Hm w. apply core_still, Hm. Qed.

(** ** Operations that grow *)

Section grows.
Context `{SshServer} (g : globals) (job : string) (uuid5 : string -> string) (k : nat).

Lemma sends_any_run_with h quote catch ret ign stdin cmd : keeps (sends (fun _ => True)) (run_with h quote catch ret ign stdin cmd).
Proof. intros e. rewrite run_with_answer. eexists [_]. split; [done|]. by apply Forall_singleton. Qed.
Lemma sends_any h {A} (m : M env A) : keeps (sends (storage_cmd h)) m -> keeps (sends (fun _ => True)) m.
Proof.
  intros Hm e. destruct (Hm e) as (l & Hl & _). exists l. split; [done|]. apply Forall_forall. done.
Qed.
Lemma sends_any_run h cmd : keeps (sends (fun _ => True)) (run h cmd).
Proof. apply (sends_any h), sends_run. Qed.
Lemma sends_any_run_in h cmd text : keeps (sends (fun _ => True)) (run_in h cmd text).
Proof. apply keeps_bind; [exact _|apply sends_any_run_with|intros o]. apply keeps_ret; exact _. Qed.
Lemma sends_any_remove h d : keeps (sends (fun _ => True)) (remove h d).
Proof.
  induction d; cbn [remove]; try apply sends_any_run. apply keeps_bind; [exact _|apply sends_any_run|by intros _].
Qed.
Lemma sends_any_remove_pool h p : keeps (sends (fun _ => True)) (remove_pool h p).
Proof. destruct p; cbn [remove_pool]; first [apply sends_any_run|apply keeps_ret; exact _]. Qed.

Lemma grows_on_env {A} (m : M env A) : keeps (sends (fun _ => True)) m -> keeps (grows k) (on_env m).
Proof. intros Hm w. unfold on_env, zoom. specialize (Hm (w_env w)). by destruct (m (w_env w)). Qed.
Lemma grows_same (m : M world unit) : (forall w, w_env (snd (m w)) = w_env w /\ w_volumes (snd (m w)) = w_volumes w) -> keeps (grows k) m.
Proof. intros Hm w. destruct (Hm w) as [He Hv]. unfold grows, volume_at. rewrite He, Hv. by split. Qed.
Lemma grows_set_node n f : keeps (grows k) (set_node n f).
Proof. by apply grows_same. Qed.
Lemma grows_set_host h f : keeps (grows k) (set_host h f).
Proof. by apply grows_same. Qed.
Lemma grows_set_resource r f : keeps (grows k) (set_resource r f).
Proof. by apply grows_same. Qed.
Lemma grows_set_volume v f w : k <= v \/ (forall x, vol_disks (f x) = vol_disks x) -> grows k w (snd (set_volume v f w)).
Proof.
  intros Hf. split; [done|]. intros u Hu. unfold volume_at. cbn. destruct (decide (u = v)) as [->|Hne].
  - rewrite list_lookup_alter_eq. destruct (w_volumes w !! v); [|done]. destruct Hf; [lia|cbn; auto].
  - by rewrite list_lookup_alter_ne.
Qed.
Lemma grows_new_volume vnr m n : keeps (grows k) (new_volume (NewVolume vnr m n None None None)).
Proof.
  intros w. split; [done|]. intros v _. unfold volume_at. cbn.
  destruct (decide (v < length (w_volumes w))); [by rewrite lookup_app_l|].
  rewrite (lookup_ge_None_2 (w_volumes w)) by lia. rewrite lookup_app_r by lia.
  destruct (v - length (w_volumes w)) as [|i]; [done|]. by destruct i.
Qed.
Lemma grows_new_node x : keeps (grows k) (new_node x).
Proof. intros w. by split. Qed.
Lemma grows_new_resource x : keeps (grows k) (new_resource x).
Proof. intros w. by split. Qed.
End grows.

(** [known] solves the calls of operations that are already known to grow. *)
Ltac solve_grows known :=
  repeat lazymatch goal with
  | |- keeps _ (mbind _ _) => apply keeps_bind; [exact _| |intros ?]
  | |- keeps _ (when _ _) => apply keeps_when; [exact _|]
  | |- keeps _ (for_each _ _) => apply keeps_for_each; [exact _|intros ? _]
  | |- keeps _ (mret _) => apply keeps_ret; exact _
  | |- keeps _ (raise _) => apply keeps_raise; exact _
  | |- keeps _ (gets _) => apply keeps_gets; exact _
  | |- keeps _ get => apply keeps_get; exact _
  | |- keeps _ (lift _) => apply keeps_lift; exact _
  | |- keeps _ (on_env (run _ _)) => apply grows_on_env, sends_any_run
  | |- keeps _ (on_env (run_in _ _ _)) => apply grows_on_env, sends_any_run_in
  | |- keeps _ (on_env (create_storage_pool _ _ _ _ _)) => eapply grows_on_env, sends_any, sends_create_storage_pool
  | |- keeps _ (on_env (create_disk _ _ _ _ _ _ _ _)) => eapply grows_on_env, sends_any, sends_create_disk
  | |- keeps _ (on_env (create_md _ _ _ _ _ _)) => eapply grows_on_env, sends_any, sends_create_md
  | |- keeps _ (on_env (remove _ _)) => apply grows_on_env, sends_any_remove
  | |- keeps _ (on_env (remove_pool _ _)) => apply grows_on_env, sends_any_remove_pool
  | |- keeps _ (set_node _ _) => apply grows_set_node
  | |- keeps _ (set_host _ _) => apply grows_set_host
  | |- keeps _ (set_resource _ _) => apply grows_set_resource
  | |- keeps _ (new_node _) => apply grows_new_node
  | |- keeps _ (new_volume _) => apply grows_new_volume
  | |- keeps _ (new_resource _) => apply grows_new_resource
  | |- keeps _ (match _ with _ => _ end) => case_match
  | |- keeps _ _ => known
  end.

Section operations.
Context `{SshServer} (g : globals) (job : string) (uuid5 : string -> string) (k : nat).

Lemma grows_create_pool h thin gran : keeps (grows k) (host_create_storage_pool h thin gran).
Proof. unfold host_create_storage_pool. solve_grows fail. Qed.
Lemma grows_update_config n : keeps (grows k) (update_config g job n).
Proof. unfold update_config. solve_grows fail. Qed.
Lemma grows_node_run n cmd : keeps (grows k) (node_run g job n cmd).
Proof. unfold node_run. solve_grows ltac:(apply grows_update_config). Qed.
Lemma grows_drbdadm n cmd : keeps (grows k) (drbdadm g job n cmd).
Proof. unfold drbdadm. solve_grows ltac:(apply grows_node_run). Qed.
Lemma grows_create_md v mp bbs f : keeps (grows k) (volume_create_md g job v mp bbs f).
Proof. unfold volume_create_md. solve_grows ltac:(apply grows_drbdadm). Qed.
Lemma grows_touch_config r : keeps (grows k) (touch_config r).
Proof. unfold touch_config. solve_grows fail. Qed.
Lemma grows_add_to_nodes r n : keeps (grows k) (add_to_nodes r n).
Proof. intros w. unfold add_to_nodes. destruct (coll_add _ _ _) as [x s]. apply (grows_set_resource k r (set_r_nodes s) w). Qed.
Lemma grows_add_connection n0 n1 : keeps (grows k) (add_connection n0 n1).
Proof.
  intros w. unfold add_connection. destruct (new_connection _ _ _) as [c|e]; [|cbn; reflexivity].
  destruct (coll_add _ _ _) as [x s]. apply (grows_set_node k n0 (set_connections s) w).
Qed.
Lemma grows_create_resource name tr tls : keeps (grows k) (create_resource name tr tls).
Proof. unfold create_resource, next_port, node_init, init_node. solve_grows ltac:(first [apply grows_add_to_nodes|apply grows_add_connection]). Qed.
Lemma grows_remove_disks n : keeps (grows k) (remove_disks n).
Proof. unfold remove_disks. solve_grows fail. Qed.
Lemma grows_remove_pools : keeps (grows k) cluster_remove_storage_pool.
Proof. unfold cluster_remove_storage_pool, host_remove_storage_pool. solve_grows fail. Qed.
End operations.

(** ** Operations that leave the lists alone *)

Lemma still_set_node n f : (forall x, n_host (f x) = n_host x) -> (forall x, n_disks (f x) = n_disks x) -> keeps still (set_node n f).
Proof.
  intros Hh Hd w. assert (Hat : forall m, n_host (node_at (snd (set_node n f w)) m) = n_host (node_at w m) /\
    n_disks (node_at (snd (set_node n f w)) m) = n_disks (node_at w m)).
  { intros m. unfold node_at. cbn. destruct (decide (m = n)) as [->|Hne]; [|by rewrite list_lookup_alter_ne].
    rewrite list_lookup_alter_eq. destruct (w_nodes w !! n); [cbn; auto|done]. }
  constructor; intros; rewrite ?(proj1 (Hat _)), ?(proj2 (Hat _)); try done; [apply length_alter|lia].
Qed.
Lemma still_set_host h f : (forall x, info (f x) = info x) -> keeps still (set_host h f).
Proof. intros Hf w. constructor; try done; [by apply map_alter_same|intros n; exact (Nat.le_add_r _ _)]. Qed.
Lemma still_set_resource r f : (forall x, r_nodes (f x) = r_nodes x) -> (forall x, num_volumes (f x) = num_volumes x) -> keeps still (set_resource r f).
Proof.
  intros Hn Hv w. assert (Hat : forall q, r_nodes (resource_at (snd (set_resource r f w)) q) = r_nodes (resource_at w q) /\
    num_volumes (resource_at (snd (set_resource r f w)) q) = num_volumes (resource_at w q)).
  { intros q. unfold resource_at. cbn. destruct (decide (q = r)) as [->|Hne]; [|by rewrite list_lookup_alter_ne].
    rewrite list_lookup_alter_eq. destruct (w_resources w !! r); [cbn; auto|done]. }
  constructor; try done; [intros n; exact (Nat.le_add_r _ _)|apply Hat|apply Hat].
Qed.
Lemma still_new_volume x : keeps still (new_volume x).
Proof.
  intros w. constructor; try done; [intros n; exact (Nat.le_add_r _ _)|cbn; rewrite length_app; lia|].
  intros v Hv. unfold volume_at. cbn. by rewrite lookup_app_l.
Qed.
Lemma still_on_env {A} (m : M env A) : keeps still (on_env m).
Proof. apply keeps_still, keeps_core_on_env. Qed.
Lemma still_touch_config r : keeps still (touch_config r).
Proof.
  unfold touch_config. apply keeps_bind; [exact _|apply keeps_gets; exact _|intros ns].
  apply keeps_for_each; [exact _|]. intros n _. by apply still_set_node.
Qed.
Lemma still_set_options r net disk res handlers : keeps still (set_options r net disk res handlers).
Proof. apply keeps_bind; [exact _|by apply still_set_resource|intros _; apply still_touch_config]. Qed.
Lemma still_set_fencing n mode : keeps still (set_fencing_mode n mode).
Proof. by apply still_set_node. Qed.
Lemma still_remove_pools `{SshServer} : keeps still cluster_remove_storage_pool.
Proof.
  unfold cluster_remove_storage_pool. apply keeps_bind; [exact _|apply keeps_gets; exact _|intros hs].
  apply keeps_for_each; [exact _|]. intros h _. unfold host_remove_storage_pool. apply keeps_bind; [exact _|apply keeps_gets; exact _|intros x].
  destruct (storage_pool x); [|apply keeps_raise; exact _]. apply keeps_bind; [exact _|apply still_on_env|intros _]. by apply still_set_host.
Qed.

(** ** Adding disks *)

(** Every volume made since there were [b] is in the list of its node. *)
Definition listed (b : nat) (w : world) : Prop :=
  forall v, b <= v < length (w_volumes w) -> v ∈ n_disks (node_at w (v_node (volume_at w v))).
Lemma listed_added ns b w w' : added ns w w' -> length (w_volumes w') = length (w_volumes w) -> listed b w -> listed b w'.
Proof.
  intros [] Hl Hb v [Hv Hlt]. rewrite Hl in Hlt. rewrite ad_volume0 by done.
  eapply elem_of_prefix; [apply Hb; lia|apply ad_prefix0].
Qed.

Definition calm (k : nat) (w w' : world) : Prop := grows k w w' /\ still w w'.
#[export] Instance calm_preorder k : PreOrder (calm k).
Proof. split; [intros w; by split|]. intros a b c [H1 H2] [K1 K2]. split; by etransitivity. Qed.
Lemma keeps_calm {A} k (m : M world A) : keeps (grows k) m -> keeps still m -> keeps (calm k) m.
Proof. intros Hg Hs w. by split. Qed.
Lemma core_calm {A} k (m : M world A) : keeps (grows k) m -> keeps same_core m -> keeps (calm k) m.
Proof. intros Hg Hc. apply keeps_calm; [done|by apply keeps_still]. Qed.

Section adding.
Context `{SshServer} (g : globals) (job : string) (uuid5 : string -> string) (k : nat).

Lemma calm_create_disks v size a : k <= v -> keeps (calm k) (create_disks uuid5 v size a).
Proof.
  intros Hv. apply core_calm; [|apply keeps_create_disks].
  assert (Hd : forall suffix size ms, keeps (grows k) (volume_create_disk uuid5 v suffix size ms a)).
  { intros. unfold volume_create_disk. solve_grows fail. }
  assert (Hs : forall f, keeps (grows k) (set_volume v f)) by (intros f w; apply grows_set_volume; by left).
  unfold create_disks. solve_grows ltac:(first [apply Hd|apply Hs]).
Qed.
Lemma calm_volume_init n vnr minor : keeps (calm k) (volume_init n vnr minor).
Proof.
  apply keeps_calm; unfold volume_init, next_minor; [solve_grows fail|].
  apply keeps_bind; [exact _| |intros m; apply still_new_volume]. destruct minor; [apply keeps_ret; exact _|].
  apply keeps_bind; [exact _|apply keeps_gets; exact _|intros h]. apply keeps_bind; [exact _|by apply still_set_host|intros _; apply keeps_gets; exact _].
Qed.
Lemma volume_init_new n vnr minor w : wp (volume_init n vnr minor) (fun v _ => length (w_volumes w) <= v) (fun _ _ => True) w.
Proof. unfold wp, volume_init. destruct minor; exact (le_n _). Qed.

(** Until the volume is put into the list, the lists stay as they are. *)
Lemma node_add_disk_grows n vnr size a w : k <= length (w_volumes w) ->
  wp (node_add_disk g job uuid5 n vnr size a) (fun _ w' => grows k w w') (fun _ w' => calm k w w') w.
Proof.
  intros Hk. unfold node_add_disk. do 2 (apply wp_bind, wp_gets). apply wp_bind.
  apply (wp_keeps (calm k)); [apply keeps_when; [exact _|]; apply core_calm; [apply grows_create_pool|apply keeps_create_pool]| |done].
  intros [] w1 H1. do 2 (apply wp_bind, wp_gets). apply wp_bind.
  match goal with |- wp (volume_init ?n ?vnr ?minor) _ _ _ => pose proof (volume_init_new n vnr minor w1) as Hv; pose proof (calm_volume_init n vnr minor w1) as Hc;
    unfold wp in Hv |- * at 1; destruct (volume_init n vnr minor w1) as [[v|e] w2] end; cbn [snd] in Hc; [|by transitivity w1].
  assert (H2 : calm k w w2) by (by transitivity w1).
  assert (Hkv : k <= v) by (pose proof (ad_volumes [] w w1 (proj2 H1)); lia).
  apply wp_bind. apply (wp_keeps (calm k)).
  - destruct size as [size|]; [|apply keeps_ret; exact _]. apply keeps_bind; [exact _|by apply calm_create_disks|intros _].
    apply keeps_when; [exact _|]. apply keeps_bind; [exact _|apply keeps_gets; exact _|intros d].
    apply core_calm; [apply grows_node_run|apply keeps_node_run].
  - intros [] w3 H3. assert (H4 : grows k w w3) by (transitivity w2; [apply H2|apply H3]).
    apply wp_bind. unfold set_node at 1. apply wp_modify, wp_ret. transitivity w3; [done|].
    match goal with |- grows k w3 (World _ _ (alter ?f _ _) _ _) => apply (grows_set_node k n f w3) end.
  - intros e w3 H3. by transitivity w2.
Qed.

End adding.

(** What can be read from the core *)
Lemma core_reads w c : core w = c ->
  map info (w_hosts w) = map info (w_hosts c) /\ length (w_nodes w) = length (w_nodes c) /\ length (w_volumes w) = length (w_volumes c) /\
  (forall n, n_host (node_at w n) = n_host (node_at c n) /\ n_disks (node_at w n) = n_disks (node_at c n)) /\
  (forall v, v_node (volume_at w v) = v_node (volume_at c v)) /\ (forall r, resource_at w r = resource_at c r).
Proof.
  intros <-. split_and!.
  - unfold core. cbn [w_hosts]. by rewrite map_map.
  - unfold core. cbn [w_nodes]. by rewrite length_map.
  - unfold core. cbn [w_volumes]. by rewrite length_map.
  - intros n. by rewrite core_node.
  - intros v. by rewrite core_volume.
  - done.
Qed.
Lemma core_add_disk_adds vnr w w' n : n < length (w_nodes w) -> length (n_disks (node_at w n)) <= vnr ->
  core w' = core_add_disk vnr (core w) n ->
  added [n] w w' /\ length (w_volumes w') = S (length (w_volumes w)) /\
  v_node (volume_at w' (length (w_volumes w))) = n /\ n_disks (node_at w' n) = n_disks (node_at w n) ++ [length (w_volumes w)].
Proof.
  intros Hn Hl Hc. destruct (core_reads w _ eq_refl) as (A1 & A2 & A3 & A4 & A5 & A6).
  destruct (core_reads w' _ Hc) as (B1 & B2 & B3 & B4 & B5 & B6).
  destruct (core_add_disk_frame vnr (core w) n) as (F1 & F2 & F3 & F4 & F5 & F6).
  destruct (core_add_disk_disks vnr (core w) n ltac:(lia)) as [D1 D2].
  rewrite <-(proj2 (A4 n)) in D1, D2. rewrite decide_True in D1 by done. rewrite <-A3 in D1, D2.
  assert (Hd : n_disks (node_at w' n) = n_disks (node_at w n) ++ [length (w_volumes w)]) by (by rewrite (proj2 (B4 n))).
  assert (Ho : forall m, m <> n -> n_disks (node_at w' m) = n_disks (node_at w m)).
  { intros m Hm. by rewrite (proj2 (B4 m)), F5, <-(proj2 (A4 m)). }
  assert (Hv : length (w_volumes w') = S (length (w_volumes w))).
  { rewrite B3, A3. unfold core_add_disk. cbn [w_volumes]. rewrite length_app. cbn. lia. }
  split_and!; [constructor|done|by rewrite B5, D2|done].
  - rewrite B1, A1. unfold core_add_disk. cbn [w_hosts]. rewrite <-(proj2 (A4 n)), (lookup_ge_None_2 _ _ Hl). by apply map_alter_same.
  - by rewrite B2, F1.
  - intros m. by rewrite (proj1 (B4 m)), F4, <-(proj1 (A4 m)).
  - intros m. destruct (decide (m = n)) as [->|Hm]; [rewrite Hd; by apply prefix_app_r|by rewrite Ho].
  - intros m. destruct (decide (m = n)) as [->|Hm]; [|rewrite Ho by done; lia].
    rewrite Hd, length_app. unfold times. cbn. rewrite decide_True by done. cbn. lia.
  - intros r. rewrite B6, A6. unfold resource_at. by rewrite F3.
  - intros r. rewrite B6, A6. unfold resource_at. by rewrite F3.
  - lia.
  - intros v Hlt. rewrite B5, F6, <-A5 by lia. done.
Qed.
Lemma listed_new ns b w w' n : added ns w w' -> length (w_volumes w') = S (length (w_volumes w)) ->
  v_node (volume_at w' (length (w_volumes w))) = n -> length (w_volumes w) ∈ n_disks (node_at w' n) -> listed b w -> listed b w'.
Proof.
  intros [] Hl Hv Hin Hb v [H1 H2]. rewrite Hl in H2. destruct (decide (v = length (w_volumes w))) as [->|Hne]; [by rewrite Hv|].
  rewrite ad_volume0 by lia. eapply elem_of_prefix; [apply Hb; lia|apply ad_prefix0].
Qed.

(** The state once the next number has been taken *)
Definition taken (r : nat) (w : world) : world := snd (next_volume r w).
Lemma taken_members r w : r_nodes (resource_at (taken r w) r) = r_nodes (resource_at w r).
Proof. unfold taken, next_volume, gets, set_resource, modify, resource_at. mred. cbn [snd w_resources]. rewrite list_lookup_alter_eq. by destruct (w_resources w !! r). Qed.
Lemma member_of_resource w r n : n ∈ items (r_nodes (resource_at w r)) -> r < length (w_resources w).
Proof.
  intros Hn. destruct (decide (r < length (w_resources w))); [done|]. unfold resource_at in Hn.
  rewrite lookup_ge_None_2 in Hn by lia. by apply not_elem_of_nil in Hn.
Qed.

Section adds.
Context `{SshServer} (g : globals) (job : string) (uuid5 : string -> string) (k : nat).

(** The volume is put at the end of the list of its node. *)
Lemma node_add_disk_adds n vnr size a w : k <= length (w_volumes w) -> n < length (w_nodes w) ->
  n_host (node_at w n) < length (w_hosts w) -> length (n_disks (node_at w n)) <= vnr -> 
  wp (node_add_disk g job uuid5 n vnr size a)
    (fun _ w' => grows k w w' /\ added [n] w w' /\ forall b, listed b w -> listed b w') (fun _ w' => calm k w w') w.
Proof.
  intros Hk Hn Hh Hl. pose proof (node_add_disk_grows g job uuid5 k n vnr size a w Hk) as Hg.
  pose proof (node_add_disk_core g job uuid5 n vnr size a w Hh) as Hc. unfold ok_or, wp in Hg, Hc |- *.
  destruct (node_add_disk _ _ _ _ _ _ _ w) as [[v|e] w']; [|done]. destruct Hc as [_ Hc]. split; [done|].
  destruct (core_add_disk_adds vnr w w' n Hn Hl Hc) as (Ha & Hv & Hvn & Hd). split; [done|]. intros b.
  eapply listed_new; [done..|]. rewrite Hd. apply elem_of_app. right. by apply list_elem_of_singleton.
Qed.

(** Every member gets a volume, unless a command fails. *)
(** One turn of the loop of [add_disk], after the nodes of [visited] *)
Definition after_some (w w1 : world) (visited : list nat) (w' : world) : Prop :=
  grows k w w' /\ added visited w1 w' /\ listed (length (w_volumes w)) w'.
Lemma add_disk_turn w w1 n vnr size a visited w' : k <= length (w_volumes w1) -> n < length (w_nodes w1) ->
  n_host (node_at w1 n) < length (w_hosts w1) -> length (n_disks (node_at w1 n)) <= vnr -> n ∉ visited -> after_some w w1 visited w' ->
  wp (node_add_disk g job uuid5 n vnr size a) (fun _ => after_some w w1 (visited ++ [n])) (fun _ w'' => grows k w w'' /\ added visited w1 w'') w'.
Proof.
  intros Hk Hn Hh Hle Hin (Hg & Ha & Hb). eapply wp_mono; [apply node_add_disk_adds| |]; cbn.
  - pose proof (ad_volumes _ _ _ Ha). by etransitivity.
  - by rewrite (ad_nodes _ _ _ Ha).
  - rewrite (ad_host _ _ _ Ha). pose proof (f_equal length (ad_infos _ _ _ Ha)) as Hl. rewrite !length_map in Hl. by rewrite Hl.
  - pose proof (ad_length _ _ _ Ha n) as Hl. rewrite times_fresh in Hl by done. lia.
  - intros v w'' (Hg' & Ha' & Hb'). split_and!; [by transitivity w'|by apply (added_trans _ _ _ w')|by apply Hb'].
  - intros e w'' [Hg' Hs]. split; [by transitivity w'|]. rewrite <-(app_nil_r visited). by apply (added_trans _ _ _ w').
Qed.
Lemma create_mds_calm vs mp bbs f : keeps (fun w w' => calm k w w' /\ length (w_volumes w') = length (w_volumes w))
  (for_each vs (fun v => let* n := gets (fun w => v_node (volume_at w v)) in volume_create_md g job v mp (d_get n bbs) f)).
Proof.
  assert (Hmd : keeps same_core (for_each vs (fun v => let* n := gets (fun w => v_node (volume_at w v)) in volume_create_md g job v mp (d_get n bbs) f))).
  { apply keeps_for_each; [exact _|]. intros v _. apply keeps_bind; [exact _|apply keeps_gets; exact _|intros n]. apply keeps_volume_create_md. }
  intros w. split; [apply core_calm; [solve_grows ltac:(apply grows_create_md)|exact Hmd]|].
  specialize (Hmd w). unfold same_core, core in Hmd. injection Hmd as _ _ Hmd _.
  apply (f_equal length) in Hmd. by rewrite !length_map in Hmd.
Qed.
Lemma add_disk_adds r size dn mp bbs a f w : well_typed w -> k <= length (w_volumes w) ->
  NoDup (items (r_nodes (resource_at w r))) ->
  (forall n, n ∈ items (r_nodes (resource_at w r)) -> length (n_disks (node_at w n)) <= num_volumes (resource_at w r)) ->
  let post w' := grows k w w' /\ added (items (r_nodes (resource_at w r))) (taken r w) w' in
  wp (add_disk g job uuid5 r size dn mp bbs a f) (fun _ w' => post w' /\ listed (length (w_volumes w)) w') (fun _ => post) w.
Proof.
  intros Hw Hk Hnd Hle post. unfold add_disk. apply wp_bind.
  assert (Hnext : next_volume r w = (Ok (num_volumes (resource_at w r)), taken r w)) by done.
  unfold wp at 1. rewrite Hnext. set (w1 := taken r w). set (vnr := num_volumes (resource_at w r)) in *.
  set (ns := items (r_nodes (resource_at w r))) in *.
  assert (Hns : elems (r_nodes (resource_at w1 r)) = ns) by exact (f_equal items (taken_members r w)).
  assert (Hmore : forall visited todo w', ns = visited ++ todo -> added visited w1 w' -> added ns w1 w').
  { intros visited todo w' ->. apply added_more. intros n. rewrite times_app. lia. }
  apply wp_bind, wp_gets. rewrite Hns. apply wp_bind.
  eapply wp_mono; [apply (wp_map_each ns _ (after_some w w1) (fun _ => post))| |done].
  - split_and!; [apply (grows_set_resource k r)|exact (still_preorder.(PreOrder_Reflexive) w1)|].
    intros v [H1 H2]. exact (False_ind _ (Nat.lt_irrefl _ (Nat.le_lt_trans _ _ _ H1 H2))).
  - intros visited n todo w' Heq Hsome. assert (Hin : n ∈ ns) by (rewrite Heq; apply elem_of_app; right; left).
    destruct (wt_member w Hw r n (member_of_resource w r n Hin) Hin) as [Hlt _]. destruct (wt_node w Hw n Hlt) as [Hh _].
    assert (Hfresh : n ∉ visited).
    { rewrite Heq in Hnd. apply NoDup_app in Hnd as (_ & Hnd & _). intros Hv. by eapply Hnd; [|left]. }
    destruct (match dn with Some l => bool_decide (n ∈ l) | None => true end); apply wp_bind;
      (eapply wp_mono; [by apply (add_disk_turn w w1 n vnr); try apply Hle| |]); try (intros v w'' Hi; by apply wp_ret);
      intros e w'' [Hg Ha]; split; try done; by apply (Hmore visited (n :: todo)).
  - intros vs w2 (Hg & Ha & Hb). apply wp_bind.
    assert (Hpost : forall w3, calm k w2 w3 -> post w3).
    { intros w3 [Hg3 Hs3]. split; [by transitivity w2|]. rewrite <-(app_nil_r ns). by apply (added_trans _ _ _ w2). }
    eapply (wp_keeps _ _ _ _ _ (create_mds_calm (concat vs) mp bbs f)); [|intros e w3 [H3 _]; by apply Hpost].
    intros [] w3 [H3 Hl3]. apply wp_ret. split; [by apply Hpost|]. eapply listed_added; [apply H3|done..].
Qed.
End adds.

(** ** Every disk that is made is recorded *)

(** A command on a host of the cluster which has made no disk but those that are
    recorded for the volumes made since there were [b], on their nodes' hosts *)
Definition recorded_by (b : nat) (w : world) (s : sent) : Prop :=
  exists x ws, x ∈ map info (w_hosts w) /\ runs_on x ws s /\
    (makes_disk ws = true -> exists v d, b <= v < length (w_volumes w) /\ d ∈ vol_disks (volume_at w v) /\ creates d ws /\
       node_info w (v_node (volume_at w v)) = x).
Definition all_recorded (b : nat) (w0 w : world) : Prop := sends (recorded_by b w) (w_env w0) (w_env w).
(** What is recorded stays so. *)
Definition later (w w' : world) : Prop := grows (length (w_volumes w)) w w' /\ exists ns, added ns w w'.
Lemma added_info ns w w' n : added ns w w' -> node_info w' n = node_info w n.
Proof. intros Ha. unfold node_info, node_host. by rewrite (ad_host _ _ _ Ha), !host_at_info, (ad_infos _ _ _ Ha). Qed.
Lemma recorded_later b w0 w w' : later w w' -> all_recorded b w0 w -> sends (recorded_by b w') (w_env w) (w_env w') -> all_recorded b w0 w'.
Proof.
  intros [[_ Hd] (ns & Ha)] H0 H1. unfold all_recorded. transitivity (w_env w); [|done]. revert H0. apply sends_mono.
  intros s (x & ws & Hx & Hr & Hm). exists x, ws. rewrite (ad_infos _ _ _ Ha). split_and!; [done..|]. intros Hw.
  destruct (Hm Hw) as (v & d & [H2 H3] & Hin & Hc & Hi). pose proof (ad_volumes _ _ _ Ha). exists v, d.
  rewrite Hd by done. rewrite (ad_volume _ _ _ Ha v H3), (added_info _ _ _ _ Ha). split_and!; [done|lia|done..].
Qed.
Lemma host_known w h : h < length (w_hosts w) -> info (host_at w h) ∈ map info (w_hosts w).
Proof.
  intros Hh. unfold host_at. destruct (lookup_lt_is_Some_2 _ _ Hh) as [x Hx]. rewrite Hx. cbn.
  apply list_elem_of_fmap_2. by eapply list_elem_of_lookup_2.
Qed.
Lemma by_host_recorded b w n v s : n_host (node_at w n) < length (w_hosts w) -> b <= v < length (w_volumes w) -> v_node (volume_at w v) = n ->
  by_host (node_info w n) (vol_disks (volume_at w v)) s -> recorded_by b w s.
Proof.
  intros Hh Hv Hn (ws & Hr & Hm). exists (node_info w n), ws. split; [by apply host_known|]. split; [done|]. intros Hw.
  destruct (Hm Hw) as (d & Hd & Hc). exists v, d. by rewrite Hn.
Qed.
Lemma plain_recorded b w n s : n_host (node_at w n) < length (w_hosts w) -> by_host (node_info w n) [] s -> recorded_by b w s.
Proof.
  intros Hh (ws & Hr & Hm). exists (node_info w n), ws. split; [by apply host_known|]. split; [done|]. intros Hw.
  destruct (Hm Hw) as (d & Hd & _). by apply elem_of_nil in Hd.
Qed.

Section recording.
Context `{SshServer} (g : globals) (job : string) (uuid5 : string -> string).

(** The commands that an operation on the node [n] sends to its host *)
Definition logs (n : nat) (ds : list disk_vol) (w w' : world) : Prop := sends (by_host (node_info w n) ds) (w_env w) (w_env w').
Lemma logs_more n ds ds' w w' : ds ⊆ ds' -> logs n ds w w' -> logs n ds' w w'.
Proof. apply sends_more. Qed.
Lemma logs_trans n ds w w1 w' : node_info w1 n = node_info w n -> logs n ds w w1 -> logs n ds w1 w' -> logs n ds w w'.
Proof. unfold logs. intros ->. intros H1 H2. by transitivity (w_env w1). Qed.
Lemma logs_same n ds w w' : w_env w' = w_env w -> logs n ds w w'.
Proof. intros He. unfold logs. by rewrite He. Qed.
Lemma logs_on_env {A} n ds (m : M env A) w : keeps (sends (by_host (node_info w n) ds)) m -> logs n ds w (snd (on_env m w)).
Proof. intros Hm. unfold logs, on_env, zoom. specialize (Hm (w_env w)). by destruct (m (w_env w)). Qed.

Lemma logs_create_pool n w thin gran : logs n [] w (snd (host_create_storage_pool (n_host (node_at w n)) thin gran w)).
Proof.
  unfold host_create_storage_pool, gets. mred. set (h := n_host _). destruct (storage_pool (host_at w h)); [by apply logs_same|].
  pose proof (logs_on_env n [] (create_storage_pool (info (host_at w h)) (storage_backend (host_at w h)) (backing_device (host_at w h)) thin gran) w
    (plain_create_pool _ _ _ _ _)) as Hl. by destruct (on_env _ w) as [[p|e] w1].
Qed.
Lemma logs_update_config n w : logs n [] w (snd (update_config g job n w)).
Proof.
  unfold update_config, get, when. mred. destruct (config_changed (node_at w n)); [|by apply logs_same].
  unfold set_node, modify, lift. mred. destruct (config g w n) as [t|e]; [|by apply logs_same].
  unfold logs, on_env, zoom. cbn [fst snd w_env].
  pose proof (makes_run_in (node_info w n) [] ["bash"; "-c"; "cat > " +:+ drbd_config_file_path job w n] t ltac:(discriminate) (w_env w)) as Hs.
  by destruct (run_in _ _ _ (w_env w)).
Qed.
Lemma logs_node_run n cmd w : makes_disk cmd = false -> logs n [] w (snd (node_run g job n cmd w)).
Proof.
  intros Hc. unfold node_run, gets. mred. pose proof (logs_update_config n w) as Hu. pose proof (keeps_update_config g job n w) as Hk.
  destruct (update_config g job n w) as [[[]|e] w1]; [|done]. cbn [snd] in Hu, Hk. apply core_still in Hk.
  apply (logs_trans n [] w w1); [by apply (added_info [])|done|]. apply logs_on_env, makes_run. by rewrite Hc.
Qed.
Lemma logs_create_md v mp bbs f w : logs (v_node (volume_at w v)) [] w (snd (volume_create_md g job v mp bbs f w)).
Proof.
  unfold volume_create_md, get. mred. set (n := v_node _). set (m := create_md _ _ _ _ _ _).
  pose proof (logs_on_env n [] m w (plain_create_md _ _ _ _ _ _)) as Hl. pose proof (keeps_core_on_env m w) as Hk.
  destruct (on_env m w) as [[args|e] w1]; [|done]. cbn [snd] in Hl, Hk. apply core_still in Hk.
  apply (logs_trans n [] w w1); [by apply (added_info [])|done|]. unfold drbdadm, gets. mred. by apply logs_node_run.
Qed.
Lemma logs_create_disk v suffix size ms a w :
  wp (volume_create_disk uuid5 v suffix size ms a)
    (fun d w' => exists e, w' = put_env e w /\ sends (by_host (node_info w (v_node (volume_at w v))) [d]) (w_env w) e) (fun _ _ => True) w.
Proof.
  unfold volume_create_disk, wp, get. mred. set (h := n_host _). destruct (storage_pool (host_at w h)) as [p|]; [|done].
  unfold on_env, zoom. set (m := create_disk _ _ _ _ _ _ _ _). pose proof (makes_create_disk (info (host_at w h)) uuid5 p
    (r_name (resource_at w (n_resource (node_at w (v_node (volume_at w v))))) +:+ suffix +:+ str_nat (v_volume (volume_at w v))) size ms (delay_ms a)
    (logical_block_size a) (w_env w)) as Hm. fold m in Hm. unfold wp in Hm. destruct (m (w_env w)) as [[d|e] e']; [by exists e'|done].
Qed.
Lemma volume_at_set v f w : v < length (w_volumes w) -> volume_at (snd (set_volume v f w)) v = f (volume_at w v).
Proof. intros Hv. unfold volume_at. cbn. rewrite list_lookup_alter_eq. by destruct (lookup_lt_is_Some_2 _ _ Hv) as [x ->]. Qed.
Lemma logs_create_disks v size a w : v < length (w_volumes w) ->
  wp (create_disks uuid5 v size a) (fun _ w' => logs (v_node (volume_at w v)) (vol_disks (volume_at w' v)) w w') (fun _ _ => True) w.
Proof.
  intros Hv. set (n := v_node (volume_at w v)). unfold create_disks. apply wp_bind. eapply wp_mono; [apply logs_create_disk| |done]. fold n.
  intros d w1 (e & -> & H1). apply wp_bind. unfold set_volume at 1. apply wp_modify.
  match goal with |- wp _ _ _ ?x => change x with (snd (set_volume v (set_disk_volume (Some d)) (put_env e w))) end.
  set (w1 := snd (set_volume _ _ _)). assert (Hv1 : v < length (w_volumes w1)) by (unfold w1; cbn; by rewrite length_alter).
  assert (Hx : volume_at w1 v = set_disk_volume (Some d) (volume_at w v)) by exact (volume_at_set v _ (put_env e w) Hv).
  assert (Hd : [d] ⊆ vol_disks (volume_at w1 v)) by (rewrite Hx; unfold vol_disks; cbn; set_solver).
  destruct (truthy (meta_size a)); cbn [when]; [|apply wp_ret; by apply (logs_more n [d])].
  apply wp_bind. eapply wp_mono; [apply logs_create_disk| |done]. intros d' w2 (e' & -> & H2). unfold set_volume. apply wp_modify.
  match goal with |- logs _ _ _ ?x => change x with (snd (set_volume v (set_meta_volume (Some d')) (put_env e' w1))) end.
  set (w2 := snd (set_volume _ _ _)). assert (Hx2 : volume_at w2 v = set_meta_volume (Some d') (volume_at w1 v)) by exact (volume_at_set v _ (put_env e' w1) Hv1).
  assert (Hd2 : vol_disks (volume_at w2 v) = [d; d']) by (by rewrite Hx2, Hx). rewrite Hd2.
  apply (logs_trans n _ w w1); [done|apply (logs_more n [d]); [set_solver|exact H1]|].
  assert (Hn : v_node (volume_at w1 v) = n) by (by rewrite Hx). rewrite Hn in H2. apply (logs_more n [d']); [set_solver|exact H2].
Qed.
Lemma volume_init_at n vnr minor w :
  wp (volume_init n vnr minor) (fun v w' => v < length (w_volumes w') /\ v_node (volume_at w' v) = n /\ w_env w' = w_env w /\ still w w') (fun _ _ => True) w.
Proof.
  pose proof (calm_volume_init 0 n vnr minor w) as [_ Hs].
  assert (Hnew : forall m w1, let w2 := snd (new_volume (NewVolume vnr m n None None None) w1) in
    length (w_volumes w1) < length (w_volumes w2) /\ v_node (volume_at w2 (length (w_volumes w1))) = n).
  { intros m w1. unfold volume_at. cbn. rewrite length_app, lookup_app_r, Nat.sub_diag by done. split; [cbn; lia|done]. }
  unfold wp, volume_init, next_minor, gets, set_host, modify in *. destruct minor as [m|]; revert Hs; mred; intros Hs.
  - destruct (Hnew m w). by split_and!.
  - match goal with |- context [new_volume ?x ?w1] => destruct (Hnew (v_minor x) w1) end. by split_and!.
Qed.
(** All that [Node.add_disk] makes belongs to the volume that it returns. *)
Lemma logs_node_add_disk n vnr size a w :
  wp (node_add_disk g job uuid5 n vnr size a) (fun v w' => logs n (vol_disks (volume_at w' v)) w w') (fun _ _ => True) w.
Proof.
  unfold node_add_disk. do 2 (apply wp_bind, wp_gets). apply wp_bind.
  eapply (wp_mono _ (fun _ w1 => still w w1 /\ logs n [] w w1) _ (fun _ _ => True)); [| |done].
  { destruct (bool_decide _); cbn [when]; [|apply wp_ret; by split; [reflexivity|apply logs_same]].
    pose proof (logs_create_pool n w false None) as Hl. pose proof (core_still _ _ (keeps_create_pool (n_host (node_at w n)) false None w)) as Hc.
    unfold wp. by destruct (host_create_storage_pool _ _ _ w) as [[[]|e] w1]. }
  intros [] w1 [S1 H1]. do 2 (apply wp_bind, wp_gets). apply wp_bind. eapply wp_mono; [apply volume_init_at| |done].
  intros v w2 (Hv & Hn & He & S2). assert (S02 : still w w2) by (by transitivity w1).
  assert (H2 : logs n [] w w2) by (apply (logs_trans n [] w w1); [by apply (added_info [])|done|by apply logs_same]).
  apply wp_bind. eapply (wp_mono _ (fun _ w3 => logs n (vol_disks (volume_at w3 v)) w w3) _ (fun _ _ => True)); [| |done].
  - assert (Hmore : forall ds w3, logs n ds w2 w3 -> logs n ds w w3).
    { intros ds w3 H3. apply (logs_trans n ds w w2); [by apply (added_info [])|apply (logs_more n []); [set_solver|done]|done]. }
    destruct size as [size|]; [|apply wp_ret, Hmore; by apply logs_same].
    apply wp_bind. pose proof (logs_create_disks v size a w2 Hv) as Hc. pose proof (calm_create_disks uuid5 0 v size a (Nat.le_0_l _) w2) as [_ S3].
    rewrite Hn in Hc. unfold wp in Hc |- * at 1. destruct (create_disks _ _ _ _ w2) as [[[]|e] w3]; [|done]. apply Hmore in Hc.
    destruct (zero_out a); cbn [when]; [|by apply wp_ret]. apply wp_bind, wp_gets.
    match goal with |- wp (node_run g job n ?c) _ _ _ => pose proof (logs_node_run n c w3 eq_refl) as Hl; pose proof (grows_node_run g job (S v) n c w3) as [_ Hg] end.
    unfold wp. destruct (node_run _ _ _ _ w3) as [[[]|e] w4]; [|done]. cbn [snd] in *. rewrite Hg by lia.
    apply (logs_trans n _ w w3); [apply (added_info []); by transitivity w2|done|apply (logs_more n []); [set_solver|done]].
  - intros [] w3 H3. apply wp_bind. unfold set_node at 1. by apply wp_modify, wp_ret.
Qed.

Lemma recorded_more b b' w s : b <= b' -> recorded_by b' w s -> recorded_by b w s.
Proof.
  intros Hb (x & ws & Hx & Hr & Hm). exists x, ws. split_and!; [done..|]. intros Hw. destruct (Hm Hw) as (v & d & [H1 H2] & Hrest).
  exists v, d. split; [lia|done].
Qed.
Lemma node_add_disk_records n vnr size a w : n < length (w_nodes w) -> n_host (node_at w n) < length (w_hosts w) ->
  length (n_disks (node_at w n)) <= vnr ->
  wp (node_add_disk g job uuid5 n vnr size a) (fun v w' => grows (length (w_volumes w)) w w' /\ added [n] w w' /\
    v < length (w_volumes w') /\ v_node (volume_at w' v) = n /\
    sends (recorded_by (length (w_volumes w)) w') (w_env w) (w_env w')) (fun _ _ => True) w.
Proof.
  intros Hn Hh Hl. pose proof (node_add_disk_adds g job uuid5 (length (w_volumes w)) n vnr size a w (le_n _) Hn Hh Hl) as Ha.
  pose proof (node_add_disk_core g job uuid5 n vnr size a w Hh) as Hc. pose proof (logs_node_add_disk n vnr size a w) as Hs.
  unfold ok_or, wp in *. destruct (node_add_disk _ _ _ _ _ _ _ w) as [[v|e] w']; [|done]. destruct Hc as [-> Hc]. destruct Ha as (Hg & Ha & _).
  destruct (core_add_disk_adds vnr w w' n Hn Hl Hc) as (_ & Hlen & Hvn & _). split_and!; [done|done|lia|done|].
  assert (Hh' : n_host (node_at w' n) < length (w_hosts w')).
  { rewrite (ad_host _ _ _ Ha). pose proof (f_equal length (ad_infos _ _ _ Ha)) as Hi. rewrite !length_map in Hi. by rewrite Hi. }
  revert Hs. apply sends_mono. intros s. rewrite <-(added_info [n] w w' n Ha). apply by_host_recorded; [done|lia|done].
Qed.

(** The volumes that are given metadata, on hosts of the cluster *)
Definition placed (w : world) (v : nat) : Prop := v < length (w_volumes w) /\ n_host (node_at w (v_node (volume_at w v))) < length (w_hosts w).
Lemma placed_added ns w w' v : added ns w w' -> placed w v -> placed w' v.
Proof.
  intros Ha [H1 H2]. pose proof (ad_volumes _ _ _ Ha). pose proof (f_equal length (ad_infos _ _ _ Ha)) as Hi. rewrite !length_map in Hi.
  unfold placed. rewrite (ad_volume _ _ _ Ha v H1), (ad_host _ _ _ Ha), Hi. split; [lia|done].
Qed.
Lemma create_mds_record b w vs mp bbs f w2 : (forall v, v ∈ vs -> placed w2 v) -> all_recorded b w w2 ->
  wp (for_each vs (fun v => let* n := gets (fun w => v_node (volume_at w v)) in volume_create_md g job v mp (d_get n bbs) f))
    (fun _ => all_recorded b w) (fun _ _ => True) w2.
Proof.
  intros Hp H0. eapply wp_mono; [apply (wp_for_each _ _ (fun _ w3 => still w2 w3 /\ all_recorded b w w3) (fun _ _ => True))|by intros ? ? []|done].
  - by split.
  - intros visited v todo w3 -> [Hs Hr]. apply wp_bind, wp_gets. set (bb := d_get _ bbs).
    assert (Hv : placed w3 v) by (apply (placed_added [] w2); [done|]; apply Hp, elem_of_app; right; left).
    assert (Hc : calm (length (w_volumes w3)) w3 (snd (volume_create_md g job v mp bb f w3))).
    { apply core_calm; [apply grows_create_md|apply keeps_volume_create_md]. }
    pose proof (logs_create_md v mp bb f w3) as Hl. unfold wp. destruct (volume_create_md _ _ _ _ _ _ w3) as [[[]|e] w4]; [|done].
    cbn [snd] in *. destruct Hc as [Hg Hs4]. split; [by transitivity w3|].
    apply (recorded_later b w w3); [split; [done|by exists []]|done|].
    revert Hl. apply sends_mono. intros s. rewrite <-(added_info [] w3 w4 _ Hs4). apply plain_recorded.
    destruct (placed_added [] w3 w4 v Hs4 Hv) as [_ Hh]. by rewrite (ad_volume _ _ _ Hs4 v (proj1 Hv)) in Hh.
Qed.

(** All disks that [add_disk] makes are recorded for its volumes. *)
Lemma add_disk_records r size dn mp bbs a f w : well_typed w -> NoDup (items (r_nodes (resource_at w r))) ->
  (forall n, n ∈ items (r_nodes (resource_at w r)) -> length (n_disks (node_at w n)) <= num_volumes (resource_at w r)) ->
  wp (add_disk g job uuid5 r size dn mp bbs a f) (fun _ w' => all_recorded (length (w_volumes w)) w w') (fun _ _ => True) w.
Proof.
  intros Hw Hnd Hle. unfold add_disk. apply wp_bind.
  assert (Hnext : next_volume r w = (Ok (num_volumes (resource_at w r)), taken r w)) by done.
  unfold wp at 1. rewrite Hnext. set (w1 := taken r w). set (vnr := num_volumes (resource_at w r)) in *.
  set (ns := items (r_nodes (resource_at w r))) in *. set (b := length (w_volumes w)).
  assert (Hns : elems (r_nodes (resource_at w1 r)) = ns) by exact (f_equal items (taken_members r w)).
  apply wp_bind, wp_gets. rewrite Hns. apply wp_bind.
  pose (I := fun visited vs w' => added visited w1 w' /\ all_recorded b w w' /\ forall v, v ∈ concat vs -> placed w' v).
  eapply wp_mono; [apply (wp_map_each_with ns _ I (fun _ _ => True))| |done].
  - split_and!; [exact (still_preorder.(PreOrder_Reflexive) w1)|by apply sends_same|]. intros v Hv. by apply elem_of_nil in Hv.
  - intros visited vs n todo w' Heq (Ha & Hr & Hv). assert (Hin : n ∈ ns) by (rewrite Heq; apply elem_of_app; right; left).
    destruct (wt_member w Hw r n (member_of_resource w r n Hin) Hin) as [Hlt _]. destruct (wt_node w Hw n Hlt) as [Hh _].
    assert (Hfresh : n ∉ visited).
    { rewrite Heq in Hnd. apply NoDup_app in Hnd as (_ & Hnd & _). intros Hvis. by eapply Hnd; [|left]. }
    assert (Hstep : forall size a (diskful : bool), wp (let* v := node_add_disk g job uuid5 n vnr size a in mret (if diskful then [v] else []))
      (fun ys => I (visited ++ [n]) (vs ++ [ys])) (fun _ _ => True) w').
    { intros size' a' diskful. apply wp_bind. eapply wp_mono; [apply node_add_disk_records| |done].
      - by rewrite (ad_nodes _ _ _ Ha).
      - rewrite (ad_host _ _ _ Ha). pose proof (f_equal length (ad_infos _ _ _ Ha)) as Hi. rewrite !length_map in Hi. by rewrite Hi.
      - pose proof (ad_length _ _ _ Ha n) as Hl. rewrite times_fresh in Hl by done. specialize (Hle n Hin). change (node_at w1 n) with (node_at w n) in Hl. lia.
      - intros v w'' (Hg & Ha' & Hvl & Hvn & Hs). apply wp_ret. split_and!; [by apply (added_trans _ _ _ w')| |].
        + apply (recorded_later b w w'); [split; [done|by exists [n]]|done|]. revert Hs. apply sends_mono. intros s. apply recorded_more.
          apply (ad_volumes _ _ _ Ha).
        + intros u Hu. rewrite concat_app in Hu. apply elem_of_app in Hu as [Hu|Hu]; [by eapply placed_added; [|apply Hv]|].
          assert (u = v) as -> by (destruct diskful; [by apply list_elem_of_singleton in Hu|by apply elem_of_nil in Hu]).
          split; [done|]. rewrite Hvn, (ad_host _ _ _ Ha'), (ad_host _ _ _ Ha).
          pose proof (f_equal length (ad_infos _ _ _ Ha)) as Hi. pose proof (f_equal length (ad_infos _ _ _ Ha')) as Hi'. rewrite !length_map in Hi, Hi'.
          by rewrite Hi', Hi. }
    destruct (match dn with Some l => bool_decide (n ∈ l) | None => true end); [apply (Hstep (Some size) a true)|apply (Hstep None _ false)].
  - intros vs w2 (_ & Hr & Hv). apply wp_bind. eapply wp_mono; [by apply create_mds_record| |done]. intros [] w3 H3. by apply wp_ret.
Qed.
End recording.

(** A command determines its host and its words, when no two hosts have the same name. *)
Lemma recorded_command b w s x ws : NoDup (map h_name (map info (w_hosts w))) -> recorded_by b w s -> x ∈ map info (w_hosts w) -> runs_on x ws s ->
  makes_disk ws = true -> exists v d, b <= v < length (w_volumes w) /\ d ∈ vol_disks (volume_at w v) /\ creates d ws /\
    node_info w (v_node (volume_at w v)) = x.
Proof.
  intros Hnd (y & ws' & Hy & [Hh Hc] & Hm) Hx [Hh' Hc'] Hw.
  assert (y = x) as ->.
  { apply list_elem_of_lookup in Hx as [i Hi], Hy as [j Hj]. rewrite Hh in Hh'.
    assert (i = j) as <-; [|congruence]. eapply (NoDup_lookup _ i j (h_name x) Hnd); rewrite list_lookup_fmap; [by rewrite Hi|by rewrite Hj, <-Hh']. }
  rewrite Hc in Hc'. apply command_string_inj in Hc' as ->. by apply Hm.
Qed.

(** ** Removing disks *)

(** The commands for [d], when all of them have ended well *)
Definition sends_all (l : list sent) {A} (m : M env A) : Prop :=
  forall e, wp m (fun _ e' => sent_log e' = sent_log e ++ l) (fun _ _ => True) e.
Lemma sends_all_remove `{SshServer} h d : sends_all (map (sent_run h) (remove_commands d)) (remove h d).
Proof.
  intros e. destruct (runs_prefix _ _ _ _ _ (remove_runs h d e)) as (j & Hl & _ & Hall).
  unfold wp. destruct (remove h d e) as [[[]|x] e']; [|done]. cbn in Hl, Hall. by rewrite Hl, Hall.
Qed.

(** The disks of [ds] have been removed, in this order. *)
Definition removed (h : host_info) (ds : list nat) (w w' : world) : Prop :=
  exists e, w' = put_env e w /\ sent_log e = sent_log (w_env w) ++ concat (map (fun v => removals h (volume_at w v)) ds).

Section removing.
Context `{SshServer}.

Lemma wp_on_env {A} (m : M env A) l Q E w : sends_all l m ->
  (forall a e, sent_log e = sent_log (w_env w) ++ l -> Q a (put_env e w)) -> (forall x e, E x (put_env e w)) -> wp (on_env m) Q E w.
Proof.
  intros Hm HQ HE. unfold wp, on_env, zoom. specialize (Hm (w_env w)). unfold wp in Hm. destruct (m (w_env w)) as [[a|x] e]; [by apply HQ|apply HE].
Qed.
Lemma wp_remove_one h (o : option disk_vol) (Q : unit -> world -> Prop) E w :
  (forall e, sent_log e = sent_log (w_env w) ++ map (sent_run h) (concat (map remove_commands (option_list o))) -> Q tt (put_env e w)) ->
  (forall x e, E x (put_env e w)) ->
  wp (match o with Some d => on_env (remove h d) | None => mret tt end) Q E w.
Proof.
  intros HQ HE. destruct o as [d|].
  - eapply wp_on_env; [apply sends_all_remove| |done]. intros [] e He. apply HQ. cbn. by rewrite app_nil_r.
  - apply wp_ret. rewrite <-(put_env_self w). apply HQ. cbn. by rewrite app_nil_r.
Qed.

Lemma remove_disks_removes n w : wp (remove_disks n)
  (fun _ w' => exists w1, removed (node_info w n) (n_disks (node_at w n)) w w1 /\ w' = snd (set_node n (set_disks []) w1))
  (fun _ w' => exists e, w' = put_env e w) w.
Proof.
  unfold remove_disks. do 2 (apply wp_bind, wp_gets). set (h := node_info w n). apply wp_bind.
  eapply wp_mono; [apply (wp_for_each _ _ (fun ds w' => removed h ds w w') (fun _ w' => exists e, w' = put_env e w))| |done].
  - exists (w_env w). by rewrite put_env_self, app_nil_r.
  - intros ds v todo w' _ (e & -> & He). apply wp_bind, wp_gets. change (volume_at (put_env e w) v) with (volume_at w v). apply wp_bind.
    apply wp_remove_one; [|intros x e'; by exists e']. intros e1 He1. apply wp_remove_one; [|intros x e'; by exists e'].
    intros e2 He2. exists e2. split; [done|]. cbn [w_env put_env] in He1, He2. rewrite He2, He1, He, map_app, concat_app, <-!app_assoc.
    unfold removals, vol_disks. cbn [map concat]. by rewrite app_nil_r, map_app, concat_app, map_app.
  - intros [] w' Hr. unfold set_node. apply wp_modify. by exists w'.
Qed.
End removing.

(** ** Every disk is accounted for *)

(** A volume among the first [k] that is in the list of its node stays there,
    or its disks are removed by the commands sent in between. *)
Record accounts (k : nat) (w w' : world) : Prop := Accounts {
  ac_infos : map info (w_hosts w') = map info (w_hosts w);
  ac_nodes : length (w_nodes w) <= length (w_nodes w');
  ac_host n : n < length (w_nodes w) -> n_host (node_at w' n) = n_host (node_at w n);
  ac_disks v : v < k -> vol_disks (volume_at w' v) = vol_disks (volume_at w v);
  ac_log : exists new, sent_log (w_env w') = sent_log (w_env w) ++ new /\
    forall n v, v < k -> v ∈ n_disks (node_at w n) ->
      v ∈ n_disks (node_at w' n) \/ removals (node_info w n) (volume_at w v) `sublist_of` new
}.
Lemma node_of_disk w n v : v ∈ n_disks (node_at w n) -> n < length (w_nodes w).
Proof.
  intros Hv. destruct (decide (n < length (w_nodes w))); [done|]. unfold node_at in Hv.
  rewrite lookup_ge_None_2 in Hv by lia. by apply not_elem_of_nil in Hv.
Qed.
Lemma accounts_info k w w' n : accounts k w w' -> n < length (w_nodes w) -> node_info w' n = node_info w n.
Proof. intros [] Hn. unfold node_info, node_host. by rewrite ac_host0, !host_at_info, ac_infos0. Qed.
#[export] Instance accounts_preorder k : PreOrder (accounts k).
Proof.
  split.
  - intros w. constructor; try done. exists []. rewrite app_nil_r. split; [done|]. by left.
  - intros a b c Hab Hbc. pose proof Hab as [A1 A2 A3 A4 (l1 & L1 & M1)]. pose proof Hbc as [B1 B2 B3 B4 (l2 & L2 & M2)].
    constructor; intros; try congruence; try lia; [by rewrite B3, A3 by lia|by rewrite B4, A4|].
    exists (l1 ++ l2). rewrite L2, L1, app_assoc. split; [done|]. intros n v Hv Hin.
    destruct (M1 n v Hv Hin) as [H1|H1]; [|right; by apply sublist_inserts_r].
    destruct (M2 n v Hv H1) as [H2|H2]; [by left|right]. apply sublist_inserts_l.
    rewrite (accounts_info k a b n Hab (node_of_disk _ _ _ Hin)) in H2. unfold removals in *. by rewrite <-A4.
Qed.

Lemma accounts_prefix k w w' : grows k w w' -> map info (w_hosts w') = map info (w_hosts w) -> length (w_nodes w) <= length (w_nodes w') ->
  (forall n, n < length (w_nodes w) -> n_host (node_at w' n) = n_host (node_at w n)) ->
  (forall n, n < length (w_nodes w) -> n_disks (node_at w n) `prefix_of` n_disks (node_at w' n)) -> accounts k w w'.
Proof.
  intros [(l & Hl & _) Hv] Hi Hn Hh Hd. constructor; try done. exists l. split; [done|].
  intros n v _ Hin. left. eapply elem_of_prefix; [done|]. apply Hd. by eapply node_of_disk.
Qed.
Lemma accounts_added k ns w w' : grows k w w' -> added ns w w' -> accounts k w w'.
Proof. intros Hg []. apply (accounts_prefix k); try done. lia. Qed.
Lemma accounts_calm k w w' : calm k w w' -> accounts k w w'.
Proof. intros [Hg Hs]. by eapply accounts_added. Qed.
Lemma accounts_env k e w w' : grows k w w' -> w' = put_env e w -> accounts k w w'.
Proof. intros Hg ->. apply accounts_calm. split; [done|]. apply core_still. done. Qed.

Lemma accounts_remove_disks `{SshServer} k n w : accounts k w (snd (remove_disks n w)).
Proof.
  pose proof (remove_disks_removes n w) as Hr. pose proof (grows_remove_disks k n w) as Hg. unfold wp in Hr.
  destruct (remove_disks n w) as [[[]|x] w'].
  - destruct Hr as (w1 & (e & -> & He) & ->). destruct Hg as [_ Hv]. cbn [snd] in *.
    assert (Hat : forall m, n_host (node_at (snd (set_node n (set_disks []) (put_env e w))) m) = n_host (node_at w m) /\
      (m <> n -> n_disks (node_at (snd (set_node n (set_disks []) (put_env e w))) m) = n_disks (node_at w m))).
    { intros m. unfold node_at. cbn. destruct (decide (m = n)) as [->|Hne]; [|by rewrite list_lookup_alter_ne].
      rewrite list_lookup_alter_eq. by destruct (w_nodes w !! n). }
    constructor; [done|cbn; by rewrite length_alter|intros m _; apply Hat|done|].
    eexists. split; [exact He|]. intros m v Hlt Hin. destruct (decide (m = n)) as [->|Hne]; [right|left; by rewrite (proj2 (Hat m))].
    apply list_elem_of_split in Hin as (l1 & l2 & ->). rewrite map_app, concat_app. cbn [map concat].
    by apply sublist_inserts_l, sublist_inserts_r.
  - destruct Hr as [e He]. by eapply accounts_env.
Qed.

Section creating.
Context `{SshServer} (k : nat).

Lemma keeps_accounts {A} (m : M world A) : keeps (grows k) m -> keeps still m -> keeps (accounts k) m.
Proof. intros Hg Hs w. by apply accounts_calm. Qed.
Lemma accounts_set_resource r f : keeps (accounts k) (set_resource r f).
Proof. intros w. by apply accounts_prefix; [apply (grows_set_resource k r f w)|..]. Qed.
Lemma accounts_new_resource x : keeps (accounts k) (new_resource x).
Proof. intros w. by apply accounts_prefix; [apply (grows_new_resource k x w)|..]. Qed.
Lemma accounts_new_node x : keeps (accounts k) (new_node x).
Proof.
  intros w. apply accounts_prefix; [apply (grows_new_node k x w)|done|cbn; rewrite length_app; lia|..];
    intros n Hn; unfold node_at; cbn; by rewrite lookup_app_l.
Qed.
Lemma accounts_set_node n f : (forall x, n_host (f x) = n_host x) -> (forall x, n_disks (f x) = n_disks x) -> keeps (accounts k) (set_node n f).
Proof. intros Hh Hd w. apply accounts_calm. split; [apply (grows_set_node k n f w)|by apply still_set_node]. Qed.
Lemma accounts_next_port h : keeps (accounts k) (next_port h).
Proof.
  apply keeps_accounts; unfold next_port; [solve_grows fail|]. apply keeps_bind; [exact _|apply keeps_gets; exact _|intros p].
  apply keeps_bind; [exact _|by apply still_set_host|intros _; apply keeps_ret; exact _].
Qed.
Lemma accounts_add_to_nodes r n : keeps (accounts k) (add_to_nodes r n).
Proof. intros w. unfold add_to_nodes. destruct (coll_add _ _ _) as [x s]. apply (accounts_set_resource r (set_r_nodes s) w). Qed.
Lemma accounts_add_connection n0 n1 : keeps (accounts k) (add_connection n0 n1).
Proof.
  intros w. unfold add_connection. destruct (new_connection _ _ _) as [c|e]; [|cbn; reflexivity].
  destruct (coll_add _ _ _) as [x s]. by apply (accounts_set_node n0 (set_connections s)).
Qed.
Lemma accounts_node_init h r p : keeps (accounts k) (node_init h r p).
Proof.
  unfold node_init. apply keeps_bind; [exact _|apply keeps_gets; exact _|intros i]. apply keeps_bind; [exact _|apply accounts_new_node|intros n].
  apply keeps_bind; [exact _|apply accounts_add_to_nodes|intros _].
  apply keeps_accounts; [unfold init_node; solve_grows fail|]. apply keeps_still. unfold init_node. solve_keeps.
Qed.
Lemma accounts_create_resource name tr tls : keeps (accounts k) (create_resource name tr tls).
Proof.
  unfold create_resource. apply keeps_bind; [exact _|apply accounts_new_resource|intros r]. apply keeps_bind; [exact _|apply keeps_gets; exact _|intros hs].
  apply keeps_bind; [exact _| |intros _].
  - apply keeps_for_each; [exact _|]. intros h _. apply keeps_bind; [exact _|apply accounts_next_port|intros p; apply accounts_node_init].
  - apply keeps_bind; [exact _|apply keeps_gets; exact _|intros ns]. apply keeps_bind; [exact _| |intros _; apply keeps_ret; exact _].
    do 2 (apply keeps_for_each; [exact _|]; intros ? _). case_decide; [apply keeps_ret; exact _|apply accounts_add_connection].
Qed.
Lemma accounts_remove_node r n : keeps (accounts k) (remove_node r n).
Proof.
  unfold remove_node. apply keeps_bind; [exact _| |intros _; apply keeps_accounts; [apply grows_touch_config|apply still_touch_config]].
  intros w. destruct (coll_remove _ _ _) as [x s]. apply (accounts_set_resource r (set_r_nodes s) w).
Qed.
Lemma accounts_remove_storage_pool r : keeps (accounts k) (remove_storage_pool r).
Proof.
  unfold remove_storage_pool. apply keeps_bind; [exact _|apply keeps_gets; exact _|intros ns].
  apply keeps_bind; [exact _|apply keeps_for_each; [exact _|]; intros n _ w; apply accounts_remove_disks|intros _].
  apply keeps_bind; [exact _|apply accounts_set_resource|intros _]. apply keeps_accounts; [apply grows_remove_pools|apply still_remove_pools].
Qed.
End creating.

(** ** The numbers of the volumes *)

(** No member of a resource has more disks than the resource has numbers. *)
Definition numbered (w : world) : Prop := forall r, osGood (r_nodes (resource_at w r)) /\
  forall n, n ∈ items (r_nodes (resource_at w r)) -> length (n_disks (node_at w n)) <= num_volumes (resource_at w r).
Definition keeps_numbered (w w' : world) : Prop := numbered w -> numbered w'.
#[export] Instance keeps_numbered_preorder : PreOrder keeps_numbered.
Proof. split; [intros w; exact id|]. intros a b c Hab Hbc Ha. by apply Hbc, Hab. Qed.

Section numbers.
Context `{SshServer}.

Lemma numbered_shrinks w w' : (forall n, length (n_disks (node_at w' n)) <= length (n_disks (node_at w n))) ->
  (forall r, r_nodes (resource_at w' r) = r_nodes (resource_at w r) /\ num_volumes (resource_at w' r) = num_volumes (resource_at w r)) ->
  keeps_numbered w w'.
Proof.
  intros Hd Hr Hn r. destruct (Hr r) as [-> ->]. destruct (Hn r) as [Hg Hl]. split; [done|]. intros n Hin.
  etransitivity; [apply Hd|by apply Hl].
Qed.
Lemma numbered_still w w' : still w w' -> keeps_numbered w w'.
Proof.
  intros Hs. apply numbered_shrinks; [intros n; by rewrite (still_disks w w' n Hs)|].
  intros r. split; [apply (ad_members _ _ _ Hs)|apply (ad_numbers _ _ _ Hs)].
Qed.
Lemma keeps_numbered_still {A} (m : M world A) : keeps still m -> keeps keeps_numbered m.
Proof. intros Hm w. apply numbered_still, Hm. Qed.

(** A changed list of members *)
Lemma numbered_members r s w : osGood s ->
  (forall n, n ∈ items s -> length (n_disks (node_at w n)) <= num_volumes (resource_at w r)) ->
  numbered w -> numbered (snd (set_resource r (set_r_nodes s) w)).
Proof.
  intros Hs Hl Hn q. destruct (Hn q) as [Hg Hq]. unfold resource_at in *. cbn. destruct (decide (q = r)) as [->|Hne].
  - rewrite list_lookup_alter_eq. destruct (w_resources w !! r); [done|]. split; [done|]. intros n Hin. by apply not_elem_of_nil in Hin.
  - by rewrite list_lookup_alter_ne.
Qed.
(** [add] and [remove] of a collection change its set at most as they should. *)
Lemma coll_add_good (res_of : nat -> nat) n (s : oset nat) : osGood s ->
  osGood (snd (coll_add res_of n s)) /\ forall m, m ∈ items (snd (coll_add res_of n s)) -> m = n \/ m ∈ items s.
Proof.
  intros Hg. unfold coll_add, gets, py_assert, modify. mred. destruct (same_resource _ _ _); cbv [raise]; cbn [snd]; [|by auto].
  destruct (spec_add n s Hg) as [Hg' He]. split; [done|]. intros m Hm. apply aset_add_elem. change (items s) with (elems s). by rewrite <-He.
Qed.
Lemma coll_remove_good (res_of : nat -> nat) n (s : oset nat) : osGood s -> osGood (snd (coll_remove res_of n s)).
Proof.
  intros Hg. unfold coll_remove, gets, py_assert, when. mred. destruct (same_resource _ _ _); cbv [raise]; cbn [snd]; [|done].
  destruct (osContains n s); [|done]. rewrite (spec_remove n s Hg). case_decide; [|done]. by apply spec_discard.
Qed.
Lemma numbered_add_to_nodes r n w : length (n_disks (node_at w n)) <= num_volumes (resource_at w r) ->
  numbered w -> numbered (snd (add_to_nodes r n w)).
Proof.
  intros Hl Hn. destruct (Hn r) as [Hg Hr]. unfold add_to_nodes.
  destruct (coll_add_good (fun n => n_resource (node_at w n)) n _ Hg) as [Hg' Hi]. destruct (coll_add _ _ _) as [x s].
  apply (numbered_members r s w); [done| |done]. intros m Hm. destruct (Hi m Hm) as [->|Hin]; [done|by apply Hr].
Qed.
Lemma numbered_remove_node r n : keeps keeps_numbered (remove_node r n).
Proof.
  unfold remove_node. apply keeps_bind; [exact _| |intros _; apply keeps_numbered_still, still_touch_config].
  intros w Hn. destruct (Hn r) as [Hg Hr]. pose proof (coll_remove_good (fun n => n_resource (node_at w n)) n _ Hg) as Hg'.
  pose proof (fun m => coll_remove_items (fun n => n_resource (node_at w n)) n (r_nodes (resource_at w r)) m) as Hi.
  destruct (coll_remove _ _ _) as [x s]. apply (numbered_members r s w); [done| |done]. intros m Hm. by apply Hr, Hi.
Qed.
Lemma numbered_new_resource x : items (r_nodes x) = [] -> osGood (r_nodes x) -> keeps keeps_numbered (new_resource x).
Proof.
  intros Hx Hg w Hn q. destruct (Hn q) as [Hq Hl]. unfold resource_at in *. cbn.
  destruct (decide (q < length (w_resources w))) as [Hlt|Hge]; [by rewrite lookup_app_l|].
  rewrite lookup_app_r by lia. destruct (q - length (w_resources w)) as [|i]; cbn; [|split; [apply os_empty_wf|]].
  - split; [done|]. rewrite Hx. intros n Hin. by apply not_elem_of_nil in Hin.
  - rewrite ?lookup_nil. intros n Hin. by apply not_elem_of_nil in Hin.
Qed.
Lemma numbered_node_init h r p : keeps keeps_numbered (node_init h r p).
Proof.
  unfold node_init. apply keeps_bind; [exact _|apply keeps_gets; exact _|intros i]. intros w Hn. unfold new_node. mred.
  set (x := NewNode _ _ _ _ _ _ _ _). set (w1 := World _ _ _ _ _).
  assert (Hd : forall m, n_disks (node_at w1 m) = n_disks (node_at w m)).
  { intros m. unfold node_at, w1. cbn [w_nodes]. destruct (decide (m < length (w_nodes w))) as [Hlt|Hge]; [by rewrite lookup_app_l|].
    rewrite (lookup_ge_None_2 (w_nodes w)), lookup_app_r by lia. destruct (m - length (w_nodes w)) as [|j]; [done|]. by destruct j. }
  assert (Hn1 : numbered w1) by (apply (numbered_shrinks w); [intros m; by rewrite Hd|done|done]).
  pose proof (numbered_add_to_nodes r (length (w_nodes w)) w1) as Ha. rewrite Hd in Ha. unfold node_at in Ha.
  rewrite (lookup_ge_None_2 (w_nodes w)) in Ha by done. specialize (Ha (Nat.le_0_l _) Hn1).
  destruct (add_to_nodes r (length (w_nodes w)) w1) as [[[]|e] w2]; [|done]. revert Ha. apply keeps_numbered_still.
  apply keeps_still. unfold init_node. solve_keeps.
Qed.
Lemma numbered_create_resource name tr tls : keeps keeps_numbered (create_resource name tr tls).
Proof.
  unfold create_resource. apply keeps_bind; [exact _|apply numbered_new_resource; [done|apply os_empty_wf]|intros r].
  apply keeps_bind; [exact _|apply keeps_gets; exact _|intros hs]. apply keeps_bind; [exact _| |intros _].
  - apply keeps_for_each; [exact _|]. intros h _. apply keeps_bind; [exact _| |intros p; apply numbered_node_init].
    apply keeps_numbered_still. unfold next_port. apply keeps_bind; [exact _|apply keeps_gets; exact _|intros p].
    apply keeps_bind; [exact _|by apply still_set_host|intros _; apply keeps_ret; exact _].
  - apply keeps_bind; [exact _|apply keeps_gets; exact _|intros ns]. apply keeps_bind; [exact _| |intros _; apply keeps_ret; exact _].
    do 2 (apply keeps_for_each; [exact _|]; intros ? _). case_decide; [apply keeps_ret; exact _|].
    intros w. unfold add_connection. destruct (new_connection _ _ _) as [c|e]; [|exact id].
    destruct (coll_add _ _ _) as [y s]. by apply numbered_still, (still_set_node _ (set_connections s)).
Qed.
Lemma numbered_remove_disks n : keeps keeps_numbered (remove_disks n).
Proof.
  intros w. pose proof (remove_disks_removes n w) as Hr. unfold wp in Hr. destruct (remove_disks n w) as [[[]|x] w'].
  - destruct Hr as (w1 & (e & -> & _) & ->). apply numbered_shrinks; [|done]. intros m. unfold node_at. cbn.
    destruct (decide (m = n)) as [->|Hne]; [|by rewrite list_lookup_alter_ne].
    rewrite list_lookup_alter_eq. destruct (w_nodes w !! n); cbn; lia.
  - destruct Hr as [e ->]. by apply numbered_still, core_still.
Qed.
(** One node after the other is left without disks. *)
Lemma remove_disks_empties n w : wp (remove_disks n)
  (fun _ w' => (forall m, n_disks (node_at w' m) = if decide (m = n) then [] else n_disks (node_at w m)) /\ w_resources w' = w_resources w)
  (fun _ _ => True) w.
Proof.
  eapply wp_mono; [apply remove_disks_removes| |done]. intros [] w' (w1 & (e & -> & _) & ->). split; [|done].
  intros m. unfold node_at. cbn. case_decide as Hm; [subst|by rewrite list_lookup_alter_ne].
  rewrite list_lookup_alter_eq. by destruct (w_nodes w !! n).
Qed.
Lemma remove_all_empties ns w : wp (for_each ns remove_disks)
  (fun _ w' => (forall n, n ∈ ns -> n_disks (node_at w' n) = []) /\ w_resources w' = w_resources w) (fun _ _ => True) w.
Proof.
  apply (wp_for_each ns remove_disks (fun ds w' => (forall n, n ∈ ds -> n_disks (node_at w' n) = []) /\ w_resources w' = w_resources w)).
  - split; [|done]. intros n Hn. by apply not_elem_of_nil in Hn.
  - intros ds n todo w1 _ [Hd Hr]. eapply wp_mono; [apply remove_disks_empties| |done]. intros [] w2 [Hd2 Hr2].
    split; [|congruence]. intros m Hm. rewrite Hd2. case_decide; [done|]. apply elem_of_app in Hm as [Hm|Hm]; [by apply Hd|].
    by apply list_elem_of_singleton in Hm.
Qed.
Lemma numbered_remove_storage_pool r : keeps keeps_numbered (remove_storage_pool r).
Proof.
  intros w Hn. unfold remove_storage_pool, gets. mred. set (ns := elems (r_nodes (resource_at w r))).
  pose proof (remove_all_empties ns w) as He.
  pose proof (keeps_for_each keeps_numbered ns remove_disks (fun n _ => numbered_remove_disks n) w Hn) as Hk. unfold wp in He.
  destruct (for_each ns remove_disks w) as [[[]|e] w1]; [|done]. destruct He as [Hd Hr]. cbn [snd] in Hk.
  unfold set_resource, modify at 1. cbn [fst snd]. apply (keeps_numbered_still _ still_remove_pools).
  intros q. destruct (Hk q) as [Hg Hl]. unfold resource_at in *. cbn [w_resources]. rewrite Hr in *. destruct (decide (q = r)) as [->|Hne].
  - rewrite list_lookup_alter_eq. unfold ns in Hd. destruct (w_resources w !! r) as [x|]; [|done]. split; [done|]. intros n Hin.
    specialize (Hd n Hin). unfold node_at in *. cbn [w_nodes]. rewrite Hd. cbn. lia.
  - by rewrite list_lookup_alter_ne.
Qed.
End numbers.

Lemma times_once n ns : NoDup ns -> times n ns <= 1.
Proof.
  intros Hnd. destruct (decide (n ∈ ns)) as [Hin|Hin]; [|rewrite times_fresh by done; lia].
  apply list_elem_of_split in Hin as (l1 & l2 & ->). apply NoDup_app in Hnd as (_ & Hd & [Hn _]%NoDup_cons).
  change (n :: l2) with ([n] ++ l2). rewrite !times_app, (times_fresh n l2) by done.
  rewrite (times_fresh n l1) by (intros Hin; eapply Hd; [done|left]).
  unfold times. cbn. rewrite decide_True by done. done.
Qed.

Section steps.
Context `{SshServer} (g : globals) (job : string) (uuid5 : string -> string).

(** A node that comes back does not have more disks than its resource has numbers. *)
Definition storage_guard (o : heap_op) (w : world) : Prop :=
  heap_guard o w /\
  match o with
  | HConf (OpAddNode r n) => length (n_disks (node_at w n)) <= num_volumes (resource_at w r)
  | _ => True
  end.
Definition ready (w : world) : Prop := well_typed w /\ numbered w.

Lemma numbered_after_add_disk r w w' : ready w -> added (items (r_nodes (resource_at w r))) (taken r w) w' -> numbered w'.
Proof.
  intros [Hw Hn] Ha q. set (ns := items (r_nodes (resource_at w r))) in *. destruct (Hn r) as [Hgr _]. destruct (Hn q) as [Hg Hl].
  assert (Hq : r_nodes (resource_at w' q) = r_nodes (resource_at w q)).
  { rewrite (ad_members _ _ _ Ha q). destruct (decide (q = r)) as [->|Hne]; [apply taken_members|].
    unfold taken, next_volume, gets, set_resource, modify, resource_at. mred. cbn [snd w_resources]. by rewrite list_lookup_alter_ne. }
  rewrite Hq. split; [done|]. intros n Hin. pose proof (ad_length _ _ _ Ha n) as Hlen. change (node_at (taken r w) n) with (node_at w n) in Hlen.
  specialize (Hl n Hin). rewrite (ad_numbers _ _ _ Ha q). pose proof (member_of_resource _ _ _ Hin) as Hlt.
  unfold taken, next_volume, gets, set_resource, modify, resource_at in *. mred. cbn [snd w_resources]. destruct (decide (q = r)) as [->|Hne].
  - rewrite list_lookup_alter_eq. pose proof (times_once n ns (spec_nodup _ Hgr)).
    destruct (lookup_lt_is_Some_2 _ _ Hlt) as [x Hx]. rewrite Hx in *. cbn in *. lia.
  - rewrite list_lookup_alter_ne by done. rewrite times_fresh in Hlen; [etransitivity; [exact Hlen|]; by rewrite Nat.add_0_r|].
    intros Hr. destruct (wt_member w Hw q n Hlt Hin) as [_ H1].
    destruct (wt_member w Hw r n (member_of_resource _ _ _ Hr) Hr) as [_ H2]. congruence.
Qed.

Lemma accounts_add_disk k r size dn mp bbs a f w : ready w -> k <= length (w_volumes w) ->
  wp (add_disk g job uuid5 r size dn mp bbs a f)
    (fun _ w' => accounts k w w' /\ numbered w' /\ listed (length (w_volumes w)) w') (fun _ w' => accounts k w w' /\ numbered w') w.
Proof.
  intros Hrd Hk. pose proof Hrd as [Hw Hn]. destruct (Hn r) as [Hg Hl].
  assert (Hpost : forall w', grows k w w' /\ added (items (r_nodes (resource_at w r))) (taken r w) w' -> accounts k w w' /\ numbered w').
  { intros w' [Hgr Ha]. split; [|by eapply numbered_after_add_disk]. 
    exact (accounts_prefix k w w' Hgr (ad_infos _ _ _ Ha) (Nat.eq_le_incl _ _ (eq_sym (ad_nodes _ _ _ Ha)))
      (fun n _ => ad_host _ _ _ Ha n) (fun n _ => ad_prefix _ _ _ Ha n)). }
  eapply wp_mono; [apply (add_disk_adds g job uuid5 k); [done..|exact (spec_nodup _ Hg)|done]| |].
  - intros v w' [Hp Hls]. destruct (Hpost w' Hp). by split_and!.
  - intros e w' Hp. by apply Hpost.
Qed.

(** The steps that change neither the members nor the lists *)
Definition calm_op (o : heap_op) : bool :=
  match o with
  | HConf (OpCreate _ _ _) | HConf (OpAddNode _ _) | HConf (OpRemoveNode _ _) | HConf (OpAddDisk _ _ _ _ _ _ _)
  | HRemoveDisks _ | HRemovePools _ => false
  | _ => true
  end.
Lemma calm_step k o : calm_op o = true -> keeps (calm k) (heap_step g job uuid5 o).
Proof.
  destruct o as [[]|n|thin gran|r|v mp bbs f]; try done; intros _; cbn [heap_step conf_step].
  - apply core_calm; [apply grows_node_run|apply keeps_node_run].
  - apply core_calm; [apply grows_drbdadm|].
    unfold drbdadm. apply keeps_bind; [exact _|apply keeps_gets; exact _|intros x; apply keeps_node_run].
  - apply keeps_calm; [unfold set_options; solve_grows ltac:(apply grows_touch_config)|apply still_set_options].
  - apply keeps_calm; [unfold set_fencing_mode; solve_grows fail|apply still_set_fencing].
  - apply keeps_calm; unfold resource_set_fencing_mode; [unfold set_fencing_mode; solve_grows fail|].
    apply keeps_bind; [exact _|apply keeps_gets; exact _|intros ns]. apply keeps_for_each; [exact _|]. intros n _. apply still_set_fencing.
  - assert (Hs : keeps (grows k) (set_volume v (set_v_tiebreaker b))) by (intros w0; apply grows_set_volume; by right).
    apply keeps_calm; unfold set_tiebreaker; [solve_grows ltac:(first [apply Hs|apply grows_touch_config])|].
    apply keeps_bind; [exact _|by apply keeps_still, keeps_core_set_volume|intros _].
    apply keeps_bind; [exact _|apply keeps_gets; exact _|intros r; apply still_touch_config].
  - apply core_calm; unfold cluster_create_storage_pool; [solve_grows ltac:(apply grows_create_pool)|].
    apply keeps_bind; [exact _|apply keeps_gets; exact _|intros hs]. apply keeps_for_each; [exact _|]. intros h _. apply keeps_create_pool.
  - apply core_calm; [apply grows_create_md|apply keeps_volume_create_md].
Qed.
Lemma accounts_add_node k r n w : length (n_disks (node_at w n)) <= num_volumes (resource_at w r) -> numbered w ->
  accounts k w (snd (add_node r n w)) /\ numbered (snd (add_node r n w)).
Proof.
  intros Hl Hn. pose proof (accounts_add_to_nodes k r n w) as Ha. pose proof (numbered_add_to_nodes r n w Hl Hn) as Hb. unfold add_node. mred.
  destruct (add_to_nodes r n w) as [[[]|e] w1]; cbn [snd] in *; [|by split].
  split; [transitivity w1; [done|]; apply accounts_calm; split; [apply grows_touch_config|apply still_touch_config]|].
  by apply (keeps_numbered_still _ (still_touch_config r)).
Qed.
Lemma accounts_step k o w : ready w -> storage_guard o w -> k <= length (w_volumes w) ->
  accounts k w (snd (heap_step g job uuid5 o w)) /\ numbered (snd (heap_step g job uuid5 o w)).
Proof.
  intros Hrd [_ Hg2] Hk. pose proof Hrd as [Hw Hn]. destruct (calm_op o) eqn:Ho.
  { pose proof (calm_step k o Ho w) as Hc. split; [by apply accounts_calm|]. by apply (numbered_still w); [apply Hc|]. }
  assert (Hunit : forall A (m : M world A), accounts k w (snd (m w)) /\ numbered (snd (m w)) ->
    accounts k w (snd ((m ;;; mret tt) w)) /\ numbered (snd ((m ;;; mret tt) w))).
  { intros A m. mred. by destruct (m w) as [[x|e] w1]. }
  destruct o as [[]|n|thin gran|r|v mp bbs f]; try done; cbn [heap_step conf_step].
  - apply Hunit. split; [apply accounts_create_resource|by apply numbered_create_resource].
  - by apply accounts_add_node.
  - split; [apply accounts_remove_node|by apply numbered_remove_node].
  - apply Hunit. pose proof (accounts_add_disk k r size diskful_nodes max_peers bitmap_block_sizes a f w Hrd Hk) as Ha. unfold wp in Ha.
    destruct (add_disk _ _ _ _ _ _ _ _ _ _ w) as [[v|e] w1]; [|done]. destruct Ha as (H1 & H2 & _). by split.
  - split; [apply accounts_remove_disks|by apply numbered_remove_disks].
  - split; [apply accounts_remove_storage_pool|by apply numbered_remove_storage_pool].
Qed.

Lemma add_disk_listed r size dn mp bbs a f w vnr w1 : ready w -> add_disk g job uuid5 r size dn mp bbs a f w = (Ok vnr, w1) ->
  ready w1 /\ listed (length (w_volumes w)) w1.
Proof.
  intros Hrd Hadd. pose proof (accounts_add_disk 0 r size dn mp bbs a f w Hrd (Nat.le_0_l _)) as Ha. unfold wp in Ha. rewrite Hadd in Ha.
  destruct Ha as (_ & Hn & Hl). pose proof (safe_add_disk g job uuid5 r size dn mp bbs a f w (proj1 Hrd)) as Hs. unfold wp in Hs.
  rewrite Hadd in Hs. destruct Hs as (Hw & _ & _). by split.
Qed.
Lemma add_disk_recorded r size dn mp bbs a f w vnr w1 : ready w -> add_disk g job uuid5 r size dn mp bbs a f w = (Ok vnr, w1) ->
  map info (w_hosts w1) = map info (w_hosts w) /\ all_recorded (length (w_volumes w)) w w1.
Proof.
  intros Hrd Hadd. pose proof Hrd as [Hw Hn]. destruct (Hn r) as [Hg Hl].
  pose proof (accounts_add_disk 0 r size dn mp bbs a f w Hrd (Nat.le_0_l _)) as Ha.
  pose proof (add_disk_records g job uuid5 r size dn mp bbs a f w Hw (spec_nodup _ Hg) Hl) as Hr. unfold wp in Ha, Hr. rewrite Hadd in Ha, Hr.
  split; [apply Ha|done].
Qed.
Lemma ready_hosts w : only_hosts w -> w_volumes w = [] -> ready w.
Proof.
  intros (Hn & Hr & _) Hv. split; [constructor; rewrite ?Hn, ?Hr, ?Hv; cbn; lia|]. intros r. unfold resource_at. rewrite Hr. cbn.
  split; [apply os_empty_wf|]. intros n Hin. by apply not_elem_of_nil in Hin.
Qed.
(** Operations one after the other; a test may go on after one that fails. *)
Inductive storage_runs : list heap_op -> world -> world -> Prop :=
| storage_runs_nil w : storage_runs [] w w
| storage_runs_cons o ops w r w1 w2 : storage_guard o w -> heap_step g job uuid5 o w = (r, w1) ->
    storage_runs ops w1 w2 -> storage_runs (o :: ops) w w2.

Lemma ready_step o w : ready w -> storage_guard o w ->
  ready (snd (heap_step g job uuid5 o w)) /\ extends w (snd (heap_step g job uuid5 o w)).
Proof.
  intros Hrd Hg. pose proof Hrd as [Hw _]. pose proof (safe_heap_step g job uuid5 o w (proj1 Hg) Hw) as Hs.
  destruct (accounts_step 0 o w Hrd Hg (Nat.le_0_l _)) as [_ Hn]. unfold wp in Hs.
  destruct (heap_step g job uuid5 o w) as [[a|e] w1]; cbn [snd] in *; [destruct Hs as (H1 & H2 & _)|destruct Hs as [H1 H2]]; by split.
Qed.
Lemma runs_accounts k ops w w' : storage_runs ops w w' -> ready w -> k <= length (w_volumes w) -> ready w' /\ extends w w' /\ accounts k w w'.
Proof.
  induction 1 as [w|o ops w r w1 w2 Hg Hs _ IH]; intros Hrd Hk; [by split_and!|].
  destruct (accounts_step k o w Hrd Hg Hk) as [Ha _]. destruct (ready_step o w Hrd Hg) as [Hr1 He1]. rewrite Hs in Ha, Hr1, He1. cbn [snd] in *.
  destruct (IH Hr1) as (H1 & H2 & H3); [pose proof (ex_volumes _ _ He1); lia|]. split_and!; [done|by transitivity w1|by transitivity w1].
Qed.
End steps.

(** ** Cleaning up *)

Section cleaning.
Context `{SshServer}.

Lemma wp_e_world {A} (m : M world A) Q E s :
  wp m (fun a w => Q a (Ending w (e_dmesg s) (e_closed s))) (fun e w => E e (Ending w (e_dmesg s) (e_closed s))) (e_world s) ->
  wp (on_e_world m) Q E s.
Proof. unfold wp, on_e_world, zoom. by destruct (m (e_world s)) as [[a|e] w]. Qed.

(** The nodes of [ds] have no disks left. *)
Definition emptied (k : nat) (w0 : world) (ds : list nat) (s : ending) : Prop :=
  accounts k w0 (e_world s) /\ forall n, n ∈ ds -> n_disks (node_at (e_world s) n) = [].
Lemma node_cleanup_empties k w0 ds n s : emptied k w0 ds s ->
  wp (node_cleanup n) (fun _ => emptied k w0 (ds ++ [n])) (fun _ _ => True) s.
Proof.
  intros [Ha Hd]. unfold node_cleanup. apply wp_bind, wp_get, wp_bind, wp_e_world.
  apply (wp_keeps (fun w w' => calm k w w')); [apply core_calm; [solve_grows fail|apply keeps_core_on_env]| |done].
  intros [] w1 H1. apply wp_e_world. cbn [e_world].
  pose proof (remove_disks_empties n w1) as He. pose proof (accounts_remove_disks k n w1) as Hr. unfold wp in He |- *.
  destruct (remove_disks n w1) as [[[]|e] w2]; [|done]. cbn [snd] in Hr. destruct He as [He _]. split; cbn [e_world].
  - transitivity (e_world s); [done|]. transitivity w1; [by apply accounts_calm|done].
  - intros m Hm. rewrite He. case_decide; [done|]. rewrite (still_disks _ _ m (proj2 H1)).
    apply elem_of_app in Hm as [Hm|Hm]; [by apply Hd|]. by apply list_elem_of_singleton in Hm.
Qed.
Lemma resource_cleanup_empties k r s :
  wp (resource_cleanup false r) (fun _ => emptied k (e_world s) (items (r_nodes (resource_at (e_world s) r)))) (fun _ _ => True) s.
Proof.
  unfold resource_cleanup. cbn [when negb]. apply wp_bind, wp_get. apply (wp_for_each _ _ (emptied k (e_world s))).
  - split; [done|]. intros n Hn. by apply not_elem_of_nil in Hn.
  - intros ds n todo s1 _. apply node_cleanup_empties.
Qed.
End cleaning.

(** ** Properties *)

(** C9: whatever a test has done before and does afterwards, and also when some
    of it fails half-way: once an [add_disk] of a resource has succeeded, every
    command of it that has made a disk on a host, a volume or one of its layers,
    has made a disk which is recorded for a volume of a node on this host; and
    once the handler of the resource at the end of the program has succeeded,
    too, commands for the disks of these volumes have been sent in between to
    their hosts which remove them, each with its layers from the outermost to
    the innermost and the disk for data before the one for metadata, if the
    node of the volume is still a member of the resource at the end. *)
Theorem created_disks_are_given_back `{SshServer} g job uuid5 w0 before w r size dn mp bbs a f vnr w1 after w2 logs closed s :
  only_hosts w0 -> w_volumes w0 = [] -> storage_runs g job uuid5 before w0 w ->
  add_disk g job uuid5 r size dn mp bbs a f w = (Ok vnr, w1) ->
  storage_runs g job uuid5 after w1 w2 ->
  resource_cleanup false r (Ending w2 logs closed) = (Ok tt, s) ->
  let added v := length (w_volumes w) <= v < length (w_volumes w1) in
  let member v := v_node (volume_at w1 v) ∈ items (r_nodes (resource_at w2 r)) in
  exists made new, sent_log (w_env w1) = sent_log (w_env w) ++ made /\ sent_log (w_env (e_world s)) = sent_log (w_env w1) ++ new /\
    (forall c x ws, c ∈ made -> x ∈ map info (w_hosts w1) -> runs_on x ws c -> makes_disk ws = true ->
       exists v d, added v /\ d ∈ vol_disks (volume_at w1 v) /\ creates d ws /\ node_info w1 (v_node (volume_at w1 v)) = x /\
         (member v -> map (sent_run x) (remove_commands d) `sublist_of` new)) /\
    forall v, added v -> member v -> removals (node_info w1 (v_node (volume_at w1 v))) (volume_at w1 v) `sublist_of` new.
Proof.
  intros Hh Hv Hb Hadd Ha Hc isadded member. set (K := length (w_volumes w1)).
  destruct (runs_accounts g job uuid5 0 before w0 w Hb (ready_hosts w0 Hh Hv) (Nat.le_0_l _)) as (Hrd & _ & H01).
  destruct (add_disk_recorded g job uuid5 r size dn mp bbs a f w vnr w1 Hrd Hadd) as [Hinfo [made [Hmade Hrec]]].
  destruct (add_disk_listed g job uuid5 r size dn mp bbs a f w vnr w1 Hrd Hadd) as [Hrd1 Hl].
  destruct (runs_accounts g job uuid5 K after w1 w2 Ha Hrd1 (le_n _)) as (_ & _ & H12).
  pose proof (resource_cleanup_empties K r (Ending w2 logs closed)) as H23. unfold wp in H23. rewrite Hc in H23. destruct H23 as [H23 He].
  assert (H13 : accounts K w1 (e_world s)) by by transitivity w2. destruct (ac_log _ _ _ H13) as (new & Hnew & Hd).
  assert (Hgone : forall v, isadded v -> member v -> removals (node_info w1 (v_node (volume_at w1 v))) (volume_at w1 v) `sublist_of` new).
  { intros v [Hv1 Hv2] Hn. destruct (Hd (v_node (volume_at w1 v)) v Hv2) as [Hin|]; [apply Hl; lia| |done].
    cbn [e_world] in He. rewrite (He _ Hn) in Hin. by apply not_elem_of_nil in Hin. }
  exists made, new. split_and!; [done|done| |exact Hgone]. intros c x ws Hin Hx Hr Hw.
  assert (Hnd : NoDup (map h_name (map info (w_hosts w1)))).
  { rewrite Hinfo, (ac_infos _ _ _ H01), map_map. apply Hh. }
  rewrite Forall_forall in Hrec. destruct (recorded_command _ w1 c x ws Hnd (Hrec c Hin) Hx Hr Hw) as (v & d & Hva & Hdv & Hcr & Hi).
  exists v, d. split_and!; try done; [apply Hva..|]. intros Hm. etransitivity; [|apply (Hgone v Hva Hm)]. rewrite Hi. by apply removal_of_disk.
Qed.

(** ** Witnesses *)

(** Disks for data and metadata, slowed down, on the first of two hosts *)
#[local] Existing Instance Cluster.quiet_server.
Local Abbreviation slow_args := (DiskArgs (Some "4M") None (Some 50%Z) None false) (only parsing).
Local Abbreviation no_flags := (MdFlags None false false false false) (only parsing).
Local Abbreviation demo_add := (add_disk demo_globals "job" (fun s => s) 0 "10M" (Some [0]) None [] slow_args no_flags) (only parsing).
Definition demo_created : world := snd (create_resource "r" None "no" demo_cluster).
Definition demo_added : world := snd (demo_add demo_created).
Definition demo_later : world := snd (set_options 0 "protocol C;" "" "" "" demo_added).

Definition demo_end : ending := snd (resource_cleanup false 0 (Ending demo_later (fun _ => Dmesg false false false None "") [])).

Lemma created_disks_are_given_back_witness :
  removals (node_info demo_added 0) (volume_at demo_added 0) = map (sent_run (node_info demo_added 0))
    [["dmsetup"; "remove"; "r-disk0-delay"]; ["lvremove"; "--force"; "/dev/scratch/r-disk0"];
     ["dmsetup"; "remove"; "r-meta0-delay"]; ["lvremove"; "--force"; "/dev/scratch/r-meta0"]] /\
  exists new, sent_log (w_env (e_world demo_end)) = sent_log (w_env demo_added) ++ new /\
    removals (node_info demo_added 0) (volume_at demo_added 0) `sublist_of` new.
Proof.
  split; [vm_compute; reflexivity|].
  destruct (created_disks_are_given_back demo_globals "job" (fun s => s) demo_cluster [HConf (OpCreate "r" None "no")] demo_created
    0 "10M" (Some [0]) None [] slow_args no_flags 0 demo_added [HConf (OpOptions 0 "protocol C;" "" "" "")] demo_later
    (fun _ => Dmesg false false false None "") [] demo_end) as (made & new & _ & Hlog & _ & Hnew).
  - apply demo_only_hosts.
  - reflexivity.
  - eapply storage_runs_cons; [split; exact I|apply surjective_pairing|]. apply storage_runs_nil.
  - vm_compute. reflexivity.
  - eapply storage_runs_cons; [split; exact I|apply surjective_pairing|]. apply storage_runs_nil.
  - vm_compute. reflexivity.
  - exists new. split; [exact Hlog|]. apply (Hnew 0); [split; [vm_compute; lia|vm_compute; lia]|]. apply (bool_decide_unpack _). vm_compute. exact I.
Defined.

(** The commands that have made these disks *)
Example disks_that_are_made :
  map s_command (filter (fun c => has_sub "lvcreate" (s_command c) || has_sub "dmsetup" (s_command c) = true) (sent_log (w_env demo_added))) =
    map (fun ws => join " " (map shlex_quote ws))
      [["lvcreate"; "--name"; "r-disk0"; "--size"; "10M"; "scratch"; "--wipesignatures"; "y"; "--yes"]; ["dmsetup"; "create"; "r-disk0-delay"];
       ["lvcreate"; "--name"; "r-meta0"; "--size"; "4M"; "scratch"; "--wipesignatures"; "y"; "--yes"]; ["dmsetup"; "create"; "r-meta0-delay"]].
Proof. vm_compute. reflexivity. Qed.

(** A disk that has been created is forgotten when the next command, which
    fills it with zeroes, fails: it is in no list, and the handler of the
    resource, which succeeds, does not remove it. *)
Example interrupted_disk_is_forgotten :
  let server : SshServer := fun _ c => Ok (if has_sub "blkdiscard" (s_command c) then 1%Z else 0%Z, EmptyString) in
  let w1 := snd (@create_resource server "r" None "no" demo_cluster) in
  let '(r2, w2) := @add_disk server demo_globals "job" (fun s => s) 0 "10M" (Some [0]) None [] (DiskArgs None None None None true) no_flags w1 in
  let '(r3, s) := @resource_cleanup server false 0 (Ending w2 (fun _ => Dmesg false false false None "") []) in
  is_ok r2 = false /\ r3 = Ok tt /\ disk (volume_at w2 0) = Some "/dev/scratch/r-disk0" /\ n_disks (node_at w2 0) = [] /\
  existsb (fun c => has_sub "lvcreate" (s_command c)) (sent_log (w_env (e_world s))) = true /\
  existsb (fun c => has_sub "lvremove" (s_command c)) (sent_log (w_env (e_world s))) = false.
Proof. vm_compute. by split_and!. Qed.
