(* ===== verification/Endurance.v ===== *)
(** * Endurance tests (src/python/endurance.py, src/python/datatools.py)

    The long-running tests and the comparison of the data at their end.  They
    use all of the framework at once: the state of a test is the objects, the
    waits, the runs of fio, the kernel logs and the clock. *)

From S2P Require Import Prelude PyStr Dict Json OrderedSet Host Disktools World Config Collections Cluster Lifecycle.
From S2P Require Import TrafficControl Platform Fio Metadata Teardown.

(** The state of a test; the clock counts microseconds. *)
Record test := Test {
  t_world : world;
  t_waits : list request;
  t_online : list nat;
  t_fio_count : nat -> nat;
  t_log_files : gmap string string;
  t_jobs : list job;
  t_dmesg : nat -> dmesg;
  t_closed : list nat;
  t_now : Z;
  t_readings : nat
}.

(** The time that passes until a reading of the clock, or beyond the time asked
    for in a pause *)
Class Clock := passes : nat -> Z.
(** The order in which the elements of a Python set are visited *)
Class SetOrder := set_order : gset string -> list string.

Record EnduranceConfig := NewEnduranceConfig {
  protocol : option string;
  network_rate : option string;
  disk_delay_ms : option Z;
  diskless_primary : bool
}.

Definition size_mb : Z := 280.
Definition data_size : string := str_int size_mb +:+ "M".
Definition second : Z := 1000000.
Definition test_runtime : Z := 9 * 60.

(** A number that is set and not zero *)
Definition truthy_int (o : option Z) : bool := match o with Some n => negb (bool_decide (n = 0%Z)) | None => false end.

Section endurance.
Context `{SshServer} `{KernelLog} `{EventScanner} `{Clock} `{SetOrder} (g : globals) (job : string) (uuid5 : string -> string) (no_rmmod : bool).

(** ** The parts of the state *)

Definition on_t_world {A} (m : M world A) : M test A :=
  zoom t_world (fun w s => Test w (t_waits s) (t_online s) (t_fio_count s) (t_log_files s) (t_jobs s) (t_dmesg s) (t_closed s) (t_now s) (t_readings s)) m.
Definition on_platform {A} (m : M platform A) : M test A :=
  zoom (fun s => Platform (Life (t_world s) (t_waits s)) (t_online s))
    (fun p s => Test (p_world p) (l_waits (p_life p)) (p_online p) (t_fio_count s) (t_log_files s) (t_jobs s) (t_dmesg s) (t_closed s)
       (t_now s) (t_readings s)) m.
Definition on_t_life {A} (m : M life A) : M test A := on_platform (on_life m).
Definition on_fio {A} (m : M fio A) : M test A :=
  zoom (fun s => Fio (t_world s) (t_fio_count s) (t_log_files s) (t_jobs s))
    (fun f s => Test (f_world f) (t_waits s) (t_online s) (fio_count f) (log_files f) (jobs f) (t_dmesg s) (t_closed s) (t_now s) (t_readings s)) m.
Definition on_ending {A} (m : M ending A) : M test A :=
  zoom (fun s => Ending (t_world s) (t_dmesg s) (t_closed s))
    (fun e s => Test (e_world e) (t_waits s) (t_online s) (t_fio_count s) (t_log_files s) (t_jobs s) (e_dmesg e) (e_closed e)
       (t_now s) (t_readings s)) m.

(** [time.sleep] and [time.time] *)
Definition sleep (d : Z) : M test unit :=
  modify (fun s => Test (t_world s) (t_waits s) (t_online s) (t_fio_count s) (t_log_files s) (t_jobs s) (t_dmesg s) (t_closed s)
    (t_now s + d + passes (t_readings s)) (S (t_readings s))).
Definition time : M test Z := sleep 0 ;;; gets t_now.

(** ** Comparing data *)

Definition md5sum_script (filename : string) (size_mb offset_mb : option Z) : string :=
  "set -o pipefail ; dd if=" +:+ filename +:+ " bs=1M iflag=direct " +:+
  (if truthy_int offset_mb then "skip=" +:+ str_int (default 0%Z offset_mb) else EmptyString) +:+ " " +:+
  (if truthy_int size_mb then "count=" +:+ str_int (default 0%Z size_mb) else EmptyString) +:+ " | md5sum".
Definition read_md5sum (n : nat) (filename : string) (size_mb offset_mb : option Z) : M world string :=
  node_run_out g job n ["/bin/bash"; "-c"; md5sum_script filename size_mb offset_mb].

(** [node.volumes[0]] *)
Definition first_volume (n : nat) : M test nat :=
  let* s := get in lift (let* vs := node_volumes (t_world s) n in coll_getitem 0 vs).
Definition verified_file (backing_disk : bool) (n : nat) : M test string :=
  let* v := first_volume n in
  let* s := get in
  if backing_disk then mret (default "None" (disk (volume_at (t_world s) v)))
  else on_t_world (device g job v).
Definition node_md5sum (size_mb offset_mb : option Z) (backing_disk : bool) (n : nat) : M test string :=
  let* filename := verified_file backing_disk n in
  let* s := get in
  if version_ltb (node_version (t_world s) n) drbd9 && negb backing_disk then
    on_platform (primary g job n false true) ;;;
    let* m := on_t_world (read_md5sum n filename size_mb offset_mb) in
    on_t_life (secondary g job n true false) ;;;
    mret m
  else on_t_world (read_md5sum n filename size_mb offset_mb).
Definition verify_data (nodes : list nat) (size_mb : option Z) (backing_disk : bool) (offset_mb : option Z) : M test unit :=
  when (backing_disk && bool_decide (size_mb = None))
    (raise (RuntimeError "verifying data on backing disk requires explicit size")) ;;;
  let* md5sums := map_each nodes (node_md5sum size_mb offset_mb backing_disk) in
  when (bool_decide (1 < length (remove_dups md5sums))) (raise (RuntimeError "Data differs!")).

(** ** Steps of a test *)

(** [Resource.skip_initial_sync] *)
Definition disk_names (w : world) (r : nat) (vs : list nat) : gset string :=
  list_to_set (map (fun v => r_name (resource_at w r) +:+ "/" +:+ str_nat (v_volume (volume_at w v)))
    (filter (fun v => has_disk w v = true) vs)).
Definition skip_initial_sync (r : nat) : M life unit :=
  let* ns := resource_nodes r in
  let* diskful := look (fun w => nodes_having w true ns) in
  let* node := lift (py_index diskful 0) in
  let* vs := look (fun w => nodes_volumes w ns) in
  let* w := look Ok in
  on_world (drbdadm g job node (["new-current-uuid"; "--clear-bitmap"] ++ set_order (disk_names w r (items vs)))) ;;;
  initial_resync r 300.

(** [peer_devices(n1, n2)] *)
Definition from_connections (w : world) (cs : list (nat * nat)) (volumes : list nat) : res (list peer_device) :=
  let* vs := match volumes with
             | [] =>
                 let* c := py_index cs 0 in
                 let* cluster_volumes := nodes_volumes w (items (r_nodes (resource_at w (connection_resource (node_resource w) c)))) in
                 Ok (filter (fun v => v_node (volume_at w v) = fst c) (items cluster_volumes))
             | _ => Ok volumes
             end in
  let* pds := coll_init (T := oset peer_device) (fun p => connection_resource (node_resource w) (fst p))
                (concat (map (fun c => map (pair c) vs) cs)) in
  Ok (items pds).
Definition peer_devices (w : world) (n1 n2 : nat) : res (list peer_device) :=
  let* cs := connections (T := oset (nat * nat)) (node_resource w) (fun r => items (r_nodes (resource_at w r)))
               (Some n1) (Some n2) None None false in
  from_connections w (items cs) [].
Definition peer_devices_event (n1 n2 : nat) (event : string) : M test unit :=
  on_t_life (let* pds := look (fun w => peer_devices w n1 n2) in peer_devices_wait pds [event] None).

(** [node.volumes[0].disk_volume.set_delay_ms(ms)] for each node *)
Definition set_volume_delay (ms : Z) (n : nat) : M test unit :=
  let* v := first_volume n in
  let* s := get in
  let* d := lift (res_of_option (AttributeError "'NoneType' object has no attribute 'set_delay_ms'") (disk_volume (volume_at (t_world s) v))) in
  let* d := on_t_world (on_env (set_delay_ms (node_info (t_world s) n) ms d)) in
  on_t_world (set_volume v (set_disk_volume (Some d))).
Definition delay_disks (c : EnduranceConfig) (ms : Z) (diskful_nodes : list nat) : M test unit :=
  when (truthy_int (disk_delay_ms c)) (for_each diskful_nodes (set_volume_delay ms)).

(** The nodes of a resource: all, the first, and those that get a disk *)
Definition endurance_nodes (c : EnduranceConfig) (r : nat) : M test (list nat * nat * list nat) :=
  let* s := get in
  let ns := r_nodes (resource_at (t_world s) r) in
  let* primary_n := lift (coll_getitem 0 ns) in
  let* diskful_nodes := lift (if diskless_primary c then coll_getslice (node_resource (t_world s)) (Some 1%Z) None ns else Ok ns) in
  mret (items ns, primary_n, items diskful_nodes).

Definition endurance_disk_options : string := "al-extents 67; c-max-rate 1G; c-min-rate 0;".
Definition setup (r : nat) (c : EnduranceConfig) (primary_n : nat) (diskful_nodes : list nat) : M test unit :=
  let* s := get in
  let x := resource_at (t_world s) r in
  on_t_world (set_options r (r_net_options x) endurance_disk_options (r_resource_options x) (r_handlers x)) ;;;
  let net := "protocol " +:+ (if truthy (protocol c) then default EmptyString (protocol c) else "C") +:+ ";" in
  on_t_world (set_options r net endurance_disk_options (r_resource_options x) (r_handlers x)) ;;;
  let* _ := on_t_world (add_disk g job uuid5 r "300M" (Some diskful_nodes) None []
    (DiskArgs None None (if truthy_int (disk_delay_ms c) then Some 0%Z else None) None false) (MdFlags None false false false false)) in
  on_t_life (up_wait g job r [] ["Inconsistent"; "Diskless"]) ;;;
  on_t_life (skip_initial_sync r) ;;;
  on_platform (primary g job primary_n false true) ;;;
  on_fio (node_write g job primary_n [("direct", "1"); ("size", data_size); ("bs", "1M")]).

Definition fio_args (runtime : Z) (fio_arg_str : string) : string :=
  "--runtime=" +:+ str_int runtime +:+ " --size=" +:+ data_size +:+ " --numjobs=2 " +:+
  "--norandommap=1 --randrepeat=0 " +:+
  "--rw=randrw --rwmixwrite=70 --percentage_random=50 --random_distribution=zipf:2.0 " +:+
  "--blocksize_range=4k-64k " +:+ fio_arg_str.
Definition start_fio (writer : nat) (runtime : Z) (fio_arg_str : string) : M test unit :=
  on_fio (Fio.start g job writer (fio_args runtime fio_arg_str) default_base_args).

Definition teardown (r primary_n : nat) (diskful_nodes : list nat) : M test unit :=
  on_t_life (secondary g job primary_n true false) ;;;
  verify_data diskful_nodes (Some size_mb) true None ;;;
  on_t_life (resource_down g job r false) ;;;
  on_ending (cluster_teardown no_rmmod true).

(** ** The tests *)

Definition endure (c : EnduranceConfig) (primary_n : nat) : M test unit :=
  if truthy (protocol c) then
    let* v := first_volume primary_n in
    let* writer := on_fio (new_busy_write v) in
    start_fio writer test_runtime EmptyString ;;;
    on_fio (wait g job writer)
  else
    on_fio (node_write g job primary_n [("direct", "1")]) ;;;
    sleep (test_runtime * second).
Definition run (r : nat) (c : EnduranceConfig) : M test unit :=
  let* (nodes, primary_n, diskful_nodes) := endurance_nodes c r in
  let* primary_tc := on_t_world (traffic_control_init g job primary_n nodes) in
  setup r c primary_n diskful_nodes ;;;
  when (truthy (network_rate c))
    (for_each (skipn 1 nodes) (fun n => on_t_world (slow_down g job primary_tc n (default EmptyString (network_rate c)) EmptyString))) ;;;
  delay_disks c (default 0%Z (disk_delay_ms c)) diskful_nodes ;;;
  endure c primary_n ;;;
  delay_disks c 0 diskful_nodes ;;;
  teardown r primary_n diskful_nodes ;;;
  on_t_world (reset g job primary_tc).

Definition fio_rates : list string := ["1M"; "4M"; "16M"; "64M"; "256M"; "1G"].
Definition resync_turn (r source_n target_n writer count : nat) : M test unit :=
  let* fio_rate := lift (py_index fio_rates (Z.of_nat (count mod length fio_rates))) in
  start_fio writer 60 ("--rate=" +:+ fio_rate) ;;;
  sleep (second / 2) ;;;
  let* s := get in
  on_t_world (drbdadm g job source_n ["invalidate-remote";
    r_name (resource_at (t_world s) r) +:+ ":" +:+ node_name (t_world s) target_n]) ;;;
  peer_devices_event source_n target_n "peer-device .* replication:SyncSource" ;;;
  peer_devices_event target_n source_n "peer-device .* replication:SyncTarget" ;;;
  peer_devices_event source_n target_n "peer-device .* replication:Established" ;;;
  peer_devices_event target_n source_n "peer-device .* replication:Established" ;;;
  on_fio (stop g job writer).
(** The loop, for [fuel] turns: [None] when it is still running *)
Fixpoint resync_loop (fuel : nat) (r source_n target_n writer : nat) (start : Z) (count : nat) (s : test) : option (res unit * test) :=
  match fuel with
  | O => None
  | S fuel =>
      match time s with
      | (Ok now, s) =>
          if (now - start <? test_runtime * second)%Z then
            match resync_turn r source_n target_n writer count s with
            | (Ok _, s) => resync_loop fuel r source_n target_n writer start (S count) s
            | (Raise e, s) => Some (Raise e, s)
            end
          else Some (Ok tt, s)
      | (Raise e, s) => Some (Raise e, s)
      end
  end.

(** One object for each node, which slows down all the others *)
Definition slow_all (c : EnduranceConfig) (nodes : list nat) : M test (list traffic_control) :=
  if truthy (network_rate c) then
    map_each nodes (fun from_n =>
      let* tc := on_t_world (traffic_control_init g job from_n nodes) in
      for_each nodes (fun to_n =>
        if decide (to_n = from_n) then mret tt
        else on_t_world (slow_down g job tc to_n (default EmptyString (network_rate c)) EmptyString)) ;;;
      mret tc)
  else mret [].
Definition before_resync (r : nat) (c : EnduranceConfig) :
    M test (nat * list nat * (nat * nat) * nat * list traffic_control * Z) :=
  let* (nodes, primary_n, diskful_nodes) := endurance_nodes c r in
  let* (source_n, target_n) := lift (match firstn 2 diskful_nodes with
                                      | [a; b] => Ok (a, b)
                                      | _ => Raise (ValueError "not enough values to unpack")
                                      end) in
  setup r c primary_n diskful_nodes ;;;
  let* v := first_volume primary_n in
  let* writer := on_fio (new_busy_write v) in
  let* tcs := slow_all c nodes in
  delay_disks c (default 0%Z (disk_delay_ms c)) diskful_nodes ;;;
  let* start := time in
  mret (primary_n, diskful_nodes, (source_n, target_n), writer, tcs, start).
Definition after_resync (r : nat) (c : EnduranceConfig) (primary_n : nat) (diskful_nodes : list nat) (tcs : list traffic_control) :
    M test unit :=
  delay_disks c 0 diskful_nodes ;;;
  teardown r primary_n diskful_nodes ;;;
  for_each tcs (fun tc => on_t_world (reset g job tc)).
Definition run_resync (fuel r : nat) (c : EnduranceConfig) (s : test) : option (res unit * test) :=
  match before_resync r c s with
  | (Raise e, s) => Some (Raise e, s)
  | (Ok (primary_n, diskful_nodes, (source_n, target_n), writer, tcs, start), s) =>
      match resync_loop fuel r source_n target_n writer start 0 s with
      | Some (Ok _, s) => Some (after_resync r c primary_n diskful_nodes tcs s)
      | o => o
      end
  end.
End endurance.

(** ** What the tests rely on *)

(** The MiB blocks of a file that dd reads when it skips some and counts others *)
Definition mib (skip count : option Z) (blocks : list string) : list string :=
  let l := drop (Z.to_nat (default 0%Z skip)) blocks in
  match count with Some c => take (Z.to_nat c) l | None => l end.
(** The words of a pipeline that sums up these blocks *)
Definition md5_pipeline (filename : string) (skip count : option Z) : list string :=
  ["set"; "-o"; "pipefail"; ";"; "dd"; "if=" +:+ filename; "bs=1M"; "iflag=direct"] ++
  option_list ((fun k => "skip=" +:+ str_int k) <$> skip) ++ option_list ((fun k => "count=" +:+ str_int k) <$> count) ++
  ["|"; "md5sum"].
Definition script_words (script : string) : list string := filter (fun w => w <> EmptyString) (str_split " " script).
(** A host whose file [filename] has these blocks answers such a pipeline with their sum. *)
Definition sums_blocks `{SshServer} (md5 : list string -> string) (x : host_info) (filename : string) (skip count : option Z)
    (blocks : list string) : Prop :=
  forall log script, script_words script = md5_pipeline filename skip count ->
    ssh log (sent_run x ["/bin/bash"; "-c"; script]) = Ok (0%Z, md5 (mib skip count blocks)).

(** A number of 0 is no number. *)
Definition nonzero (o : option Z) : option Z := if truthy_int o then o else None.
(** The file of a node whose data is compared *)
Definition data_file (w : world) (backing_disk : bool) (n : nat) : option string :=
  match node_volumes w n with
  | Ok vs =>
      match items vs with
      | v :: _ => if backing_disk then Some (default "None" (disk (volume_at w v)))
                  else if on_windows w v then None else Some (linux_device (volume_at w v))
      | [] => None
      end
  | Raise _ => None
  end.

(** ** Lemmas: comparing data *)

Lemma str_int_without c z : is_digit c = false -> c <> "-"%char -> scontains c (str_int z) = false.
Proof.
  intros Hd Hm. assert (Hn : forall n : N, scontains c (pretty n) = false).
  { intros n. apply sall_contains with (p := is_digit); [apply pretty_N_digits|done]. }
  destruct z as [|p|p]; [exact (Hn 0%N)|exact (Hn (N.pos p))|].
  change (str_int (Z.neg p)) with ("-" +:+ pretty (N.pos p)). rewrite scontains_app, Hn. cbn [scontains].
  by rewrite bool_decide_false by congruence.
Qed.
Lemma md5sum_script_words filename size_mb offset_mb : scontains " " filename = false ->
  script_words (md5sum_script filename size_mb offset_mb) = md5_pipeline filename (nonzero offset_mb) (nonzero size_mb).
Proof.
  intros Hf. unfold script_words, md5sum_script, md5_pipeline, nonzero.
  set (a := if truthy_int offset_mb then _ else EmptyString). set (b := if truthy_int size_mb then _ else EmptyString).
  change (_ +:+ filename +:+ _) with (join " " ["set"; "-o"; "pipefail"; ";"; "dd"; "if=" +:+ filename; "bs=1M"; "iflag=direct"; a; b; "|"; "md5sum"]).
  assert (Hz : forall s o, scontains " " s = false -> scontains " " (s +:+ str_int o) = false).
  { intros s o Hs. rewrite scontains_app, Hs. by apply str_int_without. }
  rewrite split_join; [|done|].
  - unfold a, b. destruct offset_mb as [o|], size_mb as [z|]; cbn [truthy_int]; unfold bool_decide;
      repeat (case_decide; cbn [negb default]; try subst); reflexivity.
  - repeat (apply List.Forall_cons; [try done|]); [| |done].
    + unfold a. destruct (truthy_int offset_mb); [by apply Hz|done].
    + unfold b. destruct (truthy_int size_mb); [by apply Hz|done].
Qed.

(** The answers are all equal when there is at most one of them. *)
Lemma one_of_each (l : list string) : 1 < length (remove_dups l) <-> ~ forall a b, a ∈ l -> b ∈ l -> a = b.
Proof.
  split.
  - intros Hl Hall. pose proof (NoDup_remove_dups l) as Hn.
    destruct (remove_dups l) as [|a [|b k]] eqn:Hr; [cbn in Hl; lia|cbn in Hl; lia|].
    assert (Ha : a ∈ l) by (apply elem_of_remove_dups; rewrite Hr; left).
    assert (Hb : b ∈ l) by (apply elem_of_remove_dups; rewrite Hr; right; left).
    rewrite (Hall a b Ha Hb) in Hn. apply NoDup_cons in Hn as [Hn _]. apply Hn. left.
  - intros Hn. destruct (remove_dups l) as [|c [|d k]] eqn:Hr; [| |cbn; lia]; destruct Hn; intros a b;
      rewrite <-!(elem_of_remove_dups l), Hr.
    + intros Ha. by apply not_elem_of_nil in Ha.
    + intros ->%list_elem_of_singleton ->%list_elem_of_singleton. done.
Qed.

Section verify.
Context `{SshServer} `{EventScanner} (g : globals) (job : string).

(** The same state after other commands *)
Definition with_t_env (e : env) (s : test) : test :=
  Test (put_env e (t_world s)) (t_waits s) (t_online s) (t_fio_count s) (t_log_files s) (t_jobs s) (t_dmesg s) (t_closed s) (t_now s) (t_readings s).

Context (md5 : list string -> string) (s : test) (backing_disk : bool) (size_mb offset_mb : option Z) (blocks : nat -> list string).

(** The node is read without becoming primary, and its host has the blocks. *)
Definition readable (n : nat) : Prop :=
  config_changed (node_at (t_world s) n) = false /\
  (backing_disk = true \/ version_ltb (node_version (t_world s) n) drbd9 = false) /\
  exists filename, data_file (t_world s) backing_disk n = Some filename /\ scontains " " filename = false /\
    sums_blocks md5 (node_info (t_world s) n) filename (nonzero offset_mb) (nonzero size_mb) (blocks n).

Lemma verified_file_ok n filename e : data_file (t_world s) backing_disk n = Some filename ->
  verified_file g job backing_disk n (with_t_env e s) = (Ok filename, with_t_env e s).
Proof.
  unfold data_file. destruct (node_volumes (t_world s) n) as [vs|x] eqn:Hvs; [|done]. destruct (items vs) as [|v l] eqn:Hl; [done|]. intros Hf.
  assert (Hv : first_volume n (with_t_env e s) = (Ok v, with_t_env e s)).
  { unfold first_volume. mred. cbn [get]. change (node_volumes (t_world (with_t_env e s)) n) with (node_volumes (t_world s) n).
    rewrite Hvs. unfold lift, coll_getitem. mred. change (elems vs) with (items vs). by rewrite Hl. }
  unfold verified_file. rewrite (bind_ok _ _ _ _ _ Hv), (bind_ok get _ _ (with_t_env e s) (with_t_env e s)) by done.
  destruct backing_disk; [by injection Hf as <-|].
  unfold on_t_world, zoom, device. mred. cbn [get]. change (on_windows (t_world (with_t_env e s)) v) with (on_windows (t_world s) v).
  destruct (on_windows (t_world s) v); [done|]. by injection Hf as <-.
Qed.
Lemma node_md5sum_ok n e : readable n -> exists e',
  node_md5sum g job size_mb offset_mb backing_disk n (with_t_env e s) =
    (Ok (strip (md5 (mib (nonzero offset_mb) (nonzero size_mb) (blocks n)))), with_t_env e' s).
Proof.
  intros (Hc & Hver & f & Hf & Hsp & Hsum). unfold node_md5sum. rewrite (bind_ok _ _ _ _ _ (verified_file_ok n f e Hf)).
  rewrite (bind_ok get _ _ (with_t_env e s) (with_t_env e s)) by done.
  change (node_version (t_world (with_t_env e s)) n) with (node_version (t_world s) n).
  replace (version_ltb (node_version (t_world s) n) drbd9 && negb backing_disk) with false
    by (destruct Hver as [->| ->]; [by rewrite andb_false_r|done]).
  unfold on_t_world, zoom, read_md5sum. rewrite node_run_out_unchanged by exact Hc. unfold on_env, zoom.
  rewrite run_out_answer. unfold sums_blocks in Hsum.
  erewrite Hsum by (by apply md5sum_script_words). eexists. reflexivity.
Qed.

Lemma verify_data_ends ns : (forall n, n ∈ ns -> readable n) -> (backing_disk = true -> size_mb <> None) ->
  let sums := map (fun n => strip (md5 (mib (nonzero offset_mb) (nonzero size_mb) (blocks n)))) ns in
  exists e, verify_data g job ns size_mb backing_disk offset_mb s =
    (if decide (1 < length (remove_dups sums)) then Raise (RuntimeError "Data differs!") else Ok tt, with_t_env e s).
Proof.
  intros Hr Hsz sums. unfold verify_data.
  replace (backing_disk && bool_decide (size_mb = None)) with false
    by (destruct backing_disk; [|done]; by rewrite bool_decide_false by auto).
  cbn [when]. rewrite (bind_ok (mret tt) _ s tt s) by done.
  assert (Hmap : forall e, exists e', map_each ns (node_md5sum g job size_mb offset_mb backing_disk) (with_t_env e s) = (Ok sums, with_t_env e' s)).
  { unfold sums. clear sums. induction ns as [|n ns IH]; intros e; [by exists e|]. cbn [map_each map].
    destruct (node_md5sum_ok n e (Hr n ltac:(left))) as [e1 H1]. rewrite (bind_ok _ _ _ _ _ H1).
    destruct (IH ltac:(intros n' Hn'; apply Hr; by right) e1) as [e2 H2]. rewrite (bind_ok _ _ _ _ _ H2). by exists e2. }
  destruct (Hmap (w_env (t_world s))) as [e He]. exists e.
  replace (with_t_env (w_env (t_world s)) s) with s in He by (destruct s as [[] ? ? ? ? ? ? ? ? ?]; reflexivity).
  rewrite (bind_ok _ _ _ _ _ He). case_decide as Hl; [by rewrite bool_decide_true|by rewrite bool_decide_false].
Qed.
End verify.

(** ** Lemmas: the clock *)

(** Only pauses and readings of the clock move it. *)
Definition same_time (s s' : test) : Prop := t_now s' = t_now s.
#[export] Instance same_time_preorder : PreOrder same_time.
Proof. split; [by intros s|]. unfold same_time. intros a b c. congruence. Qed.
(** At least [d] goes by. *)
Definition later (d : Z) (s s' : test) : Prop := (t_now s + d <= t_now s')%Z.
#[export] Instance later_preorder : PreOrder (later 0).
Proof. split; [intros s; unfold later; lia|]. unfold later. intros a b c. lia. Qed.

Section clock.
Context `{SshServer} `{EventScanner} `{Clock} `{SetOrder} (g : globals) (job : string).

Lemma time_on_t_world {A} (m : M world A) : keeps same_time (on_t_world m).
Proof. intros s. unfold on_t_world, zoom. by destruct (m _). Qed.
Lemma time_on_platform {A} (m : M platform A) : keeps same_time (on_platform m).
Proof. intros s. unfold on_platform, zoom. by destruct (m _). Qed.
Lemma time_on_fio {A} (m : M fio A) : keeps same_time (on_fio m).
Proof. intros s. unfold on_fio, zoom. by destruct (m _). Qed.

Context (Hclock : forall k, (0 <= passes k)%Z).
Lemma keeps_time_later {A} (m : M test A) : keeps same_time m -> keeps (later 0) m.
Proof. intros Hm s. specialize (Hm s). unfold later, same_time in *. lia. Qed.
Lemma sleep_later d : keeps (later d) (sleep d).
Proof. intros s. unfold later, sleep, modify. cbn. specialize (Hclock (t_readings s)). lia. Qed.
Lemma time_reads s : exists s', time s = (Ok (t_now s'), s') /\ later 0 s s'.
Proof. eexists. split; [reflexivity|]. apply (sleep_later 0). Qed.

(** A turn of the loop that succeeds takes half a second at least. *)
Lemma resync_turn_takes_time r source_n target_n writer count s :
  wp (resync_turn g job r source_n target_n writer count) (fun _ s' => later (second / 2) s s') (fun _ _ => True) s.
Proof.
  unfold resync_turn. apply wp_bind. apply (wp_keeps same_time); [intros s0; reflexivity| |done].
  intros rate s1 Ht1. apply wp_bind. apply (wp_keeps same_time); [apply time_on_fio| |done]. intros _ s2 Ht2.
  apply wp_bind. apply (wp_keeps (later (second / 2))); [apply sleep_later| |done]. intros _ s3 Ht3.
  assert (Hl : later (second / 2) s s3) by (unfold later, same_time in *; lia). clear Ht1 Ht2 Ht3.
  apply (wp_keeps same_time); [| |done]; [|intros _ s4 Ht4; unfold later, same_time in *; lia].
  apply keeps_bind; [apply _|apply keeps_get; apply _|intros s0].
  apply keeps_bind; [apply _|apply time_on_t_world|intros _].
  do 4 (apply keeps_bind; [apply _|apply time_on_platform|intros _]). apply time_on_fio.
Qed.

(** With [k] half seconds left, [k] turns and one more are enough. *)
Lemma resync_loop_ends r source_n target_n writer start : forall k fuel count s,
  (test_runtime * second - (t_now s - start) <= Z.of_nat k * (second / 2))%Z ->
  resync_loop g job (k + 1 + fuel) r source_n target_n writer start count s =
    resync_loop g job (k + 1) r source_n target_n writer start count s /\
  resync_loop g job (k + 1) r source_n target_n writer start count s <> None.
Proof.
  induction k as [|k IH]; intros fuel count s Hk; cbn [Nat.add resync_loop];
    destruct (time_reads s) as (s1 & -> & Hs1); unfold later in Hs1.
  - replace (t_now s1 - start <? test_runtime * second)%Z with false by lia. done.
  - destruct (t_now s1 - start <? test_runtime * second)%Z eqn:Hlt; [|done].
    pose proof (resync_turn_takes_time r source_n target_n writer count s1) as Ht. unfold wp in Ht.
    destruct (resync_turn _ _ _ _ _ _ _ s1) as [[[]|e] s2]; [|done]. apply IH. unfold later in Ht. lia.
Qed.

(** The loop starts with the time of the last reading. *)
Lemma wp_bind_any {S A B} (m : M S A) (f : A -> M S B) Q s :
  (forall a s', wp (f a) Q (fun _ _ => True) s') -> wp (m ≫= f) Q (fun _ _ => True) s.
Proof. intros Hf. apply wp_bind. unfold wp at 1. destruct (m s) as [[a|e] s']; [apply Hf|done]. Qed.
Lemma before_resync_starts uuid5 r c s :
  wp (before_resync g job uuid5 r c) (fun x s' => snd x = t_now s') (fun _ _ => True) s.
Proof.
  unfold before_resync. apply wp_bind_any. intros [[nodes primary_n] diskful_nodes] s1.
  apply wp_bind_any. intros [source_n target_n] s2. do 5 (apply wp_bind_any; intros ? ?).
  apply wp_bind. match goal with |- wp time _ _ ?s => destruct (time_reads s) as (s3 & Ht & _) end. unfold wp at 1. rewrite Ht. by apply wp_ret.
Qed.
End clock.

Lemma sapp_inj_l (a b c : string) : a +:+ b = a +:+ c -> b = c.
Proof. induction a as [|x a IH]; [done|]. rewrite !sapp_cons. intros [= Heq]. by apply IH. Qed.
Lemma str_nat_inj n m : str_nat n = str_nat m -> n = m.
Proof. rewrite !str_nat_N. intros Heq%(inj pretty). lia. Qed.
Lemma initial_resync_world `{EventScanner} r timeout s : l_world (snd (initial_resync r timeout s)) = l_world s.
Proof.
  unfold initial_resync, resource_nodes, look. mred. destruct (nodes_having _ true _) as [d|]; [|done].
  destruct (nodes_having _ false _) as [d'|]; [|done]. destruct (resync_peer_devices _ d d' []) as [[x|] pds]; [|done]. by destruct pds.
Qed.

(** ** Properties *)

(** C8: [verify_data] succeeds exactly when the compared ranges, the MiB blocks
    after the offset and up to the size, are the same on all nodes, and fails
    otherwise; it changes no object.  The sums are assumed to differ for data
    that differs, of the nodes at hand. *)
Theorem verify_data_compares_the_contents `{SshServer} `{EventScanner} g job md5 s backing_disk blocks ns size_mb offset_mb :
  (forall n, n ∈ ns -> readable md5 s backing_disk size_mb offset_mb blocks n) -> (backing_disk = true -> size_mb <> None) ->
  let range n := mib (nonzero offset_mb) (nonzero size_mb) (blocks n) in
  (forall n n', n ∈ ns -> n' ∈ ns -> strip (md5 (range n)) = strip (md5 (range n')) -> range n = range n') ->
  let same := forall n n', n ∈ ns -> n' ∈ ns -> range n = range n' in
  exists r e, verify_data g job ns size_mb backing_disk offset_mb s = (r, with_t_env e s) /\
    (same -> r = Ok tt) /\ (~ same -> r = Raise (RuntimeError "Data differs!")).
Proof.
  intros Hr Hsz range Hinj same.
  destruct (verify_data_ends g job md5 s backing_disk size_mb offset_mb blocks ns Hr Hsz) as [e He]. fold range in He.
  eexists _, e. split; [exact He|].
  assert (Hs : (forall a b, a ∈ map (fun n => strip (md5 (range n))) ns -> b ∈ map (fun n => strip (md5 (range n))) ns -> a = b) <-> same).
  { split.
    - intros Hall n n' Hn Hn'. apply Hinj; [done..|]. apply Hall; apply list_elem_of_fmap; eauto.
    - intros Hsame a b (n & -> & Hn)%list_elem_of_fmap (n' & -> & Hn')%list_elem_of_fmap. by rewrite (Hsame n n' Hn Hn'). }
  case_decide as Hd; rewrite one_of_each in Hd.
  - split; [|done]. intros Hx. destruct Hd. exact (proj2 Hs Hx).
  - split; [done|]. intros Hn. destruct Hd. intros Hall. exact (Hn (proj1 Hs Hall)).
Qed.

(** [skip_initial_sync] runs one command, on the first node with a disk;
    it names every volume number that has a disk on some node, and each of
    them once, although every node has a volume of its own with this number. *)
Theorem skip_initial_sync_names_each_volume_once `{SshServer} `{EventScanner} `{SetOrder} g job r s node rest vs :
  (forall X, Permutation (set_order X) (elements X)) ->
  let w := l_world s in
  let ns := items (r_nodes (resource_at w r)) in
  let x := node_info w node in
  nodes_having w true ns = Ok (node :: rest) -> nodes_volumes w ns = Ok vs -> config_changed (node_at w node) = false ->
  let s' := snd (skip_initial_sync g job r s) in
  exists names, sent_log (w_env (l_world s')) = sent_log (w_env w) ++
      [sent_run x (["drbdadm"; "-c"; drbd_global_config_file_path job x; "-v"; "new-current-uuid"; "--clear-bitmap"] ++ names)] /\
    NoDup names /\
    forall k, r_name (resource_at w r) +:+ "/" +:+ str_nat k ∈ names <->
      exists v, v ∈ items vs /\ has_disk w v = true /\ v_volume (volume_at w v) = k.
Proof.
  intros Hset w ns x Hh Hv Hc s'. exists (set_order (disk_names w r (items vs))).
  split_and!.
  - subst s'. unfold skip_initial_sync. rewrite (bind_ok (resource_nodes r) _ s ns s) by done.
    rewrite (bind_ok (look _) _ s (node :: rest) s) by (unfold look; by rewrite <-Hh).
    rewrite (bind_ok (lift _) _ s node s) by done.
    rewrite (bind_ok (look _) _ s vs s) by (unfold look; by rewrite <-Hv).
    rewrite (bind_ok (look Ok) _ s w s) by done.
    assert (Hd : forall cmd, drbdadm g job node cmd w = on_env (Host.run x (["drbdadm"; "-c"; drbd_global_config_file_path job x; "-v"] ++ cmd)) w).
    { intros cmd. unfold drbdadm. unfold gets at 1. mred. by rewrite node_run_unchanged. }
    mred. unfold on_world, zoom. fold w. rewrite Hd. unfold on_env, zoom. rewrite run_answer.
    destruct (ssh _ _) as [[code out]|e]; [|done]. destruct (code =? 0)%Z; [|done].
    by rewrite initial_resync_world.
  - rewrite Hset. apply NoDup_elements.
  - intros k. rewrite Hset, elem_of_elements. unfold disk_names. rewrite elem_of_list_to_set, list_elem_of_fmap. split.
    + intros (v & Hk & [Hd Hin]%list_elem_of_filter). exists v. split_and!; [done..|].
      apply sapp_inj_l in Hk. injection Hk as Hk. by apply str_nat_inj in Hk.
    + intros (v & Hin & Hd & <-). exists v. split; [done|]. by apply list_elem_of_filter.
Qed.

(** C15: if the clock is not set back and a pause lasts as long as asked for,
    [run_resync] comes to an end: its loop makes at most 1080 turns, and more
    fuel does not change anything. *)
Theorem run_resync_ends `{SshServer} `{KernelLog} `{EventScanner} `{Clock} `{SetOrder} g job uuid5 no_rmmod fuel r c s :
  (forall k, (0 <= passes k)%Z) -> 1081 <= fuel ->
  run_resync g job uuid5 no_rmmod fuel r c s <> None /\
  run_resync g job uuid5 no_rmmod fuel r c s = run_resync g job uuid5 no_rmmod 1081 r c s.
Proof.
  intros Hclock Hf. unfold run_resync.
  pose proof (before_resync_starts g job Hclock uuid5 r c s) as Hb. unfold wp in Hb.
  destruct (before_resync g job uuid5 r c s) as [[[[[[[p d] [src tgt]] wr] tcs] start]|e] s1]; [|done]. cbn in Hb. subst start.
  destruct (resync_loop_ends g job Hclock r src tgt wr (t_now s1) (Z.to_nat 1080) (fuel - 1081) 0 s1) as [Heq Hne].
  { rewrite Z.sub_diag. unfold test_runtime, second. done. }
  replace (Z.to_nat 1080 + 1 + (fuel - 1081)) with fuel in Heq by lia. rewrite Heq.
  change (Z.to_nat 1080 + 1) with 1081 in *. split; [|done]. revert Hne.
  by destruct (resync_loop g job 1081 r src tgt wr (t_now s1) 0 s1) as [[[[]|e] s2]|].
Qed.

(** ** Witnesses *)

(** The two hosts of [DemoQuiet], whose answer to every command is their name *)
#[local] Instance naming_server : SshServer := fun _ c => Ok (0%Z, s_host c).
#[local] Instance sure_scanner : EventScanner := fun _ _ _ => Ok tt.
#[local] Instance steady_clock : Clock := fun _ => 0%Z.
#[local] Instance silent_kernel : KernelLog := fun _ _ => EmptyString.
#[local] Instance elements_order : SetOrder := elements.
Definition demo_test : test :=
  Test (e_world DemoQuiet.demo_ending) [] [] (fun _ => 0) ∅ [] demo_dmesg [] 0 0.

Lemma verify_data_compares_the_contents_witness :
  fst (verify_data demo_globals "job" [0; 1] (Some 280%Z) true None demo_test) = Raise (RuntimeError "Data differs!").
Proof.
  destruct (verify_data_compares_the_contents demo_globals "job" (fun l => default EmptyString (head l)) demo_test true
    (fun n => [if decide (n = 0) then "a" else "b"]) [0; 1] (Some 280%Z) None) as (r & e & Hv & _ & Hd).
  - intros n Hn. assert (n = 0 \/ n = 1) as [-> | ->] by set_solver.
    all: split; [vm_compute; reflexivity|]; split; [left; reflexivity|]; eexists.
    all: split; [vm_compute; reflexivity|]; split; [vm_compute; reflexivity|]; intros log script _; vm_compute; reflexivity.
  - discriminate.
  - intros n n' Hn Hn'. assert (n = 0 \/ n = 1) as [-> | ->] by set_solver; assert (n' = 0 \/ n' = 1) as [-> | ->] by set_solver;
      vm_compute; congruence.
  - rewrite Hv. apply Hd. intros Hs. assert (Hab : mib None (Some 280%Z) ["a"] = mib None (Some 280%Z) ["b"]) by exact (Hs 0 1 ltac:(left) ltac:(right; left)).
    vm_compute in Hab. discriminate Hab.
Defined.

Lemma skip_initial_sync_names_each_volume_once_witness :
  exists names, sent_log (w_env (l_world (snd (skip_initial_sync demo_globals "job" 0 (Life (t_world demo_test) []))))) =
    sent_log (w_env (t_world demo_test)) ++ [sent_run (node_info (t_world demo_test) 0)
      (["drbdadm"; "-c"; drbd_global_config_file_path "job" (node_info (t_world demo_test) 0); "-v"; "new-current-uuid"; "--clear-bitmap"] ++ names)] /\
    NoDup names /\ "r/0" ∈ names.
Proof.
  edestruct (skip_initial_sync_names_each_volume_once demo_globals "job" 0 (Life (t_world demo_test) []) 0 [1]) as (names & Hlog & Hnd & Hin).
  - intros X. reflexivity.
  - vm_compute. reflexivity.
  - vm_compute. reflexivity.
  - vm_compute. reflexivity.
  - exists names. split; [exact Hlog|]. split; [exact Hnd|]. apply (proj2 (Hin 0)). exists 0.
    split; [vm_compute; left|]. split; vm_compute; reflexivity.
Defined.

Lemma run_resync_ends_witness :
  run_resync demo_globals "job" (fun s => s) false 2000 0 (NewEnduranceConfig None None None false) demo_test <> None.
Proof.
  exact (proj1 (run_resync_ends demo_globals "job" (fun s => s) false 2000 0 (NewEnduranceConfig None None None false) demo_test
    ltac:(intros k; apply Z.le_refl) ltac:(lia))).
Defined.
