(* ===== verification/Setup.v ===== *)
(** * The set-up of a test (src/python/drbdtest.py, [setup])

    The checks [setup] makes on its arguments, before it creates the cluster:
    the report for the test runner, the number of hosts, and the compression
    level of the proxy. *)

From S2P Require Import Prelude PyStr.
#[local] Open Scope Z_scope.

(** [min_nodes] and [max_nodes], after [nodes] has replaced both *)
Definition node_limits (nodes max_nodes : option Z) (min_nodes : Z) : Z * option Z :=
  match nodes with
  | Some nodes => (nodes, Some nodes)
  | None => (min_nodes, max_nodes)
  end.

(** The output of [--report-and-quit] *)
Definition report_and_quit (min_nodes : Z) (max_nodes : option Z) : string :=
  print_lines (("min_nodes=" +:+ str_int min_nodes) ::
    match max_nodes with
    | Some m => if m =? 0 then [] else ["max_nodes=" +:+ str_int m]
    | None => []
    end).

Definition skip_test {A} : res A := Raise (SystemExit 100).

Definition check_hosts (min_nodes : Z) (max_nodes : option Z) (override_max : bool)
    (host : list string) : res unit :=
  let n := Z.of_nat (length host) in
  if (if max_nodes is Some m then (min_nodes =? m) && negb (n =? min_nodes) else false) then skip_test
  else if n <? min_nodes then skip_test
  else if (if max_nodes is Some m then (m <? n) && negb override_max else false) then skip_test
  else Ok tt.

Definition zstd_level (zstd : option Z) : Z :=
  match zstd with
  | Some z => if z =? 0 then 0 else if (0 <? z) && (z <=? 22) then z else 3
  | None => 0
  end.

(** ** Lemmas *)

Lemma check_hosts_spec min_nodes max_nodes override_max host :
  check_hosts min_nodes max_nodes override_max host =
  if (min_nodes <=? Z.of_nat (length host)) &&
     (if max_nodes is Some m then
        (Z.of_nat (length host) <=? m) || (override_max && negb (min_nodes =? m)) else true)
  then Ok tt else Raise (SystemExit 100).
Proof.
  unfold check_hosts. set (n := Z.of_nat (length host)).
  destruct max_nodes as [m|].
  - destruct (Z.eqb_spec min_nodes m) as [->|Hne]; simpl.
    + rewrite andb_false_r, orb_false_r.
      destruct (Z.eqb_spec n m); simpl;
        destruct (Z.ltb_spec n m), (Z.leb_spec m n), (Z.ltb_spec m n), (Z.leb_spec n m);
        destruct override_max; simpl; try done; lia.
    + rewrite andb_true_r.
      destruct (Z.ltb_spec n min_nodes), (Z.leb_spec min_nodes n), (Z.ltb_spec m n), (Z.leb_spec n m);
        destruct override_max; simpl; try done; lia.
  - destruct (Z.ltb_spec n min_nodes), (Z.leb_spec min_nodes n); simpl; try done; lia.
Qed.

Lemma zstd_level_range z : 0 <= zstd_level z <= 22.
Proof.
  destruct z as [z|]; simpl; [|lia].
  destruct (Z.eqb_spec z 0); [lia|]. destruct (Z.ltb_spec 0 z), (Z.leb_spec z 22); simpl; lia.
Qed.
