(* ===== verification/ArgParse.v ===== *)
(** * Command lines (Python's module [argparse])

    The part of [argparse] (as of Python 3.8 to 3.11) that the programs use:
    options that store, append, count or set a flag, positional arguments, types
    [str] and [int], choices, defaults, abbreviated long options, short options
    with their value attached, and [--].  A parser is the list of its actions;
    the messages on standard error are left out, so that an error is the exit
    with status 2.  The parsers themselves are in the files of their programs. *)

From S2P Require Import Prelude PyStr Dict.
#[local] Set Warnings "-register-all".

(** ** Values, actions, namespaces *)

Inductive value :=
| ANone
| AStr (s : string)
| AInt (n : Z)
| ABool (b : bool)
| AList (l : list value).

Inductive nargs := One | ZeroOrMore | OneOrMore.
Inductive kind := Store (n : nargs) | Append | StoreTrue | Count | Help.
Inductive argtype := TStr | TInt.
#[export] Instance nargs_eq_dec : EqDecision nargs.
Proof. solve_decision. Defined.

(** A positional argument has no option strings. *)
Record action := Action {
  a_options : list string;
  a_dest : string;
  a_kind : kind;
  a_type : argtype;
  a_choices : option (list string);
  a_default : value
}.
Definition parser : Type := list action.
Definition namespace : Type := dict string value.

Definition positional (a : action) : bool := bool_decide (a_options a = []).
Definition help_action : action := Action ["-h"; "--help"] "help" Help TStr None ANone.

(** [parser.error] *)
Definition usage_error {A} : res A := Raise (SystemExit 2).
Definition or_usage {A} (r : res A) : res A := match r with Ok x => Ok x | Raise _ => usage_error end.

(** ** What an argument string is *)

(** The argument for [A], the option for [O] with the action (an unknown one
    has none), its name and the value attached to it, and the two dashes *)
Inductive tag := TagA | TagO (t : option (action * string * option string)) | TagDash.

(** The action of an option string *)
Fixpoint find_option (p : parser) (o : string) : option action :=
  match p with
  | [] => None
  | a :: p => if decide (o ∈ a_options a) then Some a else find_option p o
  end.
Definition all_options (p : parser) : list (string * action) := concat (map (fun a => map (fun o => (o, a)) (a_options a)) p).

(** Cut at the first [=] *)
Fixpoint cut_equals (s : string) : option (string * string) :=
  match s with
  | EmptyString => None
  | String c s => if decide (c = "="%char) then Some (EmptyString, s) else (fun '(o, v) => (String c o, v)) <$> cut_equals s
  end.

(** [_get_option_tuples] *)
Definition option_tuples (p : parser) (s : string) : list (action * string * option string) :=
  match s with
  | String _ (String "-" _) =>
      let '(prefix, explicit) := match cut_equals s with Some (o, v) => (o, Some v) | None => (s, None) end in
      omap (fun '(o, a) => if startswith prefix o then Some (a, o, explicit) else None) (all_options p)
  | String d (String c rest) =>
      omap (fun '(o, a) => if decide (o = String d (String c EmptyString)) then Some (a, o, Some rest)
                           else if startswith s o then Some (a, o, None) else None) (all_options p)
  | _ => []
  end.

(** [_negative_number_matcher] *)
Definition negative_number (s : string) : bool :=
  match s with
  | String "-" t =>
      if isdecimal t then true
      else match str_split "." t with [a; b] => (bool_decide (a = EmptyString) || isdecimal a) && isdecimal b | _ => false end
  | _ => false
  end.

(** [_parse_optional] *)
Definition parse_optional (p : parser) (s : string) : res tag :=
  match s with
  | String "-" rest =>
      match find_option p s with
      | Some a => Ok (TagO (Some (a, s, None)))
      | None =>
          if decide (rest = EmptyString) then Ok TagA
          else
            match (match cut_equals s with
                   | Some (o, v) => match find_option p o with Some a => Some (a, o, Some v) | None => None end
                   | None => None
                   end) with
            | Some t => Ok (TagO (Some t))
            | None =>
                match option_tuples p s with
                | _ :: _ :: _ => usage_error
                | [t] => Ok (TagO (Some t))
                | [] => Ok (if negative_number s || scontains " " s then TagA else TagO None)
                end
            end
      end
  | _ => Ok TagA
  end.

(** Everything behind two dashes is an argument. *)
Fixpoint classify (p : parser) (args : list string) : res (list (string * tag)) :=
  match args with
  | [] => Ok []
  | s :: args =>
      if decide (s = "--") then Ok ((s, TagDash) :: map (fun s => (s, TagA)) args)
      else let* t := parse_optional p s in let* l := classify p args in Ok ((s, t) :: l)
  end.

(** ** How many arguments an action takes *)

Definition is_A (t : tag) : bool := match t with TagA => true | _ => false end.
Definition is_dash (t : tag) : bool := match t with TagDash => true | _ => false end.
Definition is_O (t : tag) : bool := match t with TagO _ => true | _ => false end.
(** The length of the longest prefix *)
Fixpoint run_of (f : tag -> bool) (l : list tag) : nat :=
  match l with t :: l => if f t then S (run_of f l) else 0 | [] => 0 end.

(** [_match_argument] on an option *)
Definition option_count (k : kind) (l : list tag) : option nat :=
  match k with
  | Store One | Append => if decide (1 <= run_of is_A l) then Some 1 else None
  | Store ZeroOrMore => Some (run_of is_A l)
  | Store OneOrMore => if decide (1 <= run_of is_A l) then Some (run_of is_A l) else None
  | StoreTrue | Count | Help => Some 0
  end.

(** The lengths that the group of a positional argument can match, the
    preferred one first *)
Definition downto (hi lo : nat) : list nat := reverse (seq lo (S hi - lo)).
Definition group_lengths (n : nargs) (l : list tag) : list nat :=
  let d := run_of is_dash l in
  match n with
  | One => if decide (1 <= run_of is_A (drop d l)) then downto (d + 1 + run_of is_dash (drop (d + 1) l)) (d + 1) else []
  | ZeroOrMore => downto (run_of (fun t => is_A t || is_dash t) l) 0
  | OneOrMore => if decide (1 <= run_of is_A (drop d l)) then downto (run_of (fun t => is_A t || is_dash t) l) (d + 1) else []
  end.
Definition nargs_of (a : action) : nargs := match a_kind a with Store n => n | _ => One end.
Fixpoint match_groups (ps : list action) (l : list tag) : option (list nat) :=
  match ps with
  | [] => Some []
  | a :: ps => head (omap (fun n => cons n <$> match_groups ps (drop n l)) (group_lengths (nargs_of a) l))
  end.
(** [_match_arguments_partial]: as many of the actions as match *)
Fixpoint match_partial (k : nat) (ps : list action) (l : list tag) : list nat :=
  match k with
  | O => []
  | S k' => match match_groups (take k ps) l with Some counts => counts | None => match_partial k' ps l end
  end.

(** ** Taking an action *)

Definition get_value (a : action) (s : string) : res value :=
  let* v := match a_type a with TStr => Ok (AStr s) | TInt => or_usage (AInt <$> py_int s) end in
  match a_choices a with
  | Some l => if decide (s ∈ l) then Ok v else usage_error
  | None => Ok v
  end.
(** [_get_values]; a first [--] is left out. *)
Definition get_values (a : action) (args : list string) : res value :=
  let args := default args (list_remove "--" args) in
  match a_kind a, args with
  | Store ZeroOrMore, [] =>
      if positional a then Ok (match a_default a with ANone => AList [] | v => v end) else Ok (AList [])
  | (Store One | Append), [s] => get_value a s
  | _, _ => AList <$> map_res args (get_value a)
  end.

(** What [parse_args] changes: the attributes, the actions that were seen (by
    their destination), the strings nobody takes, the positional arguments left *)
Record pstate := PState { p_ns : namespace; p_seen : list string; p_extras : list string; p_positionals : list action }.
Definition set_attr (dest : string) (v : value) (s : pstate) : pstate :=
  PState (d_set dest v (p_ns s)) (p_seen s) (p_extras s) (p_positionals s).
Definition add_extras (l : list string) (s : pstate) : pstate := PState (p_ns s) (p_seen s) (p_extras s ++ l) (p_positionals s).
Definition items (v : value) : list value := match v with AList l => l | _ => [] end.
Definition attr (ns : namespace) (dest : string) : value := default ANone (d_get dest ns).

Definition take_action (a : action) (args : list string) (s : pstate) : res pstate :=
  let* v := get_values a args in
  let s := PState (p_ns s) (p_seen s ++ [a_dest a]) (p_extras s) (p_positionals s) in
  match a_kind a with
  | Store _ => Ok (set_attr (a_dest a) v s)
  | Append => Ok (set_attr (a_dest a) (AList (items (attr (p_ns s) (a_dest a)) ++ [v])) s)
  | StoreTrue => Ok (set_attr (a_dest a) (ABool true) s)
  | Count => Ok (set_attr (a_dest a) (AInt (match attr (p_ns s) (a_dest a) with AInt n => n + 1 | _ => 1 end)) s)
  | Help => Raise (SystemExit 0)
  end.

(** ** Consuming *)

(** The flags that are spelled together after one dash, the last one perhaps
    with a value: the actions to take *)
Fixpoint cluster (p : parser) (a : action) (explicit : string) : res (list (action * option string)) :=
  match option_count (a_kind a) [TagA], explicit with
  | Some 0, String c rest =>
      match find_option p (String "-" (String c EmptyString)) with
      | Some a' => match rest with
                   | EmptyString => Ok [(a, None); (a', None)]
                   | _ => cons (a, None) <$> cluster p a' rest
                   end
      | None => usage_error
      end
  | Some 1, _ => Ok [(a, Some explicit)]
  | _, _ => usage_error
  end.

(** An action without a value attached, on the strings behind it; the number of
    strings it takes *)
Definition take_following (a : action) (rest : list (string * tag)) (s : pstate) : res (pstate * nat) :=
  match option_count (a_kind a) (map snd rest) with
  | Some n => let* s := take_action a (map fst (take n rest)) s in Ok (s, n)
  | None => usage_error
  end.
(** The last action of a cluster may take strings behind it; it is looked at
    before the others are taken. *)
Fixpoint take_cluster (l : list (action * option string)) (rest : list (string * tag)) (s : pstate) : res (pstate * nat) :=
  match l with
  | [] => Ok (s, 0)
  | [(a, None)] => take_following a rest s
  | (a, v) :: l => let* s := take_action a (option_list v) s in take_cluster l rest s
  end.
Definition last_fits (l : list (action * option string)) (rest : list (string * tag)) : bool :=
  match last l with
  | Some (a, None) => bool_decide (is_Some (option_count (a_kind a) (map snd rest)))
  | _ => true
  end.

(** [consume_optional]: the option [arg], followed by [rest] *)
Definition consume_optional (p : parser) (arg : string) (t : option (action * string * option string)) (rest : list (string * tag))
    (s : pstate) : res (pstate * nat) :=
  match t with
  | None => Ok (add_extras [arg] s, 0)
  | Some (a, _, None) => take_following a rest s
  | Some (a, o, Some v) =>
      if startswith "--" o then
        if bool_decide (option_count (a_kind a) [TagA] = Some 1) then let* s := take_action a [v] s in Ok (s, 0) else usage_error
      else
        let* l := cluster p a v in
        if last_fits l rest then take_cluster l rest s else usage_error
  end.

Fixpoint take_positionals (ps : list action) (counts : list nat) (l : list (string * tag)) (s : pstate) : res pstate :=
  match ps, counts with
  | a :: ps, n :: counts => let* s := take_action a (map fst (take n l)) s in take_positionals ps counts (drop n l) s
  | _, _ => Ok s
  end.
(** [consume_positionals], and the number of strings it takes *)
Definition consume_positionals (l : list (string * tag)) (s : pstate) : res (pstate * nat) :=
  let ps := p_positionals s in
  let counts := match_partial (length ps) ps (map snd l) in
  let* s := take_positionals ps counts l s in
  Ok (PState (p_ns s) (p_seen s) (p_extras s) (drop (length counts) ps), sum_list counts).

(** The strings before the first option, and the option with what follows *)
Fixpoint to_option (l : list (string * tag)) :
    option (list (string * tag) * (string * option (action * string * option string)) * list (string * tag)) :=
  match l with
  | [] => None
  | (arg, TagO t) :: l => Some ([], (arg, t), l)
  | x :: l => (fun '(before, o, rest) => (x :: before, o, rest)) <$> to_option l
  end.

(** The loop of [_parse_known_args]; every round takes a string, so that the
    number of the strings is enough fuel. *)
Fixpoint consume (fuel : nat) (p : parser) (l : list (string * tag)) (s : pstate) : res pstate :=
  match fuel, to_option l with
  | S fuel, Some (before, (arg, t), rest) =>
      let take_option s := let* r := consume_optional p arg t rest s in consume fuel p (drop (snd r) rest) (fst r) in
      if decide (before = []) then take_option s
      else
        let* r := consume_positionals l s in
        if decide (snd r = 0) then take_option (add_extras (map fst before) (fst r))
        else consume fuel p (drop (snd r) l) (fst r)
  | _, _ => let* r := consume_positionals l s in Ok (add_extras (map fst (drop (snd r) l)) (fst r))
  end.

(** A positional argument that takes at least one string has to be seen. *)
Definition missing (p : parser) (s : pstate) : list action :=
  filter (fun a => positional a = true /\ nargs_of a <> ZeroOrMore /\ a_dest a ∉ p_seen s) p.

(** The defaults; the first action of a destination counts. *)
Definition start_namespace (p : parser) : namespace :=
  foldl (fun ns a => match a_kind a with
                     | Help => ns
                     | _ => if d_has (a_dest a) ns then ns else d_set (a_dest a) (a_default a) ns
                     end) [] p.

(** [parser.parse_args()] *)
Definition parse_args (p : parser) (args : list string) : res namespace :=
  let* l := classify p args in
  let* s := consume (length l) p l (PState (start_namespace p) [] [] (filter (fun a => positional a = true) p)) in
  if decide (missing p s = [] /\ p_extras s = []) then Ok (p_ns s) else usage_error.

(** ** Reading an attribute as what the program takes it for *)

Definition str_attr (ns : namespace) (dest : string) : res string :=
  match attr ns dest with AStr s => Ok s | _ => Raise (TypeError dest) end.
Definition opt_str_attr (ns : namespace) (dest : string) : res (option string) :=
  match attr ns dest with ANone => Ok None | AStr s => Ok (Some s) | _ => Raise (TypeError dest) end.
Definition opt_int_attr (ns : namespace) (dest : string) : res (option Z) :=
  match attr ns dest with ANone => Ok None | AInt n => Ok (Some n) | _ => Raise (TypeError dest) end.
Definition int_attr (ns : namespace) (dest : string) : res Z :=
  match attr ns dest with AInt n => Ok n | _ => Raise (TypeError dest) end.
Definition flag_attr (ns : namespace) (dest : string) : bool := match attr ns dest with ABool b => b | _ => false end.
Definition list_attr (ns : namespace) (dest : string) : res (list string) :=
  match attr ns dest with
  | AList l => map_res l (fun v => match v with AStr s => Ok s | _ => Raise (TypeError dest) end)
  | _ => Raise (TypeError dest)
  end.

(** ** Building a parser *)

(** The destination of a long option: its name with [_] for [-] *)
Definition dest_of (o : string) : string :=
  match o with
  | String _ (String _ name) => smap (fun c => if decide (c = "-"%char) then "_"%char else c) name
  | _ => o
  end.
Definition text_option (o : string) : action := Action [o] (dest_of o) (Store One) TStr None ANone.
Definition int_option (o : string) : action := Action [o] (dest_of o) (Store One) TInt None ANone.
Definition flag_option (o : string) : action := Action [o] (dest_of o) StoreTrue TStr None (ABool false).
Definition with_choices (l : list string) (a : action) : action :=
  Action (a_options a) (a_dest a) (a_kind a) (a_type a) (Some l) (a_default a).
Definition with_default (v : value) (a : action) : action :=
  Action (a_options a) (a_dest a) (a_kind a) (a_type a) (a_choices a) v.

(** ** Writing a command line *)

(** What is given for an option: a text, a number, whether the flag is there,
    or the texts of an option that is repeated *)
Inductive given := Text (v : option string) | Number (v : option Z) | Flag (b : bool) | Texts (l : list string).
Definition setting (o v : string) : string := o +:+ "=" +:+ v.
Definition given_texts (g : given) : list string :=
  match g with
  | Text v => option_list v
  | Number v => str_int <$> option_list v
  | Texts l => l
  | Flag _ => []
  end.
Definition render_given (e : string * given) : list string :=
  match snd e with
  | Flag b => if b then [fst e] else []
  | g => setting (fst e) <$> given_texts g
  end.
Definition render_options (es : list (string * given)) : list string := concat (map render_given es).

(** The attribute afterwards, from the attribute before *)
Definition given_value (g : given) (old : value) : value :=
  match g with
  | Text (Some s) => AStr s
  | Number (Some z) => AInt z
  | Flag true => ABool true
  | Texts (s :: l) => AList (items old ++ map AStr (s :: l))
  | _ => old
  end.
Definition option_dest (p : parser) (o : string) : string := match find_option p o with Some a => a_dest a | None => EmptyString end.
(** The attribute [dest] after these options *)
Definition given_attr (p : parser) (dest : string) (es : list (string * given)) (old : value) : value :=
  foldl (fun v '(o, g) => if decide (option_dest p o = dest) then given_value g v else v) old es.

(** A long option that the parser has, with a value it takes *)
Definition accepts (a : action) (s : string) : Prop := s <> "--" /\ match a_choices a with Some l => s ∈ l | None => True end.
Definition fits (a : action) (g : given) : Prop :=
  match g with
  | Text v => a_kind a = Store One /\ a_type a = TStr /\ Forall (accepts a) (option_list v)
  | Number _ => a_kind a = Store One /\ a_type a = TInt /\ a_choices a = None
  | Flag _ => a_kind a = StoreTrue
  | Texts l => a_kind a = Append /\ a_type a = TStr /\ Forall (accepts a) l
  end.
Definition given_ok (p : parser) (e : string * given) : Prop :=
  startswith "--" (fst e) = true /\ fst e <> "--" /\ scontains "=" (fst e) = false /\
  match find_option p (fst e) with Some a => fits a (snd e) | None => False end.

(** No option has a [=], and no option is two dashes. *)
Definition plain_parser (p : parser) : Prop := Forall (fun o => scontains "=" (fst o) = false /\ fst o <> "--") (all_options p).
(** The only positional argument takes any number of texts. *)
Definition takes_names (p : parser) (dest : string) : Prop :=
  exists a, filter (fun a => positional a = true) p = [a] /\ a = Action [] dest (Store ZeroOrMore) TStr None ANone.
Definition plain_name (s : string) : Prop := startswith "-" s = false.

(** ** Lemmas: numbers and texts *)

Lemma py_int_str_int z : py_int (str_int z) = Ok z.
Proof.
  destruct (decide (0 <= z)%Z) as [Hz|Hz].
  - unfold str_int. destruct z as [|p|p]; [done|exact (py_int_pretty (Npos p))|lia].
  - destruct z as [|p|p]; [lia..|]. unfold str_int. change (pretty (Z.neg p)) with (String "-" (pretty (Npos p))). unfold py_int.
    replace (strip (String "-" (pretty (Npos p)))) with (String "-" (pretty (Npos p))).
    + by rewrite dec_digits_pretty.
    + unfold strip. change (lstrip (String "-" (pretty (Npos p)))) with (String "-" (pretty (Npos p))). unfold rstrip.
      rewrite srev_cons. pose proof (pretty_N_digits (Npos p)) as Hd. pose proof (pretty_N_nonempty (Npos p)) as Hne.
      rewrite <-sall_srev in Hd. destruct (srev (pretty (Npos p))) as [|c t] eqn:Hs.
      { by rewrite <-(srev_involutive (pretty (Npos p))), Hs in Hne. }
      cbn in Hd. apply andb_prop in Hd as [Hc _]. rewrite sapp_cons. cbn [lstrip]. rewrite (is_digit_not_space _ Hc).
      rewrite <-sapp_cons, <-Hs, srev_append, srev_involutive. done.
Qed.
Lemma str_int_not_dashes z : str_int z <> "--".
Proof. intros Hz. pose proof (py_int_str_int z) as H. rewrite Hz in H. done. Qed.

Lemma cut_setting o v : scontains "=" o = false -> cut_equals (setting o v) = Some (o, v).
Proof.
  unfold setting. induction o as [|c o IH]; intros Ho; [done|]. cbn in Ho. apply orb_false_elim in Ho as [Hc Ho].
  rewrite sapp_cons. cbn [cut_equals]. rewrite decide_False by (intros ->; done). by rewrite IH.
Qed.
Lemma setting_contains o v : scontains "=" (setting o v) = true.
Proof. unfold setting. rewrite scontains_app. apply orb_true_r. Qed.
Lemma startswith_app p s t : startswith p s = true -> startswith p (s +:+ t) = true.
Proof. intros [u ->]%startswith_spec. apply startswith_spec. exists (u +:+ t). apply sapp_assoc. Qed.

(** ** Lemmas: telling options from arguments *)

Lemma find_option_In p o a : find_option p o = Some a -> o ∈ map fst (all_options p).
Proof.
  unfold all_options. induction p as [|b p IH]; [done|]. cbn [find_option map concat]. rewrite map_app. case_decide as Hd.
  - intros _. apply elem_of_app. left. rewrite map_map. cbn. by rewrite map_id.
  - intros H. apply elem_of_app. right. by apply IH.
Qed.
Lemma plain_parser_option p o a : plain_parser p -> find_option p o = Some a -> scontains "=" o = false /\ o <> "--".
Proof.
  intros Hp Ho. apply find_option_In in Ho. apply list_elem_of_fmap in Ho as ([o' b] & -> & Hin).
  by apply (proj1 (Forall_forall _ _) Hp) in Hin.
Qed.

Lemma given_ok_intro p o g a : startswith "--" o && bool_decide (o <> "--") && negb (scontains "=" o) = true ->
  find_option p o = Some a -> fits a g -> given_ok p (o, g).
Proof.
  intros Hb Ho Hf. apply andb_prop in Hb as [[Hs Hn%bool_decide_eq_true]%andb_prop He%negb_true_iff]. unfold given_ok. cbn [fst snd]. by rewrite Ho.
Qed.

Lemma accepts_free a s : a_choices a = None -> s <> "--" -> accepts a s.
Proof. intros Hc Hs. unfold accepts. by rewrite Hc. Qed.

Section classify.
Context (p : parser) (Hp : plain_parser p).

Lemma find_setting o v : find_option p (setting o v) = None.
Proof.
  destruct (find_option p (setting o v)) eqn:Ho; [|done]. apply plain_parser_option in Ho as [Ho _]; [|done].
  by rewrite setting_contains in Ho.
Qed.
Lemma parse_setting o v a : startswith "--" o = true -> scontains "=" o = false -> find_option p o = Some a ->
  parse_optional p (setting o v) = Ok (TagO (Some (a, o, Some v))).
Proof.
  intros Hs He Ho. apply startswith_spec in Hs as [o' ->]. unfold parse_optional.
  pose proof (find_setting ("--" +:+ o') v) as Hn. pose proof (cut_setting ("--" +:+ o') v He) as Hc.
  unfold setting in *. rewrite !sapp_cons, sapp_nil in *. rewrite Hn, decide_False by done. by rewrite Hc, Ho.
Qed.
Lemma parse_flag o a : startswith "--" o = true -> find_option p o = Some a -> parse_optional p o = Ok (TagO (Some (a, o, None))).
Proof. intros Hs Ho. apply startswith_spec in Hs as [o' ->]. unfold parse_optional. rewrite !sapp_cons in *. by rewrite Ho. Qed.
Lemma parse_name s : plain_name s -> parse_optional p s = Ok TagA.
Proof.
  unfold plain_name, startswith. destruct s as [|c s]; [done|]. cbn [strip_prefix]. case_decide as Hc; [done|]. intros _.
  unfold parse_optional. by destruct c as [[] [] [] [] [] [] [] []].
Qed.
Lemma setting_not_dashes o v : setting o v <> "--".
Proof. intros H. pose proof (setting_contains o v) as Hc. by rewrite H in Hc. Qed.

(** The strings of an option with what they are taken for *)
Definition tagged (e : string * given) : list (string * tag) :=
  match find_option p (fst e) with
  | Some a => match snd e with
              | Flag b => if b then [(fst e, TagO (Some (a, fst e, None)))] else []
              | g => (fun v => (setting (fst e) v, TagO (Some (a, fst e, Some v)))) <$> given_texts g
              end
  | None => []
  end.
Lemma classify_settings o a vs rest l : startswith "--" o = true -> scontains "=" o = false -> find_option p o = Some a ->
  classify p rest = Ok l ->
  classify p ((setting o <$> vs) ++ rest) = Ok (((fun v => (setting o v, TagO (Some (a, o, Some v)))) <$> vs) ++ l).
Proof.
  intros Hs He Ho Hr. induction vs as [|v vs IH]; [done|]. cbn [fmap list_fmap app classify].
  rewrite decide_False by apply setting_not_dashes. rewrite (parse_setting o v a) by done. mred. setoid_rewrite IH. done.
Qed.
Lemma classify_given e rest l : given_ok p e -> classify p rest = Ok l -> classify p (render_given e ++ rest) = Ok (tagged e ++ l).
Proof.
  destruct e as [o g]. unfold given_ok, render_given, tagged. cbn [fst snd]. intros (Hs & Hne & He & Hf) Hr.
  destruct (find_option p o) as [a|] eqn:Ho; [|done].
  destruct g as [v|v|[]|vs]; try by apply classify_settings.
  - cbn [app classify]. rewrite decide_False, (parse_flag o a) by done. mred. by rewrite Hr.
  - exact Hr.
Qed.
Lemma classify_names hosts : Forall plain_name hosts -> classify p hosts = Ok (map (fun s => (s, TagA)) hosts).
Proof.
  induction 1 as [|s hosts Hs _ IH]; [done|]. cbn [classify map]. rewrite decide_False by (by intros ->). rewrite parse_name by done.
  mred. by rewrite IH.
Qed.
Lemma classify_line es hosts : Forall (given_ok p) es -> Forall plain_name hosts ->
  classify p (render_options es ++ hosts) = Ok (concat (map tagged es) ++ map (fun s => (s, TagA)) hosts).
Proof.
  intros He Hh. induction He as [|e es Hok _ IH]; [by apply classify_names|].
  unfold render_options in *. cbn [map concat]. rewrite <-!app_assoc. by apply classify_given.
Qed.
End classify.

(** ** Lemmas: taking the options *)

Definition same_rest (s s' : pstate) : Prop := p_extras s' = p_extras s /\ p_positionals s' = p_positionals s.
Lemma attr_set k dest v ns : attr (d_set dest v ns) k = if decide (dest = k) then v else attr ns k.
Proof. unfold attr. rewrite d_get_set. by repeat case_decide; subst. Qed.
Lemma get_values_one a s : (a_kind a = Store One \/ a_kind a = Append) -> s <> "--" -> get_values a [s] = get_value a s.
Proof.
  intros Hk Hs. unfold get_values. replace (default [s] (list_remove "--" [s])) with [s] by (cbn; by rewrite decide_False by congruence).
  by destruct Hk as [-> | ->].
Qed.
Lemma get_text a s : a_type a = TStr -> accepts a s -> get_value a s = Ok (AStr s).
Proof. intros Ht [_ Hc]. unfold get_value. rewrite Ht. mred. destruct (a_choices a); [|done]. by rewrite decide_True. Qed.

Lemma consume_setting p fuel o v a rest s s' : startswith "--" o = true -> option_count (a_kind a) [TagA] = Some 1 ->
  take_action a [v] s = Ok s' ->
  consume (S fuel) p ((setting o v, TagO (Some (a, o, Some v))) :: rest) s = consume fuel p rest s'.
Proof.
  intros Hs Hc Ht. cbn [consume to_option]. rewrite decide_True by done. unfold consume_optional. rewrite Hs, bool_decide_eq_true_2 by done.
  mred. rewrite Ht. done.
Qed.

Section consume.
Context (p : parser).
(** One option: the attribute it sets, and nothing else *)
Definition takes (e : string * given) (s s' : pstate) : Prop :=
  (forall fuel rest, consume (length (tagged p e) + fuel) p (tagged p e ++ rest) s = consume fuel p rest s') /\ same_rest s s' /\
  forall k, attr (p_ns s') k = if decide (option_dest p (fst e) = k) then given_value (snd e) (attr (p_ns s) k) else attr (p_ns s) k.

Lemma takes_nothing e s : tagged p e = [] -> (forall v, given_value (snd e) v = v) -> takes e s s.
Proof. intros Ht Hv. unfold takes. rewrite Ht. split_and!; [done..|]. intros k. case_decide; by rewrite ?Hv. Qed.
Lemma takes_setting o a g v w s : startswith "--" o = true -> find_option p o = Some a -> a_kind a = Store One ->
  tagged p (o, g) = [(setting o v, TagO (Some (a, o, Some v)))] -> v <> "--" -> get_value a v = Ok w ->
  (forall x, given_value g x = w) -> exists s', takes (o, g) s s'.
Proof.
  intros Hs Ho Hk Ht Hv Hw Hg. exists (set_attr (a_dest a) w (PState (p_ns s) (p_seen s ++ [a_dest a]) (p_extras s) (p_positionals s))).
  unfold takes. rewrite Ht. split_and!; [|done|].
  - intros fuel rest. apply consume_setting; [done|by rewrite Hk|]. unfold take_action. rewrite get_values_one by (by auto).
    rewrite Hw, Hk. done.
  - intros k. cbn [p_ns set_attr fst snd]. unfold option_dest. rewrite Ho, attr_set, Hg. done.
Qed.
Lemma takes_flag o a s : find_option p o = Some a -> a_kind a = StoreTrue -> exists s', takes (o, Flag true) s s'.
Proof.
  intros Ho Hk. eexists (set_attr (a_dest a) (ABool true) (PState (p_ns s) (p_seen s ++ [a_dest a]) (p_extras s) (p_positionals s))).
  unfold takes, tagged. cbn [fst snd]. rewrite Ho. split_and!; [|done|].
  - intros fuel rest. cbn [length Nat.add app consume to_option]. rewrite decide_True by done. unfold consume_optional, take_following.
    rewrite Hk. mred. unfold take_action, get_values. rewrite Hk. done.
  - intros k. cbn [p_ns set_attr]. unfold option_dest. rewrite Ho, attr_set. by case_decide.
Qed.
Lemma takes_texts o a l s : startswith "--" o = true -> find_option p o = Some a -> a_kind a = Append -> a_type a = TStr ->
  Forall (accepts a) l -> exists s', takes (o, Texts l) s s'.
Proof.
  intros Hs Ho Hk Ht Hl. revert s. induction Hl as [|v l Hv Hl IH]; intros s.
  { exists s. apply takes_nothing; [|done]. unfold tagged. cbn. by rewrite Ho. }
  set (s1 := set_attr (a_dest a) (AList (ArgParse.items (attr (p_ns s) (a_dest a)) ++ [AStr v]))
               (PState (p_ns s) (p_seen s ++ [a_dest a]) (p_extras s) (p_positionals s))).
  destruct (IH s1) as (s2 & Hc & [He Hps] & Ha). exists s2. split_and!.
  - intros fuel rest. unfold tagged in *. cbn [fst snd] in *. rewrite Ho in *. cbn [given_texts fmap list_fmap length Nat.add app] in *.
    rewrite (consume_setting p _ o v a _ s s1) by (done || (by rewrite Hk) || (unfold take_action; rewrite get_values_one by (by (apply Hv || auto));
      rewrite (get_text a v) by done; mred; by rewrite Hk)). apply Hc.
  - done.
  - intros k. rewrite Ha. cbn [fst snd p_ns set_attr s1]. unfold option_dest. rewrite Ho, attr_set. case_decide as Hd; [|done]. subst k.
    cbn [given_value]. destruct l as [|x l]; [done|]. cbn [ArgParse.items map]. by rewrite <-app_assoc.
Qed.
Lemma takes_given e s : given_ok p e -> exists s', takes e s s'.
Proof.
  destruct e as [o g]. unfold given_ok. cbn [fst snd]. intros (Hs & Hne & He & Hf). destruct (find_option p o) as [a|] eqn:Ho; [|done].
  assert (Hnone : forall g, tagged p (o, g) = match g with
              | Flag b => if b then [(o, TagO (Some (a, o, None)))] else []
              | g => (fun v => (setting o v, TagO (Some (a, o, Some v)))) <$> given_texts g
              end) by (intros g'; unfold tagged; cbn [fst snd]; rewrite Ho; by destruct g').
  destruct g as [[v|]|[z|]|[]|l]; cbn [fits] in Hf.
  - destruct Hf as (Hk & Ht & Hv). inversion_clear Hv as [|? ? Hacc _]. eapply takes_setting; [done..|by rewrite Hnone|apply Hacc|by apply get_text|done].
  - exists s. by apply takes_nothing; [rewrite Hnone|].
  - destruct Hf as (Hk & Ht & Hn). eapply takes_setting; [done|done|done|by rewrite Hnone|apply str_int_not_dashes| |].
    { unfold get_value. rewrite Ht, py_int_str_int, Hn. done. } done.
  - exists s. by apply takes_nothing; [rewrite Hnone|].
  - by eapply takes_flag.
  - exists s. by apply takes_nothing; [rewrite Hnone|].
  - destruct Hf as (Hk & Ht & Hl). by eapply takes_texts.
Qed.
Lemma consume_options es s : Forall (given_ok p) es -> exists s',
  (forall fuel rest, consume (length (concat (map (tagged p) es)) + fuel) p (concat (map (tagged p) es) ++ rest) s = consume fuel p rest s') /\
  same_rest s s' /\ forall k, attr (p_ns s') k = given_attr p k es (attr (p_ns s) k).
Proof.
  intros Hes. revert s. induction Hes as [|e es He _ IH]; intros s; [by exists s|].
  destruct (takes_given e s He) as (s1 & Hc1 & [Hx1 Hp1] & Ha1). destruct (IH s1) as (s2 & Hc2 & [Hx2 Hp2] & Ha2).
  exists s2. split_and!.
  - intros fuel rest. cbn [map concat]. rewrite length_app, <-app_assoc, <-Nat.add_assoc, Hc1. apply Hc2.
  - split; congruence.
  - intros k. rewrite Ha2, Ha1. unfold given_attr. destruct e as [o g]. cbn [foldl fst snd]. done.
Qed.
End consume.

(** ** Lemmas: the names at the end *)

Lemma head_downto n : head (downto n 0) = Some n.
Proof. unfold downto. rewrite Nat.sub_0_r, seq_S, reverse_app. done. Qed.
Lemma match_names dest (l : list tag) : Forall (fun t => is_A t = true) l ->
  match_partial 1 [Action [] dest (Store ZeroOrMore) TStr None ANone] l = [length l].
Proof.
  intros Hl. cbn [match_partial take match_groups nargs_of a_kind group_lengths].
  replace (run_of (fun t => is_A t || is_dash t) l) with (length l) by (induction Hl as [|t l Ht _ IH]; cbn; [done|by rewrite Ht, <-IH]).
  pose proof (head_downto (length l)) as Hh. destruct (downto (length l) 0); [done|]. injection Hh as ->. done.
Qed.
Lemma map_res_text a l : a_type a = TStr -> a_choices a = None -> map_res l (get_value a) = Ok (map AStr l).
Proof.
  intros Ht Hc. induction l as [|s l IH]; [done|]. cbn [map_res map].
  assert (Hv : get_value a s = Ok (AStr s)) by (unfold get_value; by rewrite Ht, Hc). rewrite Hv, IH. done.
Qed.
Lemma names_no_dashes hosts : Forall plain_name hosts -> list_remove "--" hosts = None.
Proof. intros Hh. apply list_remove_None. intros Hin. by apply (proj1 (Forall_forall _ _) Hh) in Hin. Qed.
Lemma get_names dest hosts : Forall plain_name hosts ->
  get_values (Action [] dest (Store ZeroOrMore) TStr None ANone) hosts = Ok (AList (map AStr hosts)).
Proof.
  intros Hh. unfold get_values. rewrite names_no_dashes by done. cbn [default a_kind].
  destruct hosts as [|s hosts]; [done|]. by rewrite map_res_text.
Qed.
Lemma to_option_names hosts : to_option (map (fun s => (s, TagA)) hosts) = None.
Proof. induction hosts as [|s hosts IH]; [done|]. cbn. by rewrite IH. Qed.

(** [consume_positionals] at the end *)
Lemma consume_names p dest fuel hosts s : Forall plain_name hosts ->
  p_positionals s = [Action [] dest (Store ZeroOrMore) TStr None ANone] ->
  consume fuel p (map (fun s => (s, TagA)) hosts) s =
    Ok (PState (d_set dest (AList (map AStr hosts)) (p_ns s)) (p_seen s ++ [dest]) (p_extras s) []).
Proof.
  intros Hh Hp. assert (Hl : map fst (map (fun s : string => (s, TagA)) hosts) = hosts) by (rewrite map_map; apply map_id).
  assert (Hc : consume_positionals (map (fun s => (s, TagA)) hosts) s =
    Ok (PState (d_set dest (AList (map AStr hosts)) (p_ns s)) (p_seen s ++ [dest]) (p_extras s) [], length hosts)).
  { unfold consume_positionals. rewrite Hp. cbn [length]. rewrite match_names by (rewrite map_map; by apply Forall_map, Forall_true).
    rewrite map_map, length_map. cbn [take_positionals length sum_list foldr drop]. rewrite firstn_all2 by (by rewrite length_map).
    rewrite Hl. unfold take_action. rewrite get_names by done. mred. cbn. by rewrite Nat.add_0_r. }
  destruct fuel; cbn [consume]; rewrite ?to_option_names, Hc; mred; cbn [fst snd];
    (rewrite drop_ge by (by rewrite length_map)); unfold add_extras; cbn; by rewrite app_nil_r.
Qed.

(** A line with options and names is read back: every attribute has what was
    given for it, or else its default. *)
Lemma parse_line p dest es hosts : plain_parser p -> takes_names p dest -> Forall (given_ok p) es -> Forall plain_name hosts ->
  exists ns, parse_args p (render_options es ++ hosts) = Ok ns /\
    forall k, attr ns k = if decide (dest = k) then AList (map AStr hosts) else given_attr p k es (attr (start_namespace p) k).
Proof.
  intros Hp (a & Hf & ->) He Hh. unfold parse_args. rewrite (classify_line p Hp es hosts) by done. mred.
  set (s0 := PState _ _ _ _). destruct (consume_options p es s0 He) as (s1 & Hc & [Hx Hps] & Ha).
  rewrite length_app, Hc, (consume_names p dest) by (done || (by rewrite Hps)). mred. cbn [p_ns p_extras].
  rewrite decide_True.
  - eexists. split; [done|]. intros k. rewrite attr_set, Ha. done.
  - split; [|by rewrite Hx]. unfold missing.
    match goal with |- ?l = [] => destruct l as [|b l'] eqn:Hl; [done|] end.
    assert (Hb : b ∈ b :: l') by left. rewrite <-Hl in Hb. apply list_elem_of_filter in Hb as ((Hpos & Hn & _) & Hin).
    assert (Hb : b ∈ filter (fun a => positional a = true) p) by (by apply list_elem_of_filter).
    rewrite Hf in Hb. by apply list_elem_of_singleton in Hb as ->.
Qed.

(** ** Lemmas: reading what was given *)

Section reading.
Context (ns : namespace) (k : string).
Lemma read_text v : attr ns k = given_value (Text v) ANone -> opt_str_attr ns k = Ok v.
Proof. unfold opt_str_attr. intros ->. by destruct v. Qed.
Lemma read_number v : attr ns k = given_value (Number v) ANone -> opt_int_attr ns k = Ok v.
Proof. unfold opt_int_attr. intros ->. by destruct v. Qed.
Lemma read_flag b : attr ns k = given_value (Flag b) (ABool false) -> flag_attr ns k = b.
Proof. unfold flag_attr. intros ->. by destruct b. Qed.
Lemma read_string s : attr ns k = AStr s -> str_attr ns k = Ok s.
Proof. unfold str_attr. by intros ->. Qed.
Lemma read_int z : attr ns k = AInt z -> int_attr ns k = Ok z.
Proof. unfold int_attr. by intros ->. Qed.
Lemma read_names l : attr ns k = AList (map AStr l) -> list_attr ns k = Ok l.
Proof. unfold list_attr. intros ->. induction l as [|s l IH]; [done|]. cbn [map map_res]. rewrite IH. done. Qed.
End reading.

(** ** Lemmas: names in two places *)

Lemma run_of_names f (names : list string) rest : f TagA = true -> run_of f (map snd (map (fun s => (s, TagA)) names) ++ rest) = length names + run_of f rest.
Proof. intros Hf. induction names as [|s names IH]; [done|]. cbn. by rewrite Hf, IH. Qed.
Lemma to_option_first names o t rest :
  to_option (map (fun s => (s, TagA)) names ++ (o, TagO t) :: rest) = Some (map (fun s => (s, TagA)) names, (o, t), rest).
Proof. induction names as [|s names IH]; [done|]. cbn [map app to_option]. rewrite IH. done. Qed.

(** The names before an option are all the names; those behind it are left over. *)
Lemma consume_first_names p dest fuel names o t rest s : names <> [] -> Forall plain_name names ->
  p_positionals s = [Action [] dest (Store ZeroOrMore) TStr None ANone] ->
  consume (S fuel) p (map (fun s => (s, TagA)) names ++ (o, TagO t) :: rest) s =
  consume fuel p ((o, TagO t) :: rest) (PState (d_set dest (AList (map AStr names)) (p_ns s)) (p_seen s ++ [dest]) (p_extras s) []).
Proof.
  intros Hne Hn Hp. cbn [consume]. rewrite to_option_first, decide_False by (by destruct names).
  unfold consume_positionals at 1. rewrite Hp. cbn [length match_partial take match_groups nargs_of a_kind group_lengths].
  rewrite map_app, run_of_names by done. cbn [map snd run_of is_A is_dash orb]. rewrite Nat.add_0_r.
  pose proof (head_downto (length names)) as Hh. destruct (downto (length names) 0); [done|]. injection Hh as ->.
  cbn [omap list_omap head take_positionals fmap option_fmap option_map]. rewrite take_app_length' by (by rewrite length_map).
  rewrite map_map. cbn [fst]. rewrite map_id. unfold take_action. rewrite get_names by done. mred. cbn [a_kind a_dest snd fst sum_list foldr].
  rewrite Nat.add_0_r, decide_False by (by destruct names). rewrite drop_app_length' by (by rewrite length_map). done.
Qed.

Lemma names_left_over p fuel names s : p_positionals s = [] ->
  consume fuel p (map (fun s => (s, TagA)) names) s = Ok (PState (p_ns s) (p_seen s) (p_extras s ++ names) []).
Proof.
  intros Hp. assert (Hl : map fst (map (fun s : string => (s, TagA)) names) = names) by (rewrite map_map; apply map_id).
  destruct fuel; cbn [consume]; rewrite ?to_option_names; unfold consume_positionals; rewrite Hp; cbn; by rewrite drop_0, Hl.
Qed.

Lemma classify_names_before p (Hp : plain_parser p) names rest l : Forall plain_name names -> classify p rest = Ok l ->
  classify p (names ++ rest) = Ok (map (fun s => (s, TagA)) names ++ l).
Proof.
  intros Hn Hr. induction Hn as [|s names Hs _ IH]; [done|]. cbn [app classify map]. rewrite decide_False by (by intros ->).
  rewrite parse_name by done. mred. setoid_rewrite IH. done.
Qed.
Lemma tagged_options p es : Forall (given_ok p) es -> render_options es <> [] ->
  exists o t l, concat (map (tagged p) es) = (o, TagO t) :: l.
Proof.
  unfold render_options. induction 1 as [|[o g] es (_ & _ & _ & Hf) _ IH]; [done|]. cbn [map concat]. unfold tagged at 1, render_given at 1.
  cbn [fst snd] in *. destruct (find_option p o) as [a|]; [|done].
  destruct g as [[v|]|[z|]|[]|[|v l]]; cbn; try (intros _; by repeat eexists); exact IH.
Qed.

(** Names that an option stands between are refused. *)
Lemma parse_split_names p dest es names names' : plain_parser p -> takes_names p dest -> Forall (given_ok p) es ->
  Forall plain_name names -> Forall plain_name names' -> names <> [] -> names' <> [] -> render_options es <> [] ->
  parse_args p (names ++ render_options es ++ names') = usage_error.
Proof.
  intros Hp (a & Hf & ->) He Hn Hn' Hne Hne' Hr. unfold parse_args.
  rewrite (classify_names_before p Hp names _ _ Hn (classify_line p Hp es names' He Hn')). mred.
  destruct (tagged_options p es He Hr) as (o & t & l & Ht). set (tags := concat (map (tagged p) es)) in *.
  set (s0 := PState _ _ _ _). rewrite !length_app, length_map. cbn [length]. rewrite !length_map, Ht.
  replace (length names) with (S (pred (length names))) by (by destruct names).
  cbn [Nat.add]. rewrite <-app_comm_cons, (consume_first_names p dest) by done.
  set (s1 := PState _ _ _ _). rewrite app_comm_cons, <-Ht. destruct (consume_options p es s1 He) as (s2 & Hc & [Hx Hps] & _).
  fold tags in Hc. rewrite (Nat.add_assoc _ (length tags)), (Nat.add_comm _ (length tags)), <-Nat.add_assoc.
  rewrite Hc, names_left_over by done. mred. rewrite decide_False; [done|]. cbn [p_extras]. intros [_ [_ Hnil]%app_nil]. done.
Qed.
