(* ===== verification/SetupArgs.v ===== *)
(** * The command line of a test (src/python/drbdtest.py, [setup])

    The parser that [setup] makes, the attributes it reads from the result, and
    the proof that a line written for given arguments is read back as these. *)

From S2P Require Import Prelude PyStr Dict Setup ArgParse.
#[local] Open Scope Z_scope.

Definition setup_parser : parser := [
  help_action;
  Action [] "host" (Store ZeroOrMore) TStr None ANone;
  text_option "--job";
  text_option "--resource";
  text_option "--logdir";
  with_choices ["success"; "always"; "never"] (with_default (AStr "success") (text_option "--cleanup"));
  with_default (AStr "scratch") (text_option "--volume-group");
  flag_option "--vconsole";
  flag_option "--silent";
  Action ["-d"] "debug" Count TStr None ANone;
  int_option "--debug";
  with_choices ["tcp"; "lb-tcp"; "rdma"] (text_option "--transport");
  with_choices ["yes"; "no"] (with_default (AStr "no") (text_option "--tls"));
  flag_option "--override-max";
  flag_option "--report-and-quit";
  flag_option "--no-rmmod";
  flag_option "--proxy";
  flag_option "--lz4";
  int_option "--zstd";
  int_option "--memlimit";
  with_choices ["lvm"; "raw"; "zfs"] (with_default (AStr "lvm") (text_option "--storage-backend"));
  text_option "--backing-device";
  text_option "--drbd-version";
  text_option "--drbd-version-other";
  with_default (AInt 0) (int_option "--drbd-other-node");
  text_option "--ssh-config";
  flag_option "--selinux-debug"
].

(** The attributes of [args] *)
Record arguments := Arguments {
  a_host : list string;
  a_job : option string;
  a_resource : option string;
  a_logdir : option string;
  a_cleanup : string;
  a_volume_group : string;
  a_vconsole : bool;
  a_silent : bool;
  a_debug : option Z;
  a_transport : option string;
  a_tls : string;
  a_override_max : bool;
  a_report_and_quit : bool;
  a_no_rmmod : bool;
  a_proxy : bool;
  a_lz4 : bool;
  a_zstd : option Z;
  a_memlimit : option Z;
  a_storage_backend : string;
  a_backing_device : option string;
  a_drbd_version : option string;
  a_drbd_version_other : option string;
  a_drbd_other_node : Z;
  a_ssh_config : option string;
  a_selinux_debug : bool
}.

Definition arguments_of (ns : namespace) : res arguments :=
  let* host := list_attr ns "host" in
  let* job := opt_str_attr ns "job" in
  let* resource := opt_str_attr ns "resource" in
  let* logdir := opt_str_attr ns "logdir" in
  let* cleanup := str_attr ns "cleanup" in
  let* volume_group := str_attr ns "volume_group" in
  let* debug := opt_int_attr ns "debug" in
  let* transport := opt_str_attr ns "transport" in
  let* tls := str_attr ns "tls" in
  let* zstd := opt_int_attr ns "zstd" in
  let* memlimit := opt_int_attr ns "memlimit" in
  let* storage_backend := str_attr ns "storage_backend" in
  let* backing_device := opt_str_attr ns "backing_device" in
  let* drbd_version := opt_str_attr ns "drbd_version" in
  let* drbd_version_other := opt_str_attr ns "drbd_version_other" in
  let* drbd_other_node := int_attr ns "drbd_other_node" in
  let* ssh_config := opt_str_attr ns "ssh_config" in
  Ok (Arguments host job resource logdir cleanup volume_group (flag_attr ns "vconsole") (flag_attr ns "silent") debug transport tls
        (flag_attr ns "override_max") (flag_attr ns "report_and_quit") (flag_attr ns "no_rmmod") (flag_attr ns "proxy") (flag_attr ns "lz4")
        zstd memlimit storage_backend backing_device drbd_version drbd_version_other drbd_other_node ssh_config (flag_attr ns "selinux_debug")).
Definition parse_setup (argv : list string) : res arguments := let* ns := parse_args setup_parser argv in arguments_of ns.

(** ** Writing the line *)

Definition given_arguments (a : arguments) : list (string * given) := [
  ("--job", Text (a_job a));
  ("--resource", Text (a_resource a));
  ("--logdir", Text (a_logdir a));
  ("--cleanup", Text (Some (a_cleanup a)));
  ("--volume-group", Text (Some (a_volume_group a)));
  ("--vconsole", Flag (a_vconsole a));
  ("--silent", Flag (a_silent a));
  ("--debug", Number (a_debug a));
  ("--transport", Text (a_transport a));
  ("--tls", Text (Some (a_tls a)));
  ("--override-max", Flag (a_override_max a));
  ("--report-and-quit", Flag (a_report_and_quit a));
  ("--no-rmmod", Flag (a_no_rmmod a));
  ("--proxy", Flag (a_proxy a));
  ("--lz4", Flag (a_lz4 a));
  ("--zstd", Number (a_zstd a));
  ("--memlimit", Number (a_memlimit a));
  ("--storage-backend", Text (Some (a_storage_backend a)));
  ("--backing-device", Text (a_backing_device a));
  ("--drbd-version", Text (a_drbd_version a));
  ("--drbd-version-other", Text (a_drbd_version_other a));
  ("--drbd-other-node", Number (Some (a_drbd_other_node a)));
  ("--ssh-config", Text (a_ssh_config a));
  ("--selinux-debug", Flag (a_selinux_debug a))
].
Definition command_line (a : arguments) : list string := render_options (given_arguments a) ++ a_host a.

(** No value is two dashes, which [argparse] drops, and where there is a choice
    it is one of these; no name of a host begins with a dash. *)
Definition free_texts (a : arguments) : list string :=
  option_list (a_job a) ++ option_list (a_resource a) ++ option_list (a_logdir a) ++ [a_volume_group a] ++ option_list (a_backing_device a) ++
  option_list (a_drbd_version a) ++ option_list (a_drbd_version_other a) ++ option_list (a_ssh_config a).
Definition acceptable (a : arguments) : Prop :=
  Forall plain_name (a_host a) /\ Forall (fun s => s <> "--") (free_texts a) /\
  a_cleanup a ∈ ["success"; "always"; "never"] /\ a_tls a ∈ ["yes"; "no"] /\ a_storage_backend a ∈ ["lvm"; "raw"; "zfs"] /\
  Forall (fun t => t ∈ ["tcp"; "lb-tcp"; "rdma"]) (option_list (a_transport a)).

(** ** Properties *)

Lemma setup_parser_plain : plain_parser setup_parser.
Proof. apply (bool_decide_unpack _). vm_compute. exact I. Qed.
Lemma setup_takes_hosts : takes_names setup_parser "host".
Proof. eexists. split; [|done]. reflexivity. Qed.

Lemma accepts_choice a l s : a_choices a = Some l -> "--" ∉ l -> s ∈ l -> accepts a s.
Proof. intros Hc Hd Hs. unfold accepts. rewrite Hc. split; [congruence|done]. Qed.

Lemma given_arguments_ok a : acceptable a -> Forall (given_ok setup_parser) (given_arguments a).
Proof.
  intros (_ & Hf & Hc & Ht & Hs & Htr). unfold free_texts in Hf. rewrite !Forall_app in Hf.
  destruct Hf as (H1 & H2 & H3 & H4 & H5 & H6 & H7 & H8).
  assert (Hfree : forall b l, a_choices b = None -> Forall (fun s => s <> "--") l -> Forall (accepts b) l).
  { intros b l Hb Hl. eapply Forall_impl; [exact Hl|]. intros s. by apply accepts_free. }
  unfold given_arguments. repeat apply List.Forall_cons; try apply List.Forall_nil;
    (eapply given_ok_intro; [reflexivity|vm_compute; reflexivity|]); cbn -[accepts]; split_and?; try reflexivity;
    lazymatch goal with
    | |- Forall _ [a_volume_group _] => by apply Hfree
    | |- Forall _ [_] =>
        apply Forall_singleton; eapply accepts_choice; [reflexivity| |eassumption]; apply (bool_decide_unpack _); vm_compute; exact I
    | |- Forall _ (option_list (a_transport _)) =>
        eapply Forall_impl; [exact Htr|]; intros s Hin; eapply accepts_choice; [reflexivity| |exact Hin]; apply (bool_decide_unpack _); vm_compute; exact I
    | |- Forall _ _ => by apply Hfree
    end.
Qed.

Ltac given_here H := rewrite H; vm_compute; reflexivity.
(** C11: A command line that is written for given arguments is read back
    as these: no option swallows a value or a host of another one, and none
    takes the attribute of another. *)
Theorem command_line_is_read_back a : acceptable a -> parse_setup (command_line a) = Ok a.
Proof.
  intros Ha. pose proof (given_arguments_ok a Ha) as Hg.
  destruct (parse_line setup_parser "host" (given_arguments a) (a_host a) setup_parser_plain setup_takes_hosts Hg (proj1 Ha)) as (ns & Hp & Hattr).
  unfold parse_setup, command_line. rewrite Hp. mred.
  destruct a as [host job resource logdir cleanup volume_group vconsole silent debug transport tls override_max report_and_quit no_rmmod
    proxy lz4 zstd memlimit storage_backend backing_device drbd_version drbd_version_other drbd_other_node ssh_config selinux_debug].
  unfold arguments_of.
  rewrite (read_names ns "host" host) by (rewrite Hattr; reflexivity).
  rewrite (read_text ns "job" job), (read_text ns "resource" resource), (read_text ns "logdir" logdir), (read_text ns "transport" transport), (read_text ns "backing_device" backing_device), (read_text ns "drbd_version" drbd_version), (read_text ns "drbd_version_other" drbd_version_other), (read_text ns "ssh_config" ssh_config) by given_here Hattr.
  rewrite (read_string ns "cleanup" cleanup), (read_string ns "volume_group" volume_group), (read_string ns "tls" tls), (read_string ns "storage_backend" storage_backend) by given_here Hattr.
  rewrite (read_number ns "debug" debug), (read_number ns "zstd" zstd), (read_number ns "memlimit" memlimit) by given_here Hattr.
  rewrite (read_int ns "drbd_other_node" drbd_other_node) by given_here Hattr.
  rewrite (read_flag ns "vconsole" vconsole), (read_flag ns "silent" silent), (read_flag ns "override_max" override_max), (read_flag ns "report_and_quit" report_and_quit), (read_flag ns "no_rmmod" no_rmmod), (read_flag ns "proxy" proxy), (read_flag ns "lz4" lz4), (read_flag ns "selinux_debug" selinux_debug) by given_here Hattr.
  reflexivity.
Qed.

(** ** The line of the test runner *)

(** What is not given *)
Definition default_arguments (host : list string) : arguments :=
  Arguments host None None None "success" "scratch" false false None None "no" false false false false false None None "lvm" None None None 0 None false.
(** The arguments [run_tests] of src/run.py starts a test with *)
Definition runner_line (vm_names : list string) : list string := "--cleanup=always" :: vm_names.
Definition with_cleanup (c : string) (a : arguments) : arguments :=
  Arguments (a_host a) (a_job a) (a_resource a) (a_logdir a) c (a_volume_group a) (a_vconsole a) (a_silent a) (a_debug a) (a_transport a) (a_tls a)
    (a_override_max a) (a_report_and_quit a) (a_no_rmmod a) (a_proxy a) (a_lz4 a) (a_zstd a) (a_memlimit a) (a_storage_backend a)
    (a_backing_device a) (a_drbd_version a) (a_drbd_version_other a) (a_drbd_other_node a) (a_ssh_config a) (a_selinux_debug a).

Lemma only_options es host : Forall (given_ok setup_parser) es -> Forall plain_name host ->
  exists ns, parse_args setup_parser (render_options es ++ host) = Ok ns /\
    forall k, attr ns k = if decide ("host" = k) then AList (map AStr host) else given_attr setup_parser k es (attr (start_namespace setup_parser) k).
Proof. intros He Hh. exact (parse_line setup_parser "host" es host setup_parser_plain setup_takes_hosts He Hh). Qed.

(** The runner starts every test on just the machines it has chosen, and has
    its clean-up done in any case. *)
Lemma runner_line_is_read vm_names : Forall plain_name vm_names ->
  parse_setup (runner_line vm_names) = Ok (with_cleanup "always" (default_arguments vm_names)).
Proof.
  intros Hv. assert (Hg : Forall (given_ok setup_parser) [("--cleanup", Text (Some "always"))]).
  { constructor; [|constructor]. eapply given_ok_intro; [reflexivity|vm_compute; reflexivity|]. split; [done|]. split; [done|].
    apply Forall_singleton. eapply accepts_choice; [reflexivity|..]; apply (bool_decide_unpack _); vm_compute; exact I. }
  destruct (only_options _ vm_names Hg Hv) as (ns & Hp & Hattr). unfold parse_setup, runner_line.
  replace ("--cleanup=always" :: vm_names) with (render_options [("--cleanup", Text (Some "always"))] ++ vm_names) by reflexivity.
  rewrite Hp. mred. unfold arguments_of. rewrite (read_names ns "host" vm_names) by (rewrite Hattr; reflexivity).
  rewrite (read_text ns "job" None), (read_text ns "resource" None), (read_text ns "logdir" None), (read_text ns "transport" None),
    (read_text ns "backing_device" None), (read_text ns "drbd_version" None), (read_text ns "drbd_version_other" None),
    (read_text ns "ssh_config" None) by given_here Hattr.
  rewrite (read_string ns "cleanup" "always"), (read_string ns "volume_group" "scratch"), (read_string ns "tls" "no"),
    (read_string ns "storage_backend" "lvm") by given_here Hattr.
  rewrite (read_number ns "debug" None), (read_number ns "zstd" None), (read_number ns "memlimit" None), (read_int ns "drbd_other_node" 0) by given_here Hattr.
  rewrite (read_flag ns "vconsole" false), (read_flag ns "silent" false), (read_flag ns "override_max" false), (read_flag ns "report_and_quit" false),
    (read_flag ns "no_rmmod" false), (read_flag ns "proxy" false), (read_flag ns "lz4" false), (read_flag ns "selinux_debug" false) by given_here Hattr.
  reflexivity.
Qed.

(** C34: Hosts that are not all on the same side of the options are an error of the
    command line: the test does not run on some of them only. *)
Theorem split_hosts_are_refused es host host' : Forall (given_ok setup_parser) es -> render_options es <> [] ->
  Forall plain_name host -> Forall plain_name host' -> host <> [] -> host' <> [] ->
  parse_setup (host ++ render_options es ++ host') = Raise (SystemExit 2).
Proof.
  intros He Hr Hh Hh' Hn Hn'. unfold parse_setup.
  by rewrite (parse_split_names setup_parser "host" es host host' setup_parser_plain setup_takes_hosts).
Qed.

(** ** Examples *)

Definition a_debug_of (r : res arguments) : option (option Z) := match r with Ok a => Some (a_debug a) | Raise _ => None end.
Example each_d_counts : a_debug_of (parse_setup ["-d"; "-dd"; "a"]) = Some (Some 3).
Proof. vm_compute. reflexivity. Qed.
Example d_adds_to_debug : a_debug_of (parse_setup ["--debug"; "3"; "-d"; "a"]) = Some (Some 4).
Proof. vm_compute. reflexivity. Qed.
Example long_options_are_abbreviated : parse_setup ["--sil"; "--cl"; "never"; "a"] = parse_setup ["--silent"; "--cleanup=never"; "a"].
Proof. vm_compute. reflexivity. Qed.
Example ambiguous_option : parse_setup ["--drbd=9"; "a"] = Raise (SystemExit 2).
Proof. vm_compute. reflexivity. Qed.
Example shorter_option_is_exact : parse_setup ["--drbd-version=9"; "a"] = parse_setup ["a"; "--drbd-version"; "9"].
Proof. vm_compute. reflexivity. Qed.
Example unknown_choice : parse_setup ["--transport=udp"; "a"] = Raise (SystemExit 2).
Proof. vm_compute. reflexivity. Qed.
Example no_number : parse_setup ["--zstd=best"; "a"] = Raise (SystemExit 2).
Proof. vm_compute. reflexivity. Qed.
Example everything_behind_dashes : parse_setup ["--"; "--a"; "-b"] = Ok (default_arguments ["--a"; "-b"]).
Proof. vm_compute. reflexivity. Qed.
Example help_comes_first : parse_setup ["-h"; "--zstd=best"] = Raise (SystemExit 0).
Proof. vm_compute. reflexivity. Qed.
Example nothing_given : parse_setup [] = Ok (default_arguments []).
Proof. vm_compute. reflexivity. Qed.

(** ** Witnesses *)

Definition demo_arguments : arguments :=
  Arguments ["a"; "b"] (Some "nightly") None (Some "/var/log/drbd=1") "never" "scratch" true false (Some (-2)) (Some "rdma") "yes" true false true false true
    (Some 22) None "zfs" (Some "-") (Some "9.2.1") None 1 (Some "") true.
Lemma command_line_is_read_back_witness : parse_setup (command_line demo_arguments) = Ok demo_arguments.
Proof. apply command_line_is_read_back. repeat split; apply (bool_decide_unpack _); vm_compute; exact I. Defined.
Lemma split_hosts_are_refused_witness : parse_setup (["a"] ++ render_options [("--silent", Flag true)] ++ ["b"; "c"]) = Raise (SystemExit 2).
Proof.
  apply split_hosts_are_refused; [|discriminate|by repeat constructor..|discriminate|discriminate].
  constructor; [|constructor]. eapply given_ok_intro; [reflexivity|vm_compute; reflexivity|reflexivity].
Defined.
