(* ===== verification/LocalSetup.v ===== *)
(** * What a test sets up where it runs (src/python/drbdtest.py, [setup])

    The name of the job, the directory of the logs with its link, the log
    stream, and the capture of the consoles of the virtual machines, with what
    is done about them when the program ends.  A path is the list of its
    components, those of an absolute path after ["/"]; [..] and a link that is
    not the last component are not looked through.  What [virsh] and [screen]
    do is a parameter. *)

From S2P Require Import Prelude PyStr Json Logging SetupArgs.
Import Logger.

(** ** Paths and files *)

Local Abbreviation path := (list string) (only parsing).
Definition norm (s : string) : path :=
  (if startswith "/" s then ["/"] else []) ++ filter (fun c => c <> EmptyString /\ c <> ".") (str_split "/" s).
(** [os.path.join] *)
Definition path_join (a b : string) : string :=
  if startswith "/" b then b else if bool_decide (a = EmptyString) || endswith "/" a then a +:+ b else a +:+ "/" +:+ b.
Definition parent (p : path) : path := take (length p - 1) p.

(** A directory or a file, that may be read, written and entered or not, or a link *)
Inductive entry := Dir (ok : bool) | File (ok : bool) | Link (target : string).
Local Abbreviation files := (gmap (list string) entry) (only parsing).

(** The working directory and the root are there. *)
Definition entry_at (fs : files) (p : path) : option entry := if decide (p = [] \/ p = ["/"]) then Some (Dir true) else fs !! p.
Definition follow (fs : files) (p : path) : option entry :=
  match entry_at fs p with
  | Some (Link t) => entry_at fs (if startswith "/" t then norm t else parent p ++ norm t)
  | e => e
  end.
Definition path_exists (fs : files) (p : path) : bool := bool_decide (is_Some (follow fs p)).

(** The directory a new name goes to *)
Definition check_parent (fs : files) (p : path) : res unit :=
  match follow fs (parent p) with
  | Some (Dir true) => Ok tt
  | Some (Dir false) => Raise (OSError "EACCES")
  | Some _ => Raise (OSError "ENOTDIR")
  | None => Raise (OSError "ENOENT")
  end.
Definition new_entry (p : path) (e : entry) : M files unit := fun fs =>
  match entry_at fs p with
  | Some _ => (Raise (OSError "EEXIST"), fs)
  | None => match check_parent fs p with Ok _ => (Ok tt, <[p := e]> fs) | Raise x => (Raise x, fs) end
  end.
Definition mkdir (p : path) : M files unit := new_entry p (Dir true).
Definition symlink (target : string) (p : path) : M files unit := new_entry p (Link target).
Definition remove (p : path) : M files unit := fun fs =>
  match entry_at fs p with
  | None => (Raise (OSError "ENOENT"), fs)
  | Some (Dir _) => (Raise (OSError "EISDIR"), fs)
  | Some _ => match check_parent fs p with Ok _ => (Ok tt, delete p fs) | Raise x => (Raise x, fs) end
  end.
(** [os.access(path, os.R_OK + os.X_OK + os.W_OK)] *)
Definition access (fs : files) (p : path) : bool := match follow fs p with Some (Dir ok | File ok) => ok | _ => false end.
(** [os.makedirs], on the components from the last to the first *)
Fixpoint makedirs_rev (rp : list string) : M files unit :=
  match rp with
  | [] => raise (OSError "EEXIST")
  | _ :: up =>
      let* fs := get in
      when (negb (path_exists fs (reverse up)))
        (try_except (makedirs_rev up) (fun e => if decide (e = OSError "EEXIST") then mret tt else raise e)) ;;;
      mkdir (reverse rp)
  end.
Definition makedirs (p : path) : M files unit := makedirs_rev (reverse p).
(** [open(path, 'w')] *)
Definition open_new (p : path) : M files unit := fun fs =>
  match entry_at fs p with
  | Some (Dir _) => (Raise (OSError "EISDIR"), fs)
  | Some (File ok) => (if ok then Ok tt else Raise (OSError "EACCES"), fs)
  | Some (Link _) => (if access fs p then Ok tt else Raise (OSError "EACCES"), fs)
  | None => match check_parent fs p with Ok _ => (Ok tt, <[p := File true]> fs) | Raise x => (Raise x, fs) end
  end.

(** ** The name of the job *)

(** The text behind the last [/], if there is one *)
Fixpoint after_slash (s : string) : option string :=
  match s with
  | String c t => match after_slash t with
                  | Some r => Some r
                  | None => if decide (c = "/"%char) then Some t else None
                  end
  | EmptyString => None
  end.
(** [re.sub(r'.*/(.*?)(?:\.py)?$', r'\1', path)] *)
Definition test_name (path : string) : string :=
  match after_slash path with
  | Some t => if endswith ".py" t then str_take (slen t - 3) t else t
  | None => path
  end.
Definition default_job (path date time : string) : string := test_name path +:+ "-" +:+ date +:+ "-" +:+ time.
(** [re.sub(r'-[^-]*-[^-]*?$', '', job) + '-latest'] *)
Definition job_symlink (job : string) : string :=
  let l := str_split "-" job in
  (if decide (3 <= length l) then join "-" (take (length l - 2) l) else job) +:+ "-latest".

(** ** The program's surroundings *)

(** A handler registered with [atexit] *)
Inductive handler := CloseLogfile (logfile : string).

(** The file system; the log; the variables of the environment; the commands
    run here; the handlers, in the order of their registration; the argument of [Cleanup] *)
Record local := Local {
  l_files : files;
  l_logger : logger;
  l_environ : gmap string string;
  l_commands : list (list string);
  l_exit : list handler;
  l_cleanup : option string
}.
(** The exit status of a command, after those run before it, or why it does not run *)
Class LocalCommands := local_run : list (list string) -> list string -> res Z.

Definition on_files {A} (m : M files A) : M local A :=
  zoom l_files (fun x s => Local x (l_logger s) (l_environ s) (l_commands s) (l_exit s) (l_cleanup s)) m.
Definition on_logger {A} (m : M logger A) : M local A :=
  zoom l_logger (fun x s => Local (l_files s) x (l_environ s) (l_commands s) (l_exit s) (l_cleanup s)) m.
Definition set_environ (k v : string) : M local unit :=
  modify (fun s => Local (l_files s) (l_logger s) (<[k := v]> (l_environ s)) (l_commands s) (l_exit s) (l_cleanup s)).
Definition register_handler (h : handler) : M local unit :=
  modify (fun s => Local (l_files s) (l_logger s) (l_environ s) (l_commands s) (l_exit s ++ [h]) (l_cleanup s)).
Definition set_cleanup (c : string) : M local unit :=
  modify (fun s => Local (l_files s) (l_logger s) (l_environ s) (l_commands s) (l_exit s) (Some c)).

Section local_setup.
Context `{LocalCommands}.

(** [subprocess.check_call] *)
Definition check_call (cmd : list string) : M local unit := fun s =>
  let s' := Local (l_files s) (l_logger s) (l_environ s) (l_commands s ++ [cmd]) (l_exit s) (l_cleanup s) in
  match local_run (l_commands s) cmd with
  | Ok 0%Z => (Ok tt, s')
  | Ok n => (Raise (CalledProcessError n (join " " cmd)), s')
  | Raise e => (Raise e, s')
  end.

(** *** The directory of the logs *)

Definition log_directory (job logdir : string) (link : option string) : M local unit :=
  on_files (let* fs := get in when (negb (access fs (norm logdir))) (makedirs (norm logdir))) ;;;
  (match link with
   | Some name =>
       let p := norm (path_join "log" name) in
       on_files (try_except (remove p) (fun e => if decide (e = OSError "ENOENT") then mret tt else raise e)) ;;;
       on_files (symlink job p)
   | None => mret tt
   end) ;;;
  on_files (open_new (norm (path_join logdir "test.log"))) ;;;
  on_logger (modify open_logstream).

(** *** The consoles *)

Definition console (host : string) : string := "console-" +:+ host.
Definition screen (logfile : string) (args : list string) : list string := ["screen"; "-S"; logfile; "-p"; "0"; "-X"] ++ args.
Definition virsh_console (host : string) : list string := ["screen"; "-S"; console host; "-d"; "-m"; "virsh"; "console"; host].
(** A loop that does not end: the program stays there. *)
Definition hanging : exn := TimeoutExpired "screen".
(** The loop until screen is ready, which goes on for [fuel] turns at most *)
Fixpoint await_screen (fuel : nat) (logfile : string) : M local unit :=
  match fuel with
  | O => raise hanging
  | S fuel => try_except (check_call (screen logfile ["version"])) (fun _ => await_screen fuel logfile)
  end.
Definition capture_console (fuel : nat) (logdir host : string) : M local unit :=
  let logfile := console host in
  check_call ["virsh"; "domid"; host] ;;;
  check_call (virsh_console host) ;;;
  await_screen fuel logfile ;;;
  check_call (screen logfile ["logfile"; path_join logdir ("console-" +:+ host +:+ ".log")]) ;;;
  check_call (screen logfile ["log"; "on"]) ;;;
  on_logger (log (host +:+ ": capturing console") (Some 2%Z)) ;;;
  register_handler (CloseLogfile logfile).

(** *** [setup], until it makes the cluster *)

(** The name of the job and the directory of the logs *)
Definition job_of (argv0 date time : string) (a : arguments) : string := default (default_job argv0 date time) (a_job a).
Definition logdir_of (job : string) (a : arguments) : string := default (path_join "log" job) (a_logdir a).
Definition link_of (job : string) (a : arguments) : option string := match a_logdir a with None => Some (job_symlink job) | Some _ => None end.

Definition local_setup (fuel : nat) (argv0 date time : string) (a : arguments) : M local unit :=
  (match a_debug a with Some level => on_logger (modify (set_debug_level level)) | None => mret tt end) ;;;
  let job := job_of argv0 date time a in
  let logdir := logdir_of job a in
  set_environ "LOGSCAN_TIMEOUT" "30" ;;;
  when (negb (a_silent a)) (on_logger (modify (print_to stderr ("Logging to directory " +:+ logdir)))) ;;;
  log_directory job logdir (link_of job a) ;;;
  set_cleanup (a_cleanup a) ;;;
  when (a_vconsole a) (for_each (a_host a) (capture_console fuel logdir)).

(** *** The end of the program *)

Definition run_handler (h : handler) : M local unit :=
  match h with CloseLogfile logfile => check_call (screen logfile ["stuff"; String "029" EmptyString]) end.
(** The handlers run in the opposite order; one that raises does not keep the
    others from running. *)
Definition close_logfiles : M local unit :=
  let* s := get in for_each (reverse (l_exit s)) (fun h => try_except (run_handler h) (fun _ => mret tt)).
End local_setup.

(** ** Lemmas: names and paths *)

Lemma split_app c s t : str_split c (s +:+ String c t) = str_split c s ++ str_split c t.
Proof.
  unfold str_split. induction s as [|d s IH].
  - rewrite sapp_nil. cbn [split_go]. destruct (split_go c t). by rewrite decide_True.
  - rewrite sapp_cons. cbn [split_go]. destruct (split_go c (s +:+ String c t)), (split_go c t), (split_go c s).
    injection IH as -> ->. by case_decide.
Qed.
Lemma split_none c s : scontains c s = false -> str_split c s = [s].
Proof. intros Hs. unfold str_split. rewrite <-(sapp_nil_r s), split_go_app by done. cbn. by rewrite sapp_nil_r. Qed.

Lemma after_slash_clean s t : after_slash s = Some t -> scontains "/" t = false.
Proof.
  revert t. induction s as [|c s IH]; intros t; [done|]. cbn. destruct (after_slash s) as [r|] eqn:Hr; [intros [= <-]; by apply IH|].
  case_decide; [|done]. intros [= <-]. clear -Hr. induction s as [|d s IH]; [done|]. cbn in *. destruct (after_slash s); [done|].
  case_decide as Hd; [done|]. by rewrite bool_decide_eq_false_2, IH by (done || congruence).
Qed.
Lemma after_slash_none s : after_slash s = None -> scontains "/" s = false.
Proof.
  induction s as [|c s IH]; [done|]. cbn. destruct (after_slash s) as [r|] eqn:Hr; [done|]. case_decide as Hc; [done|]. intros _.
  by rewrite bool_decide_eq_false_2, IH by (done || congruence).
Qed.
Lemma str_take_clean c n s : scontains c s = false -> scontains c (str_take n s) = false.
Proof.
  revert n. induction s as [|d s IH]; intros [|n]; [done..|]. cbn. intros [Hd Hs]%orb_false_iff. by rewrite Hd, IH.
Qed.
Lemma test_name_clean s : scontains "/" (test_name s) = false.
Proof.
  unfold test_name. destruct (after_slash s) as [t|] eqn:Ht; [|by apply after_slash_none].
  apply after_slash_clean in Ht. case_match; [by apply str_take_clean|done].
Qed.

(** A name of a file, and its place in a directory *)
Definition component (d : string) : Prop := scontains "/" d = false /\ d <> EmptyString /\ d <> ".".
Lemma component_start d : component d -> startswith "/" d = false.
Proof.
  intros (Hs & _). destruct (startswith "/" d) eqn:Hd; [|done]. apply startswith_spec in Hd as [t ->]. by rewrite scontains_app in Hs.
Qed.
Lemma path_join_component a d : component d -> a <> EmptyString -> endswith "/" a = false -> path_join a d = a +:+ String "/" d.
Proof. intros Hd Ha He. unfold path_join. by rewrite (component_start d Hd), bool_decide_eq_false_2, He by done. Qed.
Lemma filter_component d l : component d ->
  filter (fun c => c <> EmptyString /\ c <> ".") (d :: l) = d :: filter (fun c => c <> EmptyString /\ c <> ".") l.
Proof. intros (_ & Hd). by rewrite filter_cons_True. Qed.
Lemma norm_in_log d : component d -> norm (path_join "log" d) = ["log"; d].
Proof.
  intros Hd. rewrite path_join_component by done. unfold norm. change (startswith "/" ("log" +:+ String "/" d)) with false.
  rewrite split_app, (split_none _ d) by apply Hd. change (str_split "/" "log") with ["log"]. cbn [app].
  rewrite filter_component, filter_component by (done || by split). done.
Qed.
Lemma srev_last s c : srev (s +:+ String c EmptyString) = String c (srev s).
Proof. by rewrite srev_append. Qed.
Lemma endswith_slash s : scontains "/" s = false -> endswith "/" s = false.
Proof.
  intros Hs. unfold endswith. destruct (startswith (srev "/") (srev s)) eqn:He; [|done]. apply startswith_spec in He as [t Ht].
  rewrite <-(srev_involutive s), Ht, srev_append, scontains_app in Hs. by rewrite orb_true_r in Hs.
Qed.
Lemma norm_log_file d : component d -> norm (path_join (path_join "log" d) "test.log") = ["log"; d; "test.log"].
Proof.
  intros Hd. rewrite (path_join_component "log" d) by done. rewrite path_join_component; [|done|done|].
  - unfold norm. rewrite sapp_assoc. change (startswith "/" ("log" +:+ _)) with false. rewrite (sapp_cons _ d), split_app, split_app, (split_none _ d) by apply Hd.
    change (str_split "/" "log") with ["log"]. change (str_split "/" "test.log") with ["test.log"]. cbn [app].
    rewrite !filter_component by (done || by split). done.
  - unfold endswith. rewrite srev_append, (srev_cons _ d). destruct (startswith (srev "/") ((srev d +:+ "/") +:+ srev "log")) eqn:He; [|done].
    apply startswith_spec in He as [t Ht]. pose proof (endswith_slash d (proj1 Hd)) as Hend. unfold endswith in Hend.
    destruct (srev d) as [|c r] eqn:Hr; [destruct Hd as (_ & [] & _); by rewrite <-(srev_involutive d), Hr|].
    injection Ht as ->. done.
Qed.
Lemma component_dash d : scontains "/" d = false -> scontains "-" d = true -> component d.
Proof. intros Hs Hd. split_and!; [done|by intros ->|by intros ->]. Qed.

(** The date and the time are taken off the name of a job that [setup] has made
    up, however many dashes the name of the test has. *)
Lemma job_symlink_names_the_test path date time : scontains "-" date = false -> scontains "-" time = false ->
  job_symlink (default_job path date time) = test_name path +:+ "-latest".
Proof.
  intros Hd Ht. unfold job_symlink, default_job. f_equal.
  change ("-" +:+ date +:+ "-" +:+ time) with (String "-" (date +:+ String "-" time)).
  rewrite split_app, split_app, (split_none _ date), (split_none _ time) by done.
  assert (Hne : 1 <= length (str_split "-" (test_name path))) by (unfold str_split; destruct (split_go _ _); cbn; lia).
  rewrite !length_app. cbn [length app]. rewrite decide_True by lia.
  replace (length (str_split "-" (test_name path)) + (1 + 1) - 2) with (length (str_split "-" (test_name path))) by lia.
  rewrite take_app_length. apply join_split.
Qed.
(** The date and the time, as [time.strftime] writes them *)
Definition strftime_text (s : string) : Prop := scontains "-" s = false /\ scontains "/" s = false.
Lemma job_names path date time : strftime_text date -> strftime_text time ->
  let job := default_job path date time in
  component job /\ component (job_symlink job) /\ job <> job_symlink job /\ job_symlink job = test_name path +:+ "-latest".
Proof.
  intros [Hd Hds] [Ht Hts] job. assert (Hl : job_symlink job = test_name path +:+ "-latest") by (by apply job_symlink_names_the_test).
  pose proof (test_name_clean path) as Hp. rewrite Hl. unfold job, default_job. split_and!; [..|done].
  - apply component_dash; by rewrite !scontains_app, ?Hp, ?Hds, ?Hts, ?orb_true_r.
  - apply component_dash; by rewrite !scontains_app, ?Hp, ?orb_true_r.
  - intros He. apply sapp_inv in He. apply (sapp_inv "-" _ "latest") in He. apply (f_equal (scontains "-")) in He.
    rewrite !scontains_app, Hd in He. done.
Qed.

(** ** Lemmas: the directory of the logs *)

Definition deep (p : path) : Prop := p <> [] /\ p <> ["/"].
Lemma entry_at_deep fs p : deep p -> entry_at fs p = fs !! p.
Proof. intros []. unfold entry_at. rewrite decide_False by tauto. done. Qed.
Lemma follow_dir fs p b : deep p -> fs !! p = Some (Dir b) -> follow fs p = Some (Dir b).
Proof. intros Hp Hf. unfold follow. by rewrite entry_at_deep, Hf. Qed.
Lemma follow_none fs p : deep p -> fs !! p = None -> follow fs p = None.
Proof. intros Hp Hf. unfold follow. by rewrite entry_at_deep, Hf. Qed.

(** A new entry in a directory *)
Lemma new_entry_ok fs p e : deep p -> fs !! p = None -> (parent p = [] \/ deep (parent p) /\ fs !! parent p = Some (Dir true)) ->
  new_entry p e fs = (Ok tt, <[p := e]> fs).
Proof.
  intros Hp Hn Hd. unfold new_entry. rewrite entry_at_deep, Hn by done.
  assert (Hc : check_parent fs p = Ok tt); [|by rewrite Hc].
  unfold check_parent. destruct Hd as [->|[Hd Hf]]; [done|by rewrite (follow_dir _ _ true)].
Qed.

(** The directory [log] is missing, or can be used. *)
Definition log_usable (fs : files) : Prop := fs !! ["log"] = None \/ fs !! ["log"] = Some (Dir true).
Lemma makedirs_log fs : fs !! ["log"] = None -> makedirs_rev ["log"] fs = (Ok tt, <[["log"] := Dir true]> fs).
Proof.
  intros Hl. change (makedirs_rev ["log"] fs) with (new_entry ["log"] (Dir true) fs). apply new_entry_ok; [done|done|by left].
Qed.
Lemma makedirs_in_log fs job : log_usable fs -> fs !! ["log"; job] = None ->
  makedirs ["log"; job] fs = (Ok tt, <[["log"; job] := Dir true]> (<[["log"] := Dir true]> fs)).
Proof.
  intros Hl Hj. set (h := fun e => if decide (e = OSError "EEXIST") then mret tt else raise e : M files unit).
  change (makedirs ["log"; job] fs) with
    ((when (negb (path_exists fs ["log"])) (try_except (makedirs_rev ["log"]) h) ;;; new_entry ["log"; job] (Dir true)) fs).
  rewrite (bind_ok _ _ fs tt (<[["log"] := Dir true]> fs)).
  - apply new_entry_ok; [done|by rewrite lookup_insert_ne|]. right. split; [done|]. apply lookup_insert_eq.
  - unfold path_exists. destruct Hl as [Hl|Hl].
    + rewrite (follow_none fs ["log"]), bool_decide_eq_false_2 by (done || by intros [? ?]). cbn [negb when].
      unfold try_except. by rewrite makedirs_log.
    + rewrite (follow_dir fs ["log"] true), bool_decide_eq_true_2 by done. cbn [negb when]. by rewrite insert_id.
Qed.

Definition set_files (fs : files) (s : local) : local := Local fs (l_logger s) (l_environ s) (l_commands s) (l_exit s) (l_cleanup s).
(** The files after the directory of a run is made *)
Definition with_logs (job link : string) (fs : files) : files :=
  <[["log"; job; "test.log"] := File true]> (<[["log"; link] := Link job]> (<[["log"; job] := Dir true]> (<[["log"] := Dir true]> fs))).
Definition replaceable (fs : files) (p : path) : Prop := match fs !! p with Some (Dir _) => False | _ => True end.

Definition replace_by (job : string) (p : path) : M files unit :=
  try_except (remove p) (fun e => if decide (e = OSError "ENOENT") then mret tt else raise e) ;;; symlink job p.
Lemma replace_link fs link job : fs !! ["log"] = Some (Dir true) -> replaceable fs ["log"; link] ->
  replace_by job ["log"; link] fs = (Ok tt, <[["log"; link] := Link job]> fs).
Proof.
  intros Hl Hr. unfold replaceable in Hr. unfold replace_by. rewrite (bind_ok _ _ fs tt (delete ["log"; link] fs)).
  - rewrite <-(insert_delete_eq fs). apply new_entry_ok; [done|by rewrite lookup_delete_eq|]. right. split; [done|].
    change (parent ["log"; link]) with ["log"]. by rewrite lookup_delete_ne.
  - unfold try_except, remove. rewrite entry_at_deep by done.
    assert (Hp : check_parent fs ["log"; link] = Ok tt) by (unfold check_parent; change (parent ["log"; link]) with ["log"]; by rewrite (follow_dir _ _ true)).
    destruct (fs !! ["log"; link]) as [[|ok|t]|] eqn:Hf; [done|by rewrite Hp..|]. by rewrite delete_id.
Qed.

Lemma log_directory_ok job link s : component job -> component link -> job <> link ->
  log_usable (l_files s) -> l_files s !! ["log"; job] = None -> l_files s !! ["log"; job; "test.log"] = None -> replaceable (l_files s) ["log"; link] ->
  log_directory job (path_join "log" job) (Some link) s =
  (Ok tt, Local (with_logs job link (l_files s)) (open_logstream (l_logger s)) (l_environ s) (l_commands s) (l_exit s) (l_cleanup s)).
Proof.
  intros Hj Hk Hne Hl Hn Ht Hr. unfold log_directory. rewrite norm_log_file, !norm_in_log by done. set (fs := l_files s) in *.
  set (fs1 := <[["log"; job] := Dir true]> (<[["log"] := Dir true]> fs)).
  assert (Hmk : (let* fs := get in when (negb (access fs ["log"; job])) (makedirs ["log"; job])) fs = (Ok tt, fs1)).
  { mred. unfold get. cbn [fst snd]. unfold access at 1. rewrite follow_none by done. by apply makedirs_in_log. }
  assert (Hlink := replace_link fs1 link job). assert (Hfs1 : fs1 !! ["log"] = Some (Dir true)) by (unfold fs1; by rewrite lookup_insert_ne, lookup_insert_eq).
  specialize (Hlink Hfs1 ltac:(unfold replaceable, fs1; by rewrite !lookup_insert_ne by congruence)). set (fs2 := <[["log"; link] := Link job]> fs1) in *.
  assert (Hopen : open_new ["log"; job; "test.log"] fs2 = (Ok tt, with_logs job link fs)).
  { unfold open_new. rewrite entry_at_deep by done.
    assert (Hnt : fs2 !! ["log"; job; "test.log"] = None) by (unfold fs2, fs1; by rewrite !lookup_insert_ne by congruence).
    assert (Hp : check_parent fs2 ["log"; job; "test.log"] = Ok tt); [|by rewrite Hnt, Hp].
    unfold check_parent. change (parent ["log"; job; "test.log"]) with ["log"; job]. rewrite (follow_dir _ _ true); [done|done|].
    unfold fs2, fs1. by rewrite lookup_insert_ne, lookup_insert_eq by congruence. }
  rewrite (bind_ok _ _ s tt (set_files fs1 s)) by (unfold on_files, zoom; fold fs; by rewrite Hmk).
  rewrite (bind_ok _ _ _ tt (set_files fs2 s)); [by rewrite (bind_ok _ _ _ tt (set_files (with_logs job link fs) s)) by (unfold on_files, zoom; cbn [l_files set_files]; by rewrite Hopen)|].
  revert Hlink. unfold replace_by, on_files, zoom. mred. cbn [l_files set_files]. destruct (try_except _ _ fs1) as [[[]|e] fs3]; [|done].
  cbn [l_files]. intros Hs. by rewrite Hs.
Qed.


(** ** The capture of the consoles

    The commands that are meant to be run, each with whether it succeeds, and
    what is to be done about the consoles at the end. *)

Definition ready_cmd (logfile : string) : list string := screen logfile ["version"].
(** The commands for the console of [host], when screen is ready at the try after [k] others *)
Definition console_run (logdir host : string) (k : nat) : list (list string * bool) :=
  [(["virsh"; "domid"; host], true); (virsh_console host, true)] ++ repeat (ready_cmd (console host), false) k ++
  [(ready_cmd (console host), true);
   (screen (console host) ["logfile"; path_join logdir ("console-" +:+ host +:+ ".log")], true);
   (screen (console host) ["log"; "on"], true)].
(** A console that is captured, a command other than the tries that fails, or
    tries without an end *)
Inductive console_ended (fuel : nat) (logdir host : string) : list (list string * bool) -> bool -> Prop :=
| console_captured k : k < fuel -> console_ended fuel logdir host (console_run logdir host k) true
| console_failed k p cmd rest : k < fuel -> console_run logdir host k = p ++ (cmd, true) :: rest -> cmd <> ready_cmd (console host) ->
    console_ended fuel logdir host (p ++ [(cmd, false)]) false
| console_hangs : console_ended fuel logdir host
    ([(["virsh"; "domid"; host], true); (virsh_console host, true)] ++ repeat (ready_cmd (console host), false) fuel) false.
(** One host after the other, until one fails; the number of those captured *)
Inductive captures (fuel : nat) (logdir : string) : list string -> list (list string * bool) -> nat -> Prop :=
| captures_all : captures fuel logdir [] [] 0
| captures_stop host hosts run : console_ended fuel logdir host run false -> captures fuel logdir (host :: hosts) run 0
| captures_next host hosts run runs k : console_ended fuel logdir host run true -> captures fuel logdir hosts runs k ->
    captures fuel logdir (host :: hosts) (run ++ runs) (S k).

Section answers.
Context `{LocalCommands}.
(** The commands, run after those of [l], end like this. *)
Fixpoint answered (l : list (list string)) (run : list (list string * bool)) : Prop :=
  match run with
  | [] => True
  | (cmd, ok) :: run => match local_run l cmd with Ok 0%Z => true | _ => false end = ok /\ answered (l ++ [cmd]) run
  end.
Lemma answered_twice l run run' : answered l run -> answered (l ++ map fst run) run' -> answered l (run ++ run').
Proof.
  revert l. induction run as [|[cmd ok] run IH]; intros l; cbn [app answered map fst]; [by rewrite app_nil_r|].
  intros [H1 H2] H3. split; [done|]. apply IH; [done|]. by rewrite <-app_assoc.
Qed.
End answers.

(** The handlers of the first [k] hosts, and what the log says of them *)
Definition closing (k : nat) (hosts : list string) : list handler := map (fun h => CloseLogfile (console h)) (take k hosts).
Definition capture_lines (k : nat) (hosts : list string) : list string :=
  concat (map (fun h => [h +:+ ": capturing console"; newline]) (take k hosts)).

(** ** Lemmas: the consoles *)

Section consoles.
Context `{LocalCommands}.

(** The state once these commands have been run *)
Definition ran (cmds : list (list string)) (s : local) : local :=
  Local (l_files s) (l_logger s) (l_environ s) (l_commands s ++ cmds) (l_exit s) (l_cleanup s).
Lemma ran_ran c c' s : ran c' (ran c s) = ran (c ++ c') s.
Proof. unfold ran. cbn. by rewrite app_assoc. Qed.
Lemma ran_nil s : ran [] s = s.
Proof. unfold ran. rewrite app_nil_r. by destruct s. Qed.
Lemma check_call_spec cmd s : exists r, check_call cmd s = (r, ran [cmd] s) /\ answered (l_commands s) [(cmd, is_ok r)].
Proof. unfold check_call. cbn. destruct (local_run (l_commands s) cmd) as [[]|e]; by eexists. Qed.
(** A run so far, and what follows it *)
Definition has_run (run : list (list string * bool)) (s s' : local) : Prop := answered (l_commands s) run /\ s' = ran (map fst run) s.
Lemma has_run_nil s : has_run [] s s.
Proof. split; [done|]. by rewrite ran_nil. Qed.
Lemma has_run_app run run' a b c : has_run run a b -> has_run run' b c -> has_run (run ++ run') a c.
Proof. intros [H1 ->] [H2 ->]. split; [by apply answered_twice|]. by rewrite ran_ran, map_app. Qed.
Lemma check_call_has_run cmd s : exists r s', check_call cmd s = (r, s') /\ has_run [(cmd, is_ok r)] s s'.
Proof. destruct (check_call_spec cmd s) as (r & Hr & Ha). by exists r, (ran [cmd] s). Qed.
Lemma await_screen_spec fuel host s :
  match await_screen fuel (console host) s with
  | (Ok _, s') => exists k, k < fuel /\ has_run (repeat (ready_cmd (console host), false) k ++ [(ready_cmd (console host), true)]) s s'
  | (Raise _, s') => has_run (repeat (ready_cmd (console host), false) fuel) s s'
  end.
Proof.
  revert s. induction fuel as [|fuel IH]; intros s; cbn [await_screen]; [apply has_run_nil|]. unfold try_except.
  destruct (check_call_has_run (ready_cmd (console host)) s) as (r & s1 & Hc & Hr). unfold ready_cmd in Hc at 1. rewrite Hc.
  destruct r as [[]|e]; cbn [is_ok] in Hr; [exists 0; split; [lia|done]|]. specialize (IH s1).
  destruct (await_screen fuel _ s1) as [[[]|e'] s2].
  - destruct IH as (k & Hk & Hrun). exists (S k). split; [lia|]. cbn [repeat app]. by apply (has_run_app [_] _ s s1 s2).
  - cbn [repeat]. by apply (has_run_app [_] _ s s1 s2).
Qed.

(** The loop ends once screen is ready: the tries are all it takes. *)
Lemma await_screen_ends k fuel host s : k < fuel ->
  answered (l_commands s) (repeat (ready_cmd (console host), false) k ++ [(ready_cmd (console host), true)]) ->
  await_screen fuel (console host) s = (Ok tt, ran (repeat (ready_cmd (console host)) (S k)) s).
Proof.
  revert fuel s. induction k as [|k IH]; intros [|fuel] s Hf Ha; [lia| |lia|]; cbn [await_screen]; unfold try_except;
    destruct (check_call_spec (ready_cmd (console host)) s) as (r & Hc & Hr & _); unfold ready_cmd in Hc at 1; rewrite Hc;
    cbn [repeat app answered] in Ha; destruct Ha as [Ha Hrest]; rewrite Ha in Hr; destruct r as [[]|e]; try done.
  rewrite (IH fuel); [|lia|exact Hrest]. by rewrite ran_ran.
Qed.

(** A console is closed at the end when it has been captured, and only then. *)
Definition capturing (fuel : nat) (logdir host : string) (s : local) (r : res unit) (s' : local) : Prop :=
  exists run, console_ended fuel logdir host run (is_ok r) /\ answered (l_commands s) run /\ l_commands s' = l_commands s ++ map fst run /\
    l_files s' = l_files s /\ l_cleanup s' = l_cleanup s /\ logging (l_logger s') /\
    l_exit s' = l_exit s ++ (if is_ok r then [CloseLogfile (console host)] else []) /\
    output logfile (l_logger s') = output logfile (l_logger s) ++ (if is_ok r then [host +:+ ": capturing console"; newline] else []).
Lemma capturing_failed fuel logdir host s run s' e : logging (l_logger s) -> console_ended fuel logdir host run false -> has_run run s s' ->
  capturing fuel logdir host s (Raise e) s'.
Proof. intros Hl He [Ha ->]. exists run. cbn. rewrite !app_nil_r. by split_and!. Qed.
Lemma capture_console_spec fuel logdir host s : logging (l_logger s) -> 0 < fuel ->
  let '(r, s') := capture_console fuel logdir host s in capturing fuel logdir host s r s'.
Proof.
  intros Hl Hfuel. unfold capture_console. cbv zeta. mred.
  destruct (check_call_has_run ["virsh"; "domid"; host] s) as (r1 & s1 & -> & R1).
  destruct r1 as [[]|e]; [|eapply capturing_failed; [done|by eapply (console_failed fuel logdir host 0 [])|exact R1]].
  destruct (check_call_has_run (virsh_console host) s1) as (r2 & s2 & -> & R2).
  pose proof (has_run_app _ _ _ _ _ R1 R2) as R12. clear R1 R2.
  destruct r2 as [[]|e]; [|eapply capturing_failed; [done|by eapply (console_failed fuel logdir host 0 [_])|exact R12]].
  pose proof (await_screen_spec fuel host s2) as Hw. destruct (await_screen fuel (console host) s2) as [[[]|e] s3].
  2: { eapply capturing_failed; [done|apply console_hangs|]. by apply (has_run_app _ _ s s2). }
  destruct Hw as (k & Hk & R3). pose proof (has_run_app _ _ _ _ _ R12 R3) as R13. clear R12 R3. cbn [is_ok app] in R13.
  set (tries := _ :: _ :: _) in R13.
  assert (Hrun : console_run logdir host k = tries ++
    [(screen (console host) ["logfile"; path_join logdir ("console-" +:+ host +:+ ".log")], true); (screen (console host) ["log"; "on"], true)]).
  { unfold console_run, tries. cbn [app]. by rewrite <-app_assoc. }
  destruct (check_call_has_run (screen (console host) ["logfile"; path_join logdir ("console-" +:+ host +:+ ".log")]) s3) as (r4 & s4 & -> & R4).
  pose proof (has_run_app _ _ _ _ _ R13 R4) as R14. clear R13 R4.
  destruct r4 as [[]|e]; [|eapply capturing_failed; [done|by eapply (console_failed fuel logdir host k tries)|exact R14]].
  destruct (check_call_has_run (screen (console host) ["log"; "on"]) s4) as (r5 & s5 & -> & R5).
  pose proof (has_run_app _ _ _ _ _ R14 R5) as R15. clear R14 R5. rewrite <-app_assoc in R15.
  destruct r5 as [[]|e].
  2: { eapply capturing_failed; [done| |exact R15]. rewrite app_assoc. cbn [is_ok].
       eapply (console_failed fuel logdir host k _ _ []); [done|by rewrite Hrun, <-app_assoc|done]. }
  cbn [is_ok app] in R15. rewrite <-Hrun in R15. destruct R15 as [Ha ->]. unfold on_logger, zoom. cbn [l_logger ran].
  destruct (log_written (host +:+ ": capturing console") (Some 2%Z) (l_logger s) Hl) as (g & -> & Hg & _ & Hout & _).
  exists (console_run logdir host k). refine (conj _ (conj Ha _)); [by apply console_captured|by split_and!].
Qed.
Lemma capture_all fuel logdir hosts s : logging (l_logger s) -> 0 < fuel ->
  let '(r, s') := for_each hosts (capture_console fuel logdir) s in
  exists k run, captures fuel logdir hosts run k /\ answered (l_commands s) run /\ l_commands s' = l_commands s ++ map fst run /\
    l_files s' = l_files s /\ l_cleanup s' = l_cleanup s /\ logging (l_logger s') /\ l_exit s' = l_exit s ++ closing k hosts /\
    output logfile (l_logger s') = output logfile (l_logger s) ++ capture_lines k hosts /\ (r = Ok tt <-> k = length hosts).
Proof.
  intros Hl Hfuel. revert s Hl. induction hosts as [|h hosts IH]; intros s Hl; cbn [for_each].
  { exists 0, []. cbn. rewrite !app_nil_r. by split_and!; [constructor|..]. }
  pose proof (capture_console_spec fuel logdir h s Hl Hfuel) as Hc. mred. destruct (capture_console fuel logdir h s) as [[[]|e] s1].
  - destruct Hc as (run & He & Ha & Hcm & Hf & Hcl & Hl1 & Hx & Ho). specialize (IH s1 Hl1). destruct (for_each hosts _ s1) as [r s2].
    destruct IH as (k & runs & Hk & Ha2 & Hcm2 & Hf2 & Hcl2 & Hl2 & Hx2 & Ho2 & Hr). exists (S k), (run ++ runs).
    rewrite Hcm2, Hx2, Ho2, Hf2, Hcl2, Hx, Ho, Hcm. cbn [is_ok]. rewrite <-!app_assoc, map_app. split_and!; try done.
    + by constructor.
    + apply answered_twice; [done|]. by rewrite <-Hcm.
    + rewrite Hr. cbn. lia.
  - destruct Hc as (run & He & Ha & Hcm & Hf & Hcl & Hl1 & Hx & Ho). exists 0, run. cbn [is_ok] in *. cbn.
    split_and!; try done. by constructor.
Qed.

(** At the end, every handler sends its own screen the key that leaves the
    console, whatever happens to the others. *)
Definition close_command (h : handler) : list string := match h with CloseLogfile logfile => screen logfile ["stuff"; String "029" EmptyString] end.
Lemma close_logfiles_commands s : let '(r, s') := close_logfiles s in
  r = Ok tt /\ l_commands s' = l_commands s ++ map close_command (reverse (l_exit s)).
Proof.
  unfold close_logfiles. mred. unfold get. cbn [fst snd]. generalize (reverse (l_exit s)). intros hs. revert s.
  induction hs as [|h hs IH]; intros s; cbn [for_each map]; [by rewrite app_nil_r|]. mred. unfold try_except at 1.
  assert (Hc : exists r s1, run_handler h s = (r, s1) /\ l_commands s1 = l_commands s ++ [close_command h]).
  { destruct h as [logfile]. cbn. unfold check_call. repeat case_match; by repeat eexists. }
  destruct Hc as (r & s1 & Hr & Hs1). rewrite Hr. specialize (IH s1).
  destruct r as [[]|e]; cbn; (destruct (for_each hs _ s1) as [r2 s2]); destruct IH as [-> Hs2]; by rewrite Hs2, Hs1, <-app_assoc.
Qed.

End consoles.

(** ** Properties *)

(** C12: without [--job] and [--logdir], with a working directory in which
    [log] can be made or used, and if this run has no directory there yet: a run
    gets a directory of its own in [log], with its log file, and the link with
    the name of the test leads to it, whatever file or link had this name; no
    other file changes.  The log is open: what is logged goes to the screen and
    to the file, which starts with the lines about the consoles.  With
    [--vconsole], the consoles of the hosts are captured, each by its commands
    in their order, from the first host on until one fails; when the program
    ends, each captured console, and no other, is left, the last one first,
    whether or not the others can be left. *)
Theorem logs_of_a_run_are_ready `{LocalCommands} fuel argv0 date time a s : 0 < fuel ->
  a_job a = None -> a_logdir a = None -> strftime_text date -> strftime_text time ->
  let job := default_job argv0 date time in let link := test_name argv0 +:+ "-latest" in
  log_usable (l_files s) -> l_files s !! ["log"; job] = None -> l_files s !! ["log"; job; "test.log"] = None ->
  replaceable (l_files s) ["log"; link] ->
  let '(r, s') := local_setup fuel argv0 date time a s in
  l_files s' = with_logs job link (l_files s) /\ l_cleanup s' = Some (a_cleanup a) /\
  (exists k run, (if a_vconsole a then captures fuel (path_join "log" job) (a_host a) run k else run = [] /\ k = 0) /\
     answered (l_commands s) run /\ l_commands s' = l_commands s ++ map fst run /\
     logging (l_logger s') /\ output logfile (l_logger s') = capture_lines k (a_host a) /\
     l_exit s' = l_exit s ++ closing k (a_host a) /\ (r = Ok tt <-> k = if a_vconsole a then length (a_host a) else 0)) /\
  let '(_, s2) := close_logfiles s' in l_commands s2 = l_commands s' ++ map close_command (reverse (l_exit s')).
Proof.
  intros Hfuel Hj Hl Hd Ht job link Hlog Hn Hnt Hr. destruct (job_names argv0 date time Hd Ht) as (Hcj & Hcl & Hne & Hlink).
  fold job in Hcj, Hcl, Hne, Hlink.
  set (rest := log_directory job (path_join "log" job) (Some (job_symlink job)) ;;; set_cleanup (a_cleanup a) ;;;
    when (a_vconsole a) (for_each (a_host a) (capture_console fuel (path_join "log" job)))).
  assert (Hs1 : exists s1, local_setup fuel argv0 date time a s = rest s1 /\ l_files s1 = l_files s /\ l_exit s1 = l_exit s /\ l_commands s1 = l_commands s).
  { unfold local_setup, job_of, logdir_of, link_of. rewrite Hj, Hl. cbn [default]. fold job. destruct (a_debug a), (a_silent a); by eexists. }
  destruct Hs1 as (s1 & -> & Hf1 & He1 & Hc1). subst link. rewrite <-Hlink in Hr. rewrite <-Hf1 in Hlog, Hn, Hnt, Hr. subst rest.
  rewrite (bind_ok _ _ s1 tt _ (log_directory_ok job (job_symlink job) s1 Hcj Hcl Hne Hlog Hn Hnt Hr)).
  rewrite (bind_ok _ _ _ tt (Local (with_logs job (job_symlink job) (l_files s1)) (open_logstream (l_logger s1)) (l_environ s1) (l_commands s1) (l_exit s1) (Some (a_cleanup a)))) by done.
  rewrite Hf1, He1, Hlink, Hc1. set (s2 := Local _ _ _ _ _ _). destruct (open_logstream_logging (l_logger s1)) as (Hlg & Hempty & _).
  pose proof (capture_all fuel (path_join "log" job) (a_host a) s2 Hlg Hfuel) as Hc.
  destruct (a_vconsole a); cbn [when].
  - destruct (for_each (a_host a) _ s2) as [r s3]. destruct Hc as (k & run & Hk & Ha & Hcm & Hf & Hcu & Hl3 & Hx & Ho & Hr3).
    pose proof (close_logfiles_commands s3) as Hx3. destruct (close_logfiles s3). split_and!; [done|done| |apply Hx3].
    exists k, run. split_and!; try done. rewrite Ho. cbn [s2 l_logger]. by rewrite Hempty.
  - pose proof (close_logfiles_commands s2) as Hx. cbn. destruct (close_logfiles s2). split_and!; [done|done| |apply Hx].
    exists 0, []. cbn. rewrite !app_nil_r. by split_and!.
Qed.

(** ** Witnesses *)

(** Here [screen] is ready at the third try. *)
#[local] Instance demo_commands : LocalCommands := fun log cmd =>
  if bool_decide (cmd = screen "console-a" ["version"]) && bool_decide (length (filter (.= cmd) log) < 2) then Ok 1%Z else Ok 0%Z.
Definition demo_local : local :=
  Local {[ ["log"] := Dir true; ["log"; "connect-latest"] := Link "connect-20240228-120000" ]} initial ∅ [] [] None.
Definition demo_args : arguments :=
  Arguments ["a"; "b"] None None None "always" "scratch" true false None None "no" false false false false false None None "lvm" None None None 0 None false.
Lemma logs_of_a_run_are_ready_witness :
  l_files (snd (local_setup 5 "tests/connect.py" "20240229" "120000" demo_args demo_local)) !! ["log"; "connect-latest"] = Some (Link "connect-20240229-120000") /\
  l_cleanup (snd (local_setup 5 "tests/connect.py" "20240229" "120000" demo_args demo_local)) = Some "always".
Proof.
  pose proof (logs_of_a_run_are_ready 5 "tests/connect.py" "20240229" "120000" demo_args demo_local ltac:(lia) eq_refl eq_refl (conj eq_refl eq_refl) (conj eq_refl eq_refl)
    (or_intror eq_refl) eq_refl eq_refl I) as Hs.
  destruct (local_setup 5 "tests/connect.py" "20240229" "120000" demo_args demo_local) as [r s']. destruct Hs as (Hf & Hc & _).
  split; [cbn [snd]; rewrite Hf; vm_compute; reflexivity|exact Hc].
Defined.
Example consoles_are_captured : let '(r, s') := local_setup 5 "tests/connect.py" "20240229" "120000" demo_args demo_local in
  r = Ok tt /\ l_exit s' = [CloseLogfile "console-a"; CloseLogfile "console-b"] /\
  l_commands s' = map fst (console_run "log/connect-20240229-120000" "a" 2 ++ console_run "log/connect-20240229-120000" "b" 0).
Proof. vm_compute. done. Qed.
