(* ===== verification/HostStreams.v ===== *)
(** * The streams of a host (src/python/drbdtest.py, [Host])

    Where the output of commands goes: [Host.run] with its streams, of which
    [Host.run_with] is the part without them, and [run_quiet]; then the kernel
    log of a host, which captures listen to while another thread writes it, and
    the process and the file of the events.  All streams of the program are in
    one store, that of the log streams. *)

From S2P Require Import Prelude PyStr Host Logging LocalSetup.

(** ** Commands and their output *)

Inductive channel := ToStdout | ToStderr.
#[export] Instance channel_eq_dec : EqDecision channel.
Proof. solve_decision. Defined.

(** The answer to a command, given the commands before it: what is written to
    the two streams, in the order in which it comes, and then the exit status or
    the exception that ends the call. *)
Class StreamServer := stream_server : list sent -> sent -> list (channel * string) * res Z.

Definition text_of (pieces : list (channel * string)) : string := foldr (fun p t => snd p +:+ t) EmptyString pieces.
Definition stdout_of (pieces : list (channel * string)) : string := text_of (filter (fun p => fst p = ToStdout) pieces).

(** What [Host.run_with] sees of the answer: the text on the standard output *)
Definition answer_of `{StreamServer} : SshServer := fun before c =>
  let '(pieces, r) := stream_server before c in let* status := r in Ok (status, stdout_of pieces).

(** A file-like object: [drbdtestlogger.logstream] or a [StringIO] *)
Inductive sink := LogStream | Stream (x : nat).

(** The connection, the streams with what they got, and the next new object *)
Record session := Session { se_env : env; se_logger : Logger.logger; se_next : nat }.
Definition on_logger {A} (m : M Logger.logger A) : M session A :=
  zoom se_logger (fun l s => Session (se_env s) l (se_next s)) m.

(** [StringIO()] *)
Definition new_stringio : M session nat := fun s =>
  (Ok (se_next s), Session (se_env s)
    (Logger.set_out (fun t => Tee.Tee (Tee.streams t) (<[se_next s := []]> (Tee.written t))) (se_logger s)) (S (se_next s))).
Definition write_sink (x : sink) (text : string) : M session unit :=
  on_logger (modify (Logger.set_out (match x with LogStream => Tee.write text | Stream x => Tee.write_one text x end))).
Definition getvalue (x : sink) : M session string :=
  match x with
  | LogStream => raise (AttributeError "'Tee' object has no attribute 'getvalue'")
  | Stream x => gets (fun s => foldr (fun t u => t +:+ u) EmptyString (Logger.output x (se_logger s)))
  end.

Section streams.
Context `{StreamServer}.

(** [ssh.run(...)]: the pieces of the output are written to the two streams. *)
Definition send (c : sent) : M session (list (channel * string) * res Z) := fun s =>
  let e := se_env s in
  (Ok (stream_server (sent_log e) c), Session (Env (sent_log e ++ [c]) (uuid_options e)) (se_logger s) (se_next s)).
Definition ssh_run_to (stdout stderr : sink) (c : sent) : M session Z :=
  let* a := send c in
  for_each (fst a) (fun p => write_sink (match fst p with ToStdout => stdout | ToStderr => stderr end) (snd p)) ;;;
  lift (snd a).

(** [Host.run].  The streams that are not given are the log stream. *)
Definition log_command (h : host_info) (cmd_string : string) : M session unit :=
  on_logger (Logger.log (h_name h +:+ ": " +:+ cmd_string) None).
Definition failed_text (word : string) (result : Z) : string := "error: " +:+ word +:+ " failed (" +:+ str_int result +:+ ")".
Definition check_result (catch : bool) (cmd : list string) (cmd_string : string) (result : Z) : M session unit :=
  when (negb (result =? 0)%Z)
    (if catch then
       let* word := lift (py_index cmd 0) in
       on_logger (modify (Logger.print_log (failed_text word result)))
     else raise (CalledProcessError result cmd_string)).
Definition stdout_of_run (return_stdout : bool) (stdout : option sink) : M session sink :=
  if return_stdout then let* x := new_stringio in mret (Stream x) else mret (default LogStream stdout).
Definition run_logged (h : host_info) (catch : bool) (stdin : option string) (stdout stderr : sink) (cmd : list string)
    (cmd_string : string) : M session unit :=
  log_command h cmd_string ;;;
  let* result := ssh_run_to stdout stderr (Sent (h_name h) cmd_string stdin) in
  check_result catch cmd cmd_string result.
Definition run_streams (h : host_info) (quote catch return_stdout ignore_netns : bool) (stdin : option string)
    (stdout stderr : option sink) (cmd : list string) : M session (option string) :=
  let* stdout := stdout_of_run return_stdout stdout in
  run_logged h catch stdin stdout (default LogStream stderr) cmd (command_string h quote ignore_netns cmd) ;;;
  if return_stdout then let* text := getvalue stdout in mret (Some (strip text)) else mret None.

(** [Host.run_quiet] *)
Definition run_quiet (h : host_info) (quote ignore_netns : bool) (stdin : option string) (cmd : list string) : M session unit :=
  let* out := new_stringio in
  try_except
    (let* _ := run_streams h quote false false ignore_netns stdin (Some (Stream out)) (Some (Stream out)) cmd in mret tt)
    (fun e => let* text := getvalue (Stream out) in write_sink LogStream text ;;; raise e).
End streams.

(** *** Lemmas *)

(** The log is open, and the new objects are not among its streams. *)
Definition ready (s : session) : Prop := Logger.logging (se_logger s) /\ Logger.logfile < se_next s.
Definition known (x : option sink) (s : session) : Prop := match x with Some (Stream x) => x < se_next s | _ => True end.
Definition sink_gets (x : sink) (y : nat) : bool :=
  match x with LogStream => bool_decide (y = Logger.stderr \/ y = Logger.logfile) | Stream x => bool_decide (y = x) end.
Definition out_of (y : nat) (s : session) : list string := Logger.output y (se_logger s).

(** The streams that a piece reaches *)
Definition pieces_at (stdout stderr : sink) (y : nat) (pieces : list (channel * string)) : list string :=
  snd <$> filter (fun p => sink_gets (match fst p with ToStdout => stdout | ToStderr => stderr end) y = true) pieces.

Lemma write_sink_spec x text s : ready s -> exists s', write_sink x text s = (Ok tt, s') /\ ready s' /\ se_env s' = se_env s /\
  se_next s' = se_next s /\ forall y, out_of y s' = if sink_gets x y then out_of y s ++ [text] else out_of y s.
Proof.
  intros [[Ho Hs] Hn]. unfold write_sink, on_logger, zoom, modify. eexists. split; [done|]. unfold ready, Logger.logging, out_of, Logger.output.
  cbn [se_logger se_next se_env Logger.set_out Logger.opened Logger.out]. destruct x as [|x].
  - rewrite Logger.streams_write. split_and!; try done. intros y. rewrite Logger.output_write, Hs. cbn [sink_gets].
    case_bool_decide; [by rewrite decide_True by set_solver|by rewrite decide_False by set_solver].
  - split_and!; try done. intros y. rewrite Tee.output_write_one. cbn [sink_gets]. by case_bool_decide; case_decide.
Qed.

Lemma deliver_spec stdout stderr pieces s : ready s -> exists s',
  for_each pieces (fun p => write_sink (match fst p with ToStdout => stdout | ToStderr => stderr end) (snd p)) s = (Ok tt, s') /\
  ready s' /\ se_env s' = se_env s /\ se_next s' = se_next s /\ forall y, out_of y s' = out_of y s ++ pieces_at stdout stderr y pieces.
Proof.
  revert s. induction pieces as [|[c text] pieces IH]; intros s Hr; cbn [for_each].
  { eexists. split; [done|]. split_and!; try done; try apply Hr. intros y. by rewrite app_nil_r. }
  mred. cbn [fst snd]. destruct (write_sink_spec (match c with ToStdout => stdout | ToStderr => stderr end) text s Hr) as (s1 & -> & Hr1 & He1 & Hn1 & Ho1).
  destruct (IH s1 Hr1) as (s2 & Hs2 & Hr2 & He2 & Hn2 & Ho2). exists s2. rewrite He2, Hn2.
  split_and!; try done. intros y. rewrite Ho2, Ho1. unfold pieces_at. rewrite filter_cons. cbn [fst].
  destruct (sink_gets _ y); [rewrite decide_True by done; cbn; by rewrite <-app_assoc|by rewrite decide_False].
Qed.

Lemma log_command_spec h text s : ready s -> exists s', log_command h text s = (Ok tt, s') /\ ready s' /\ se_env s' = se_env s /\
  se_next s' = se_next s /\ forall y, out_of y s' = out_of y s ++ if sink_gets LogStream y then [h_name h +:+ ": " +:+ text; newline] else [].
Proof.
  intros [Hl Hn]. unfold log_command, on_logger, zoom. destruct Hl as [Ho Hs]. unfold Logger.log, Logger.print_log. rewrite Ho.
  eexists. split; [done|]. unfold ready, Logger.logging, out_of, Logger.output. cbn [se_logger se_next se_env Logger.set_out Logger.opened Logger.out].
  rewrite !Logger.streams_write. split_and!; try done. intros y. rewrite !Logger.output_write, Logger.streams_write, Hs. cbn [sink_gets].
  case_bool_decide; [by rewrite !decide_True, <-app_assoc by set_solver|by rewrite !decide_False, app_nil_r by set_solver].
Qed.

Lemma new_stringio_spec s : ready s -> exists s', new_stringio s = (Ok (se_next s), s') /\ ready s' /\ se_env s' = se_env s /\
  se_next s' = S (se_next s) /\ out_of (se_next s) s' = [] /\ forall y, y <> se_next s -> out_of y s' = out_of y s.
Proof.
  intros [[Ho Hs] Hn]. unfold new_stringio. eexists. split; [done|]. unfold ready, Logger.logging, out_of, Logger.output, Tee.output. cbn.
  split_and!; try done; [lia|by rewrite lookup_insert_eq|]. intros y Hy. by rewrite lookup_insert_ne.
Qed.

Lemma text_of_pieces pieces : foldr (fun t u => t +:+ u) EmptyString (snd <$> pieces) = text_of pieces.
Proof. induction pieces as [|[c t] pieces IH]; [done|]. cbn. by rewrite IH. Qed.

Section proofs.
Context `{StreamServer}.

(** The end of [run_logged], without the log *)
Definition result_of (catch : bool) (cmd : list string) (cmd_string : string) (r : res Z) : res unit :=
  let* result := r in
  if (result =? 0)%Z then Ok tt
  else if catch then let* _ := py_index cmd 0 in Ok tt else Raise (CalledProcessError result cmd_string).
Definition command_of (h : host_info) (cmd_string : string) (stdin : option string) : sent := Sent (h_name h) cmd_string stdin.
Definition line_of (h : host_info) (cmd_string : string) : list string := [h_name h +:+ ": " +:+ cmd_string; newline].

Lemma check_result_spec catch cmd cmd_string result s : ready s ->
  exists s', check_result catch cmd cmd_string result s = (result_of catch cmd cmd_string (Ok result), s') /\ ready s' /\
  se_env s' = se_env s /\ se_next s' = se_next s /\
  forall y, catch = false \/ sink_gets LogStream y = false -> out_of y s' = out_of y s.
Proof.
  intros Hr. unfold check_result, result_of, when. mred. destruct (result =? 0)%Z; cbn [negb]; [by exists s|].
  destruct catch; [|by exists s]. mred. unfold lift. destruct (py_index cmd 0) as [w|x]; [|by exists s].
  unfold on_logger, zoom, modify, Logger.print_log. destruct Hr as [[Ho Hs] Hn]. rewrite Ho. eexists. split; [done|].
  unfold ready, Logger.logging, out_of, Logger.output. cbn [se_logger se_next se_env Logger.set_out Logger.opened Logger.out].
  rewrite !Logger.streams_write. split_and!; try done. intros y [?|Hy]; [done|]. cbn [sink_gets] in Hy. apply bool_decide_eq_false in Hy.
  rewrite !Logger.output_write, Logger.streams_write, Hs. by rewrite !decide_False by set_solver.
Qed.

Lemma run_logged_spec h catch stdin stdout stderr cmd cmd_string s : ready s ->
  let c := command_of h cmd_string stdin in
  let a := stream_server (sent_log (se_env s)) c in
  exists s', run_logged h catch stdin stdout stderr cmd cmd_string s = (result_of catch cmd cmd_string (snd a), s') /\ ready s' /\
  se_env s' = Env (sent_log (se_env s) ++ [c]) (uuid_options (se_env s)) /\ se_next s' = se_next s /\
  forall y, catch = false \/ sink_gets LogStream y = false ->
    out_of y s' = out_of y s ++ (if sink_gets LogStream y then line_of h cmd_string else []) ++ pieces_at stdout stderr y (fst a).
Proof.
  intros Hr c a. unfold run_logged, ssh_run_to. mred.
  destruct (log_command_spec h cmd_string s Hr) as (s1 & -> & Hr1 & He1 & Hn1 & Ho1). unfold send. rewrite He1. fold (command_of h cmd_string stdin).
  fold c a. cbn [fst snd]. set (s2 := Session _ _ _). assert (Hr2 : ready s2) by exact Hr1.
  destruct (deliver_spec stdout stderr (fst a) s2 Hr2) as (s3 & -> & Hr3 & He3 & Hn3 & Ho3). unfold lift.
  assert (Hy : forall y, out_of y s3 = out_of y s ++ (if sink_gets LogStream y then line_of h cmd_string else []) ++ pieces_at stdout stderr y (fst a)).
  { intros y. rewrite Ho3. change (out_of y s2) with (out_of y s1). by rewrite Ho1, <-app_assoc. }
  destruct (snd a) as [result|x]; [|exists s3; split_and!; try done; by rewrite Hn3].
  destruct (check_result_spec catch cmd cmd_string result s3 Hr3) as (s4 & -> & Hr4 & He4 & Hn4 & Ho4). exists s4.
  split_and!; try done; [by rewrite He4|by rewrite Hn4, Hn3|]. intros y Hc. by rewrite Ho4.
Qed.

(** [Host.run_with], for the answers of the server *)
Lemma run_with_answers h quote catch return_stdout ignore_netns stdin cmd e :
  let cs := command_string h quote ignore_netns cmd in
  let c := command_of h cs stdin in
  let a := stream_server (sent_log e) c in
  run_with (H := answer_of) h quote catch return_stdout ignore_netns stdin cmd e =
    (let* _ := result_of catch cmd cs (snd a) in Ok (if return_stdout then Some (strip (stdout_of (fst a))) else None),
     Env (sent_log e ++ [c]) (uuid_options e)).
Proof.
  intros cs c a. unfold run_with, ssh_run, ssh, answer_of. fold cs. fold (command_of h cs stdin). fold c. mred. subst a.
  destruct (stream_server (sent_log e) c) as [pieces [result|x]]; cbn [fst snd]; unfold result_of, when, lift, raise; mred; [|done].
  destruct (result =? 0)%Z; cbn [negb]; [done|]. destruct catch; [|done]. by destruct (py_index cmd 0).
Qed.

(** The text that a new [StringIO] gets as the standard output *)
Lemma pieces_at_new stderr x pieces : sink_gets stderr x = false ->
  pieces_at (Stream x) stderr x pieces = snd <$> filter (fun p => fst p = ToStdout) pieces.
Proof.
  intros Hx. unfold pieces_at. f_equal. apply list_filter_iff. intros [[] t]; cbn [fst]; [|by rewrite Hx].
  cbn [sink_gets]. by rewrite bool_decide_eq_true.
Qed.
Lemma pieces_at_both x pieces : pieces_at (Stream x) (Stream x) x pieces = snd <$> pieces.
Proof.
  unfold pieces_at. f_equal. induction pieces as [|[c t] pieces IH]; [done|]. rewrite filter_cons_True; [by rewrite IH|].
  destruct c; cbn; by apply bool_decide_eq_true.
Qed.
Lemma pieces_at_none x y pieces : y <> x -> pieces_at (Stream x) (Stream x) y pieces = [].
Proof.
  intros Hy. unfold pieces_at. induction pieces as [|[c t] pieces IH]; [done|]. rewrite filter_cons_False; [done|].
  destruct c; cbn; by rewrite bool_decide_eq_true.
Qed.
Lemma new_is_not_log s : ready s -> sink_gets LogStream (se_next s) = false.
Proof. intros [_ Hn]. cbn. apply bool_decide_eq_false. unfold Logger.logfile, Logger.stderr in *. lia. Qed.

(** ** Properties of the streams *)

(** The streams make no difference to what a command sends and gives back:
    whatever streams [Host.run] is called with, its result and the commands sent
    are those of [Host.run_with], for a server that answers with the text on the
    standard output. *)
Theorem streams_do_not_change_run h quote catch return_stdout ignore_netns stdin stdout stderr cmd s :
  ready s -> known stderr s ->
  let '(r, s') := run_streams h quote catch return_stdout ignore_netns stdin stdout stderr cmd s in
  (r, se_env s') = run_with (H := answer_of) h quote catch return_stdout ignore_netns stdin cmd (se_env s).
Proof.
  intros Hr Hk. rewrite run_with_answers. unfold run_streams, stdout_of_run. set (cs := command_string h quote ignore_netns cmd). mred.
  destruct return_stdout.
  - destruct (new_stringio_spec s Hr) as (s1 & -> & Hr1 & He1 & Hn1 & Ho1 & _).
    destruct (run_logged_spec h catch stdin (Stream (se_next s)) (default LogStream stderr) cmd cs s1 Hr1) as (s2 & -> & Hr2 & He2 & Hn2 & Ho2).
    pose proof (new_is_not_log s Hr) as Hl. specialize (Ho2 (se_next s) (or_intror Hl)).
    assert (Hd : sink_gets (default LogStream stderr) (se_next s) = false).
    { destruct stderr as [[|x]|]; cbn [default]; [done| |done]. cbn in Hk |- *. apply bool_decide_eq_false. lia. }
    rewrite Ho1, Hl, pieces_at_new in Ho2 by done. rewrite He1 in *. cbn [app] in Ho2.
    destruct (result_of _ _ _ _); [|by rewrite <-He2]. unfold getvalue, gets. fold (out_of (se_next s) s2).
    by rewrite Ho2, text_of_pieces, <-He2.
  - destruct (run_logged_spec h catch stdin (default LogStream stdout) (default LogStream stderr) cmd cs s Hr) as (s2 & -> & _ & He2 & _).
    rewrite <-He2. by destruct (result_of _ _ _ _).
Qed.

(** C25: [run_quiet] gives back what [run] does.  On the screen and in the log
    file, there is the command, followed by all of its output, of both streams
    and in its order, when it ends with an exception, and by nothing when it
    ends well. *)
Theorem run_quiet_logs_failures_only h quote ignore_netns stdin cmd s y :
  ready s -> y = Logger.stderr \/ y = Logger.logfile ->
  let cs := command_string h quote ignore_netns cmd in
  let '(r, s') := run_quiet h quote ignore_netns stdin cmd s in
  let '(r', e) := run_with (H := answer_of) h quote false false ignore_netns stdin cmd (se_env s) in
  r = (let* _ := r' in Ok tt) /\ se_env s' = e /\
  out_of y s' = out_of y s ++ line_of h cs ++
    (if is_ok r then [] else [text_of (fst (stream_server (sent_log (se_env s)) (command_of h cs stdin)))]).
Proof.
  intros Hr Hy cs. rewrite run_with_answers. fold cs. unfold run_quiet, run_streams, stdout_of_run. fold cs. mred.
  destruct (new_stringio_spec s Hr) as (s1 & -> & Hr1 & He1 & Hn1 & Ho1 & Ho1'). cbn [from_option id].
  pose proof (new_is_not_log s Hr) as Hl. set (out := se_next s) in *.
  assert (Hly : sink_gets LogStream y = true) by (cbn; by apply bool_decide_eq_true).
  assert (Hne : y <> out) by congruence. unfold try_except.
  destruct (run_logged_spec h false stdin (Stream out) (Stream out) cmd cs s1 Hr1) as (s2 & -> & Hr2 & He2 & Hn2 & Ho2).
  rewrite He1 in *. set (a := stream_server _ _) in *.
  pose proof (Ho2 out (or_introl eq_refl)) as Hout. pose proof (Ho2 y (or_introl eq_refl)) as Hlog.
  rewrite Ho1, Hl, pieces_at_both in Hout. rewrite Ho1', Hly, pieces_at_none in Hlog by done. cbn [app] in Hout.
  destruct (result_of _ _ _ _) as [[]|x]; cbn [is_ok]; [done|].
  unfold getvalue, gets, raise. fold (out_of out s2). rewrite Hout, text_of_pieces.
  destruct (write_sink_spec LogStream (text_of (fst a)) s2 Hr2) as (s3 & -> & _ & He3 & _ & Ho3). split_and!; [done|by rewrite He3|].
  by rewrite Ho3, Hly, Hlog, app_nil_r, <-app_assoc.
Qed.
End proofs.

(** ** The kernel log and its captures *)

Module Captures.

(** [start_dmesg], [start_dmesg_with_cmd]: the command, the file in the log
    directory, and the streams of [dmesg_out_tee] before any capture *)
Definition linux_start_dmesg : string := "echo $$ ; dmesg --follow-new --time-format=iso || dmesg --follow".
Definition windows_start_dmesg : string := "echo $$ ; tail -f /cygdrive/c/WinDRBD/windrbd-kernel.log".
Definition start_dmesg (windows : bool) : string := if windows then windows_start_dmesg else linux_start_dmesg.
Definition dmesg_path (logdir name : string) : string := path_join logdir ("dmesg-" +:+ name).
Definition out_stream : nat := 0.
Definition out_file : nat := 1.
Definition start_streams : Tee.tee := Tee.add out_file (Tee.add out_stream Tee.init).
Definition add_dmesg_capture (x : nat) (t : Tee.tee) : Tee.tee := Tee.add x t.
Definition remove_dmesg_capture (x : nat) (t : Tee.tee) : res Tee.tee := Tee.remove x t.
(** [dmesg_out_stream.read()] from the start, which [teardown] checks *)
Definition read_stream (t : Tee.tee) : string := foldr (fun p u => p +:+ u) EmptyString (Tee.output out_stream t).

(** The thread [dmesg_pipe] writes the messages one after the other, and other
    threads add and remove captures meanwhile.  The state is the [Tee], and the
    message that is being written with the streams that its loop has left. *)
Definition state : Type := Tee.tee * (string * list nat).
Inductive event :=
| Arrive (message : string)
| Turn
| Add (x : nat)
| Remove (x : nat).
Definition step (e : event) (s : state) : res state :=
  let '(t, (m, todo)) := s in
  match e with
  | Arrive message => match todo with [] => Ok (t, (message, elements (Tee.streams t))) | _ => Raise StopIteration end
  | Turn => let* u := Tee.step m Tee.EvTurn (t, todo) in Ok (fst u, (m, snd u))
  | Add x => Ok (add_dmesg_capture x t, (m, todo))
  | Remove x => let* t := remove_dmesg_capture x t in Ok (t, (m, todo))
  end.
Fixpoint run (es : list event) (s : state) : res state :=
  match es with
  | [] => Ok s
  | e :: es => let* s := step e s in run es s
  end.

(** The messages, and those that arrive while [x] is a stream *)
Definition arrivals (es : list event) : list string := omap (fun e => match e with Arrive m => Some m | _ => None end) es.
Fixpoint heard (x : nat) (listening : bool) (es : list event) : list string :=
  match es with
  | [] => []
  | Arrive m :: es => (if listening then [m] else []) ++ heard x listening es
  | Turn :: es => heard x listening es
  | Add y :: es => heard x (listening || bool_decide (y = x)) es
  | Remove y :: es => heard x (listening && negb (bool_decide (y = x))) es
  end.
(** Nobody else adds or removes [x]. *)
Definition leaves (x : nat) (e : event) : bool :=
  match e with Add y | Remove y => negb (bool_decide (y = x)) | _ => true end.

Lemma arrivals_app es1 es2 : arrivals (es1 ++ es2) = arrivals es1 ++ arrivals es2.
Proof. induction es1 as [|[] es1 IH]; cbn; [done|by f_equal|done..]. Qed.

Lemma heard_app_leaves x b es1 es2 : forallb (leaves x) es1 = true -> heard x b (es1 ++ es2) = (if b then arrivals es1 else []) ++ heard x b es2.
Proof.
  induction es1 as [|e es1 IH]; intros Hl; cbn in *; [by destruct b|]. apply andb_true_iff in Hl as [He Hl].
  destruct e as [m| |y|y]; cbn in He |- *; rewrite ?(proj1 (negb_true_iff _) He), ?orb_false_r, ?andb_true_r, IH by done; destruct b; done.
Qed.

(** What is still to be written of the present message *)
Definition owed (x : nat) (w : string * list nat) : list string := if decide (x ∈ snd w) then [fst w] else [].
Lemma run_heard x es t w t' w' : NoDup (snd w) -> run es (t, w) = Ok (t', w') ->
  Tee.output x t' ++ owed x w' = Tee.output x t ++ owed x w ++ heard x (bool_decide (x ∈ Tee.streams t)) es.
Proof.
  revert t w. induction es as [|e es IH]; intros t [m todo] Hnd Hr; cbn [run heard] in *; [injection Hr as <- <-; by rewrite app_nil_r|].
  destruct (step e (t, (m, todo))) as [[t1 w1]|] eqn:Hs; [|done]. mred. cbn [snd] in Hnd.
  assert (Hnd1 : NoDup (snd w1)).
  { destruct e as [m'| |y|y]; cbn in Hs.
    - destruct todo; [|done]. injection Hs as <- <-. apply NoDup_elements.
    - destruct todo as [|y todo]; [done|]. injection Hs as <- <-. by apply NoDup_cons in Hnd as [].
    - by injection Hs as <- <-.
    - unfold remove_dmesg_capture in Hs. destruct (Tee.remove y t); [|done]. by injection Hs as <- <-. }
  rewrite (IH _ _ Hnd1 Hr). clear IH Hr Hnd1. destruct e as [m'| |y|y]; cbn in Hs.
  - destruct todo; [|done]. injection Hs as <- <-. unfold owed. cbn [fst snd]. rewrite (decide_False (P := x ∈ [])) by set_solver.
    cbn [app]. rewrite (decide_ext (x ∈ elements (Tee.streams t)) (x ∈ Tee.streams t)) by apply elem_of_elements.
    by case_decide; case_bool_decide.
  - destruct todo as [|y todo]; [done|]. injection Hs as <- <-. apply NoDup_cons in Hnd as [Hy _]. unfold owed. cbn [fst snd].
    rewrite Tee.output_write_one. destruct (decide (x = y)) as [->|Hne].
    + rewrite decide_False by done. rewrite decide_True by set_solver. by rewrite <-app_assoc.
    + by rewrite (decide_ext (x ∈ y :: todo) (x ∈ todo)) by set_solver.
  - injection Hs as <- <-. unfold owed, add_dmesg_capture. cbn [Tee.streams Tee.add]. f_equal. f_equal. f_equal.
    destruct (bool_decide_reflect (x ∈ Tee.streams t)), (bool_decide_reflect (y = x)); cbn; rewrite ?bool_decide_eq_true, ?bool_decide_eq_false; set_solver.
  - unfold remove_dmesg_capture, Tee.remove in Hs. destruct (decide _); [|done]. injection Hs as <- <-. unfold owed. cbn [Tee.streams]. f_equal. f_equal. f_equal.
    destruct (bool_decide_reflect (x ∈ Tee.streams t)), (bool_decide_reflect (y = x)); cbn; rewrite ?bool_decide_eq_true, ?bool_decide_eq_false; set_solver.
Qed.

(** C26: however [add_dmesg_capture] and [remove_dmesg_capture] fall between the
    steps of the thread that writes the kernel log, a capture gets, once and in
    order, exactly the messages that arrive between the two calls for it; and
    the file and the stream that [teardown] checks get all messages. *)
Theorem captures_hear_their_messages x es1 es es2 t w :
  forallb (leaves x) (es1 ++ es ++ es2) = true ->
  forallb (fun e => leaves out_stream e && leaves out_file e) (es1 ++ es ++ es2) = true -> out_file < x ->
  run (es1 ++ Add x :: es ++ Remove x :: es2) (start_streams, (EmptyString, [])) = Ok (t, (w, [])) ->
  Tee.output x t = arrivals es /\
  Tee.output out_file t = arrivals (es1 ++ es ++ es2) /\
  read_stream t = foldr (fun m u => m +:+ u) EmptyString (arrivals (es1 ++ es ++ es2)).
Proof.
  rewrite !forallb_app, !andb_true_iff. intros (Hx1 & Hx & Hx2) (Hs1 & Hs & Hs2) Hn Hr.
  assert (Hy : forall y, Tee.output y t = heard y (bool_decide (y ∈ Tee.streams start_streams)) (es1 ++ Add x :: es ++ Remove x :: es2)).
  { intros y. pose proof (run_heard y _ start_streams (EmptyString, []) t (w, []) NoDup_nil_2 Hr) as Hh. unfold owed in Hh. cbn [snd] in Hh.
    rewrite !decide_False, app_nil_r in Hh by set_solver. exact Hh. }
  assert (Hall : forall y, y = out_stream \/ y = out_file -> Tee.output y t = arrivals (es1 ++ es ++ es2)).
  { intros y Hio. rewrite Hy, bool_decide_eq_true_2 by (destruct Hio as [-> | ->]; vm_compute; tauto).
    rewrite <-(app_nil_r (es1 ++ _)), heard_app_leaves.
    - cbn [heard]. rewrite app_nil_r, !arrivals_app. cbn. by rewrite arrivals_app.
    - unfold out_stream, out_file in *. assert (Hne : bool_decide (x = y) = false) by (apply bool_decide_eq_false; lia).
      assert (Hl : forall l, forallb (fun e => leaves 0 e && leaves 1 e) l = true -> forallb (leaves y) l = true).
      { intros l. rewrite !forallb_forall. intros Hl e He. specialize (Hl e He). apply andb_true_iff in Hl as [? ?]. by destruct Hio as [-> | ->]. }
      rewrite !forallb_app. cbn [forallb]. rewrite !forallb_app. cbn [forallb]. cbn [leaves]. by rewrite Hne, !Hl. }
  split_and!; [|by apply Hall; right|unfold read_stream; by rewrite Hall by (by left)].
  rewrite Hy, bool_decide_eq_false_2 by (unfold start_streams, out_file in *; cbn; unfold out_stream, out_file; set_solver by lia).
  rewrite heard_app_leaves by done. cbn [heard app]. rewrite bool_decide_eq_true_2 by done. cbn [orb].
  rewrite heard_app_leaves by done. cbn [heard]. rewrite bool_decide_eq_true_2 by done. cbn [andb negb].
  rewrite <-(app_nil_r es2), heard_app_leaves by done. by rewrite app_nil_r.
Qed.
End Captures.

(** ** The events *)

Module Events.

(** Ending and starting a process on the host, which may fail.  Processes and
    files are numbered in the order in which they are made. *)
Class Processes := { terminate : nat -> option exn; popen : nat -> option exn }.

Record events := EventsOf {
  events_file : option nat;
  (** The attribute [events], which is missing at first *)
  events_process : option nat;
  open_files : list nat;
  running : list nat;
  made : nat
}.
Definition init : events := EventsOf None None [] [] 0.
Definition events_path (logdir name : string) : string := path_join logdir ("events-" +:+ name).
Definition events_command : string := "drbdsetup events2 all --statistics --timestamps".

Section events.
Context `{Processes}.

Definition close_file : M events unit :=
  modify (fun s => EventsOf (events_file s) (events_process s) (filter (fun f => Some f <> events_file s) (open_files s)) (running s) (made s)).
Definition open_file : M events unit :=
  modify (fun s => EventsOf (Some (made s)) (events_process s) (open_files s ++ [made s]) (running s) (S (made s))).
(** [self.events.terminate()] and, in [listen_to_events], [self.events.wait()] *)
Definition terminate_events : M events unit :=
  let* s := get in
  match events_process s with
  | None => mret tt
  | Some p =>
      match terminate p with
      | Some e => raise e
      | None => put (EventsOf (events_file s) (events_process s) (open_files s) (filter (fun q => q <> p) (running s)) (made s))
      end
  end.
Definition start_events : M events unit :=
  let* s := get in
  match popen (made s) with
  | Some e => raise e
  | None => put (EventsOf (events_file s) (Some (made s)) (open_files s) (running s ++ [made s]) (S (made s)))
  end.

(** [Host.listen_to_events] *)
Definition listen_to_events : M events unit :=
  let* s := get in
  when (bool_decide (is_Some (events_file s))) close_file ;;;
  open_file ;;;
  try_except terminate_events (fun _ => mret tt) ;;;
  start_events.
(** The part of [Host.cleanup_framework] that is about the events *)
Definition cleanup_events : M events unit :=
  terminate_events ;;;
  let* s := get in
  when (bool_decide (is_Some (events_file s))) close_file.

(** The only file that is open and the only process that may run are the last. *)
Definition tidy (s : events) : Prop :=
  open_files s = option_list (events_file s) /\ Forall (fun p => events_process s = Some p) (running s).

Lemma no_other_process (p : nat) ps : Forall (fun q => Some p = Some q) ps -> filter (fun q => q <> p) ps = [].
Proof. induction 1 as [|q ps Hq _ IH]; [done|]. rewrite filter_cons_False; [done|naive_solver]. Qed.
Lemma no_other_file (f : option nat) : filter (fun g => Some g <> f) (option_list f) = [].
Proof. destruct f as [f|]; [|done]. change (option_list (Some f)) with [f]. rewrite filter_cons_False; [done|naive_solver]. Qed.

(** Each call, also one that fails to start the process, leaves it so, and in
    the end nothing is open and nothing runs. *)
Lemma listen_keeps_tidy s : (forall p, terminate p = None) -> tidy s ->
  tidy (snd (listen_to_events s)) /\
  (is_ok (fst (listen_to_events s)) = true -> exists p, running (snd (listen_to_events s)) = [p]).
Proof.
  intros Ht [Hf Hp]. unfold listen_to_events, try_except, terminate_events, start_events, open_file, close_file, get, put, modify, raise, when.
  mred. destruct s as [f p fs ps n]. cbn [events_file events_process open_files running made] in *. subst fs.
  assert (Hps : match p with Some p => filter (fun q => q <> p) ps = [] | None => ps = [] end).
  { destruct p; [by apply no_other_process|]. destruct ps; [done|]. by inversion Hp. }
  destruct f as [f|]; [rewrite bool_decide_eq_true_2 by done|rewrite bool_decide_eq_false_2 by (by intros [])];
    cbn [events_file events_process open_files running made]; rewrite ?no_other_file;
    (destruct p as [p|]; cbn [events_file events_process open_files running made]; rewrite ?Ht;
     cbn [events_file events_process open_files running made]; rewrite ?Hps; destruct (popen _); unfold tidy; cbn; (split; [by auto|intros ?; done || by eexists])).
Qed.
Lemma cleanup_ends_events s : (forall p, terminate p = None) -> tidy s ->
  fst (cleanup_events s) = Ok tt /\ open_files (snd (cleanup_events s)) = [] /\ running (snd (cleanup_events s)) = [].
Proof.
  intros Ht [Hf Hp]. unfold cleanup_events, terminate_events, close_file, get, put, modify, raise, when. mred.
  destruct s as [f p fs ps n]. cbn [events_file events_process open_files running made] in *. subst fs.
  assert (Hps : match p with Some p => filter (fun q => q <> p) ps = [] | None => ps = [] end).
  { destruct p; [by apply no_other_process|]. destruct ps; [done|]. by inversion Hp. }
  destruct p as [p|]; rewrite ?Ht; cbn [events_file events_process open_files running made];
    (destruct f as [f|]; [rewrite bool_decide_eq_true_2 by done|rewrite bool_decide_eq_false_2 by (by intros [])]);
    cbn [events_file events_process open_files running made fst snd]; rewrite ?no_other_file, ?Hps; done.
Qed.
End events.
End Events.

(** ** Witnesses *)

Module Demo.

(** A server on which every command writes to both streams, and [false] fails. *)
#[local] Instance server : StreamServer := fun _ c =>
  ([(ToStdout, "one " ); (ToStderr, "two "); (ToStdout, "three ")], Ok (if decide (s_command c = "false") then 1%Z else 0%Z)).
Definition session0 : session := Session (Env [] ∅) (Logger.open_logstream Logger.initial) 3.

Lemma session0_ready : ready session0.
Proof. split; [apply Logger.open_logstream_logging|unfold Logger.logfile; cbn; lia]. Qed.

Lemma streams_do_not_change_run_witness :
  let '(r, s) := run_streams demo_host true false true false None None None ["true"] session0 in
  (r, se_env s) = run_with (H := answer_of) demo_host true false true false None ["true"] (Env [] ∅) /\ r = Ok (Some "one three").
Proof.
  pose proof (streams_do_not_change_run demo_host true false true false None None None ["true"] session0 session0_ready I) as Hw.
  assert (Hr : fst (run_streams demo_host true false true false None None None ["true"] session0) = Ok (Some "one three")) by (vm_compute; reflexivity).
  destruct (run_streams demo_host true false true false None None None ["true"] session0) as [r s]. split; [exact Hw|exact Hr].
Defined.

Lemma run_quiet_logs_failures_only_witness :
  let '(r, s) := run_quiet demo_host true true None ["false"] session0 in
  out_of Logger.logfile s = [h_name demo_host +:+ ": false"; newline; "one two three "] /\ is_ok r = false.
Proof.
  pose proof (run_quiet_logs_failures_only demo_host true true None ["false"] session0 Logger.logfile session0_ready (or_intror eq_refl)) as Hq.
  cbv zeta in Hq. rewrite run_with_answers in Hq.
  assert (Hf : is_ok (fst (run_quiet demo_host true true None ["false"] session0)) = false) by (vm_compute; reflexivity).
  destruct (run_quiet demo_host true true None ["false"] session0) as [r s]. destruct Hq as (_ & _ & Ho). cbn in Hf.
  split; [|exact Hf]. rewrite Ho, Hf. vm_compute. reflexivity.
Defined.

Lemma captures_hear_their_messages_witness :
  exists t, Captures.run [Captures.Arrive "a"; Captures.Turn; Captures.Add 5; Captures.Turn; Captures.Arrive "b"; Captures.Turn; Captures.Remove 5;
      Captures.Turn; Captures.Turn; Captures.Arrive "c"; Captures.Turn; Captures.Turn] (Captures.start_streams, (EmptyString, [])) = Ok (t, ("c", [])) /\
    Tee.output 5 t = ["b"] /\ Captures.read_stream t = "abc".
Proof.
  eexists. split; [vm_compute; reflexivity|].
  refine (let H := Captures.captures_hear_their_messages 5 [Captures.Arrive "a"; Captures.Turn] [Captures.Turn; Captures.Arrive "b"; Captures.Turn]
    [Captures.Turn; Captures.Turn; Captures.Arrive "c"; Captures.Turn; Captures.Turn] _ "c" _ _ _ _ in conj (proj1 H) (proj2 (proj2 H)));
    [vm_compute; reflexivity|vm_compute; reflexivity|unfold Captures.out_file; lia|vm_compute; reflexivity].
Defined.
End Demo.
