(* ===== verification/ClusterSetup.v ===== *)
(** * Creating the cluster of a test (src/python/drbdtest.py, [setup])

    The whole of [setup]: its command line, the checks, what is set up where the
    test runs, a [Host] for every argument, certificates, the versions, and the
    state of the hosts before the test begins.  A backing device that is not
    given is the empty text; [ssh_config] concerns the SSH library only. *)

From S2P Require Import Prelude PyStr Dict OrderedSet Json Host HostSetup VersionCheck Disktools World Config Collections Cluster.
From S2P Require Import ConfigFiles Lifecycle Setup Logging SetupArgs LocalSetup Tls HeapTypes.

(** ** The state *)

(** The objects; version, hash and [has_other_version] of every host; the files
    written; the hosts whose events are read; the waits; and what there is
    where the test runs *)
Record site := Site {
  st_world : world;
  st_drbd : list (option string * option string * bool);
  st_files : gmap string string;
  st_listening : list nat;
  st_waits : list request;
  st_local : local
}.

Section cluster_setup.
Context `{SshServer} `{EventScanner} `{Crypto} (helper : string -> string) (a : arguments) (job : string) (multi_paths : bool)
  (netns : option string) (now : Z).

Definition on_site {A} (m : M world A) : M site A :=
  zoom st_world (fun w s => Site w (st_drbd s) (st_files s) (st_listening s) (st_waits s) (st_local s)) m.
Definition on_local {A} (m : M local A) : M site A :=
  zoom st_local (fun l s => Site (st_world s) (st_drbd s) (st_files s) (st_listening s) (st_waits s) l) m.
Definition on_st_env {A} (m : M env A) : M site A := on_site (on_env m).

(** [Host(...)], and [cluster.hosts.append(host)] *)
Definition first_port : nat := Z.to_nat 7789.
Definition new_host (s : setup) : host := NewHost (s_info s) (s_backend s) (s_backing s) first_port 0 None.
Definition add_host (name : string) : M site unit := fun s =>
  let w := st_world s in
  let '(r, hs) := host_init job (a_storage_backend a) (default EmptyString (a_backing_device a)) multi_paths netns (new_setup (w_env w) name (a_volume_group a)) in
  match r with
  | Ok _ => (Ok tt, Site (World (s_env hs) (w_hosts w ++ [new_host hs]) (w_nodes w) (w_volumes w) (w_resources w))
                      (st_drbd s ++ [(s_version hs, s_git_hash hs, false)]) (st_files s) (st_listening s) (st_waits s) (st_local s))
  | Raise e => (Raise e, Site (put_env (s_env hs) w) (st_drbd s) (st_files s) (st_listening s) (st_waits s) (st_local s))
  end.

(** An operation on a host that is in the cluster *)
Definition on_member (h : nat) (m : M setup unit) : M site unit := fun s =>
  let w := st_world s in
  let x := host_at w h in
  let '(v, g, o) := default (None, None, false) (st_drbd s !! h) in
  let '(r, hs) := m (Setup (w_env w) (info x) (storage_backend x) (backing_device x) v g []) in
  (r, Site (World (s_env hs) (alter (fun x => NewHost (s_info hs) (storage_backend x) (backing_device x) (port x) (minors x) (storage_pool x)) h (w_hosts w))
             (w_nodes w) (w_volumes w) (w_resources w))
        (alter (fun '(_, _, o) => (s_version hs, s_git_hash hs, o)) h (st_drbd s)) (st_files s) (st_listening s) (st_waits s) (st_local s)).

(** A helper script of the directory [target] *)
Definition helper_script (x : host_info) (helper_name : string) (args : list string) : M env unit :=
  Host.run_helper x (helper helper_name) helper_name args.
Definition package_download_dir : string := "/opt/package-download".
(** [Host.install_drbd] *)
Definition install_drbd (h : nat) (version : string) : M site unit :=
  on_member h (let* x := gets s_info in when (negb (a_no_rmmod a) && negb (h_windows x)) linux_rmmod) ;;;
  on_member h (on_host (fun x => helper_script x "install-drbd" [package_download_dir; version])) ;;;
  on_member h read_drbd_version ;;;
  let* s := get in
  on_site (for_each (seq 0 (length (w_resources (st_world s)))) touch_config).
Definition set_other_version (h : nat) : M site unit :=
  modify (fun s => Site (st_world s) (alter (fun '(v, g, _) => (v, g, true)) h (st_drbd s)) (st_files s) (st_listening s) (st_waits s) (st_local s)).

Definition create_hosts : M site unit :=
  for_each (imap pair (a_host a)) (fun '(i, name) =>
    add_host name ;;;
    when (truthy (a_drbd_version_other a) && bool_decide (Z.of_nat i = a_drbd_other_node a))
      (install_drbd i (default EmptyString (a_drbd_version_other a)) ;;; set_other_version i)).

(** *** Once the hosts are there *)

Definition infos (s : site) : list host_info := map info (w_hosts (st_world s)).
Definition setup_tls : M site unit :=
  let* s := get in when (bool_decide (a_tls a = "yes")) (on_st_env (setup_kernel_tls_helper now (infos s))).

(** The hosts with what is known about DRBD on them; a hash that was not read
    is an attribute that is missing, which is noticed here at once. *)
Definition checked_hosts (s : site) : res (list checked_host) :=
  map_res (zip (infos s) (st_drbd s)) (fun '(x, (v, g, o)) =>
    let* v := res_of_option (AttributeError "'Host' object has no attribute 'drbd_version'") v in
    let* g := res_of_option (AttributeError "'Host' object has no attribute 'drbd_git_hash'") g in
    Ok (CheckedHost x v g o)).
Definition check_versions_step : M site unit :=
  let* s := get in
  let* hs := lift (checked_hosts s) in
  lift (validate_drbd_versions (a_drbd_version a) (a_drbd_version_other a) hs) ;;;
  let* t := on_st_env (write_drbd_versions_meta (helper "installed-drbd-package") hs) in
  modify (fun s => Site (st_world s) (st_drbd s) (<["drbd-versions.json" := t]> (st_files s)) (st_listening s) (st_waits s) (st_local s)).

(** [Cluster.listen_to_events]; that the pattern need not be a whole word is
    not part of a request. *)
Definition wait_for_exists (names : list string) : M site unit := fun s =>
  let log := sent_log (w_env (st_world s)) in
  let q := Request ["exists -"] (foldl (fun d n => d_set n [[]] d) [] names) [] [] None (length log) in
  (scan log (st_waits s) q, Site (st_world s) (st_drbd s) (st_files s) (st_listening s) (st_waits s ++ [q]) (st_local s)).
Definition listen_to_events : M site unit :=
  let* s := get in
  let names := map h_name (infos s) in
  modify (fun s => Site (st_world s) (st_drbd s) (st_files s) (seq 0 (length names)) (st_waits s) (st_local s)) ;;;
  wait_for_exists names.

Definition disable_faults (x : host_info) : M env unit := when (negb (h_windows x)) (helper_script x "disable-faults" []).
Definition check_selinux (x : host_info) : M env unit :=
  let* getenforce := run_with x true true true false None ["getenforce"] in
  when (bool_decide (strip (default EmptyString getenforce) ∈ ["Enforcing"; "Permissive"])) (helper_script x "check-selinux-policydb" []).
Definition prepare_hosts : M site unit :=
  let* s := get in
  on_st_env (for_each (infos s) disable_faults) ;;;
  on_st_env (for_each (infos s) check_selinux) ;;;
  when (a_selinux_debug a) (on_st_env (for_each (infos s) (fun x => Host.run x ["semodule"; "-DB"]))).

Definition setup_cluster : M site unit :=
  create_hosts ;;;
  setup_tls ;;;
  check_versions_step ;;;
  listen_to_events ;;;
  prepare_hosts.
End cluster_setup.

(** ** [setup] *)

Definition setup_globals (a : arguments) : globals :=
  Globals (a_proxy a) (a_lz4 a) (zstd_level (a_zstd a)) (match a_memlimit a with Some m => if decide (m = 0%Z) then None else Some m | None => None end).
(** The output of [--report-and-quit] *)
Definition report_limits (min_nodes : Z) (max_nodes : option Z) : M site unit :=
  on_local (on_logger (modify (fun l => Logger.set_out (Tee.write_one (report_and_quit min_nodes max_nodes) Logger.stdout) l))).
(** The name of the job, the global variables, and the name of the resource;
    [patience] bounds the waiting for screen. *)
Definition setup `{SshServer} `{EventScanner} `{Crypto} `{LocalCommands} (patience : nat) (helper : string -> string) (nodes max_nodes : option Z) (min_nodes : Z)
    (multi_paths : bool) (netns : option string) (argv0 : string) (argv : list string) (date time : string) (now : Z) :
    M site (string * globals * string) :=
  let* a := lift (parse_setup argv) in
  let '(min_nodes, max_nodes) := node_limits nodes max_nodes min_nodes in
  when (a_report_and_quit a) (report_limits min_nodes max_nodes ;;; raise (SystemExit 0)) ;;;
  lift (check_hosts min_nodes max_nodes (a_override_max a) (a_host a)) ;;;
  on_local (local_setup patience argv0 date time a) ;;;
  let job := job_of argv0 date time a in
  setup_cluster helper a job multi_paths netns now ;;;
  mret (job, setup_globals a, default job (a_resource a)).

(** The cluster is not part of the result, as it is the state. *)
Definition setup_resource `{SshServer} `{EventScanner} `{Crypto} `{LocalCommands} (patience : nat) (helper : string -> string) (nodes max_nodes : option Z)
    (min_nodes : Z) (multi_paths : bool) (netns : option string) (argv0 : string) (argv : list string) (date time : string) (now : Z) : M site nat :=
  let* r := setup patience helper nodes max_nodes min_nodes multi_paths netns argv0 argv date time now in
  let* a := lift (parse_setup argv) in
  on_site (create_resource (snd r) (a_transport a) (a_tls a)).

(** ** Lemmas: the name of a host stays *)

Definition same_name (s s' : HostSetup.setup) : Prop := h_name (s_info s') = h_name (s_info s).
#[export] Instance same_name_preorder : PreOrder same_name.
Proof. split; [by intros s|]. unfold same_name. intros a b c. congruence. Qed.

Section names.
Context `{SshServer}.
Lemma name_on_host {A} (m : host_info -> M env A) : keeps same_name (on_host m).
Proof. intros s. unfold on_host. by destruct (m _ _). Qed.
Lemma name_set_info f : (forall x, h_name (f x) = h_name x) -> keeps same_name (set_info f).
Proof. intros Hf s. apply Hf. Qed.

Ltac solve_name_by known :=
  repeat first
    [ known | apply keeps_bind; [exact _| |intros ?] | apply keeps_when; [exact _|]
    | apply keeps_for_each; [exact _|intros ? _]
    | apply keeps_called; [exact _| |intros ?] | apply keeps_try; [exact _| |intros ?]
    | apply keeps_ret; exact _ | apply keeps_raise; exact _ | apply keeps_gets; exact _ | apply keeps_get; exact _
    | apply keeps_lift; exact _ | apply name_on_host | apply name_set_info; done
    | (intros ?; reflexivity) | case_match ].
Ltac solve_name := solve_name_by fail.

Lemma name_read_version : keeps same_name read_drbd_version.
Proof.
  unfold read_drbd_version, windows_read_drbd_version, linux_read_drbd_version, windows_version_line, set_version, set_git_hash, do_run, do_run_out.
  solve_name.
Qed.
Lemma name_ensure_netdev n : keeps same_name (ensure_netdev n).
Proof. unfold ensure_netdev, do_run_init_net. solve_name. Qed.
Lemma name_init_host backend backing multi netns : keeps same_name (init_host backend backing multi netns).
Proof.
  unfold init_host, windows_init_host, linux_init_host, enter_netns, get_default_addr, add_address, set_backends, set_netdev, do_run, do_run_out.
  solve_name_by ltac:(apply name_ensure_netdev).
Qed.
Lemma name_host_init job backend backing multi netns : keeps same_name (host_init job backend backing multi netns).
Proof.
  unfold host_init, get_platform_helper, do_run, do_run_out.
  solve_name_by ltac:(first [apply name_read_version|apply name_init_host]).
Qed.
Lemma name_rmmod : keeps same_name linux_rmmod.
Proof. unfold linux_rmmod, do_run. solve_name. Qed.
End names.

(** ** Lemmas: what is there after each step *)

(** A host just as the constructor has left it, but for what is known of it *)
Definition new_member (x : host) : Prop := port x = first_port /\ minors x = 0 /\ storage_pool x = None.
(** The hosts with these names, and nothing else *)
Definition hosts_only (names : list string) (s : site) : Prop :=
  w_nodes (st_world s) = [] /\ w_volumes (st_world s) = [] /\ w_resources (st_world s) = [] /\
  map (fun x => h_name (info x)) (w_hosts (st_world s)) = names /\ Forall new_member (w_hosts (st_world s)).
Definition same_site (s s' : site) : Prop :=
  (exists e, st_world s' = put_env e (st_world s)) /\ st_drbd s' = st_drbd s.
#[export] Instance same_site_preorder : PreOrder same_site.
Proof.
  split; [intros s; split; [exists (w_env (st_world s)); by destruct s as [[] ? ? ? ? ?]|done]|].
  intros a b c [[e He] Hd] [[e' He'] Hd']. split; [exists e'; by rewrite He', He|congruence].
Qed.
Lemma same_site_hosts names s s' : same_site s s' -> hosts_only names s -> hosts_only names s'.
Proof. intros [[e He] _] (H1 & H2 & H3 & H4 & H5). unfold hosts_only. rewrite He. by split_and!. Qed.

Lemma map_snd_imap {A} (l : list A) : map snd (imap pair l) = l.
Proof. apply list_eq. intros j. rewrite list_lookup_fmap, list_lookup_imap. by destruct (l !! j). Qed.

Section steps.
Context `{SshServer} `{EventScanner} `{Crypto} (helper : string -> string) (a : arguments) (job : string) (multi_paths : bool)
  (netns : option string) (now : Z).

Lemma add_host_spec names name s : hosts_only names s ->
  wp (add_host a job multi_paths netns name) (fun _ => hosts_only (names ++ [name])) (fun _ => hosts_only names) s.
Proof.
  intros (Hn & Hv & Hr & Hm & Hf). unfold wp, add_host.
  pose proof (name_host_init job (a_storage_backend a) (default EmptyString (a_backing_device a)) multi_paths netns
    (new_setup (w_env (st_world s)) name (a_volume_group a))) as Hname.
  destruct (host_init _ _ _ _ _ _) as [[[]|e] hs]; unfold hosts_only; cbn [st_world w_nodes w_volumes w_resources w_hosts put_env]; split_and!; try done.
  - rewrite map_app. cbn [map]. rewrite Hm. f_equal. f_equal. exact Hname.
  - apply Forall_app. by repeat constructor.
Qed.
Lemma on_member_spec names h m s : keeps same_name m -> hosts_only names s -> hosts_only names (snd (on_member h m s)).
Proof.
  intros Hm (Hn & Hv & Hr & Hnames & Hf). unfold on_member. destruct (default _ (st_drbd s !! h)) as [[v g] o].
  set (s0 := Setup _ _ _ _ _ _ _). specialize (Hm s0). destruct (m s0) as [r hs]. unfold hosts_only. cbn in *. split_and!; try done.
  - rewrite <-Hnames. apply list_eq. intros i. rewrite !list_lookup_fmap. destruct (decide (i = h)) as [->|Hne]; [|by rewrite list_lookup_alter_ne].
    rewrite list_lookup_alter_eq. destruct (w_hosts (st_world s) !! h) as [x|] eqn:Hx; [|done]. cbn. rewrite Hm. unfold s0. cbn.
    unfold host_at. by rewrite Hx.
  - apply Forall_alter; [done|]. intros x _ Hp. exact Hp.
Qed.

Definition keeps_hosts (s s' : site) : Prop := forall names, hosts_only names s -> hosts_only names s'.
#[local] Instance keeps_hosts_preorder : PreOrder keeps_hosts.
Proof. split; [by intros s names|]. intros x y z Hxy Hyz names Hx. by apply Hyz, Hxy. Qed.
Lemma keeps_site {A} (m : M site A) : keeps same_site m -> keeps keeps_hosts m.
Proof. intros Hm s names. by apply same_site_hosts. Qed.

Lemma keeps_install h v : keeps keeps_hosts (install_drbd helper a h v).
Proof.
  unfold install_drbd.
  apply keeps_bind; [exact _| |intros _; apply keeps_bind; [exact _| |intros _; apply keeps_bind; [exact _| |intros _]]].
  - intros s names. apply on_member_spec. apply keeps_bind; [exact _|apply keeps_gets; exact _|intros x]. apply keeps_when; [exact _|apply name_rmmod].
  - intros s names. apply on_member_spec, name_on_host.
  - intros s names. apply on_member_spec, name_read_version.
  - intros s names Hs. rewrite (bind_ok get _ s s s eq_refl).
    pose proof Hs as (Hn & Hv & Hr & Hx). rewrite Hr. destruct s as [[] ? ? ? ? ?]. exact Hs.
Qed.
Lemma create_hosts_spec s : hosts_only [] s ->
  wp (create_hosts helper a job multi_paths netns) (fun _ => hosts_only (a_host a))
    (fun _ s' => exists k, hosts_only (take k (a_host a)) s') s.
Proof.
  intros Hs. unfold create_hosts.
  pose (I := fun (visited : list (nat * string)) s => hosts_only (map snd visited) s).
  eapply wp_mono; [apply (wp_for_each _ _ I (fun _ s' => exists k, hosts_only (take k (a_host a)) s'))| |done].
  - exact Hs.
  - intros visited [i name] todo s' Heq Hi. unfold I in *.
    assert (Hnames : a_host a = map snd visited ++ name :: map snd todo).
    { rewrite <-(map_snd_imap (a_host a)), Heq, map_app. done. }
    apply wp_bind. eapply wp_mono; [by apply add_host_spec| |].
    + intros [] s1 Hs1. unfold when. cbn beta. rewrite map_app. cbn [map snd]. case_match; [|by apply wp_ret].
      assert (Hk : keeps keeps_hosts (install_drbd helper a i (default EmptyString (a_drbd_version_other a)) ;;; set_other_version i)).
      { apply keeps_bind; [exact _|apply keeps_install|]. intros [] s2 names Hh. exact Hh. }
      apply (wp_keeps keeps_hosts); [done|intros [] s2 Hs2; by apply Hs2|]. intros e s2 Hs2. exists (S (length (map snd visited))).
      rewrite Hnames, take_app_ge by lia. rewrite Nat.sub_succ_l, Nat.sub_diag by lia. cbn [firstn]. by apply Hs2.
    + intros e s1 Hs1. exists (length (map snd visited)). rewrite Hnames, take_app_length. done.
  - intros [] s' Hf. unfold I in Hf. by rewrite map_snd_imap in Hf.
Qed.

Lemma keeps_st_env {A} (m : M env A) : keeps same_site (on_st_env m).
Proof. intros s. unfold on_st_env, on_site, on_env, zoom. destruct (m (w_env (st_world s))) as [r e]. split; [exists e; reflexivity|done]. Qed.
Lemma keeps_waits names : keeps same_site (wait_for_exists names).
Proof. intros s. split; [exists (w_env (st_world s)); by destruct s as [[] ? ? ? ? ?]|done]. Qed.
Lemma listening_st_env {A} (m : M env A) : keeps (fun s s' => st_listening s' = st_listening s) (on_st_env m).
Proof. intros s. unfold on_st_env, on_site, on_env, zoom. by destruct (m (w_env (st_world s))). Qed.
#[local] Instance listening_preorder : PreOrder (fun s s' => st_listening s' = st_listening s).
Proof. split; [by intros s|]. intros x y z. congruence. Qed.

Lemma same_site_checked s s' : same_site s s' -> checked_hosts s' = checked_hosts s.
Proof. intros [[e He] Hd]. unfold checked_hosts, infos. by rewrite He, Hd. Qed.

(** The versions of the hosts have passed the check. *)
Definition checked (s : site) : Prop :=
  exists hs, checked_hosts s = Ok hs /\ validate_drbd_versions (a_drbd_version a) (a_drbd_version_other a) hs = Ok tt.
Lemma same_site_passed s s' : same_site s s' -> checked s -> checked s'.
Proof. intros Hs (hs & Hc & Hv). exists hs. by rewrite (same_site_checked _ _ Hs). Qed.

Lemma setup_tls_spec : keeps same_site (setup_tls a now).
Proof. apply keeps_bind; [exact _|apply keeps_get; exact _|intros s]. apply keeps_when; [exact _|apply keeps_st_env]. Qed.
Lemma wp_lift {A} (r : res A) Q E (s : site) : (forall x, r = Ok x -> Q x s) -> (forall e, r = Raise e -> E e s) -> wp (lift r) Q E s.
Proof. unfold wp, lift. destruct r; auto. Qed.
Lemma wp_local {A} (m : M local A) (Q : A -> site -> Prop) (E : exn -> site -> Prop) (s : site) :
  (let '(r, l) := m (st_local s) in
   let s' := Site (st_world s) (st_drbd s) (st_files s) (st_listening s) (st_waits s) l in match r with Ok x => Q x s' | Raise e => E e s' end) ->
  wp (on_local m) Q E s.
Proof. unfold wp, on_local, zoom. destruct (m (st_local s)) as [[x|e] l]; auto. Qed.
Lemma wp_same {A} (m : M site A) s0 s (Q : A -> site -> Prop) :
  keeps same_site m -> same_site s0 s -> (forall a s', same_site s0 s' -> Q a s') -> wp m Q (fun _ s' => same_site s0 s') s.
Proof. intros Hm Hs HP. apply (wp_keeps same_site); [done|intros x s' Hs'; apply HP|intros _ s' Hs']; by transitivity s. Qed.

Lemma check_versions_ok s0 s : same_site s0 s ->
  wp (check_versions_step helper a) (fun _ s' => same_site s0 s' /\ checked s') (fun _ s' => same_site s0 s') s.
Proof.
  intros Hs. unfold check_versions_step. apply wp_bind, wp_get, wp_bind, wp_lift; [|done]. intros hs Hc.
  apply wp_bind, wp_lift; [|done]. intros [] Hv. apply wp_bind, wp_same; [apply keeps_st_env|done|].
  intros t s' Hs'. apply wp_modify. split; [exact Hs'|]. exists hs. split; [|done]. rewrite <-Hc.
  transitivity (checked_hosts s'); [done|]. by rewrite (same_site_checked _ _ Hs'), (same_site_checked _ _ Hs).
Qed.
Lemma listen_ok s0 s : same_site s0 s ->
  wp listen_to_events (fun _ s' => same_site s0 s' /\ st_listening s' = seq 0 (length (w_hosts (st_world s0)))) (fun _ s' => same_site s0 s') s.
Proof.
  intros Hs. unfold listen_to_events. apply wp_bind, wp_get, wp_bind, wp_modify.
  assert (Hlen : length (map h_name (infos s)) = length (w_hosts (st_world s0))).
  { destruct Hs as [[e He] _]. unfold infos. by rewrite !length_map, He. }
  match goal with |- wp _ _ _ ?s' => set (s1 := s') end.
  assert (Hs1 : same_site s0 s1) by exact Hs. unfold wp. pose proof (keeps_waits (map h_name (infos s)) s1) as Hk.
  assert (Hl : st_listening (snd (wait_for_exists (map h_name (infos s)) s1)) = st_listening s1) by done.
  destruct (wait_for_exists _ s1) as [[]  s2]; [split|]; cbn [snd] in *; [by transitivity s1|rewrite Hl; cbn; by rewrite Hlen|by transitivity s1].
Qed.
Lemma prepare_ok s0 s : same_site s0 s ->
  wp (prepare_hosts helper a) (fun _ s' => same_site s0 s' /\ st_listening s' = st_listening s) (fun _ s' => same_site s0 s') s.
Proof.
  intros Hs. pose (R := fun x y : site => same_site x y /\ st_listening y = st_listening x).
  assert (HR : PreOrder R).
  { split; [by intros x|]. intros x y z [Hx Hx'] [Hy Hy']. split; [by transitivity y|congruence]. }
  assert (Hk : forall A (m : M env A), keeps R (on_st_env m)) by (intros A m x; split; [apply keeps_st_env|apply listening_st_env]).
  apply (wp_keeps R); [|intros _ s' [Hs' Hl]; split; [by transitivity s|done]|intros _ s' [Hs' _]; by transitivity s].
  unfold prepare_hosts. repeat (first [apply keeps_bind; [exact _| |intros ?]|apply keeps_get; exact _|apply keeps_when; [exact _|]|apply Hk]).
Qed.

(** The steps after the hosts have been created *)
Lemma rest_ok names s : hosts_only names s ->
  wp (setup_tls a now ;;; check_versions_step helper a ;;; listen_to_events ;;; prepare_hosts helper a)
    (fun _ s' => hosts_only names s' /\ checked s' /\ st_listening s' = seq 0 (length names)) (fun _ s' => hosts_only names s') s.
Proof.
  intros Hs. assert (Hlen : length (w_hosts (st_world s)) = length names).
  { destruct Hs as (_ & _ & _ & <- & _). by rewrite length_map. }
  pose (Q := fun (_ : unit) s' => same_site s s' /\ checked s' /\ st_listening s' = seq 0 (length names)).
  apply (wp_mono _ Q _ (fun _ s' => same_site s s')); [|intros _ s' [Hs' Hr]; split; [by eapply same_site_hosts|done]|intros _ s' Hs'; by eapply same_site_hosts].
  apply wp_bind, wp_same; [apply setup_tls_spec|done|]. intros _ s1 Hs1.
  apply wp_bind. eapply wp_mono; [by apply (check_versions_ok s s1)| |done]. intros [] s2 [Hs2 Hc].
  apply wp_bind. eapply wp_mono; [by apply (listen_ok s s2)| |done]. intros [] s3 [Hs3 Hl].
  eapply wp_mono; [by apply (prepare_ok s s3)| |done]. intros [] s4 [Hs4 Hl']. split; [done|]. split; [|congruence].
  apply (same_site_passed s2); [|done]. destruct Hs2 as [[e2 He2] Hd2], Hs4 as [[e4 He4] Hd4].
  split; [exists e4; by rewrite He4, He2|congruence].
Qed.
(** Nothing changes where the test runs. *)
Definition same_local (s s' : site) : Prop := st_local s' = st_local s.
#[local] Instance same_local_preorder : PreOrder same_local.
Proof. split; [by intros s|]. unfold same_local. intros x y z. congruence. Qed.
Lemma local_on_site {A} (m : M world A) : keeps same_local (on_site m).
Proof. intros s. unfold on_site, zoom. by destruct (m (st_world s)). Qed.
Lemma local_on_member h m : keeps same_local (on_member h m).
Proof. intros s. unfold on_member. destruct (default _ _) as [[v g] o]. by destruct (m _). Qed.
Lemma local_modify f : (forall s, st_local (f s) = st_local s) -> keeps same_local (modify f).
Proof. intros Hf s. apply Hf. Qed.
Lemma local_setup_cluster : keeps same_local (setup_cluster helper a job multi_paths netns now).
Proof.
  unfold setup_cluster, create_hosts, setup_tls, check_versions_step, listen_to_events, prepare_hosts, install_drbd, on_st_env, set_other_version.
  assert (Hadd : forall name, keeps same_local (add_host a job multi_paths netns name)).
  { intros name s. unfold add_host. by destruct (host_init _ _ _ _ _ _) as [[] ?]. }
  repeat first
    [ apply keeps_bind; [exact _| |intros ?] | apply keeps_when; [exact _|] | apply keeps_for_each; [exact _|intros [? ?] _]
    | apply keeps_get; exact _ | apply keeps_lift; exact _ | apply Hadd | apply local_on_member | apply local_on_site
    | apply local_modify; done | (intros ?; reflexivity) ].
Qed.
Lemma wp_and_keeps {A} (R : site -> site -> Prop) (m : M site A) (Q Q' : A -> site -> Prop) (E : exn -> site -> Prop) s :
  keeps R m -> wp m Q E s -> (forall x s', R s s' -> Q x s' -> Q' x s') -> wp m Q' E s.
Proof. intros Hk Hw HQ. unfold wp in *. specialize (Hk s). destruct (m s) as [[x|e] s']; auto. Qed.
Lemma setup_cluster_ok s : hosts_only [] s ->
  wp (setup_cluster helper a job multi_paths netns now)
    (fun _ s' => hosts_only (a_host a) s' /\ checked s' /\ st_listening s' = seq 0 (length (a_host a)) /\ st_local s' = st_local s)
    (fun _ s' => exists k, hosts_only (take k (a_host a)) s') s.
Proof.
  intros Hs. pose (Q := fun (_ : unit) s' => hosts_only (a_host a) s' /\ checked s' /\ st_listening s' = seq 0 (length (a_host a))).
  apply (wp_and_keeps same_local _ Q); [apply local_setup_cluster| |intros ? s' Hl (? & ? & ?); by split_and!].
  unfold setup_cluster. apply wp_bind. eapply wp_mono; [by apply create_hosts_spec| |done]. intros [] s' Hs'.
  eapply wp_mono; [by apply (rest_ok (a_host a))|done|]. intros e s2 Hs2. exists (length (a_host a)). by rewrite firstn_all.
Qed.
End steps.

(** ** Properties *)

Section properties.
Context `{SshServer} `{EventScanner} `{Crypto} `{LocalCommands} (patience : nat) (helper : string -> string) (nodes max_nodes : option Z) (min_nodes : Z)
  (multi_paths : bool) (netns : option string) (argv0 : string) (argv : list string) (date time : string) (now : Z) (a : arguments)
  (Hargs : parse_setup argv = Ok a).

(** How many hosts there may be *)
Definition enough_hosts : Prop :=
  let n := Z.of_nat (length (a_host a)) in
  let '(least, most) := node_limits nodes max_nodes min_nodes in
  (least <= n)%Z /\ (forall m, most = Some m -> (n <= m)%Z \/ a_override_max a = true /\ least <> m).
Lemma check_hosts_enough :
  (let '(least, most) := node_limits nodes max_nodes min_nodes in check_hosts least most (a_override_max a) (a_host a)) = Ok tt ->
  enough_hosts.
Proof.
  unfold enough_hosts. destruct (node_limits nodes max_nodes min_nodes) as [least most]. rewrite check_hosts_spec.
  destruct (_ && _) eqn:Hc; [|done]. intros _. apply andb_true_iff in Hc as [Hl Hm]. split; [lia|]. intros m ->.
  destruct (a_override_max a); [|left; lia]. destruct (Z.eqb_spec least m); [left; lia|]. right. done.
Qed.

(** C14: when [setup] ends, what [local_setup] promises is done, and the cluster has exactly the hosts of the command
    line, in their order and as many as the test allows, with all their ports,
    minors and pools still to be given; no node, volume or resource; DRBD
    versions that pass the check; and the events of every host are read.  When
    [setup] raises an exception, what is registered in the cluster is the hosts
    of the first so many names, even where commands have been run on another
    host, too. *)
Theorem setup_gives_a_fresh_cluster s : hosts_only [] s ->
  wp (setup patience helper nodes max_nodes min_nodes multi_paths netns argv0 argv date time now)
    (fun r s' => hosts_only (a_host a) s' /\ enough_hosts /\ checked a s' /\ st_listening s' = seq 0 (length (a_host a)) /\
       snd r = default (default (default_job argv0 date time) (a_job a)) (a_resource a) /\
       local_setup patience argv0 date time a (st_local s) = (Ok tt, st_local s'))
    (fun _ s' => exists k, hosts_only (take k (a_host a)) s') s.
Proof.
  intros Hs. unfold setup. apply wp_bind, wp_lift; [|rewrite Hargs; done]. rewrite Hargs. intros b [= <-].
  pose proof check_hosts_enough as He. destruct (node_limits nodes max_nodes min_nodes) as [least most].
  assert (H0k : exists k, hosts_only (take k (a_host a)) s) by by exists 0.
  apply wp_bind. unfold when at 1. destruct (a_report_and_quit a); [exact H0k|]. apply wp_ret, wp_bind, wp_lift; [|done].
  intros [] Hc. apply wp_bind, wp_local. destruct (local_setup patience argv0 date time a (st_local s)) as [[[]|e] l]; [|exact H0k].
  apply wp_bind. eapply wp_mono; [apply setup_cluster_ok; exact Hs| |done]. intros [] s' (Hh & Hv & Hl & Hst).
  apply wp_ret. split_and!; [done|by apply He|done..|]. by rewrite Hst.
Qed.

Lemma setup_ends_with_hosts s : hosts_only [] s ->
  wp (setup patience helper nodes max_nodes min_nodes multi_paths netns argv0 argv date time now)
    (fun _ s' => hosts_only (a_host a) s') (fun _ _ => True) s.
Proof.
  intros Hs. unfold setup. apply wp_bind, wp_lift; [|done]. rewrite Hargs. intros b [= <-]. destruct (node_limits nodes max_nodes min_nodes) as [least most].
  apply wp_bind. unfold when at 1. destruct (a_report_and_quit a); [done|]. apply wp_ret, wp_bind, wp_lift; [|done].
  intros [] _. apply wp_bind, wp_local. destruct (local_setup patience argv0 date time a (st_local s)) as [[[]|e] l]; [|done].
  apply wp_bind. eapply wp_mono; [apply setup_cluster_ok; exact Hs| |done]. intros [] s' (Hh & _). by apply wp_ret.
Qed.

(** With [--report-and-quit], the limits are printed and nothing else is done:
    no host is asked, and no log is opened. *)
Lemma setup_only_reports s : a_report_and_quit a = true ->
  setup patience helper nodes max_nodes min_nodes multi_paths netns argv0 argv date time now s =
    (Raise (SystemExit 0), snd (report_limits (fst (node_limits nodes max_nodes min_nodes)) (snd (node_limits nodes max_nodes min_nodes)) s)).
Proof. intros Hq. unfold setup. mred. unfold lift. rewrite Hargs. destruct (node_limits nodes max_nodes min_nodes) as [least most]. by rewrite Hq. Qed.

(** C7: [setup_resource] ends with one resource, the first, and in it one node
    for each host of the command line, numbered as they are: node [i] is on
    host [i], has the id [i] and the port 7789, no disks, a configuration that
    is still to be written, and one connection to each other node. *)
Theorem setup_resource_meshes_the_hosts s r s' : hosts_only [] s ->
  setup_resource patience helper nodes max_nodes min_nodes multi_paths netns argv0 argv date time now s = (Ok r, s') ->
  let w := st_world s' in let n := length (a_host a) in
  r = 0 /\ map (fun x => h_name (info x)) (w_hosts w) = a_host a /\ length (w_resources w) = 1 /\ length (w_nodes w) = n /\
  elems (r_nodes (resource_at w 0)) = seq 0 n /\
  forall i, i < n -> let x := node_at w i in
    n_host x = i /\ n_id x = i /\ n_resource x = 0 /\ n_port x = Z.to_nat 7789 /\ n_disks x = [] /\ config_changed x = true /\
    NoDup (elems (n_connections x)) /\ forall p, p ∈ elems (n_connections x) <-> exists j, j < n /\ p = (i, j) /\ i <> j.
Proof.
  intros Hs Hrun w n. pose proof (setup_ends_with_hosts s Hs) as Hset. revert Hset Hrun. unfold setup_resource, wp. mred.
  destruct (setup _ _ _ _ _ _ _ _ _ _ _ _ s) as [[[y name]|e] s1]; [|done]. unfold lift. rewrite Hargs. intros (Hn & Hv & Hr & Hnames & Hnew). unfold on_site, zoom. cbn [snd].
  pose proof (create_resource_objects (st_world s1) name (a_transport a) (a_tls a)) as Hc. unfold ok_or, wp in Hc.
  destruct (create_resource name (a_transport a) (a_tls a) (st_world s1)) as [[r1|e] w1]; [|done]. intros [= <- <-]. destruct Hc as [-> Hm].
  assert (Hlen : length (w_hosts (st_world s1)) = n) by (unfold n; by rewrite <-Hnames, length_map).
  pose proof Hm as (Hh & _ & (o & Ho & _ & He) & _). destruct (meshed_length _ _ _ _ _ _ Hm) as [Hln Hlh].
  rewrite Hr in Ho. rewrite Hn in He, Hln. subst w. cbn [st_world] in *. split_and!.
  - by rewrite Hr.
  - rewrite <-Hnames, Hh. apply list_eq. intros i. unfold ports_taken. rewrite !list_lookup_fmap, list_lookup_imap.
    destruct (w_hosts (st_world s1) !! i); [|done]. cbn. by case_decide.
  - by rewrite Ho.
  - by rewrite Hln, Hlen.
  - unfold resource_at. by rewrite Ho, <-Hlen.
  - intros i Hi. destruct (meshed_node _ _ _ _ _ _ i Hm ltac:(by rewrite Hlen)) as (c & Hx & Hnd & Hp).
    rewrite Hn in Hx, Hp. cbn in Hx. rewrite Hx. cbn. rewrite Hr, Hlen in *. split_and!; try done.
    rewrite Forall_forall in Hnew. apply Hnew. unfold host_at.
    destruct (lookup_lt_is_Some_2 (w_hosts (st_world s1)) i) as [h Hh']; [by rewrite Hlen|]. rewrite Hh'. by eapply list_elem_of_lookup_2.
Qed.
End properties.

(** ** Witnesses *)

#[local] Instance linux_server : SshServer := fun log c =>
  if bool_decide (s_command c = "uname") then Ok (0%Z, "Linux" +:+ newline)
  else if bool_decide (s_command c = "getenforce") then Ok (0%Z, "Permissive" +:+ newline) else HostSetup.demo_server log c.
#[local] Existing Instance Tls.demo_crypto.
#[local] Instance demo_scanner : EventScanner := fun _ _ _ => Ok tt.
#[local] Instance demo_commands : LocalCommands := fun _ _ => Ok 0%Z.
Definition demo_argv : list string := ["--selinux-debug"; "--tls=yes"; "--drbd-version"; "9.2.*"; "a"; "b"; "c"].
Definition demo_arguments : arguments :=
  Arguments ["a"; "b"; "c"] None None None "success" "scratch" false false None None "yes" false false false false false None None "lvm" None
    (Some "9.2.*") None 0 None true.
Example demo_line : parse_setup demo_argv = Ok demo_arguments.
Proof. vm_compute. reflexivity. Qed.
Definition demo_site : site := Site (World (Env [] ∅) [] [] [] []) [] ∅ [] [] (Local ∅ Logger.initial ∅ [] [] None).
Local Abbreviation demo_run :=
  (setup_resource 0 (fun s => s) None None 2 false None "tests/connect.py" demo_argv "20240229" "120000" demo_now demo_site) (only parsing).
Example demo_run_value : fst demo_run = Ok 0.
Proof. vm_compute. reflexivity. Qed.
Lemma demo_run_ends : demo_run = (Ok 0, snd demo_run).
Proof. rewrite <-demo_run_value. apply surjective_pairing. Qed.
Local Abbreviation demo_setup :=
  (setup 0 (fun s => s) None None 2 false None "tests/connect.py" demo_argv "20240229" "120000" demo_now) (only parsing).
Example demo_setup_ends : is_ok (fst (demo_setup demo_site)) = true.
Proof. vm_compute. reflexivity. Qed.
Example demo_report : Logger.output Logger.stdout (l_logger (st_local (snd (setup 0 (fun s => s) None (Some 3%Z) 2 false None "tests/connect.py"
  ["--report-and-quit"] "20240229" "120000" demo_now demo_site)))) = [print_lines ["min_nodes=2"; "max_nodes=3"]].
Proof. vm_compute. reflexivity. Qed.
Lemma wp_ends {S A} (m : M S A) Q E s : wp m Q E s -> is_ok (fst (m s)) = true -> exists r, Q r (snd (m s)).
Proof. unfold wp. destruct (m s) as [[r|x] s']; [|done]. intros Hq _. by exists r. Qed.
Lemma demo_site_hosts : hosts_only [] demo_site.
Proof. by split_and!. Qed.

Lemma setup_gives_a_fresh_cluster_witness :
  hosts_only (a_host demo_arguments) (snd (demo_setup demo_site)) /\ checked demo_arguments (snd (demo_setup demo_site)).
Proof.
  destruct (wp_ends _ _ _ _ (setup_gives_a_fresh_cluster 0 (fun s => s) None None 2 false None "tests/connect.py" demo_argv "20240229" "120000" demo_now
    demo_arguments demo_line demo_site demo_site_hosts) demo_setup_ends) as (r & Hh & _ & Hc & _).
  exact (conj Hh Hc).
Defined.

Lemma setup_resource_meshes_the_hosts_witness :
  n_port (node_at (st_world (snd demo_run)) 2) = Z.to_nat 7789 /\ (2, 0) ∈ elems (n_connections (node_at (st_world (snd demo_run)) 2)).
Proof.
  destruct (setup_resource_meshes_the_hosts 0 (fun s => s) None None 2 false None "tests/connect.py" demo_argv "20240229" "120000" demo_now
    demo_arguments demo_line demo_site 0 (snd demo_run) demo_site_hosts demo_run_ends) as (_ & _ & _ & _ & _ & Hall).
  destruct (Hall 2 ltac:(apply (bool_decide_unpack _); vm_compute; exact I)) as (_ & _ & _ & Hp & _ & _ & _ & Hc). split; [exact Hp|].
  apply Hc. exists 0. apply (bool_decide_unpack _). vm_compute. exact I.
Defined.
