(* ===== verification/Runner.v ===== *)
(** * The local test runner (src/run.py)

    Running the test sets, recovering a node that does not go down, and the
    statistics over earlier runs.  What the virtual machines and the tests do
    is an argument: the result of the [i]-th test run, of the [i]-th
    preparation, and so on.  Times and rates are rationals. *)

From S2P Require Import Prelude PyStr Dict Setup.
From Stdlib Require Import QArith Lqa.
#[local] Open Scope nat_scope.

(** ** Running tests *)

(** The dictionary [run_with_progress] returns *)
Record outcome := Outcome { o_exit_code : Z; o_run_time : Q; o_timeout : bool }.
Record result := Result { r_outcome : outcome; r_nodes : nat }.

Definition final : Type := Z * dict string result * nat * nat.

Section run_tests.
Context (run_with_progress : nat -> string -> list string -> outcome).
Context (cleanup_and_prepare_vms cleanup : nat -> res unit).
Context (exclude_tests : list string) (keep_going : bool) (num_skip : nat).

Record run_state := RunState {
  results : dict string result;
  global_exit_code : Z;
  num_successful : nat;
  num_total : nat;
  num_skipped : nat
}.

Definition run_start : run_state := RunState [] 0 0 0 0.

(** What follows a failed or timed out test *)
Definition after_failure (exit_code : Z) (st : run_state) : res (run_state + final) :=
  let* _ := cleanup (num_total st) in
  if keep_going then
    Ok (inl (RunState (results st) 1 (num_successful st) (num_total st) (num_skipped st)))
  else Ok (inr (exit_code, results st, num_successful st, num_total st)).

(** The body of the inner loop: [inl] goes on, [inr] is a [return]. *)
Definition run_one (vm_names : list string) (test : string) (st : run_state) :
    res (run_state + final) :=
  if decide (test ∈ exclude_tests) then Ok (inl st)
  else if decide (num_total st + num_skipped st < num_skip) then
    Ok (inl (RunState (results st) (global_exit_code st) (num_successful st) (num_total st)
                      (S (num_skipped st))))
  else
    let* _ := cleanup_and_prepare_vms (num_total st) in
    let o := run_with_progress (num_total st) test vm_names in
    let st' := RunState (d_set test (Result o (length vm_names)) (results st))
                 (global_exit_code st) (num_successful st) (S (num_total st)) (num_skipped st) in
    if o_timeout o then after_failure (o_exit_code o) st'
    else if (o_exit_code o =? 0)%Z then
      Ok (inl (RunState (results st') (global_exit_code st') (S (num_successful st'))
                        (num_total st') (num_skipped st')))
    else after_failure (o_exit_code o) st'.

Fixpoint run_list (l : list (string * list string)) (st : run_state) : res (run_state + final) :=
  match l with
  | [] => Ok (inl st)
  | (test, vm_names) :: l =>
      let* r := run_one vm_names test st in
      match r with inl st' => run_list l st' | inr f => Ok (inr f) end
  end.

(** The two nested loops visit these tests in this order. *)
Definition scheduled (all_vm_names : list string) (test_sets : list (nat * list string)) :
    list (string * list string) :=
  concat (map (fun '(vms, tests) =>
    if decide (length all_vm_names < vms) then []
    else map (fun t => (t, take vms all_vm_names)) tests) test_sets).

Definition run_tests (all_vm_names : list string) (test_sets : list (nat * list string)) :
    res final :=
  let* r := run_list (scheduled all_vm_names test_sets) run_start in
  match r with
  | inl st => Ok (global_exit_code st, results st, num_successful st, num_total st)
  | inr f => Ok f
  end.

(** The specification: the tests to run, those actually run, their results. *)
Definition eligible (all_vm_names : list string) (test_sets : list (nat * list string)) :
    list (string * list string) :=
  drop num_skip (filter (fun p => fst p ∉ exclude_tests) (scheduled all_vm_names test_sets)).
Definition passed (o : outcome) : bool := negb (o_timeout o) && (o_exit_code o =? 0)%Z.
Fixpoint executed (i : nat) (l : list (string * list string)) :
    list (string * (nat * outcome)) :=
  match l with
  | [] => []
  | (t, vms) :: l =>
      let o := run_with_progress i t vms in
      (t, (length vms, o)) :: (if keep_going || passed o then executed (S i) l else [])
  end.
Definition run_passed (r : string * (nat * outcome)) : bool := passed (snd (snd r)).
Definition record_runs (ex : list (string * (nat * outcome))) (d : dict string result) :
    dict string result :=
  foldl (fun d '(t, (n, o)) => d_set t (Result o n) d) d ex.
Definition expected_exit (ex : list (string * (nat * outcome))) : Z :=
  if keep_going then (if forallb run_passed ex then 0 else 1)%Z
  else match last ex with
       | Some (_, (_, o)) => if passed o then 0%Z else o_exit_code o
       | None => 0%Z
       end.
End run_tests.

(** ** The iterations of [main] *)

Definition iterations_step (r : final) (acc : nat * nat * list (dict string result)) :
    nat * nat * list (dict string result) :=
  let '(total_successful, total_ran, result_db) := acc in
  let '(_, results, num_successful, num_total) := r in
  (total_successful + num_successful, total_ran + num_total, result_db ++ [results]).
Definition main_iterations (runs : list final) (result_db : list (dict string result)) :
    nat * nat * list (dict string result) :=
  foldl (fun acc r => iterations_step r acc) (0, 0, result_db) runs.

(** ** Recovering from a failed [drbdsetup down] *)

(** All the ways to cut [s] around an occurrence of [pat], from the left *)
Fixpoint cuts (pat s : string) : list (string * string) :=
  (if strip_prefix pat s is Some rest then [(EmptyString, rest)] else []) ++
  match s with
  | EmptyString => []
  | String c s => map (fun '(pre, post) => (String c pre, post)) (cuts pat s)
  end.

(** The longest prefix of digits *)
Fixpoint span_digits (s : string) : string * string :=
  match s with
  | String c s' => if is_digit c then let '(d, r) := span_digits s' in (String c d, r)
                   else (EmptyString, s)
  | EmptyString => (EmptyString, EmptyString)
  end.

(** The search for a device, [ opened by ], a process name, its pid between
    parentheses and [ at ], on a string without newlines; the groups for the
    device and for the name are greedy. *)
Definition match_holder (s : string) : option (string * string * string) :=
  head (omap (fun '(dev, rest) =>
    head (omap (fun '(procname, rest2) =>
      let '(pid, rest3) := span_digits rest2 in
      if startswith ") at " rest3 then Some (dev, procname, pid) else None)
      (reverse (cuts " (pid " rest))))
    (reverse (cuts " opened by " s))).

(** [str(b)] of a byte string *)
Definition bytes_repr_char (q c : ascii) : string :=
  let n := code c in
  if (127 <? n)%N then
    String backslash (String "x"%char (String (hex_low (n / 16)) (String (hex_low (n mod 16)) EmptyString)))
  else repr_char q c.
Fixpoint bytes_repr_chars (q : ascii) (s : string) : string :=
  match s with
  | EmptyString => EmptyString
  | String c s => bytes_repr_char q c +:+ bytes_repr_chars q s
  end.
Definition bytes_str (s : string) : string :=
  let q := if scontains quote1 s && negb (scontains quote2 s) then quote2 else quote1 in
  String "b"%char (String q (bytes_repr_chars q s +:+ String q EmptyString)).

Inductive recovery :=
| UnmountDev (dev : string)
| KillProcess (procname pid : string).

(** [handle_down_error], up to the recovery action; [stderr] is what the
    process wrote. *)
Definition handle_down_error (returncode : Z) (stderr : string) : res recovery :=
  if (returncode =? 11)%Z then
    match match_holder (bytes_str stderr) with
    | None => Raise (AttributeError "'NoneType' object has no attribute 'group'")
    | Some (dev, procname, pid) =>
        if decide (procname = "mount") then Ok (UnmountDev dev) else Ok (KillProcess procname pid)
    end
  else Raise (PlainException "Unknown drbdsetup down exception").

(** ** Test sets *)

(** The digits (at least one) after the first occurrence of [key] that has some *)
Fixpoint find_digits (key s : string) : option string :=
  match strip_prefix key s with
  | Some rest =>
      match span_digits rest with
      | (EmptyString, _) => match s with EmptyString => None | String _ s => find_digits key s end
      | (d, _) => Some d
      end
  | None => match s with EmptyString => None | String _ s => find_digits key s end
  end.

(** [min_nodes] and [max_nodes] from the output of [--report-and-quit] *)
Definition parse_report (stdout : string) : res (Z * Z) :=
  match splitlines stdout with
  | [min_nodes_str; max_nodes_str] =>
      let* min_digits := res_of_option IndexError (find_digits "min_nodes=" min_nodes_str) in
      let* min_nodes := py_int min_digits in
      let* max_digits := res_of_option IndexError (find_digits "max_nodes=" max_nodes_str) in
      let* max_nodes := py_int max_digits in
      Ok (min_nodes, max_nodes)
  | _ => Raise (ValueError "not enough values to unpack")
  end.

Section generate.
(** The output of [tests/<test> --report-and-quit] *)
Context (report : string -> res string) (n_vms : Z).

Definition place_test (test : string) (test_sets : dict Z (list string)) :
    res (dict Z (list string)) :=
  let* out := report test in
  let* r := parse_report out in
  let '(min_nodes, max_nodes) := r in
  if (min_nodes <=? n_vms)%Z then
    let use_vms := Z.min n_vms max_nodes in
    match d_get use_vms test_sets with
    | Some tests => Ok (d_set use_vms (tests ++ [test]) test_sets)
    | None => Ok (d_set use_vms [test] test_sets)
    end
  else Ok test_sets.

Fixpoint place_tests (tests : list string) (test_sets : dict Z (list string)) :
    res (dict Z (list string)) :=
  match tests with
  | [] => Ok test_sets
  | t :: tests => let* d := place_test t test_sets in place_tests tests d
  end.

(** The generated sets, as [(vms, tests)] *)
Definition generate_test_set (tests : list string) : res (list (Z * list string)) :=
  place_tests tests [].
End generate.

(** ** Statistics over earlier runs *)

Record params := Params { p_exit_code : option Z; p_run_time : Q }.
Record stat := Stat {
  average_runtime : option Q;
  success_rate : option Q;
  st_count : option nat
}.
Definition no_stat : stat := Stat None None None.

(** [total_successes] and [total_times] *)
Record totals := Totals {
  total_successes : dict string (nat * nat);   (* successes, count *)
  total_times : dict string (Q * nat)          (* time, count *)
}.

Definition p_success (p : params) : bool := bool_decide (p_exit_code p = Some 0%Z).

(** The body of the loop over one result *)
Definition count_result (name : string) (p : params) (t : totals) : totals :=
  let '(succ, cnt) := default (0, 0) (d_get name (total_successes t)) in
  let ts := d_set name ((if p_success p then S succ else succ), S cnt) (total_successes t) in
  if p_success p then
    let '(time, n) := default (0%Q, 0) (d_get name (total_times t)) in
    Totals ts (d_set name ((time + p_run_time p)%Q, S n) (total_times t))
  else Totals ts (total_times t).

Definition count_results (entries : list (string * params)) (t : totals) : totals :=
  foldl (fun t '(name, p) => count_result name p t) t entries.

Definition nat_div (q : Q) (n : nat) : Q := (q / inject_Z (Z.of_nat n))%Q.
Definition nat_rate (a b : nat) : Q := nat_div (inject_Z (Z.of_nat a)) b.

Definition set_average (name : string) (v : Q * nat) (d : dict string stat) : dict string stat :=
  let s := default no_stat (d_get name d) in
  d_set name (Stat (Some (nat_div (fst v) (snd v))) (success_rate s) (st_count s)) d.
Definition set_rate (name : string) (v : nat * nat) (d : dict string stat) : dict string stat :=
  let s := default no_stat (d_get name d) in
  d_set name (Stat (average_runtime s) (Some (nat_rate (fst v) (snd v))) (Some (snd v))) d.

(** [find_statistics]; [result_db] is the list of the ['results'] dictionaries. *)
Definition find_statistics (result_db : list (dict string params)) (statistics : dict string stat) :
    dict string stat :=
  let t := count_results (concat result_db) (Totals [] []) in
  let d1 := foldl (fun d '(name, v) => set_average name v d) statistics (total_times t) in
  foldl (fun d '(name, v) => set_rate name v d) d1 (total_successes t).

(** *** [analyze]: the sort *)

(** [a < b] on the key [(success_rate, average_runtime)] *)
Definition key_lt (a b : stat) : res bool :=
  match success_rate a, success_rate b with
  | Some ra, Some rb =>
      if Qeq_bool ra rb then
        match average_runtime a, average_runtime b with
        | Some ta, Some tb => Ok (negb (Qle_bool tb ta))
        | None, None => Ok false
        | _, _ => Raise (TypeError "'<' not supported between instances of 'NoneType' and 'float'")
        end
      else Ok (negb (Qle_bool rb ra))
  | _, _ => Raise KeyError
  end.

(** [sorted(items, key=..., reverse=True)], which is stable *)
Fixpoint insert_desc (x : string * stat) (l : list (string * stat)) :
    res (list (string * stat)) :=
  match l with
  | [] => Ok [x]
  | y :: l' =>
      let* lt := key_lt (snd y) (snd x) in
      if (lt : bool) then Ok (x :: l)
      else let* r := insert_desc x l' in Ok (y :: r)
  end.
Fixpoint sort_desc (todo acc : list (string * stat)) : res (list (string * stat)) :=
  match todo with
  | [] => Ok acc
  | x :: todo => let* acc' := insert_desc x acc in sort_desc todo acc'
  end.
Definition analyze (result_db : list (dict string params)) : res (list (string * stat)) :=
  sort_desc (find_statistics result_db []) [].

(** ** Lemmas: running *)

Section run_theory.
Context (run_with_progress : nat -> string -> list string -> outcome).
Context (prepare cleanup : nat -> res unit).
Context (exclude_tests : list string) (keep_going : bool) (num_skip : nat).
Context (prepare_ok : forall i, prepare i = Ok tt) (cleanup_ok : forall i, cleanup i = Ok tt).

Local Abbreviation run_list := (run_list run_with_progress prepare cleanup exclude_tests keep_going num_skip).
Local Abbreviation executed := (executed run_with_progress keep_going).
Local Abbreviation not_excluded := (filter (fun p : string * list string => fst p ∉ exclude_tests)).

Definition count_passed (ex : list (string * (nat * outcome))) : nat :=
  length (filter (fun r => run_passed r = true) ex).

Lemma run_list_not_excluded l st : run_list l st = run_list (not_excluded l) st.
Proof.
  revert st. induction l as [|[t vms] l IH]; intros st; [done|].
  destruct (decide (t ∈ exclude_tests)) as [He|He].
  - rewrite filter_cons_False by (simpl; tauto). cbn [Runner.run_list]. unfold run_one.
    rewrite decide_True by done. mred. apply IH.
  - rewrite filter_cons_True by done. cbn [Runner.run_list].
    destruct (run_one _ _ _ _ _ _ vms t st) as [[st'|f]|e]; mred; [apply IH|done..].
Qed.

Lemma run_list_skip l d g n k : Forall (fun p => fst p ∉ exclude_tests) l -> k <= num_skip ->
  run_list l (RunState d g n 0 k) =
  run_list (drop (num_skip - k) l) (RunState d g n 0 (Nat.min num_skip (k + length l))).
Proof.
  intros Hl. revert k. induction Hl as [|[t vms] l Ht Hl IH]; intros k Hk.
  - rewrite drop_nil. simpl. by rewrite Nat.add_0_r, Nat.min_r by lia.
  - destruct (decide (k = num_skip)) as [->|Hne].
    + by rewrite Nat.sub_diag, drop_0, Nat.min_l by lia.
    + cbn [Runner.run_list]. unfold run_one. rewrite decide_False by done.
      cbn [num_total num_skipped results global_exit_code num_successful].
      rewrite decide_True by lia. mred. rewrite IH by lia.
      replace (num_skip - k) with (S (num_skip - S k)) by lia. cbn [drop length].
      by rewrite <-Nat.add_succ_comm.
Qed.

Definition run_result (l : list (string * list string)) (st : run_state) : run_state + final :=
  let ex := executed (num_total st) l in
  let d := record_runs ex (results st) in
  let n := num_successful st + count_passed ex in
  let k := num_total st + length ex in
  if forallb run_passed ex then inl (RunState d (global_exit_code st) n k (num_skipped st))
  else if keep_going then inl (RunState d 1 n k (num_skipped st))
  else inr (expected_exit keep_going ex, d, n, k).

Lemma run_one_runs vms t st : t ∉ exclude_tests -> num_skip <= num_total st + num_skipped st ->
  let o := run_with_progress (num_total st) t vms in
  let d := d_set t (Result o (length vms)) (results st) in
  run_one run_with_progress prepare cleanup exclude_tests keep_going num_skip vms t st =
  Ok (if passed o then
        inl (RunState d (global_exit_code st) (S (num_successful st)) (S (num_total st)) (num_skipped st))
      else if keep_going then
        inl (RunState d 1 (num_successful st) (S (num_total st)) (num_skipped st))
      else inr (o_exit_code o, d, num_successful st, S (num_total st))).
Proof.
  intros Ht Hs o d. unfold run_one. rewrite decide_False, decide_False by (done || lia).
  rewrite prepare_ok. mred. fold o. unfold after_failure, passed. cbn [num_total]. rewrite cleanup_ok.
  destruct (o_timeout o), (o_exit_code o =? 0)%Z; simpl; by destruct keep_going.
Qed.

Lemma run_list_run l st : Forall (fun p => fst p ∉ exclude_tests) l ->
  num_skip <= num_total st + num_skipped st -> run_list l st = Ok (run_result l st).
Proof.
  intros Hl. revert st. induction Hl as [|[t vms] l Ht Hl IH]; intros st Hs.
  { unfold run_result. destruct st. simpl. by rewrite !Nat.add_0_r. }
  cbn [Runner.run_list]. rewrite run_one_runs by done. mred.
  unfold run_result at 1, count_passed. cbn [Runner.executed].
  set (o := run_with_progress (num_total st) t vms).
  destruct (passed o) eqn:Hp; [|destruct keep_going eqn:Hk].
  - rewrite IH by (simpl; lia). unfold run_result, count_passed. rewrite orb_true_r.
    cbn [results global_exit_code num_successful num_total num_skipped].
    set (ex := executed (S (num_total st)) l). cbn [record_runs foldl forallb length].
    rewrite filter_cons_True by exact Hp. change (run_passed (t, (length vms, o))) with (passed o).
    cbn [length]. rewrite Hp, !Nat.add_succ_r. cbn [andb Nat.add].
    destruct (forallb run_passed ex) eqn:Hall; [done|].
    destruct keep_going; [done|]. destruct ex; done.
  - rewrite IH by (simpl; lia). unfold run_result, count_passed. rewrite Hk. cbn [orb].
    cbn [results global_exit_code num_successful num_total num_skipped].
    set (ex := Runner.executed run_with_progress true (S (num_total st)) l).
    cbn [record_runs foldl forallb length].
    change (run_passed (t, (length vms, o))) with (passed o). rewrite Hp. cbn [andb].
    rewrite filter_cons_False by (change (passed o <> true); by rewrite Hp).
    fold ex. rewrite Nat.add_succ_r. by destruct (forallb run_passed ex).
  - cbn [orb forallb]. change (run_passed (t, (length vms, o))) with (passed o). rewrite Hp. cbn [andb].
    unfold expected_exit. rewrite filter_cons_False by (change (passed o <> true); by rewrite Hp).
    simpl. fold o. by rewrite Hp, Nat.add_0_r, Nat.add_1_r.
Qed.
End run_theory.

(** ** Lemmas: statistics *)

Definition runs_of (name : string) (entries : list (string * params)) : list params :=
  map snd (filter (fun e => fst e = name) entries).
Definition successes (ps : list params) : list params := filter (fun p => p_success p = true) ps.
Definition total_time (ps : list params) : Q := foldl (fun t p => (t + p_run_time p)%Q) 0%Q ps.

(** What the statistics say of a test with the runs [ps] *)
Definition stat_of (ps : list params) : stat :=
  let ok := successes ps in
  Stat (match ok with [] => None | _ => Some (nat_div (total_time ok) (length ok)) end)
       (Some (nat_rate (length ok) (length ps))) (Some (length ps)).

Lemma runs_of_snoc name es n p :
  runs_of name (es ++ [(n, p)]) = runs_of name es ++ (if decide (n = name) then [p] else []).
Proof.
  unfold runs_of. rewrite filter_app, map_app. f_equal. cbn [filter list_filter fst].
  by case_decide.
Qed.

Lemma count_results_snoc es n p t :
  count_results (es ++ [(n, p)]) t = count_result n p (count_results es t).
Proof. unfold count_results. by rewrite foldl_snoc. Qed.

Definition if_nil {A B} (l : list A) (b : B) (f : list A -> B) : B :=
  match l with [] => b | _ => f l end.
Lemma if_nil_snoc {A B} (l : list A) x (b : B) f : if_nil (l ++ [x]) b f = f (l ++ [x]).
Proof. by destruct l. Qed.

(** The totals of one test *)
Definition counted (name : string) (es : list (string * params)) (t : totals) : Prop :=
  let ps := runs_of name es in
  d_get name (total_successes t) =
    if_nil ps None (fun ps => Some (length (successes ps), length ps)) /\
  d_get name (total_times t) =
    if_nil (successes ps) None (fun ok => Some (total_time ok, length ok)).

Lemma successes_snoc ps p :
  successes (ps ++ [p]) = successes ps ++ (if p_success p then [p] else []).
Proof.
  unfold successes. rewrite filter_app. f_equal. cbn [filter list_filter].
  by destruct (p_success p).
Qed.

Lemma count_results_counted name es : counted name es (count_results es (Totals [] [])).
Proof.
  induction es as [|[n p] es IH] using rev_ind; [done|].
  rewrite count_results_snoc. destruct IH as [IHs IHt]. unfold counted. rewrite runs_of_snoc.
  unfold count_result. destruct (decide (n = name)) as [->|Hne].
  - rewrite IHs, IHt, if_nil_snoc, successes_snoc. set (ps := runs_of name es) in *.
    assert (Hd : (default (0, 0) (if_nil ps None (fun ps => Some (length (successes ps), length ps))))
      = (length (successes ps), length ps)) by by destruct ps.
    rewrite Hd. destruct (p_success p).
    + assert (Hd' : default (0%Q, 0) (if_nil (successes ps) None
        (fun ok => Some (total_time ok, length ok))) = (total_time (successes ps), length (successes ps)))
        by by destruct (successes ps).
      rewrite Hd', if_nil_snoc. cbn [total_successes total_times]. rewrite !d_get_set, !decide_True by done.
      unfold total_time. rewrite foldl_snoc, !length_app. cbn [length]. by rewrite !Nat.add_1_r.
    + rewrite app_nil_r, length_app. cbn [total_successes total_times].
      rewrite d_get_set, decide_True, Nat.add_1_r by done. done.
  - rewrite app_nil_r. destruct (default _ _) as [a b]. destruct (p_success p); [destruct (default _ _) as [c e]|];
      cbn [total_successes total_times]; rewrite ?d_get_set, ?decide_False by congruence; done.
Qed.

Lemma count_results_NoDup es :
  NoDup (d_keys (total_successes (count_results es (Totals [] [])))) /\
  NoDup (d_keys (total_times (count_results es (Totals [] [])))).
Proof.
  induction es as [|[n p] es IH] using rev_ind; [split; constructor|].
  rewrite count_results_snoc. destruct IH. unfold count_result.
  destruct (default _ _) as [a b]. destruct (p_success p); [destruct (default _ _) as [c e]|];
    split; cbn [total_successes total_times]; auto using d_set_NoDup.
Qed.

Lemma find_statistics_get db name :
  d_get name (find_statistics db []) =
  match runs_of name (concat db) with [] => None | ps => Some (stat_of ps) end.
Proof.
  unfold find_statistics. set (es := concat db).
  destruct (count_results_counted name es) as [Hs Ht]. destruct (count_results_NoDup es) as [Ns Nt].
  set (t := count_results es (Totals [] [])) in *.
  etrans; [exact (d_get_update_all (fun (v : nat * nat) (o : option stat) =>
    Stat (average_runtime (default no_stat o)) (Some (nat_rate (fst v) (snd v))) (Some (snd v)))
    _ _ _ Ns)|].
  assert (Ha : d_get name (foldl (fun d '(name, v) => set_average name v d) [] (total_times t)) =
    if_nil (successes (runs_of name es)) None
      (fun ok => Some (Stat (Some (nat_div (total_time ok) (length ok))) None None))).
  { etrans; [exact (d_get_update_all (fun (v : Q * nat) (o : option stat) =>
      Stat (Some (nat_div (fst v) (snd v))) (success_rate (default no_stat o)) (st_count (default no_stat o)))
      _ _ _ Nt)|]. rewrite Ht. by destruct (successes _). }
  rewrite Hs, Ha. unfold stat_of. destruct (runs_of name es) as [|p ps]; [done|].
  cbn [if_nil]. destruct (successes (p :: ps)); reflexivity.
Qed.

(** *** The order of [analyze] *)

(** [a] may stand before [b] in the descending order: [a < b] is false. *)
Definition not_before (a b : string * stat) : Prop := key_lt (snd a) (snd b) = Ok false.
(** The statistics of a test that was run *)
Definition of_runs (x : string * stat) : Prop := exists ps, ps <> [] /\ snd x = stat_of ps.

Lemma nat_div_pos n : (nat_rate 0 n == 0)%Q.
Proof. unfold nat_rate, nat_div, Qdiv. change (inject_Z (Z.of_nat 0)) with 0%Q. apply Qmult_0_l. Qed.
Lemma nat_rate_pos a b : a <> 0 -> b <> 0 -> (0 < nat_rate a b)%Q.
Proof.
  intros Ha Hb. unfold nat_rate, nat_div. apply Qlt_shift_div_l; [unfold Qlt; simpl; lia|].
  rewrite Qmult_0_l. unfold Qlt; simpl; lia.
Qed.
Lemma nat_rate_le_1 a b : a <= b -> b <> 0 -> (nat_rate a b <= 1)%Q.
Proof.
  intros Ha Hb. unfold nat_rate, nat_div. apply Qle_shift_div_r; [unfold Qlt; simpl; lia|].
  rewrite Qmult_1_l. unfold Qle; simpl; lia.
Qed.

Lemma length_successes ps : length (successes ps) <= length ps.
Proof. apply length_filter. Qed.

(** On such statistics the key comparison never fails: it is the
    lexicographic order. *)
Lemma key_lt_of_runs a b : of_runs a -> of_runs b ->
  exists ra rb, success_rate (snd a) = Some ra /\ success_rate (snd b) = Some rb /\
    (0 <= ra <= 1)%Q /\
    (((ra < rb)%Q /\ key_lt (snd a) (snd b) = Ok true) \/
     ((rb < ra)%Q /\ key_lt (snd a) (snd b) = Ok false) \/
     ((ra == rb)%Q /\ average_runtime (snd a) = None /\ average_runtime (snd b) = None /\
      key_lt (snd a) (snd b) = Ok false) \/
     (exists ta tb, (ra == rb)%Q /\ average_runtime (snd a) = Some ta /\ average_runtime (snd b) = Some tb /\
      key_lt (snd a) (snd b) = Ok (negb (Qle_bool tb ta)))).
Proof.
  intros (pa & Ha & Ea) (pb & Hb & Eb). rewrite Ea, Eb.
  set (na := length (successes pa)). set (nb := length (successes pb)).
  exists (nat_rate na (length pa)), (nat_rate nb (length pb)).
  assert (La : length pa <> 0) by by destruct pa. assert (Lb : length pb <> 0) by by destruct pb.
  do 2 (split; [done|]). split.
  { split; [|apply nat_rate_le_1; [apply length_successes|done]]. destruct (decide (na = 0)) as [->|].
    - rewrite nat_div_pos. apply Qle_refl.
    - by apply Qlt_le_weak, nat_rate_pos. }
  unfold key_lt. cbn [success_rate stat_of]. fold na nb.
  destruct (Qeq_bool _ _) eqn:Hq.
  - apply Qeq_bool_eq in Hq. right; right. cbn [average_runtime stat_of].
    assert (Hz : na = 0 <-> nb = 0).
    { split; intros H0; rewrite H0, nat_div_pos in Hq;
        destruct (decide (na = 0)), (decide (nb = 0)); try done; exfalso.
      - by apply (Qlt_not_eq 0 (nat_rate nb (length pb))); [apply nat_rate_pos|].
      - apply (Qlt_not_eq 0 (nat_rate na (length pa))); [by apply nat_rate_pos|by symmetry]. }
    unfold na, nb in *. destruct (successes pa), (successes pb); simpl in Hz; try lia.
    + left. done.
    + right. eauto 10.
  - assert (Hne : (~ nat_rate na (length pa) == nat_rate nb (length pb))%Q).
    { intros Heq%Qeq_eq_bool. congruence. }
    destruct (Qlt_le_dec (nat_rate na (length pa)) (nat_rate nb (length pb))) as [Hlt|Hle].
    + left. split; [done|]. f_equal. apply negb_true_iff, not_true_iff_false.
      intros Hle%Qle_bool_iff. by apply (Qlt_not_le _ _ Hlt).
    + right; left. split.
      { pose proof Hle as Hle'. apply Qle_lteq in Hle' as [Hlt|Heq]; [done|]. by symmetry in Heq. }
      f_equal. apply negb_false_iff, Qle_bool_iff, Hle.
Qed.

Lemma not_before_trans a b c : of_runs a -> of_runs b -> of_runs c ->
  not_before a b -> not_before b c -> not_before a c.
Proof.
  intros Ha Hb Hc. unfold not_before.
  destruct (key_lt_of_runs a b Ha Hb) as (ra & rb & Ea & Eb & _ & Hab).
  destruct (key_lt_of_runs b c Hb Hc) as (rb' & rc & Eb' & Ec & _ & Hbc).
  destruct (key_lt_of_runs a c Ha Hc) as (ra' & rc' & Ea' & Ec' & _ & Hac).
  simplify_eq. intros H1 H2.
  destruct Hab as [[]|[[? _]|[(? & A1 & B1 & _)|(ta & tb & ? & A1 & B1 & K1)]]]; [congruence|..];
  destruct Hbc as [[]|[[? _]|[(? & A2 & B2 & _)|(tb' & tc & ? & A2 & B2 & K2)]]]; try congruence;
  destruct Hac as [[? K3]|[[? K3]|[(? & A3 & B3 & K3)|(ta' & tc' & ? & A3 & B3 & K3)]]];
    try done; try congruence; try (exfalso; lra); simplify_eq.
  rewrite K1 in H1. rewrite K2 in H2. rewrite K3. f_equal. simplify_eq.
  rewrite !negb_false_iff, !Qle_bool_iff in *. lra.
Qed.

Lemma insert_desc_spec x l : of_runs x -> Forall of_runs l ->
  StronglySorted not_before l ->
  exists l', insert_desc x l = Ok l' /\ Permutation l' (x :: l) /\ StronglySorted not_before l'.
Proof.
  intros Hx Hl Hs. induction Hs as [|y l Hs IH Hy]; [by exists [x]; repeat constructor|].
  apply Forall_cons in Hl as [Hoy Hl].
  assert (Hmid : forall u v w, of_runs u -> of_runs v -> Forall of_runs w ->
    Forall (not_before v) w -> not_before u v -> Forall (not_before u) w).
  { intros u v w Hu Hv Hw Hvw Huv. rewrite Forall_forall in *. intros z Hz.
    apply (not_before_trans u v z); auto. }
  cbn [insert_desc]. destruct (key_lt (snd y) (snd x)) as [[]|e] eqn:Hk; mred.
  - exists (x :: y :: l). split_and!; [done|done|]. constructor; [by constructor|].
    assert (Hxy : not_before x y).
    { unfold not_before. destruct (key_lt_of_runs y x Hoy Hx) as (ry & rx & Ey & Ex & _ & Hyx).
      destruct (key_lt_of_runs x y Hx Hoy) as (rx' & ry' & Ex' & Ey' & _ & Hxy). simplify_eq.
      destruct Hyx as [[? _]|[[_ ?]|[(_ & _ & _ & ?)|(ty & tx & Hr & A1 & B1 & K1)]]];
      try congruence;
      destruct Hxy as [[? K3]|[[? K3]|[(? & A3 & B3 & K3)|(tx' & ty' & ? & A3 & B3 & K3)]]];
        try done; try congruence; try (exfalso; lra); simplify_eq.
      rewrite K3. f_equal. rewrite K1 in Hk. simplify_eq.
      apply negb_false_iff, Qle_bool_iff. destruct (Qle_bool tx ty) eqn:Hq; [done|].
      apply Qlt_le_weak, Qnot_le_lt. intros Hle%Qle_bool_iff. congruence. }
    constructor; [done|]. by eapply Hmid.
  - destruct (IH Hl) as (l' & -> & Hp & Hs'). mred. exists (y :: l'). split_and!; [done| |].
    + rewrite Hp. apply perm_swap.
    + constructor; [done|]. rewrite Hp. constructor; [done|done].
  - destruct (key_lt_of_runs y x Hoy Hx) as (? & ? & _ & _ & _ & H). destruct H as [[_ H]|[[_ H]|[(_ & _ & _ & H)|(? & ? & _ & _ & _ & H)]]]; congruence.
Qed.

Lemma sort_desc_spec todo acc : Forall of_runs todo -> Forall of_runs acc ->
  StronglySorted not_before acc ->
  exists l, sort_desc todo acc = Ok l /\ Permutation l (todo ++ acc) /\ StronglySorted not_before l.
Proof.
  intros Ht. revert acc. induction Ht as [|x todo Hx Ht IH]; intros acc Ha Hs; [by exists acc|].
  cbn [sort_desc]. destruct (insert_desc_spec x acc Hx Ha Hs) as (acc' & -> & Hp & Hs'). mred.
  destruct (IH acc') as (l & -> & Hl & Hsl); [by rewrite Hp; constructor|done|].
  exists l. split_and!; [done| |done]. rewrite Hl, Hp. symmetry. apply Permutation_middle.
Qed.

Lemma find_statistics_NoDup db : NoDup (d_keys (find_statistics db [])).
Proof.
  unfold find_statistics. apply (d_NoDup_update_all (fun (v : nat * nat) (o : option stat) =>
    Stat (average_runtime (default no_stat o)) (Some (nat_rate (fst v) (snd v))) (Some (snd v)))).
  apply (d_NoDup_update_all (fun (v : Q * nat) (o : option stat) =>
    Stat (Some (nat_div (fst v) (snd v))) (success_rate (default no_stat o)) (st_count (default no_stat o)))).
  constructor.
Qed.

Lemma find_statistics_of_runs db : Forall of_runs (find_statistics db []).
Proof.
  apply Forall_forall. intros [name s] Hin. apply d_elem_get in Hin; [|apply find_statistics_NoDup].
  rewrite find_statistics_get in Hin. unfold of_runs. cbn [snd].
  destruct (runs_of name (concat db)) as [|p ps] eqn:Hr; [done|]. exists (p :: ps). by simplify_eq.
Qed.

(** ** Lemmas: recovery and test sets *)

Lemma cuts_spec pat s pre post : (pre, post) ∈ cuts pat s -> s = pre +:+ pat +:+ post.
Proof.
  revert pre. induction s as [|c s IH]; intros pre; cbn [cuts]; rewrite elem_of_app; intros [Hin|Hin].
  - destruct (strip_prefix pat EmptyString) eqn:E; [|by apply elem_of_nil in Hin].
    apply list_elem_of_singleton in Hin. simplify_eq. rewrite sapp_nil. by apply strip_prefix_Some.
  - by apply elem_of_nil in Hin.
  - destruct (strip_prefix pat (String c s)) eqn:E; [|by apply elem_of_nil in Hin].
    apply list_elem_of_singleton in Hin. simplify_eq. rewrite sapp_nil. by apply strip_prefix_Some.
  - apply list_elem_of_fmap in Hin as ([pre' post'] & [= -> ->] & Hin). rewrite sapp_cons. f_equal. by apply IH.
Qed.

Lemma span_digits_all s : sall is_digit s = true -> span_digits s = (s, EmptyString).
Proof.
  induction s as [|c s IH]; [done|]. cbn [sall span_digits]. rewrite andb_true_iff. intros [-> Hs].
  by rewrite IH.
Qed.

Lemma find_digits_here key d : key <> EmptyString -> d <> EmptyString -> sall is_digit d = true ->
  find_digits key (key +:+ d) = Some d.
Proof.
  intros Hk Hd Hs. destruct key as [|c key]; [done|]. rewrite sapp_cons. cbn [find_digits].
  rewrite <-sapp_cons, strip_prefix_app, span_digits_all by done. by destruct d.
Qed.

Lemma str_int_nonneg z : (0 <= z)%Z -> str_int z = pretty (Z.to_N z).
Proof. intros Hz. unfold str_int. by destruct z as [|p|p]; [..|lia]. Qed.

Lemma find_report_field key z : key <> EmptyString -> (0 <= z)%Z ->
  res_of_option IndexError (find_digits key (key +:+ str_int z)) ≫= py_int = Ok z.
Proof.
  intros Hk Hz. rewrite str_int_nonneg by done.
  rewrite find_digits_here by (done || apply pretty_N_nonempty || apply pretty_N_digits).
  simpl. rewrite py_int_pretty, Z2N.id by done. done.
Qed.

Lemma field_no_newline key z : scontains "010"%char key = false -> (0 <= z)%Z ->
  scontains "010"%char (key +:+ str_int z) = false.
Proof.
  intros Hk Hz. rewrite scontains_app, Hk, str_int_nonneg by done.
  apply digits_no_newline, pretty_N_digits.
Qed.

(** The runner reads what [setup] reports. *)
Lemma parse_report_setup min_nodes max_nodes : (0 <= min_nodes)%Z -> (0 < max_nodes)%Z ->
  parse_report (report_and_quit min_nodes (Some max_nodes)) = Ok (min_nodes, max_nodes).
Proof.
  intros H0 H1. unfold parse_report, report_and_quit. rewrite (proj2 (Z.eqb_neq max_nodes 0)) by lia.
  rewrite splitlines_print by (repeat constructor; apply field_no_newline; (done || lia)).
  pose proof (find_report_field "min_nodes=" min_nodes ltac:(done) H0) as Hmin.
  pose proof (find_report_field "max_nodes=" max_nodes ltac:(done) ltac:(lia)) as Hmax.
  destruct (find_digits "min_nodes=" _) as [a|]; [|done]. cbn in Hmin. cbn [res_of_option]. mred.
  rewrite Hmin. destruct (find_digits "max_nodes=" _) as [b|]; [|done]. cbn in Hmax. cbn [res_of_option]. by rewrite Hmax.
Qed.

Lemma parse_report_no_max min_nodes : (0 <= min_nodes)%Z ->
  parse_report (report_and_quit min_nodes None) = Raise (ValueError "not enough values to unpack").
Proof.
  intros H0. unfold parse_report, report_and_quit.
  by rewrite splitlines_print by (repeat constructor; apply field_no_newline; (done || lia)).
Qed.

Section generate_theory.
Context (report : string -> res string) (n_vms : Z) (limits : string -> Z * Z).
Context (reported : forall t, report t = Ok (report_and_quit (fst (limits t)) (Some (snd (limits t))))).
Context (limits_ok : forall t, (0 <= fst (limits t) <= snd (limits t) /\ 0 < snd (limits t))%Z).

(** The tests to run on [vms] machines *)
Definition suits (vms : Z) (t : string) : Prop :=
  (fst (limits t) <= n_vms /\ Z.min n_vms (snd (limits t)) = vms)%Z.
#[local] Instance suits_dec vms t : Decision (suits vms t).
Proof. unfold suits. apply _. Defined.

Lemma place_test_reported t d : place_test report n_vms t d =
  Ok (if decide (suits (Z.min n_vms (snd (limits t))) t) then
        d_set (Z.min n_vms (snd (limits t)))
          (default [] (d_get (Z.min n_vms (snd (limits t))) d) ++ [t]) d
      else d).
Proof.
  destruct (limits_ok t). unfold place_test. rewrite reported. mred.
  rewrite parse_report_setup by lia. destruct (Z.leb_spec (fst (limits t)) n_vms).
  - rewrite decide_True by done. by destruct (d_get _ d).
  - rewrite decide_False; [done|]. unfold suits. lia.
Qed.

Lemma place_tests_reported tests d : NoDup (d_keys d) -> Forall (fun p => snd p <> []) d ->
  exists d', place_tests report n_vms tests d = Ok d' /\ NoDup (d_keys d') /\
    Forall (fun p => snd p <> []) d' /\
    forall vms, default [] (d_get vms d') = default [] (d_get vms d) ++ filter (suits vms) tests.
Proof.
  revert d. induction tests as [|t tests IH]; intros d Hnd Hne.
  - exists d. split_and!; [done..|]. intros vms. by rewrite app_nil_r.
  - cbn [place_tests]. rewrite place_test_reported. mred. case_decide as Hs.
    + set (u := Z.min n_vms (snd (limits t))) in *. set (ts := default [] (d_get u d) ++ [t]).
      destruct (IH (d_set u ts d)) as (d' & -> & Hnd' & Hne' & Hget); [by apply d_set_NoDup| |].
      { apply d_set_Forall; [done|]. intros ? _. unfold ts. by destruct (default [] _). }
      exists d'. split_and!; [done..|]. intros vms. rewrite Hget, d_get_set.
      destruct (decide (vms = u)) as [->|Hv].
      * rewrite filter_cons_True by done. simpl. unfold ts. by rewrite <-app_assoc.
      * rewrite filter_cons_False; [done|]. unfold suits. naive_solver.
    + destruct (IH d Hnd Hne) as (d' & -> & Hnd' & Hne' & Hget). exists d'. split_and!; [done..|].
      intros vms. rewrite Hget, filter_cons_False; [done|]. unfold suits in *. lia.
Qed.
End generate_theory.

(** ** Properties *)

(** C30: when the machines can be prepared and cleaned up, the nested loops run
    exactly the eligible tests - those not excluded and not among the first
    [num_skip], each on its machines - in order, up to the first failure
    unless told to keep going; the number of tests run and passed, the last
    result of each test and the exit code are those of the tests run. *)
Theorem run_tests_runs_the_eligible_tests rwp prepare cleanup exclude_tests keep_going num_skip
    all_vm_names test_sets :
  (forall i, prepare i = Ok tt) -> (forall i, cleanup i = Ok tt) ->
  let ex := executed rwp keep_going 0 (eligible exclude_tests num_skip all_vm_names test_sets) in
  run_tests rwp prepare cleanup exclude_tests keep_going num_skip all_vm_names test_sets =
  Ok (expected_exit keep_going ex, record_runs ex [], count_passed ex, length ex).
Proof.
  intros Hp Hc ex. unfold run_tests, ex, eligible. rewrite run_list_not_excluded.
  set (l := filter _ (scheduled all_vm_names test_sets)).
  assert (Hl : Forall (fun p => fst p ∉ exclude_tests) l).
  { apply Forall_forall. intros p [Hx _]%list_elem_of_filter. done. }
  unfold run_start. rewrite run_list_skip by (done || lia). rewrite Nat.sub_0_r.
  destruct (decide (num_skip <= length l)).
  - rewrite Nat.min_l by lia. rewrite run_list_run by (apply Hp || apply Hc || by apply Forall_drop
      || (simpl; lia)). mred. unfold run_result. cbn [num_total results num_successful].
    set (e := executed _ _ _ _). simpl. unfold expected_exit.
    destruct (forallb run_passed e) eqn:Ha; [|by destruct keep_going].
    destruct keep_going; [done|]. destruct (last e) as [[t [k o]]|] eqn:Hlast; [|done].
    rewrite forallb_forall in Ha. specialize (Ha (t, (k, o))). unfold run_passed in Ha. simpl in Ha.
    rewrite Ha; [done|]. apply list_elem_of_In, last_Some_elem_of. done.
  - rewrite drop_ge by lia. simpl. unfold expected_exit. by destruct keep_going.
Qed.

(** the statistics have an entry exactly for the tests that were run: its
    count is the number of runs, its success rate the number of runs with exit
    code 0 over that number, and its average run time that of those runs
    alone, or absent when none succeeded. *)
Theorem find_statistics_of_every_test result_db name :
  d_get name (find_statistics result_db []) =
  match runs_of name (concat result_db) with [] => None | ps => Some (stat_of ps) end.
Proof. apply find_statistics_get. Qed.

(** [analyze] never fails to compare two entries, although a test that never
    succeeded has no average: it lists every entry of the statistics once,
    best success rate first and, among equal rates, slowest first, and every
    rate is between 0 and 1. *)
Theorem analyze_sorts_the_statistics result_db :
  exists l, analyze result_db = Ok l /\
    Permutation l (find_statistics result_db []) /\ StronglySorted not_before l /\
    forall name s r, (name, s) ∈ l -> success_rate s = Some r -> (0 <= r <= 1)%Q.
Proof.
  pose proof (find_statistics_of_runs result_db) as Hw.
  destruct (sort_desc_spec _ [] Hw) as (l & Hl & Hp & Hs); [constructor..|].
  rewrite app_nil_r in Hp. exists l. split_and!; [done..|]. intros name s r Hin Hr.
  rewrite <-Hp in Hw. rewrite Forall_forall in Hw. specialize (Hw _ Hin).
  destruct (key_lt_of_runs _ _ Hw Hw) as (ra & _ & Hra & _ & Hb & _). simpl in Hra. by simplify_eq.
Qed.

(** from the reports [setup] prints for tests with both limits, the runner
    puts every test it can run in exactly one set, in the order given, and no
    empty set: the tests of a set are those whose limits select its number of
    machines, and [setup] accepts that number of hosts for each of them. *)
Theorem generated_sets_suit_setup report n_vms limits tests :
  (forall t, report t = Ok (report_and_quit (fst (limits t)) (Some (snd (limits t))))) ->
  (forall t, 0 <= fst (limits t) <= snd (limits t) /\ 0 < snd (limits t))%Z ->
  exists sets, generate_test_set report n_vms tests = Ok sets /\ NoDup (map fst sets) /\
    (forall vms ts, (vms, ts) ∈ sets ->
      ts <> [] /\ ts = filter (suits n_vms limits vms) tests /\
      forall t hosts, t ∈ ts -> Z.of_nat (length hosts) = vms ->
        check_hosts (fst (limits t)) (Some (snd (limits t))) false hosts = Ok tt) /\
    (forall t, t ∈ tests -> (fst (limits t) <= n_vms)%Z -> exists vms ts, (vms, ts) ∈ sets /\ t ∈ ts).
Proof.
  intros Hr Hl.
  destruct (place_tests_reported report n_vms limits Hr Hl tests []) as (d & Hd & Hnd & Hne & Hget);
    [constructor..|]. exists d. split_and!; [done..| |].
  - intros vms ts Hin. rewrite Forall_forall in Hne. specialize (Hne _ Hin). simpl in Hne.
    specialize (Hget vms). rewrite (d_elem_get _ _ _ Hnd Hin) in Hget. simpl in Hget.
    split_and!; [done|done|]. intros t hosts Ht Hh. rewrite Hget in Ht.
    apply list_elem_of_filter in Ht as [[H1 H2] _]. rewrite check_hosts_spec, Hh. specialize (Hl t).
    rewrite (proj2 (Z.leb_le _ vms)), (proj2 (Z.leb_le vms _)) by lia. done.
  - intros t Ht Hn. set (vms := Z.min n_vms (snd (limits t))). specialize (Hget vms).
    assert (Hin : t ∈ default [] (d_get vms d)) by (rewrite Hget; simpl; by apply list_elem_of_filter).
    destruct (d_get vms d) as [ts|] eqn:Hv; [|by apply elem_of_nil in Hin].
    exists vms, ts. split; [by apply d_get_elem|done].
Qed.

(** one test without an upper limit is enough for the runner to fail on
    the whole list: its report has a single line. *)
Theorem unlimited_test_aborts_the_runner report n_vms t min_nodes limits before after :
  (forall t', t' ∈ before -> report t' =
    Ok (report_and_quit (fst (limits t')) (Some (snd (limits t'))))) ->
  (forall t', t' ∈ before -> 0 <= fst (limits t') /\ 0 < snd (limits t'))%Z ->
  report t = Ok (report_and_quit min_nodes None) -> (0 <= min_nodes)%Z ->
  generate_test_set report n_vms (before ++ t :: after) =
    Raise (ValueError "not enough values to unpack").
Proof.
  intros Hb Hl Ht H0. unfold generate_test_set. generalize ([] : dict Z (list string)).
  induction before as [|b before IH]; intros d.
  - cbn [app place_tests]. unfold place_test. rewrite Ht. mred. by rewrite parse_report_no_max.
  - cbn [app place_tests]. unfold place_test at 1. rewrite Hb by by left. mred.
    destruct (Hl b) as [H1 H2]; [by left|]. rewrite parse_report_setup by lia.
    assert (Hi : forall d : dict Z (list string), place_tests report n_vms (before ++ t :: after) d =
      Raise (ValueError "not enough values to unpack")).
    { intros d'. apply IH; intros t' Hin; [apply Hb|apply Hl]; by right. }
    destruct (_ <=? _)%Z; [|apply Hi]. destruct (d_get _ d); apply Hi.
Qed.

(** whenever the recovery from a failed [drbdsetup down] decides to
    unmount the device, the name it passes to [umount] is not a path: it
    starts with the [b] and the quote of the printed byte string. *)
Theorem unmounted_device_is_not_a_path stderr dev :
  handle_down_error 11 stderr = Ok (UnmountDev dev) ->
  startswith "b'" dev = true \/ startswith (String "b"%char (String quote2 EmptyString)) dev = true.
Proof.
  unfold handle_down_error. simpl. destruct (match_holder (bytes_str stderr)) as [[[dev' procname] pid]|] eqn:Hm;
    [|done]. case_decide; [|done]. intros [= ->]. unfold match_holder in Hm.
  apply head_Some_elem_of in Hm. apply list_elem_of_omap in Hm as ([dev1 rest] & Hin & Hm).
  rewrite elem_of_reverse in Hin. apply head_Some_elem_of in Hm.
  apply list_elem_of_omap in Hm as ([p rest2] & _ & Hm). destruct (span_digits rest2) as [pid' rest3].
  destruct (startswith _ rest3); [|done]. simplify_eq. unfold bytes_str in Hin.
  set (q := if scontains quote1 stderr && negb (scontains quote2 stderr) then quote2 else quote1) in Hin. assert (Hq : q = quote1 \/ q = quote2) by (unfold q; case_match; auto).
  apply cuts_spec in Hin. rewrite !sapp_cons in Hin. clearbody q.
  destruct dev as [|c1 [|c2 dev]]; rewrite ?sapp_nil, ?sapp_cons in Hin; simplify_eq; [by destruct Hq|].
  destruct Hq as [-> | ->]; [by left|by right].
Qed.

(** ** Witnesses *)

Definition demo_run (i : nat) (t : string) (vms : list string) : outcome :=
  Outcome (if decide (t = "fails") then 1 else 0) 2 false.

Lemma run_tests_runs_the_eligible_tests_witness :
  run_tests demo_run (fun _ => Ok tt) (fun _ => Ok tt) ["excluded"] true 1 ["a"; "b"; "c"]
    [(2, ["skipped"; "passes"; "excluded"]); (4, ["big"]); (3, ["fails"; "last"])] =
  Ok (1%Z, [("passes", Result (Outcome 0 2 false) 2); ("fails", Result (Outcome 1 2 false) 3);
            ("last", Result (Outcome 0 2 false) 3)], 2, 3).
Proof.
  etrans; [exact (run_tests_runs_the_eligible_tests demo_run (fun _ => Ok tt) (fun _ => Ok tt) ["excluded"]
    true 1 ["a"; "b"; "c"] [(2, ["skipped"; "passes"; "excluded"]); (4, ["big"]); (3, ["fails"; "last"])]
    (fun _ => eq_refl) (fun _ => eq_refl))|]. reflexivity.
Defined.

Definition demo_limits (t : string) : Z * Z :=
  if decide (t = "pair") then (2, 2)%Z else if decide (t = "large") then (5, 9)%Z else (2, 5)%Z.
Definition demo_report (t : string) : res string :=
  Ok (report_and_quit (fst (demo_limits t)) (Some (snd (demo_limits t)))).

Lemma generated_sets_suit_setup_witness :
  exists sets, generate_test_set demo_report 3 ["x"; "pair"; "large"; "y"] = Ok sets /\
    NoDup (map fst sets) /\ sets = [(3%Z, ["x"; "y"]); (2%Z, ["pair"])].
Proof.
  destruct (generated_sets_suit_setup demo_report 3 demo_limits ["x"; "pair"; "large"; "y"])
    as (sets & H & Hnd & _).
  - reflexivity.
  - intros t. unfold demo_limits. repeat case_decide; simpl; lia.
  - exists sets. split; [exact H|]. split; [exact Hnd|]. vm_compute in H. congruence.
Defined.

Lemma unlimited_test_aborts_the_runner_witness :
  generate_test_set (fun t => if decide (t = "upgrade") then Ok (report_and_quit 2 None) else demo_report t)
    4 ["x"; "upgrade"; "y"] = Raise (ValueError "not enough values to unpack").
Proof.
  apply (unlimited_test_aborts_the_runner _ 4 "upgrade" 2 demo_limits ["x"] ["y"]).
  - intros t' Ht. apply list_elem_of_singleton in Ht. subst t'. reflexivity.
  - intros t' Ht. apply list_elem_of_singleton in Ht. subst t'. vm_compute. split; [discriminate|reflexivity].
  - reflexivity.
  - lia.
Defined.

Lemma unmounted_device_is_not_a_path_witness :
  exists dev, handle_down_error 11 "/dev/drbd1 opened by mount (pid 123) at 2020" = Ok (UnmountDev dev) /\
    (startswith "b'" dev = true \/ startswith (String "b"%char (String quote2 EmptyString)) dev = true).
Proof.
  exists "b'/dev/drbd1". split; [reflexivity|].
  apply (unmounted_device_is_not_a_path "/dev/drbd1 opened by mount (pid 123) at 2020"). reflexivity.
Defined.
