(* ===== verification/RunnerHosts.v ===== *)
(** * The virtual machines of the local test runner (src/run.py)

    What the runner does to the machines, in the order in which it does it:
    taking DRBD down, whatever holds a device open; loading the modules; and
    removing the logical volumes that a failed test has left.  The state is
    the list of what was done so far; how a machine answers is an interface.
    What is printed is left out. *)

From S2P Require Import Prelude PyStr Dict Host HostSetup Setup Runner.
#[local] Open Scope nat_scope.

(** A command that is run over ssh, or the program of a test *)
Inductive action :=
| Ssh (vm cmd : string)
| RunTest (test : string) (vm_names : list string).

(** The exit status, the standard output and the standard error of a command;
    whether it takes too long for its caller; and how the program of a test
    ends.  All of them may depend on what was done before. *)
Class Machines := {
  exited : list action -> string -> string -> Z * string * string;
  takes_long : list action -> string -> string -> bool;
  test_outcome : list action -> string -> list string -> outcome
}.

Section machines.
Context `{Machines}.

(** [Popen] and [communicate] *)
Definition popen (vm cmd : string) : M (list action) (Z * string * string) := fun l =>
  (Ok (exited l vm cmd), l ++ [Ssh vm cmd]).
(** [subprocess.run] with [check=True], for its standard output *)
Definition check_output (vm cmd : string) : M (list action) string :=
  let* r := popen vm cmd in
  let '(code, out, _) := r in
  if (code =? 0)%Z then mret out else raise (CalledProcessError code cmd).

Definition down_cmd : string := "drbdsetup down all".
(** [drbdsetup_down]: the exit status and the standard error, which
    [CalledProcessError] carries *)
Definition run_down (vm : string) : M (list action) (Z * string) := fun l =>
  let '(code, _, err) := exited l vm down_cmd in
  (if takes_long l vm down_cmd then Raise (TimeoutExpired down_cmd) else Ok (code, err), l ++ [Ssh vm down_cmd]).
Definition drbdsetup_down (vm : string) : M (list action) unit :=
  let* r := run_down vm in
  when (negb (fst r =? 0)%Z) (raise (CalledProcessError (fst r) down_cmd)).

Definition unmount_dev (vm dev : string) : M (list action) unit :=
  let* r := popen vm ("umount " +:+ dev) in
  let '(code, _, err) := r in
  when (negb (code =? 0)%Z) (raise (PlainException err)).
Definition is_process_running (vm pid : string) : M (list action) bool :=
  let* r := popen vm ("test -d /proc/" +:+ pid) in
  let '(code, _, _) := r in mret (code =? 0)%Z.
(** [while attempt < 3: ... else: raise Exception()] *)
Fixpoint kill_attempts (n : nat) (vm pid : string) : M (list action) unit :=
  match n with
  | O => raise (PlainException EmptyString)
  | S n =>
      popen vm ("kill -9 " +:+ pid) ;;;
      let* running := is_process_running vm pid in
      match running with true => kill_attempts n vm pid | false => mret tt end
  end.
Definition kill_process (vm pid : string) : M (list action) unit := kill_attempts 3 vm pid.
Definition sysrq_cmd : string :=
  "{ sleep 0.5; echo -e " +:+ dquoted ("s" +:+ newline +:+ "b") +:+ " > /proc/sysrq-trigger; } > /dev/null &".
Definition kill_node (vm : string) : M (list action) unit :=
  let* r := popen vm sysrq_cmd in
  let '(code, _, err) := r in
  when (negb (code =? 0)%Z) (raise (PlainException err)).

(** What [handle_down_error] decides is in the component of the runner. *)
Definition recover (vm : string) (r : recovery) : M (list action) unit :=
  match r with
  | UnmountDev dev => unmount_dev vm dev
  | KillProcess _ pid => kill_process vm pid
  end.
Definition handle_down (vm : string) (code : Z) (stderr : string) : M (list action) unit :=
  let* r := lift (handle_down_error code stderr) in
  recover vm r ;;;
  drbdsetup_down vm.
Definition try_down_all (vm : string) : M (list action) unit :=
  let* r := run_down vm in
  when (negb (fst r =? 0)%Z) (handle_down vm (fst r) (snd r)).

(** ** Preparing the machines *)

Definition insmod_lines (dir : string) : list string :=
  ["    insmod /lib/modules/$UNR/" +:+ dir +:+ "/drbd.ko"; "    insmod /lib/modules/$UNR/" +:+ dir +:+ "/drbd_transport_tcp.ko"].
Definition prepare_script : string := join newline
  ([EmptyString; "rmmod drbd_transport_tcp 2>/dev/null || true"; "rmmod drbd 2>/dev/null || true"; "modprobe crc32c 2>/dev/null || true";
    "UNR=$(uname -r)"; "if test -e /lib/modules/$UNR/updates/drbd.ko; then"] ++ insmod_lines "updates" ++
   ["elif test -e /lib/modules/$UNR/weak-updates/drbd/drbd.ko; then"] ++ insmod_lines "weak-updates/drbd" ++
   ["elif test -e /lib/modules/$UNR/extra/drbd/drbd.ko; then"] ++ insmod_lines "extra/drbd" ++
   ["else"; "    echo " +:+ dquoted "drbd.ko is in an unknown location, cannot load"; "    exit 1"; "fi"; EmptyString]).
Definition wait (code : Z) : M (list action) unit := when (negb (code =? 0)%Z) (raise (CalledProcessError code "ssh")).
(** [cleanup_and_prepare_vm]: the exit status of the process that was started,
    which is waited for unless [parallel] is set *)
Definition cleanup_and_prepare_vm (vm : string) (parallel : bool) : M (list action) Z :=
  try_down_all vm ;;;
  let* r := popen vm prepare_script in
  let '(code, _, _) := r in
  when (negb parallel) (wait code) ;;;
  mret code.
Definition cleanup_and_prepare_vms (vm_names : list string) : M (list action) unit :=
  let* processes := map_each vm_names (fun vm => cleanup_and_prepare_vm vm true) in
  for_each processes wait.

(** ** Logical volumes *)

Definition lvs_cmd : string := "lvs --noheadings -o lv_path".
Definition list_LVs (vm : string) : M (list action) (list string) :=
  let* out := check_output vm lvs_cmd in
  mret (map strip (splitlines out)).
Definition lvremove (lv : string) : string := "lvremove -f " +:+ lv.
Definition remove_excess_LVs (orig_lvs : list string) (vm : string) : M (list action) unit :=
  let* lvs := list_LVs vm in
  for_each lvs (fun lv =>
    if decide (lv ∈ orig_lvs) then mret tt
    else cleanup_and_prepare_vm vm false ;;; check_output vm (lvremove lv) ;;; mret tt).
Definition cleanup (original_lvs : dict string (list string)) (all_vm_names : list string) : M (list action) unit :=
  for_each all_vm_names (fun vm =>
    let* lvs := lift (res_of_option KeyError (d_get vm original_lvs)) in
    remove_excess_LVs lvs vm).

(** ** Running the tests *)

Definition run_with_progress (test : string) (vm_names : list string) : M (list action) outcome := fun l =>
  (Ok (test_outcome l test vm_names), l ++ [RunTest test vm_names]).

Definition original_LVs (all_vm_names : list string) : M (list action) (dict string (list string)) :=
  fold_each all_vm_names (fun d vm => let* lvs := list_LVs vm in mret (d_set vm lvs d)) [].

Section tests.
Context (original_lvs : dict string (list string)) (all_vm_names exclude_tests : list string) (keep_going : bool) (num_skip : nat).

Definition after_failure_on (exit_code : Z) (st : run_state) : M (list action) (run_state + final) :=
  cleanup original_lvs all_vm_names ;;;
  mret (if keep_going then inl (RunState (results st) 1 (num_successful st) (num_total st) (num_skipped st))
        else inr (exit_code, results st, num_successful st, num_total st)).
(** The rest of the body of the loop, once a test has ended *)
Definition after_test (vm_names : list string) (test : string) (st : run_state) (o : outcome) : M (list action) (run_state + final) :=
  let st := RunState (d_set test (Result o (length vm_names)) (results st)) (global_exit_code st)
              (num_successful st) (S (num_total st)) (num_skipped st) in
  if o_timeout o then after_failure_on (o_exit_code o) st
  else if (o_exit_code o =? 0)%Z then
    mret (inl (RunState (results st) (global_exit_code st) (S (num_successful st)) (num_total st) (num_skipped st)))
  else after_failure_on (o_exit_code o) st.
Definition run_one_on (vm_names : list string) (test : string) (st : run_state) : M (list action) (run_state + final) :=
  if decide (test ∈ exclude_tests) then mret (inl st)
  else if decide (num_total st + num_skipped st < num_skip) then
    mret (inl (RunState (results st) (global_exit_code st) (num_successful st) (num_total st) (S (num_skipped st))))
  else
    cleanup_and_prepare_vms vm_names ;;;
    let* o := run_with_progress test vm_names in
    after_test vm_names test st o.
Fixpoint run_list_on (l : list (string * list string)) (st : run_state) : M (list action) (run_state + final) :=
  match l with
  | [] => mret (inl st)
  | (test, vm_names) :: l =>
      let* r := run_one_on vm_names test st in
      match r with inl st => run_list_on l st | inr f => mret (inr f) end
  end.
End tests.

Definition run_tests_on (test_sets : list (nat * list string)) (all_vm_names exclude_tests : list string) (keep_going : bool) (num_skip : nat) :
    M (list action) final :=
  let* original_lvs := original_LVs all_vm_names in
  let* r := run_list_on original_lvs all_vm_names exclude_tests keep_going num_skip (scheduled all_vm_names test_sets) run_start in
  match r with
  | inl st => mret (global_exit_code st, results st, num_successful st, num_total st)
  | inr f => mret f
  end.

(** ** The versions that are tested *)

(** One match of the expression at the beginning of [s], and what follows it *)
Definition is_version_char (c : ascii) : bool := is_digit c || bool_decide (c = "."%char) || bool_decide (c = "-"%char).
Definition is_lower_hex (c : ascii) : bool := scontains c "0123456789abcdef".
Definition match_versions (s : string) : option (string * string * string * string) :=
  '(kern_ver, s) ← span1 (fun c => negb (is_space c)) s;
  s ← strip_prefix (newline +:+ "version: ") s;
  '(drbd_ver, s) ← span1 is_version_char s;
  s ← strip_prefix "GIT-hash: " (snd (span (fun c => negb (bool_decide (c = "G"%char))) s));
  '(drbd_git, s) ← span1 is_lower_hex s;
  Some (kern_ver, drbd_ver, drbd_git, s).
(** [re.findall]; a match is never empty, so the length of the text is fuel
    enough. *)
Fixpoint find_versions (fuel : nat) (s : string) : list (string * string * string) :=
  match fuel, s with
  | S fuel, String _ t =>
      match match_versions s with
      | Some (k, d, g, rest) => (k, d, g) :: find_versions fuel rest
      | None => find_versions fuel t
      end
  | _, _ => []
  end.
Definition parse_versions (s : string) : res (string * string * string) :=
  match find_versions (slen s) s with
  | [v] => Ok v
  | [] => Raise (ValueError "not enough values to unpack (expected 1, got 0)")
  | _ => Raise (ValueError "too many values to unpack (expected 1)")
  end.
Definition collect_software_versions (all_vm_names : list string) : M (list action) (string * string * string) :=
  let* vm := lift (res_of_option IndexError (head all_vm_names)) in
  cleanup_and_prepare_vm vm false ;;;
  let* s := check_output vm "uname -r; cat /proc/drbd" in
  lift (parse_versions s).
End machines.

(** ** What the runner is meant to do

    The tests that are to be run, one after the other: each is run when its
    machines have been prepared, a test that has not passed is followed by the
    clean-up of all machines, and then by the next test only if the runner is
    to keep going.  A relation between the tests, the actions before them, the
    actions they take, the tests that were run with what they ended with, and
    how it ends: at the end of the list, at a failed test, or with an exception
    of the preparation or of the clean-up. *)

Inductive play_end := AllDone | Stopped | Broken (e : exn).

Section plays.
Context `{Machines} (original_lvs : dict string (list string)) (all_vm_names : list string) (keep_going : bool).

(** The actions of a computation, and its result *)
Definition does {A} (m : M (list action) A) (l new : list action) (r : res A) : Prop := m l = (r, l ++ new).

Inductive plays : list (string * list string) -> list action -> list action -> list (string * (nat * outcome)) -> play_end -> Prop :=
| plays_done l : plays [] l [] [] AllDone
| plays_unprepared t vms tests l n0 e :
    does (cleanup_and_prepare_vms vms) l n0 (Raise e) -> plays ((t, vms) :: tests) l n0 [] (Broken e)
| plays_passed t vms tests l n0 new ex en :
    does (cleanup_and_prepare_vms vms) l n0 (Ok tt) ->
    let o := test_outcome (l ++ n0) t vms in
    passed o = true -> plays tests (l ++ n0 ++ [RunTest t vms]) new ex en ->
    plays ((t, vms) :: tests) l (n0 ++ RunTest t vms :: new) ((t, (length vms, o)) :: ex) en
| plays_uncleaned t vms tests l n0 n1 e :
    does (cleanup_and_prepare_vms vms) l n0 (Ok tt) ->
    let o := test_outcome (l ++ n0) t vms in
    passed o = false -> does (cleanup original_lvs all_vm_names) (l ++ n0 ++ [RunTest t vms]) n1 (Raise e) ->
    plays ((t, vms) :: tests) l (n0 ++ RunTest t vms :: n1) [(t, (length vms, o))] (Broken e)
| plays_stopped t vms tests l n0 n1 :
    does (cleanup_and_prepare_vms vms) l n0 (Ok tt) ->
    let o := test_outcome (l ++ n0) t vms in
    passed o = false -> does (cleanup original_lvs all_vm_names) (l ++ n0 ++ [RunTest t vms]) n1 (Ok tt) -> keep_going = false ->
    plays ((t, vms) :: tests) l (n0 ++ RunTest t vms :: n1) [(t, (length vms, o))] Stopped
| plays_kept_going t vms tests l n0 n1 new ex en :
    does (cleanup_and_prepare_vms vms) l n0 (Ok tt) ->
    let o := test_outcome (l ++ n0) t vms in
    passed o = false -> does (cleanup original_lvs all_vm_names) (l ++ n0 ++ [RunTest t vms]) n1 (Ok tt) -> keep_going = true ->
    plays tests (l ++ n0 ++ RunTest t vms :: n1) new ex en ->
    plays ((t, vms) :: tests) l (n0 ++ RunTest t vms :: n1 ++ new) ((t, (length vms, o)) :: ex) en.

(** The result for the tests that were run *)
Definition final_of (ex : list (string * (nat * outcome))) : final :=
  (expected_exit keep_going ex, record_runs ex [], count_passed ex, length ex).
End plays.

(** ** Lemmas: what is added to the list of actions *)

Definition appends (P : list action -> Prop) {A} (m : M (list action) A) : Prop := forall l, exists new, snd (m l) = l ++ new /\ P new.

Section appends.
Context (P : list action -> Prop) (Hnil : P []) (Happ : forall l1 l2, P l1 -> P l2 -> P (l1 ++ l2)).
Lemma appends_nothing {A} (m : M (list action) A) : (forall l, snd (m l) = l) -> appends P m.
Proof using Hnil. intros Hm l. exists []. by rewrite Hm, app_nil_r. Qed.
Lemma appends_bind {A B} (m : M (list action) A) (f : A -> M (list action) B) : appends P m -> (forall a, appends P (f a)) -> appends P (m ≫= f).
Proof using Happ Hnil.
  intros Hm Hf l. mred. destruct (Hm l) as (n1 & H1 & P1). destruct (m l) as [[a|e] l1]; cbn in H1; subst l1; [|by exists n1].
  destruct (Hf a (l ++ n1)) as (n2 & H2 & P2). exists (n1 ++ n2). rewrite H2, app_assoc. split; [done|by apply Happ].
Qed.
Lemma appends_when b (m : M (list action) unit) : appends P m -> appends P (when b m).
Proof using Hnil. intros Hm. unfold when. destruct b; [done|]. by apply appends_nothing. Qed.
Lemma appends_for_each {A} (xs : list A) body : (forall x, appends P (body x)) -> appends P (for_each xs body).
Proof using Happ Hnil. intros Hb. induction xs as [|x xs IH]; cbn; [by apply appends_nothing|]. by apply appends_bind. Qed.
Lemma appends_map_each {A B} (xs : list A) (body : A -> M (list action) B) : (forall x, appends P (body x)) -> appends P (map_each xs body).
Proof using Happ Hnil.
  intros Hb. induction xs as [|x xs IH]; cbn; [by apply appends_nothing|]. apply appends_bind; [done|intros y].
  apply appends_bind; [done|intros ys]. by apply appends_nothing.
Qed.
Lemma appends_fold_each {A B} (xs : list A) (body : B -> A -> M (list action) B) y : (forall y x, appends P (body y x)) -> appends P (fold_each xs body y).
Proof using Happ Hnil. intros Hb. revert y. induction xs as [|x xs IH]; intros y; cbn; [by apply appends_nothing|]. by apply appends_bind. Qed.
Lemma appends_app l l' : P l -> P l' -> P (l ++ l').
Proof using Happ. auto. Qed.
End appends.
Lemma appends_mono (P Q : list action -> Prop) {A} (m : M (list action) A) : (forall l, P l -> Q l) -> appends P m -> appends Q m.
Proof. intros HPQ Hm l. destruct (Hm l) as (new & Hl & Hp). exists new. auto. Qed.

(** An action that removes no logical volume *)
Definition harmless (a : action) : Prop := forall vm lv, a <> Ssh vm (lvremove lv).
(** A command *)
Definition is_ssh (a : action) : Prop := if a is Ssh _ _ then True else False.

Section quiet.
Context `{Machines} (Q : action -> Prop) (HQ : forall vm cmd, (forall lv, cmd <> lvremove lv) -> Q (Ssh vm cmd)).
Definition quiet {A} (m : M (list action) A) : Prop := appends (Forall Q) m.

Lemma quiet_popen vm cmd : (forall lv, cmd <> lvremove lv) -> quiet (popen vm cmd).
Proof using HQ. intros Hc l. exists [Ssh vm cmd]. split; [done|]. repeat constructor. by apply HQ. Qed.
Lemma quiet_down vm : quiet (run_down vm).
Proof using HQ.
  intros l. exists [Ssh vm down_cmd]. unfold run_down. destruct (exited l vm down_cmd) as [[code out] err]. split; [done|].
  repeat constructor. apply HQ. intros lv. discriminate.
Qed.
Ltac quiet_by known :=
  repeat first
    [ known | apply quiet_down
    | apply quiet_popen; intros ?; discriminate
    | apply appends_bind; [constructor|by intros; apply Forall_app_2| |intros ?]
    | apply appends_when; [constructor|]
    | apply appends_for_each; [constructor|by intros; apply Forall_app_2|intros ?]
    | apply appends_map_each; [constructor|by intros; apply Forall_app_2|intros ?]
    | apply appends_nothing; [constructor|reflexivity] | case_match ].
Ltac quiet := quiet_by fail.

Lemma quiet_recover vm r : quiet (recover vm r).
Proof using HQ.
  destruct r as [dev|name pid]; unfold recover, unmount_dev, kill_process; [quiet|].
  generalize 3. intros n. induction n as [|n IH]; cbn [kill_attempts]; [quiet|].
  unfold is_process_running. quiet. exact IH.
Qed.
Lemma quiet_try_down_all vm : quiet (try_down_all vm).
Proof using HQ. unfold try_down_all, handle_down, drbdsetup_down. quiet_by ltac:(apply quiet_recover). Qed.
Lemma quiet_prepare vm parallel : quiet (cleanup_and_prepare_vm vm parallel).
Proof using HQ. unfold cleanup_and_prepare_vm, wait. quiet_by ltac:(apply quiet_try_down_all). Qed.
Lemma quiet_prepare_vms vm_names : quiet (cleanup_and_prepare_vms vm_names).
Proof using HQ. unfold cleanup_and_prepare_vms, wait. quiet_by ltac:(apply quiet_prepare). Qed.
Lemma quiet_list_LVs vm : quiet (list_LVs vm).
Proof using HQ. unfold list_LVs, check_output. quiet. Qed.
Lemma quiet_original all_vm_names : quiet (original_LVs all_vm_names).
Proof using HQ.
  unfold original_LVs. apply appends_fold_each; [constructor|by intros; apply Forall_app_2|]. intros d vm.
  apply appends_bind; [constructor|by intros; apply Forall_app_2|apply quiet_list_LVs|intros lvs]. by apply appends_nothing.
Qed.
End quiet.
Lemma original_only_lists `{Machines} all_vm_names : appends (Forall (fun a => exists vm, vm ∈ all_vm_names /\ a = Ssh vm lvs_cmd)) (original_LVs all_vm_names).
Proof.
  unfold original_LVs. assert (Hsub : forall vms, (forall vm, vm ∈ vms -> vm ∈ all_vm_names) -> forall d,
    appends (Forall (fun a => exists vm, vm ∈ all_vm_names /\ a = Ssh vm lvs_cmd))
      (fold_each vms (fun d vm => let* lvs := list_LVs vm in mret (d_set vm lvs d)) d)).
  { induction vms as [|vm vms IH]; intros Hin d; cbn [fold_each]; [by apply appends_nothing|].
    apply appends_bind; [constructor|by intros; apply Forall_app_2| |intros d'; apply IH; intros; apply Hin; by right].
    apply appends_bind; [constructor|by intros; apply Forall_app_2| |intros lvs; by apply appends_nothing].
    unfold list_LVs, check_output. apply appends_bind; [constructor|by intros; apply Forall_app_2| |intros out; by apply appends_nothing].
    apply appends_bind; [constructor|by intros; apply Forall_app_2| |intros [[code out] err]; apply appends_nothing; [constructor|by destruct (code =? 0)%Z]].
    intros l. exists [Ssh vm lvs_cmd]. split; [done|]. apply Forall_singleton. exists vm. split; [apply Hin; by left|done]. }
  by apply Hsub.
Qed.
Lemma harmless_cmd vm cmd : (forall lv, cmd <> lvremove lv) -> harmless (Ssh vm cmd).
Proof. intros Hc vm' lv [= _ Heq]. by apply (Hc lv). Qed.

(** ** Lemmas: what is removed *)

(** The answer to the last command of [l] that lists the volumes of [vm] *)
Definition last_listing `{Machines} (l : list action) (vm : string) (lvs : list string) : Prop :=
  exists before after out err, l = before ++ Ssh vm lvs_cmd :: after /\ (Ssh vm lvs_cmd ∉ after) /\
    exited before vm lvs_cmd = (0%Z, out, err) /\ lvs = map strip (splitlines out).
Section listing.
Context `{Machines}.
Lemma listing_later l vm lvs a : a <> Ssh vm lvs_cmd -> last_listing l vm lvs -> last_listing (l ++ [a]) vm lvs.
Proof.
  intros Ha (p & q & out & err & -> & Hq & He & Hl). exists p, (q ++ [a]), out, err. rewrite <-app_assoc. split_and!; try done.
  rewrite elem_of_app, list_elem_of_singleton. naive_solver.
Qed.
Lemma list_LVs_lists vm l lvs l' : list_LVs vm l = (Ok lvs, l') -> l' = l ++ [Ssh vm lvs_cmd] /\ last_listing l' vm lvs.
Proof.
  unfold list_LVs, check_output, popen. mred. destruct (exited l vm lvs_cmd) as [[code out] err] eqn:He.
  destruct (code =? 0)%Z eqn:Hc; [|done]. intros [= <- <-]. apply Z.eqb_eq in Hc. subst code. split; [done|].
  exists l, [], out, err. split_and!; try done. by intros ?%elem_of_nil.
Qed.
(** [original_LVs] keeps for each machine what its last listing says. *)
Lemma original_listings all_vm_names l orig l1 : original_LVs all_vm_names l = (Ok orig, l1) ->
  forall vm lvs, d_get vm orig = Some lvs -> last_listing l1 vm lvs.
Proof.
  unfold original_LVs. assert (H0 : forall vm lvs, d_get vm ([] : dict string (list string)) = Some lvs -> last_listing l vm lvs) by done.
  revert H0. generalize ([] : dict string (list string)). revert l.
  induction all_vm_names as [|vm all IH]; intros l d Hd; cbn [fold_each]; [intros [= <- <-]; exact Hd|]. mred.
  destruct (list_LVs vm l) as [[lvs|e] l2] eqn:Hl; [|done]. apply list_LVs_lists in Hl as [-> Hl]. apply IH. intros vm' lvs'.
  rewrite d_get_set. case_decide as Hv; [intros [= <-]; by rewrite Hv|]. intros Hg. apply listing_later; [congruence|by apply Hd].
Qed.
End listing.

(** Every volume that is removed was not there at the beginning, and DRBD has
    just been taken down on its machine. *)
Definition removal_ok (orig : dict string (list string)) (l : list action) : Prop :=
  forall before vm lv after, l = before ++ Ssh vm (lvremove lv) :: after ->
    (exists lvs, d_get vm orig = Some lvs /\ lv ∉ lvs) /\ last before = Some (Ssh vm prepare_script).

Section removal.
Context `{Machines} (orig : dict string (list string)).

Lemma removal_nil : removal_ok orig [].
Proof. intros [|] vm lv after Heq; discriminate. Qed.
Lemma removal_app l1 l2 : removal_ok orig l1 -> removal_ok orig l2 -> removal_ok orig (l1 ++ l2).
Proof.
  intros H1 H2 before vm lv after Heq. apply app_eq_inv in Heq as [(k & -> & Heq)|(k & Heq & ->)].
  - destruct k as [|b k]; cbn in Heq.
    + exfalso. destruct (H2 [] vm lv after (eq_sym Heq)) as [_ Hl]. discriminate.
    + injection Heq as <- ->. apply (H1 before vm lv k). done.
  - destruct (H2 k vm lv after eq_refl) as [Ho Hl]. split; [done|]. by rewrite Heq, last_app, Hl.
Qed.
Lemma removal_harmless l : Forall harmless l -> removal_ok orig l.
Proof.
  intros Hl before vm lv after ->. exfalso. apply Forall_app in Hl as [_ Hl]. apply Forall_cons in Hl as [Hh _]. by apply (Hh vm lv).
Qed.

(** What a preparation that succeeds has added *)
Lemma prepare_ends vm l c l' : cleanup_and_prepare_vm vm false l = (Ok c, l') ->
  exists new, l' = l ++ new ++ [Ssh vm prepare_script] /\ Forall harmless new.
Proof.
  unfold cleanup_and_prepare_vm, wait. mred. destruct (quiet_try_down_all harmless harmless_cmd vm l) as (new & Hl & Hn).
  destruct (try_down_all vm l) as [[[]|e] l1]; [|done]. cbn in Hl. subst l1. unfold popen, when.
  destruct (exited (l ++ new) vm prepare_script) as [[code out] err]. cbn [negb]. destruct (negb (code =? 0)%Z); [done|].
  intros [= <- <-]. exists new. by rewrite app_assoc.
Qed.
Lemma prepared_removal vm lv lvs : d_get vm orig = Some lvs -> lv ∉ lvs ->
  appends (removal_ok orig) (cleanup_and_prepare_vm vm false ;;; check_output vm (lvremove lv) ;;; mret tt).
Proof.
  intros Ho Hlv l. mred. destruct (cleanup_and_prepare_vm vm false l) as [[c|e] l1] eqn:Hp.
  - apply prepare_ends in Hp as (new & -> & Hn). exists (new ++ [Ssh vm prepare_script; Ssh vm (lvremove lv)]). unfold check_output, popen. mred.
    destruct (exited (l ++ new ++ [Ssh vm prepare_script]) vm (lvremove lv)) as [[code out] err].
    assert (Hl : snd ((if (code =? 0)%Z then mret out else raise (CalledProcessError code (lvremove lv)))
      ((l ++ new ++ [Ssh vm prepare_script]) ++ [Ssh vm (lvremove lv)])) = l ++ new ++ [Ssh vm prepare_script; Ssh vm (lvremove lv)]).
    { destruct (code =? 0)%Z; cbn; by rewrite <-!app_assoc. }
    split; [destruct (code =? 0)%Z; exact Hl|]. apply removal_app; [by apply removal_harmless|].
    intros [|b [|b' before]] vm' lv' after Heq; [discriminate| |by destruct before].
    injection Heq as <- <- Hv _. change (lv = lv') in Hv. subst lv'. split; [by exists lvs|done].
  - destruct (quiet_prepare harmless harmless_cmd vm false l) as (new & Hl & Hn). rewrite Hp in Hl. exists new. split; [done|by apply removal_harmless].
Qed.
Lemma removal_quiet {A} (m : M (list action) A) : quiet harmless m -> appends (removal_ok orig) m.
Proof. apply appends_mono. intros l. apply removal_harmless. Qed.
Ltac removal := repeat first
  [ apply appends_bind; [apply removal_nil|apply removal_app| |intros ?]
  | apply appends_for_each; [apply removal_nil|apply removal_app|intros ?]
  | apply appends_nothing; [apply removal_nil|reflexivity] ].
Lemma removal_excess vm lvs : d_get vm orig = Some lvs -> appends (removal_ok orig) (remove_excess_LVs lvs vm).
Proof.
  intros Ho. unfold remove_excess_LVs. apply appends_bind; [apply removal_nil|apply removal_app|apply removal_quiet, quiet_list_LVs, harmless_cmd|].
  intros now. apply appends_for_each; [apply removal_nil|apply removal_app|]. intros lv. case_decide; [by removal|].
  by apply prepared_removal with lvs.
Qed.
Lemma removal_cleanup vms : appends (removal_ok orig) (cleanup orig vms).
Proof.
  unfold cleanup. apply appends_for_each; [apply removal_nil|apply removal_app|]. intros vm l. unfold lift. mred.
  destruct (d_get vm orig) as [lvs|] eqn:Ho; cbn; [by apply removal_excess|]. exists []. split; [by rewrite app_nil_r|apply removal_nil].
Qed.
Lemma removal_run_one all_vm_names exclude keep_going num_skip vm_names test st :
  appends (removal_ok orig) (run_one_on orig all_vm_names exclude keep_going num_skip vm_names test st).
Proof.
  assert (Ha : forall c st', appends (removal_ok orig) (after_failure_on orig all_vm_names keep_going c st')).
  { intros c st'. apply appends_bind; [apply removal_nil|apply removal_app|apply removal_cleanup|intros []]. by removal. }
  unfold run_one_on. case_decide; [by removal|]. case_decide; [by removal|].
  apply appends_bind; [apply removal_nil|apply removal_app|apply removal_quiet, quiet_prepare_vms, harmless_cmd|intros []].
  apply appends_bind; [apply removal_nil|apply removal_app| |].
  - intros l. exists [RunTest test vm_names]. split; [done|]. apply removal_harmless. repeat constructor. intros vm lv. discriminate.
  - intros o. unfold after_test. destruct (o_timeout o); [apply Ha|]. destruct (o_exit_code o =? 0)%Z; [by removal|apply Ha].
Qed.
Lemma removal_run_list all_vm_names exclude keep_going num_skip tests st :
  appends (removal_ok orig) (run_list_on orig all_vm_names exclude keep_going num_skip tests st).
Proof.
  revert st. induction tests as [|[test vm_names] tests IH]; intros st; cbn [run_list_on]; [by removal|].
  apply appends_bind; [apply removal_nil|apply removal_app|apply removal_run_one|]. intros [st'|f]; [apply IH|by removal].
Qed.
End removal.

(** ** Lemmas: the runner of the schedule *)

#[export] Instance is_ssh_dec a : Decision (is_ssh a).
Proof. destruct a; [left; exact I|right; intros []]. Defined.
Definition tests_in (l : list action) : nat := length (filter (fun a => ~ is_ssh a) l).
Lemma tests_in_app l1 l2 : tests_in (l1 ++ l2) = tests_in l1 + tests_in l2.
Proof. unfold tests_in. by rewrite filter_app, length_app. Qed.
Lemma tests_in_test t vms l : tests_in (RunTest t vms :: l) = S (tests_in l).
Proof. unfold tests_in. by rewrite filter_cons_True by auto. Qed.
Lemma tests_in_ssh l : Forall is_ssh l -> tests_in l = 0.
Proof. intros Hl. unfold tests_in. induction Hl as [|a l Ha _ IH]; [done|]. rewrite filter_cons_False; [done|]. auto. Qed.

Section schedule.
Context `{Machines}.
Lemma ssh_cmd vm cmd : (forall lv, cmd <> lvremove lv) -> is_ssh (Ssh vm cmd).
Proof. done. Qed.
Lemma ssh_cleanup orig vms : quiet is_ssh (cleanup orig vms).
Proof.
  assert (Hp : forall vm cmd, quiet is_ssh (popen vm cmd)) by (intros vm cmd l; exists [Ssh vm cmd]; split; [done|by repeat constructor]).
  unfold cleanup, remove_excess_LVs, check_output.
  repeat first
    [ apply quiet_prepare; exact ssh_cmd | apply quiet_list_LVs; exact ssh_cmd | apply Hp
    | apply appends_for_each; [constructor|by intros; apply Forall_app_2|intros ?]
    | apply appends_bind; [constructor|by intros; apply Forall_app_2| |intros ?]
    | apply appends_nothing; [constructor|reflexivity] | case_match ].
Qed.

End schedule.

(** ** Lemmas: the runner plays the tests *)

Section playing.
Context `{Machines} (orig : dict string (list string)) (all_vm_names exclude : list string) (keep_going : bool) (num_skip : nat).
Local Abbreviation run_on := (run_list_on orig all_vm_names exclude keep_going num_skip) (only parsing).
Local Abbreviation plays := (plays orig all_vm_names keep_going) (only parsing).

Lemma does_appends {A} P (m : M (list action) A) l : appends P m -> exists new, does m l new (fst (m l)) /\ P new.
Proof. intros Hm. destruct (Hm l) as (new & Hl & HP). exists new. split; [|done]. unfold does. rewrite <-Hl. by destruct (m l). Qed.

(** The tests that are left when [k] have been run or skipped *)
Definition left_over (tests : list (string * list string)) (k : nat) : list (string * list string) :=
  drop (num_skip - k) (filter (fun p => fst p ∉ exclude) tests).
(** The loop from [st] on, when it plays [ex] *)
Definition ended (st : run_state) (ex : list (string * (nat * outcome))) (en : play_end) (r : res (run_state + final)) : Prop :=
  let d := record_runs ex (results st) in
  let n := num_successful st + count_passed ex in
  let k := num_total st + length ex in
  match en with
  | AllDone => exists s, r = Ok (inl (RunState d (if forallb run_passed ex then global_exit_code st else 1%Z) n k s)) /\
      (keep_going = false -> forallb run_passed ex = true)
  | Stopped => r = Ok (inr (expected_exit keep_going ex, d, n, k)) /\ keep_going = false
  | Broken e => r = Raise e
  end.

Lemma ended_step t n o st st1 ex en r :
  results st1 = d_set t (Result o n) (results st) -> num_total st1 = S (num_total st) ->
  num_successful st1 = (if passed o then S (num_successful st) else num_successful st) ->
  global_exit_code st1 = (if passed o then global_exit_code st else 1%Z) ->
  (passed o = false -> keep_going = true) ->
  (en = Stopped -> ex <> []) ->
  ended st1 ex en r -> ended st ((t, (n, o)) :: ex) en r.
Proof.
  intros Hd Hk Hs Hg Hp Hne. unfold ended. rewrite Hd, Hk, Hs, Hg.
  assert (Hc : count_passed ((t, (n, o)) :: ex) = (if passed o then S (count_passed ex) else count_passed ex)).
  { unfold count_passed. destruct (passed o) eqn:Hpo; [by rewrite filter_cons_True by exact Hpo|].
    by rewrite filter_cons_False by (change (passed o <> true); by rewrite Hpo). }
  rewrite Hc. cbn [length forallb record_runs foldl]. change (run_passed (t, (n, o))) with (passed o).
  assert (Hadd : (if passed o then S (num_successful st) else num_successful st) + count_passed ex =
    num_successful st + (if passed o then S (count_passed ex) else count_passed ex)) by (destruct (passed o); lia).
  rewrite Hadd. destruct en as [| |e]; [| |done].
  - intros (s & -> & Hall). exists s. split.
    + replace (num_total st + S (length ex)) with (S (num_total st) + length ex) by lia.
      destruct (passed o); cbn [andb]; [done|]. by destruct (forallb run_passed ex).
    + intros Hkg. destruct (passed o); cbn [andb]; [auto|]. specialize (Hp eq_refl). congruence.
  - intros [-> Hkg]. split; [|done]. replace (num_total st + S (length ex)) with (S (num_total st) + length ex) by lia.
    do 5 f_equal. unfold expected_exit. rewrite Hkg. destruct ex as [|x ex]; [by specialize (Hne eq_refl)|done].
Qed.

Lemma run_one_excluded test vms tests st l : test ∈ exclude -> run_on ((test, vms) :: tests) st l = run_on tests st l.
Proof. intros He. cbn [run_list_on]. unfold run_one_on. by rewrite decide_True. Qed.
Lemma run_one_skipped test vms tests st l : test ∉ exclude -> num_total st + num_skipped st < num_skip ->
  run_on ((test, vms) :: tests) st l =
  run_on tests (RunState (results st) (global_exit_code st) (num_successful st) (num_total st) (S (num_skipped st))) l.
Proof. intros He Hs. cbn [run_list_on]. unfold run_one_on. by rewrite decide_False, decide_True. Qed.

(** The loop after a test that was run *)
Definition after_it (vms : list string) (test : string) (st : run_state) (o : outcome) (tests : list (string * list string)) : M (list action) (run_state + final) :=
  let* r := after_test orig all_vm_names keep_going vms test st o in match r with inl st => run_on tests st | inr f => mret (inr f) end.
Lemma run_one_plays test vms tests st l : test ∉ exclude -> ~ num_total st + num_skipped st < num_skip ->
  exists n0, (does (cleanup_and_prepare_vms vms) l n0 (Ok tt) /\
      run_on ((test, vms) :: tests) st l = after_it vms test st (test_outcome (l ++ n0) test vms) tests ((l ++ n0) ++ [RunTest test vms])) \/
    exists e, does (cleanup_and_prepare_vms vms) l n0 (Raise e) /\ run_on ((test, vms) :: tests) st l = (Raise e, l ++ n0).
Proof.
  intros He Hs. cbn [run_list_on]. unfold run_one_on. rewrite decide_False, decide_False by done.
  destruct (does_appends _ _ l (quiet_prepare_vms is_ssh ssh_cmd vms)) as (n0 & Hd & _). exists n0. mred.
  unfold does in Hd. destruct (fst (cleanup_and_prepare_vms vms l)) as [[]|e] eqn:Hf; [left; split; [done|]|right; exists e; split; [done|]].
  - rewrite Hd. by unfold run_with_progress, after_it.
  - by rewrite Hd.
Qed.
(** A test that has passed, or not *)
Definition counted (vms : list string) (test : string) (st : run_state) (o : outcome) : run_state :=
  RunState (d_set test (Result o (length vms)) (results st)) (if passed o then global_exit_code st else 1%Z)
    (if passed o then S (num_successful st) else num_successful st) (S (num_total st)) (num_skipped st).
Lemma after_it_passed vms test st o tests l : passed o = true -> after_it vms test st o tests l = run_on tests (counted vms test st o) l.
Proof.
  intros Hp. unfold after_it, after_test, counted. rewrite Hp. unfold passed in Hp. apply andb_true_iff in Hp as [Ht He].
  destruct (o_timeout o); [done|]. by rewrite He.
Qed.
Lemma after_it_failed vms test st o tests l : passed o = false -> exists n1,
  (exists e, does (cleanup orig all_vm_names) l n1 (Raise e) /\ after_it vms test st o tests l = (Raise e, l ++ n1)) \/
  does (cleanup orig all_vm_names) l n1 (Ok tt) /\
  if keep_going then after_it vms test st o tests l = run_on tests (counted vms test st o) (l ++ n1)
  else after_it vms test st o tests l =
    (Ok (inr (o_exit_code o, results (counted vms test st o), num_successful st, S (num_total st))), l ++ n1).
Proof.
  intros Hp. assert (Ha : forall st1, after_test orig all_vm_names keep_going vms test st o = after_failure_on orig all_vm_names keep_going (o_exit_code o) st1 ->
    st1 = RunState (d_set test (Result o (length vms)) (results st)) (global_exit_code st) (num_successful st) (S (num_total st)) (num_skipped st) ->
    exists n1, (exists e, does (cleanup orig all_vm_names) l n1 (Raise e) /\ after_it vms test st o tests l = (Raise e, l ++ n1)) \/
      does (cleanup orig all_vm_names) l n1 (Ok tt) /\
      if keep_going then after_it vms test st o tests l = run_on tests (counted vms test st o) (l ++ n1)
      else after_it vms test st o tests l =
        (Ok (inr (o_exit_code o, results (counted vms test st o), num_successful st, S (num_total st))), l ++ n1)).
  { intros st1 Hst ->. destruct (does_appends _ _ l (ssh_cleanup orig all_vm_names)) as (n1 & Hd & _). exists n1.
    unfold after_it. rewrite Hst. unfold after_failure_on, counted. rewrite Hp. mred. unfold does in *. rewrite Hd. cbn [fst].
    destruct (fst (cleanup orig all_vm_names l)) as [[]|e]; [right|left; by exists e]. split; [done|]. by destruct keep_going. }
  unfold after_test in *. unfold passed in Hp. destruct (o_timeout o); [by eapply Ha|]. cbn in Hp. rewrite Hp in *. by eapply Ha.
Qed.

Lemma left_over_run test vms tests k : test ∉ exclude -> ~ k < num_skip ->
  left_over ((test, vms) :: tests) k = (test, vms) :: left_over tests (S k).
Proof.
  intros He Hk. unfold left_over. rewrite filter_cons_True by done.
  replace (num_skip - k) with 0 by lia. by replace (num_skip - S k) with 0 by lia.
Qed.
Lemma left_over_skip test vms tests k : test ∉ exclude -> k < num_skip -> left_over ((test, vms) :: tests) k = left_over tests (S k).
Proof.
  intros He Hk. unfold left_over. rewrite filter_cons_True by done. by replace (num_skip - k) with (S (num_skip - S k)) by lia.
Qed.

(** An ending by which the runner stops has run a test. *)
Lemma stopped_after kg tests l new ex en : RunnerHosts.plays orig all_vm_names kg tests l new ex en -> en = Stopped -> ex <> [].
Proof. by induction 1. Qed.
Lemma run_list_plays tests st l : exists new ex en,
  plays (left_over tests (num_total st + num_skipped st)) l new ex en /\ snd (run_on tests st l) = l ++ new /\ ended st ex en (fst (run_on tests st l)).
Proof.
  revert st l. induction tests as [|[test vms] tests IH]; intros st l.
  { exists [], [], AllDone. unfold left_over. rewrite filter_nil, drop_nil, app_nil_r. split; [constructor|]. split; [done|].
    exists (num_skipped st). unfold count_passed. cbn. rewrite !Nat.add_0_r. by destruct st. }
  destruct (decide (test ∈ exclude)) as [He|He].
  { rewrite run_one_excluded by done. unfold left_over. rewrite filter_cons_False by (cbn; auto). apply IH. }
  destruct (decide (num_total st + num_skipped st < num_skip)) as [Hs|Hs].
  { rewrite run_one_skipped, left_over_skip by done. rewrite <-Nat.add_succ_r. destruct (IH (RunState (results st) (global_exit_code st)
      (num_successful st) (num_total st) (S (num_skipped st))) l) as (new & ex & en & Hall). by exists new, ex, en. }
  rewrite left_over_run by done. destruct (run_one_plays test vms tests st l He Hs) as (n0 & [[Hd Hrun]|(e & Hd & Hrun)]).
  2: { exists n0, [], (Broken e). rewrite Hrun. split; [by apply plays_unprepared|done]. }
  set (o := test_outcome (l ++ n0) test vms) in *. rewrite Hrun. clear Hrun.
  destruct (passed o) eqn:Hp.
  - rewrite after_it_passed by done. destruct (IH (counted vms test st o) ((l ++ n0) ++ [RunTest test vms])) as (new & ex & en & Hpl & Hl & Hen).
    exists (n0 ++ RunTest test vms :: new), ((test, (length vms, o)) :: ex), en. rewrite <-app_assoc in Hpl. split; [by apply plays_passed|].
    split; [rewrite Hl; by rewrite <-!app_assoc|].
    eapply ended_step; [..|exact Hen]; try done; [by rewrite Hp|by eapply stopped_after].
  - destruct (after_it_failed vms test st o tests ((l ++ n0) ++ [RunTest test vms]) Hp) as (n1 & [(e & Hc & ->)|[Hc Hrest]]);
      rewrite <-app_assoc in Hc.
    + exists (n0 ++ RunTest test vms :: n1), [(test, (length vms, o))], (Broken e). split; [by apply plays_uncleaned|].
      split; [cbn; by rewrite <-!app_assoc|done].
    + destruct keep_going eqn:Hk.
      * rewrite Hrest. destruct (IH (counted vms test st o) (((l ++ n0) ++ [RunTest test vms]) ++ n1)) as (new & ex & en & Hpl & Hl & Hen).
        exists (n0 ++ RunTest test vms :: n1 ++ new), ((test, (length vms, o)) :: ex), en. rewrite <-!app_assoc in Hpl.
        split; [by apply plays_kept_going|]. split; [rewrite Hl; by rewrite <-!app_assoc|].
        eapply ended_step; [..|exact Hen]; try done. by eapply stopped_after.
      * rewrite Hrest. exists (n0 ++ RunTest test vms :: n1), [(test, (length vms, o))], Stopped. split; [by apply plays_stopped|].
        split; [cbn; by rewrite <-!app_assoc|]. split; [|done]. unfold count_passed.
        rewrite filter_cons_False by (change (passed o <> true); by rewrite Hp). unfold expected_exit. rewrite Hk. cbn.
        by rewrite Hp, Nat.add_0_r, Nat.add_1_r.
Qed.
(** What [run_tests] returns for an ending of the loop *)
Lemma ended_final ex en r : ended run_start ex en r ->
  (let* x := r in match x with inl st => Ok (global_exit_code st, results st, num_successful st, num_total st) | inr f => Ok f end) =
  match en with Broken e => Raise e | _ => Ok (final_of keep_going ex) end.
Proof.
  unfold ended, final_of. destruct en as [| |e]; [|by intros [-> _]|by intros ->]. intros (s & -> & Hall). cbn. do 4 f_equal.
  unfold expected_exit. destruct keep_going; [done|]. specialize (Hall eq_refl). rewrite Hall.
  destruct (last ex) as [[t [k o]]|] eqn:Hl; [|done]. rewrite forallb_forall in Hall.
  assert (Hp : run_passed (t, (k, o)) = true) by (apply Hall, list_elem_of_In; by apply last_Some_elem_of).
  unfold run_passed in Hp. cbn [snd] in Hp. by rewrite Hp.
Qed.
(** The loop of the whole schedule plays the eligible tests. *)
Lemma loop_plays test_sets l :
  exists new ex en, plays (eligible exclude num_skip all_vm_names test_sets) l new ex en /\
    snd (run_on (scheduled all_vm_names test_sets) run_start l) = l ++ new /\
    ended run_start ex en (fst (run_on (scheduled all_vm_names test_sets) run_start l)).
Proof.
  pose proof (run_list_plays (scheduled all_vm_names test_sets) run_start l) as Hr. unfold left_over in Hr. cbn [num_total num_skipped run_start] in Hr.
  by rewrite Nat.sub_0_r in Hr.
Qed.

(** The tests that were played are those that the specification of [run_tests]
    in [Runner] runs for such answers. *)
Lemma plays_executed tests l new ex en rwp n : plays tests l new ex en -> (forall e, en <> Broken e) ->
  (forall i t k o, ex !! i = Some (t, (k, o)) -> forall vms, rwp (n + i) t vms = o) ->
  executed rwp keep_going n tests = ex.
Proof.
  intros Hp Hen. revert n. induction Hp as [l|t vms tests l n0 e Hd|t vms tests l n0 new ex en Hd o Ho Hp IH|t vms tests l n0 n1 e Hd o Ho Hc|
    t vms tests l n0 n1 Hd o Ho Hc Hk|t vms tests l n0 n1 new ex en Hd o Ho Hc Hk Hp IH]; intros n Hr; [done|by destruct (Hen e)| |by destruct (Hen e)| |].
  - pose proof (Hr 0 t (length vms) o eq_refl vms) as H0. rewrite Nat.add_0_r in H0. cbn [executed]. rewrite H0, Ho, orb_true_r. f_equal.
    apply IH; [done|]. intros i t' k o' Hi vms'. rewrite <-(Hr (S i) t' k o' Hi vms'). f_equal. lia.
  - pose proof (Hr 0 t (length vms) o eq_refl vms) as H0. rewrite Nat.add_0_r in H0. cbn [executed]. rewrite H0.
    by replace (keep_going || passed o) with false by (by rewrite Hk, Ho).
  - pose proof (Hr 0 t (length vms) o eq_refl vms) as H0. rewrite Nat.add_0_r in H0. cbn [executed]. rewrite H0.
    replace (keep_going || passed o) with true by (by rewrite Hk). f_equal.
    apply IH; [done|]. intros i t' k o' Hi vms'. rewrite <-(Hr (S i) t' k o' Hi vms'). f_equal. lia.
Qed.
End playing.

(** ** Lemmas: the versions *)

Lemma span_eq p s : s = fst (span p s) +:+ snd (span p s).
Proof. induction s as [|c s IH]; cbn; [done|]. destruct (p c); [|done]. destruct (span p s) as [t r]. cbn in *. by rewrite sapp_cons, <-IH. Qed.
Lemma match_has_version s v : match_versions s = Some v -> has_sub "version: " s = true.
Proof.
  unfold match_versions, span1. intros Hm. pose proof (span_eq (fun c => negb (is_space c)) s) as Hs.
  destruct (span (fun c => negb (is_space c)) s) as [k r]. cbn [fst snd] in Hs. destruct (decide (k = EmptyString)); [done|].
  destruct (strip_prefix (newline +:+ "version: ") r) as [t|] eqn:Ht; cbn in Hm; rewrite Ht in Hm; [|done].
  apply strip_prefix_Some in Ht. apply has_sub_spec. exists (k +:+ newline), t. by rewrite Hs, Ht, !sapp_assoc.
Qed.
Lemma no_versions fuel s : has_sub "version: " s = false -> find_versions fuel s = [].
Proof.
  revert s. induction fuel as [|fuel IH]; intros s Hs; [done|]. destruct s as [|c s]; [done|]. cbn [find_versions].
  destruct (match_versions (String c s)) as [v|] eqn:Hm; [by rewrite (match_has_version _ _ Hm) in Hs|].
  apply IH. cbn [has_sub] in Hs. by apply orb_false_iff in Hs as [_ Hs].
Qed.

(** ** Properties *)

Section properties.
Context `{Machines} (test_sets : list (nat * list string)) (all_vm_names exclude_tests : list string) (keep_going : bool) (num_skip : nat).

(** C31: the runner removes no logical volume that was there before the first
    test: the volumes of the machines are listed before it, and however the
    tests and the machines behave, a volume is removed only from a machine on
    which it is not in that listing, and right after the script has run there
    that unloads DRBD.  If a listing fails, nothing else is done. *)
Theorem runner_removes_only_new_volumes l :
  let '(r, l') := run_tests_on test_sets all_vm_names exclude_tests keep_going num_skip l in
  exists old new, l' = l ++ old ++ new /\
    Forall (fun a => exists vm, vm ∈ all_vm_names /\ a = Ssh vm lvs_cmd) old /\
    forall before vm lv after, new = before ++ Ssh vm (lvremove lv) :: after ->
      (exists lvs, last_listing (l ++ old) vm lvs /\ lv ∉ lvs) /\ last before = Some (Ssh vm prepare_script).
Proof.
  unfold run_tests_on. mred. destruct (original_only_lists all_vm_names l) as (old & Hl & Ho).
  destruct (original_LVs all_vm_names l) as [[orig|e] l1] eqn:Horig; cbn [snd] in Hl; subst l1.
  2: { exists old, []. rewrite app_nil_r. split_and!; [done|done|]. intros [|] vm lv after Heq; discriminate. }
  destruct (removal_run_list orig all_vm_names exclude_tests keep_going num_skip (scheduled all_vm_names test_sets) run_start (l ++ old)) as (new & Hn & Hr).
  assert (Hgoal : exists old' new', (l ++ old) ++ new = l ++ old' ++ new' /\
    Forall (fun a => exists vm, vm ∈ all_vm_names /\ a = Ssh vm lvs_cmd) old' /\
    forall before vm lv after, new' = before ++ Ssh vm (lvremove lv) :: after ->
      (exists lvs, last_listing (l ++ old') vm lvs /\ lv ∉ lvs) /\ last before = Some (Ssh vm prepare_script)).
  { exists old, new. rewrite <-app_assoc. split_and!; [done|done|]. intros before vm lv after Heq.
    destruct (Hr before vm lv after Heq) as [(lvs & Hg & Hlv) Hlast]. split; [|done]. exists lvs. split; [|done].
    by eapply original_listings. }
  destruct (run_list_on _ _ _ _ _ _ _ (l ++ old)) as [[[st|f]|e] l2]; cbn [snd] in Hn; subst l2; by apply Hgoal.
Qed.

(** C32: the runner lists the volumes of the machines and then plays the tests
    that are eligible, those not excluded and not among the first [num_skip],
    each on the first machines as its set says: it prepares the machines of a
    test, runs the test, and cleans up all machines if it has not passed; it
    goes on behind a failed test only if it is to keep going.  Its exit code,
    its results and its numbers are those of the tests that it has played, each
    with what its program ended with; an exception of a preparation or of a
    clean-up leaves it. *)
Theorem runner_follows_its_schedule l :
  match original_LVs all_vm_names l with
  | (Ok orig, l1) =>
      exists new ex en, plays orig all_vm_names keep_going (eligible exclude_tests num_skip all_vm_names test_sets) l1 new ex en /\
        run_tests_on test_sets all_vm_names exclude_tests keep_going num_skip l =
          (match en with Broken e => Raise e | _ => Ok (final_of keep_going ex) end, l1 ++ new)
  | (Raise e, l1) => run_tests_on test_sets all_vm_names exclude_tests keep_going num_skip l = (Raise e, l1)
  end.
Proof.
  unfold run_tests_on. mred. destruct (original_LVs all_vm_names l) as [[orig|e] l1]; [|done].
  destruct (loop_plays orig all_vm_names exclude_tests keep_going num_skip test_sets l1) as (new & ex & en & Hp & Hl & Hen).
  exists new, ex, en. split; [done|]. apply ended_final in Hen. rewrite <-Hen. mred. rewrite <-Hl.
  by destruct (run_list_on _ _ _ _ _ _ _ l1) as [[[st|f]|e] l2].
Qed.
End properties.

(** the versions are found in the release of the kernel and the version
    file: the first line, the number behind the word [version], up to the
    first character that is no digit, dot or dash, and the hash of the source
    in lower case. *)
Theorem software_versions_are_read kern_ver drbd_ver middle drbd_git rest :
  kern_ver <> EmptyString -> sall (fun c => negb (is_space c)) kern_ver = true ->
  drbd_ver <> EmptyString -> sall is_version_char drbd_ver = true -> ends is_version_char (middle +:+ "G") ->
  sall (fun c => negb (bool_decide (c = "G"%char))) middle = true ->
  drbd_git <> EmptyString -> sall is_lower_hex drbd_git = true -> ends is_lower_hex rest -> has_sub "version: " rest = false ->
  parse_versions (kern_ver +:+ newline +:+ "version: " +:+ drbd_ver +:+ middle +:+ "GIT-hash: " +:+ drbd_git +:+ rest) =
    Ok (kern_ver, drbd_ver, drbd_git).
Proof.
  intros Hk Hk' Hd Hd' Hm Hm' Hg Hg' Hr Hrest. set (s := kern_ver +:+ _).
  assert (Hmatch : match_versions s = Some (kern_ver, drbd_ver, drbd_git, rest)).
  { unfold match_versions, s. rewrite span1_app by done. cbn [mbind option_bind].
    rewrite <-(sapp_assoc newline "version: "), strip_prefix_app. cbn [mbind option_bind].
    rewrite span1_app; [|done..|by destruct middle]. cbn [mbind option_bind]. rewrite span_app by done. cbn [snd].
    rewrite strip_prefix_app. cbn [mbind option_bind]. by rewrite span1_app. }
  unfold parse_versions. destruct s as [|c t] eqn:Hs; [done|]. change (slen (String c t)) with (S (slen t)). cbn [find_versions].
  by rewrite Hmatch, no_versions.
Qed.

(** ** Witnesses *)

Definition demo_version_file : string :=
  " (api:2/proto:118-122)" +:+ newline.
Lemma software_versions_are_read_witness :
  parse_versions ("6.1.0-18-amd64" +:+ newline +:+ "version: " +:+ "9.2.8" +:+ demo_version_file +:+ "GIT-hash: " +:+ "e163b05a" +:+
    (" build by root@drbd-test" +:+ newline)) = Ok ("6.1.0-18-amd64", "9.2.8", "e163b05a").
Proof. apply (software_versions_are_read "6.1.0-18-amd64" "9.2.8" demo_version_file "e163b05a"); first [discriminate|vm_compute; reflexivity]. Defined.
(** Of the version of a release candidate, the dash stays. *)
Example candidate_version :
  parse_versions ("6.1.0" +:+ newline +:+ "version: 9.2.13-rc.1 (api:2)" +:+ newline +:+ "GIT-hash: 0a1b") = Ok ("6.1.0", "9.2.13-", "0a1b").
Proof. vm_compute. reflexivity. Qed.

(** The only test fails and leaves a volume behind on [b]; DRBD does not go
    down there at first, since a process holds a device. *)
#[local] Instance demo_machines : Machines := {
  exited := fun l vm cmd =>
    if bool_decide (cmd = "lvs --noheadings -o lv_path") then
      (0%Z, "  /dev/vg/root" +:+ newline +:+ (if bool_decide (vm = "b" /\ tests_in l = 1) then "  /dev/vg/left" +:+ newline else EmptyString), EmptyString)
    else if bool_decide (vm = "b" /\ cmd = down_cmd /\ length l <= 6) then (11%Z, EmptyString, "0: opened by dd (pid 77) at 2024")
    else if startswith "test -d" cmd then (1%Z, EmptyString, EmptyString) else (0%Z, EmptyString, EmptyString);
  takes_long := fun _ _ _ => false;
  test_outcome := fun _ _ _ => Outcome 3 (QArith_base.Qmake 2 1) false
}.
Example demo_recovery : let r := run_tests_on [(2, ["resync"])] ["a"; "b"] [] false 0 [] in
  fst r = Ok (3%Z, [("resync", Result (Outcome 3 (QArith_base.Qmake 2 1) false) 2)], 0, 1) /\
  filter (fun a => match a with Ssh _ c => startswith "kill" c || startswith "lvremove" c | _ => false end = true) (snd r) =
    [Ssh "b" "kill -9 77"; Ssh "b" "lvremove -f /dev/vg/left"].
Proof. vm_compute. split; reflexivity. Qed.
