(* ===== verification/VmshedMain.v ===== *)
(** * The main program of the test list generator (src/virter/vmshed_tests_generator.py)

    The command line, the configuration in the JSON line of each test, and all
    the lines that are written.  A configuration is looked at as a whole when it
    is read: one that has another shape is an error then, and not at the place
    that uses it. *)

From S2P Require Import Prelude PyStr Dict Json Versions ArgParse.

(** ** The command line *)

Definition vmshed_parser : parser := [
  help_action;
  with_default (AStr "tests") (text_option "--tests-dir");
  with_choices ["all"; "ci"; "rdma_ci"] (with_default (AStr "all") (text_option "--selection"));
  text_option "--drbd-version";
  text_option "--drbd-version-other";
  Action ["--default-variants"] "default_variants" (Store OneOrMore) TStr None
    (AList (map AStr ["tcp"; "rdma"; "second_is_other"; "mainline"]));
  with_default (AStr "15m") (text_option "--test-timeout")
].
Record vmshed_args := VmshedArgs {
  va_tests_dir : string;
  va_selection : string;
  va_drbd_version : option string;
  va_drbd_version_other : option string;
  va_default_variants : list string;
  va_test_timeout : string
}.
Definition vmshed_args_of (ns : namespace) : res vmshed_args :=
  let* tests_dir := str_attr ns "tests_dir" in
  let* selection := str_attr ns "selection" in
  let* drbd_version := opt_str_attr ns "drbd_version" in
  let* drbd_version_other := opt_str_attr ns "drbd_version_other" in
  let* default_variants := list_attr ns "default_variants" in
  let* test_timeout := str_attr ns "test_timeout" in
  Ok (VmshedArgs tests_dir selection drbd_version drbd_version_other default_variants test_timeout).
Definition parse_vmshed (argv : list string) : res vmshed_args := let* ns := parse_args vmshed_parser argv in vmshed_args_of ns.

(** ** Configurations *)

Definition bad_shape {A} : res A := Raise (TypeError "configuration").
Definition as_text (j : json) : res string := match j with JStr s => Ok s | _ => bad_shape end.
Definition as_int (j : json) : res Z := match j with JNum t => py_int t | _ => bad_shape end.
Definition as_list {A} (f : json -> res A) (j : json) : res (list A) := match j with JList l => map_res l f | _ => bad_shape end.
(** [bool(j)] *)
Definition json_true (j : json) : bool :=
  match j with
  | JNull => false
  | JBool b => b
  | JNum t => match py_int t with Ok z => negb (z =? 0)%Z | Raise _ => true end
  | JStr s => bool_decide (s <> EmptyString)
  | JList l => bool_decide (length l <> 0)
  | JObj l => bool_decide (length l <> 0)
  end.
(** [d.get(key, dflt)] *)
Definition get_or (d : dict string json) (key : string) (dflt : json) : json := default dflt (d_get key d).

Definition as_variant (j : json) : res variant_item :=
  match j with
  | JStr s => Ok (VariantAlways s)
  | JObj d =>
      let* v := res_of_option KeyError (d_get "variant" d) in
      let* min := res_of_option KeyError (d_get "drbd_version_min" d) in
      let* v := as_text v in let* min := as_text min in Ok (VariantFrom v min)
  | _ => bad_shape
  end.
Definition as_network (j : json) : res network :=
  match j with
  | JObj d =>
      let* forward := as_text (get_or d "forward" (JStr EmptyString)) in
      let* domain := as_text (get_or d "domain" (JStr EmptyString)) in
      Ok (Network forward domain (json_true (get_or d "dhcp" JNull)))
  | _ => bad_shape
  end.
(** The lists of a selection; [null] is as good as nothing. *)
Definition is_null (j : json) : bool := match j with JNull => true | _ => false end.
Definition is_selection (p : string * json) : bool := startswith "vms_" (fst p) && negb (is_null (snd p)).
Definition selections (d : list (string * json)) : res (gmap string (list Z)) :=
  list_to_map <$> map_res (filter (fun p => is_selection p = true) d) (fun '(k, j) => let* l := as_list as_int j in Ok (k, l)).
Definition config_of_json (j : json) : res vmshed_config :=
  match j with
  | JObj d =>
      let* vms := selections d in
      let* min := match get_or d "drbd_version_min" JNull with JNull => Ok None | j => Some <$> as_text j end in
      let* tags := (let j := get_or d "vm_tags" JNull in if json_true j then as_list as_text j else Ok []) in
      let* variants := as_list as_variant (get_or d "variants_add" (JList [])) in
      let* nets := as_list as_network (get_or d "networks" (JList [])) in
      Ok (VmshedConfig vms min tags variants (json_true (get_or d "samevms" JNull)) nets)
  | _ => bad_shape
  end.
(** [read_vmshed_json] on the lines of a file *)
Definition read_vmshed_json (lines : list string) : res (option vmshed_config) :=
  match read_vmshed_line lines with
  | Some json_str => let* j := loads json_str in Some <$> config_of_json j
  | None => Ok None
  end.

(** ** The program *)

(** A directory: its names, with the lines of the regular files *)
Definition directory : Type := list (string * option (list string)).
Definition dir_entry_of (file : option (list string)) : res dir_entry :=
  match file with Some lines => TestFile <$> read_vmshed_json lines | None => Ok NotAFile end.
(** A file without [vms_all] is an error before the next file is read. *)
Fixpoint read_directory (tests_dir : string) (d : directory) : res (list (string * dir_entry)) :=
  match d with
  | [] => Ok []
  | (name, file) :: d =>
      let* e := dir_entry_of file in
      let* _ := read_config tests_dir name e in
      let* l := read_directory tests_dir d in
      Ok ((name, e) :: l)
  end.
(** The lines before the tests; [variants] is the text of variants.toml. *)
Definition header_lines (test_timeout variants : string) : list string :=
  ["test_suite_file = " +:+ dquoted "run.toml"; "test_timeout = " +:+ dquoted test_timeout;
   "artifacts = [" +:+ dquoted "/gcov.tar.gz" +:+ "]"; EmptyString; rstrip variants; EmptyString; "[tests]"].
(** What is printed when nothing is raised; the versions are parsed first. *)
Definition vmshed_main (variants : string) (listdir : string -> directory) (argv : list string) : res string :=
  let* a := parse_vmshed argv in
  (* [if args.drbd_version]: an empty text is none *)
  let given v := match v with Some EmptyString => None | v => v end in
  let* v := match given (va_drbd_version a) with None => Ok None | Some s => Some <$> parse_version s end in
  let* o := match given (va_drbd_version_other a) with None => Ok None | Some s => Some <$> parse_version s end in
  let* _ := version_lower v o in
  let* dir := read_directory (va_tests_dir a) (listdir (va_tests_dir a)) in
  let* es := main (va_tests_dir a) (va_selection a) (given (va_drbd_version a)) (given (va_drbd_version_other a)) (va_default_variants a) dir in
  Ok (print_lines (header_lines (va_test_timeout a) variants ++ concat (map entry_lines es))).

(** ** Writing a configuration *)

Definition variant_json (v : variant_item) : json :=
  match v with
  | VariantAlways v => JStr v
  | VariantFrom v min => JObj [("drbd_version_min", JStr min); ("variant", JStr v)]
  end.
Definition network_json (n : network) : json := JObj [("domain", JStr (domain n)); ("forward", JStr (forward n)); ("dhcp", JBool (dhcp n))].
Definition selection_json (p : string * list Z) : string * json := (fst p, JList (map (fun z => JNum (str_int z)) (snd p))).
Definition other_json (c : vmshed_config) : list (string * json) := [
  ("drbd_version_min", match drbd_version_min c with Some s => JStr s | None => JNull end);
  ("vm_tags", JList (map JStr (vm_tags c)));
  ("variants_add", JList (map variant_json (variants_add c)));
  ("samevms", JBool (samevms c));
  ("networks", JList (map network_json (networks c)))
].
Definition config_json (c : vmshed_config) : json := JObj (map selection_json (map_to_list (vms c)) ++ other_json c).
(** The selections have the names that the generator looks for. *)
Definition config_ok (c : vmshed_config) : Prop := map_Forall (fun k _ => startswith "vms_" k = true) (vms c).

Lemma map_res_map {A B C} (f : A -> C) (g : C -> res B) (h : A -> B) l : (forall x, g (f x) = Ok (h x)) -> map_res (map f l) g = Ok (map h l).
Proof. intros Hg. induction l as [|x l IH]; [done|]. cbn [map map_res]. rewrite Hg. mred. rewrite IH. done. Qed.
Lemma as_list_map {A B} (f : A -> json) (g : json -> res B) (h : A -> B) l : (forall x, g (f x) = Ok (h x)) -> as_list g (JList (map f l)) = Ok (map h l).
Proof. apply map_res_map. Qed.
Lemma d_get_skip {V} (k : string) (l r : dict string V) : k ∉ d_keys l -> d_get k (l ++ r) = d_get k r.
Proof.
  unfold d_keys. induction l as [|[k' v] l IH]; [done|]. cbn [map fst app d_get]. rewrite not_elem_of_cons. intros [Hne Hin].
  rewrite decide_False by done. by apply IH.
Qed.

Section config.
Context (c : vmshed_config) (Hc : config_ok c).
Local Abbreviation sels := (map selection_json (map_to_list (vms c))) (only parsing).

Lemma selection_keys k : k ∈ d_keys sels -> startswith "vms_" k = true.
Proof.
  unfold d_keys. rewrite map_map. intros Hk. apply list_elem_of_fmap in Hk as ([k' l] & -> & Hin%elem_of_map_to_list). by apply (Hc k' l).
Qed.
Lemma other_key k dflt : startswith "vms_" k = false -> get_or (sels ++ other_json c) k dflt = get_or (other_json c) k dflt.
Proof. intros Hk. unfold get_or. rewrite d_get_skip; [done|]. intros Hin. apply selection_keys in Hin. congruence. Qed.
Lemma selections_again : selections (sels ++ other_json c) = Ok (vms c).
Proof.
  unfold selections. rewrite filter_app. replace (filter _ (other_json c)) with (@nil (string * json)) by reflexivity. rewrite app_nil_r.
  assert (Hf : filter (fun p => is_selection p = true) sels = sels).
  { apply filter_id. apply Forall_map, Forall_forall. intros [k l] Hin%elem_of_map_to_list. unfold is_selection. cbn. by rewrite (Hc k l). }
  rewrite Hf. assert (Hm : map_res sels (fun '(k, j) => let* l := as_list as_int j in Ok (k, l)) = Ok (map_to_list (vms c))).
  { rewrite (map_res_map selection_json _ id); [by rewrite map_id|]. intros [k l]. cbn [selection_json fst snd].
    by rewrite (as_list_map (fun z => JNum (str_int z)) as_int id), map_id by (intros z; apply py_int_str_int). }
  rewrite Hm. cbn. by rewrite list_to_map_to_list.
Qed.
Lemma config_again : config_of_json (config_json c) = Ok c.
Proof.
  unfold config_of_json, config_json. rewrite selections_again. mred. rewrite !other_key by done.
  change (get_or (other_json c) "drbd_version_min" JNull) with (match drbd_version_min c with Some s => JStr s | None => JNull end).
  change (get_or (other_json c) "vm_tags" JNull) with (JList (map JStr (vm_tags c))).
  change (get_or (other_json c) "variants_add" (JList [])) with (JList (map variant_json (variants_add c))).
  change (get_or (other_json c) "samevms" JNull) with (JBool (samevms c)).
  change (get_or (other_json c) "networks" (JList [])) with (JList (map network_json (networks c))).
  rewrite (as_list_map JStr as_text id), (as_list_map variant_json as_variant id), (as_list_map network_json as_network id), !map_id by (by intros []).
  destruct c as [vms min tags variants same nets]. cbn [vm_tags drbd_version_min variants_add samevms networks Versions.vms]. by destruct tags, min.
Qed.
Lemma config_json_wf : json_wf (config_json c).
Proof.
  split.
  - rewrite map_app. apply NoDup_app. split_and!.
    + rewrite map_map. exact (NoDup_fst_map_to_list (vms c)).
    + intros k Hk Hin. apply selection_keys in Hk. cbn in Hin. rewrite !elem_of_cons, elem_of_nil in Hin. by destruct_or! Hin; subst k.
    + apply (bool_decide_unpack _). vm_compute. exact I.
  - apply (fold_wf (fun p : string * json => json_wf (snd p))), Forall_app. split.
    + apply Forall_map, Forall_true. intros [k l]. cbn. apply (fold_wf json_wf), Forall_map, Forall_true. intros z. apply number_str_int.
    + unfold other_json. repeat apply List.Forall_cons; try apply List.Forall_nil; cbn [snd].
      * by destruct (drbd_version_min c).
      * by apply (fold_wf json_wf), Forall_map, Forall_true.
      * apply (fold_wf json_wf), Forall_map, Forall_true. intros [v|v min]; [done|]. split; [apply (bool_decide_unpack _); vm_compute; exact I|done].
      * done.
      * apply (fold_wf json_wf), Forall_map, Forall_true. intros n. split; [apply (bool_decide_unpack _); vm_compute; exact I|done].
Qed.
End config.

(** C36: The first line of a test with the prefix is its configuration: what
    is written there is what the generator works with, whatever other lines the
    test has. *)
Theorem configuration_is_read before after c : config_ok c -> Forall (fun l => startswith vmshed_prefix l = false) before ->
  read_vmshed_json (before ++ (vmshed_prefix +:+ dumps (config_json c) +:+ newline) :: after) = Ok (Some c).
Proof.
  intros Hc Hb. assert (Hl : read_vmshed_line (before ++ (vmshed_prefix +:+ dumps (config_json c) +:+ newline) :: after) = Some (dumps (config_json c) +:+ newline)).
  { induction Hb as [|l before Hl _ IH]; cbn [app read_vmshed_line]; [by rewrite strip_prefix_app|].
    unfold startswith in Hl. by destruct (strip_prefix vmshed_prefix l). }
  unfold read_vmshed_json. rewrite Hl. unfold loads. rewrite json_loads_doc by (done || by apply config_json_wf). mred.
  by rewrite config_again.
Qed.

(** ** Witnesses *)

Definition demo_header : string := vmshed_prefix +:+ dumps (config_json example_config) +:+ newline.
Lemma configuration_is_read_witness :
  read_vmshed_json (["#! /usr/bin/env python3"] ++ demo_header :: ["from python import drbdtest"]) = Ok (Some example_config).
Proof. apply configuration_is_read; [|by repeat constructor]. apply (bool_decide_unpack _). vm_compute. exact I. Defined.
Example demo_list : vmshed_main "[variants.tcp]" (fun d => if decide (d = "tests") then [("connect", Some [demo_header]); ("lib", None)] else [])
    ["--selection"; "ci"; "--default-variants"; "tcp"; "rdma"; "--drbd-version=9.2.1"] =
  Ok (print_lines ["test_suite_file = " +:+ dquoted "run.toml"; "test_timeout = " +:+ dquoted "15m"; "artifacts = [" +:+ dquoted "/gcov.tar.gz" +:+ "]"; "";
    "[variants.tcp]"; ""; "[tests]"; "[tests.connect]"; "vms = [2]"; "variants = ['rdma', 'tcp', 'tls']"; ""]).
Proof. vm_compute. reflexivity. Qed.
