(* ===== verification/RunMain.v ===== *)
(** * The main program of the local test runner (src/run.py)

    The command line, the sets of tests, the iterations, and the file with the
    results, which is read at the beginning and written at the end or at an
    interrupt; and the table of [analyze].  Times and rates are rationals: how
    a floating point number is written to the file and read again is an
    interface.  The number of machines of a test set is taken for a natural
    number, and its tests for texts, before its first test is run. *)

From S2P Require Import Prelude PyStr Dict Json Host HostSetup World Lifecycle Tls Setup ArgParse Logging SetupArgs LocalSetup ClusterSetup Runner RunnerHosts.
From Stdlib Require Import QArith Qround.
#[local] Open Scope nat_scope.
#[local] Set Warnings "-register-all".

(** ** The command line *)

Definition run_parser : parser := [
  help_action;
  Action [] "vm_name" (Store ZeroOrMore) TStr None ANone;
  Action ["-f"; "--test-set-file"] "test_set_file" (Store One) TStr None (AStr "tests.drbd9.json");
  Action ["-n"; "--not"] "exclude" Append TStr None (AList []);
  Action ["-r"; "--run"] "run" Append TStr None (AList []);
  Action ["-k"; "--keep-going"] "keep_going" StoreTrue TStr None (ABool false);
  Action ["-a"; "--analyze"] "analyze" StoreTrue TStr None (ABool false);
  Action ["-i"; "--iterations"] "iterations" (Store One) TInt None (AInt 1);
  Action ["-s"; "--skip"] "num_skip" (Store One) TInt None (AInt 0)
].
Record run_args := RunArgs {
  ra_vm_name : list string;
  ra_test_set_file : string;
  ra_exclude : list string;
  ra_run : list string;
  ra_keep_going : bool;
  ra_analyze : bool;
  ra_iterations : Z;
  ra_num_skip : Z
}.
Definition run_args_of (ns : namespace) : res run_args :=
  let* vm_name := list_attr ns "vm_name" in
  let* test_set_file := str_attr ns "test_set_file" in
  let* exclude := list_attr ns "exclude" in
  let* run := list_attr ns "run" in
  let* iterations := int_attr ns "iterations" in
  let* num_skip := int_attr ns "num_skip" in
  Ok (RunArgs vm_name test_set_file exclude run (flag_attr ns "keep_going") (flag_attr ns "analyze") iterations num_skip).
Definition parse_run (argv : list string) : res run_args := let* ns := parse_args run_parser argv in run_args_of ns.

Definition given_run_args (a : run_args) : list (string * given) := [
  ("--test-set-file", Text (Some (ra_test_set_file a)));
  ("--not", Texts (ra_exclude a));
  ("--run", Texts (ra_run a));
  ("--keep-going", Flag (ra_keep_going a));
  ("--analyze", Flag (ra_analyze a));
  ("--iterations", Number (Some (ra_iterations a)));
  ("--skip", Number (Some (ra_num_skip a)))
].
Definition run_line (a : run_args) : list string := render_options (given_run_args a) ++ ra_vm_name a.

Lemma run_parser_plain : plain_parser run_parser.
Proof. apply (bool_decide_unpack _). vm_compute. exact I. Qed.
Lemma run_takes_vms : takes_names run_parser "vm_name".
Proof. eexists. split; [|done]. reflexivity. Qed.
Definition run_acceptable (a : run_args) : Prop :=
  Forall plain_name (ra_vm_name a) /\ Forall (fun s => s <> "--") (ra_test_set_file a :: ra_exclude a ++ ra_run a).
Lemma given_run_args_ok a : run_acceptable a -> Forall (given_ok run_parser) (given_run_args a).
Proof.
  intros (_ & Hf). apply Forall_cons in Hf as [H1 [H2 H3]%Forall_app].
  assert (Hfree : forall b l, a_choices b = None -> Forall (fun s => s <> "--") l -> Forall (accepts b) l).
  { intros b l Hb Hl. eapply Forall_impl; [exact Hl|]. intros s. by apply accepts_free. }
  unfold given_run_args. repeat apply List.Forall_cons; try apply List.Forall_nil;
    (eapply given_ok_intro; [reflexivity|vm_compute; reflexivity|]); cbn -[accepts]; split_and?; try reflexivity; apply Hfree; try done.
  by apply Forall_singleton.
Qed.
(** The runner's own command line is read back, the names that are repeated in
    their order. *)
Lemma run_line_is_read_back a : run_acceptable a -> parse_run (run_line a) = Ok a.
Proof.
  intros Ha. destruct (parse_line run_parser "vm_name" (given_run_args a) (ra_vm_name a) run_parser_plain run_takes_vms (given_run_args_ok a Ha) (proj1 Ha))
    as (ns & Hp & Hattr).
  unfold parse_run, run_line. rewrite Hp. mred. destruct a as [vms file exclude run keep analyze iterations skip]. unfold run_args_of.
  rewrite (read_names ns "vm_name" vms) by (rewrite Hattr; reflexivity).
  rewrite (read_names ns "exclude" exclude) by (rewrite Hattr; vm_compute; by destruct exclude).
  rewrite (read_names ns "run" run) by (rewrite Hattr; vm_compute; by destruct run).
  rewrite (read_string ns "test_set_file" file), (read_int ns "iterations" iterations), (read_int ns "num_skip" skip),
    (read_flag ns "keep_going" keep), (read_flag ns "analyze" analyze) by (rewrite Hattr; vm_compute; reflexivity).
  reflexivity.
Qed.

(** ** The file with the results *)

(** How the encoder writes a floating point number, and what the decoder takes
    it for *)
Class FloatText := {
  float_text : Q -> string;
  float_value : string -> Q
}.
(** A number that was written is a number, and is read as it was. *)
Class FloatTextOk `{FloatText} : Prop := {
  float_is_number : forall q, scan_number (float_text q) = Some (float_text q, EmptyString);
  float_again : forall q, (float_value (float_text q) == q)%Q
}.

Section database.
Context `{FloatText}.

(** *** Writing *)

Definition result_json (r : result) : json :=
  JObj [("exit_code", JNum (str_int (o_exit_code (r_outcome r)))); ("run_time", JNum (float_text (o_run_time (r_outcome r))));
        ("timeout", JBool (o_timeout (r_outcome r))); ("nodes", JNum (str_nat (r_nodes r)))].
Definition results_json (rs : dict string result) : json := JObj (map (fun '(name, r) => (name, result_json r)) rs).
(** What is appended after an iteration *)
Definition entry_json (versions : string * string * string) (date_time : string) (rs : dict string result) : json :=
  let '(kern_ver, drbd_ver, drbd_git) := versions in
  JObj [("version", JStr drbd_ver); ("git_hash", JStr drbd_git); ("kernel", JStr kern_ver); ("date_time", JStr date_time); ("results", results_json rs)].

(** *** Reading *)

(** [d.get(key)] *)
Definition json_get (key : string) (j : json) : res json :=
  match j with
  | JObj l => Ok (default JNull (d_get key l))
  | _ => Raise (AttributeError "object has no attribute 'get'")
  end.
(** What [find_statistics] reads of the result of a test; the time only of a
    run that succeeded *)
Definition json_exit_code (j : json) : option Z :=
  match j with
  | JNum t => match py_int t with Ok z => Some z | Raise _ => None end
  | JBool b => Some (if b then 1 else 0)%Z
  | _ => None
  end.
Definition json_time (j : json) : res Q :=
  match j with
  | JNum t => Ok (float_value t)
  | JBool b => Ok (if b then 1 else 0)%Q
  | _ => Raise (TypeError "unsupported operand type(s) for +=")
  end.
Definition params_of (j : json) : res params :=
  let* exit_code := json_get "exit_code" j in
  let code := json_exit_code exit_code in
  if decide (code = Some 0%Z) then
    let* run_time := json_get "run_time" j in
    let* q := json_time run_time in
    Ok (Runner.Params code q)
  else Ok (Runner.Params code 0%Q).
Definition entry_params (j : json) : res (dict string params) :=
  let* rs := json_get "results" j in
  match rs with
  | JObj l => map_res l (fun '(name, r) => let* p := params_of r in Ok (name, p))
  | _ => Raise (AttributeError "object has no attribute 'items'")
  end.
Definition database_params (db : list json) : res (list (dict string params)) := map_res db entry_params.

(** [json.load] of the file, or no results if there is none *)
Definition read_database (file : option string) : res (list json) :=
  match file with
  | None => Ok []
  | Some text =>
      let* j := loads text in
      match j with JList l => Ok l | _ => Raise (AttributeError "object has no attribute 'append'") end
  end.
Definition write_database (db : list json) : string := dumps (JList db).

(** ** The sets of tests *)

(** Sets, up to the exception that ends them, if one does *)
Definition sets : Type := list (nat * list string) * option exn.

(** A set of the file: its number of machines, and its tests if there are as many *)
Definition json_nat (j : json) : res nat :=
  match j with
  | JNum t => let* z := py_int t in if decide (0 <= z)%Z then Ok (Z.to_nat z) else Raise (ValueError "vms")
  | _ => Raise (TypeError "'<' not supported")
  end.
Definition json_texts (j : json) : res (list string) :=
  match j with
  | JList l => map_res l (fun t => match t with JStr s => Ok s | _ => Raise (TypeError "can only concatenate str") end)
  | _ => Raise (TypeError "object is not iterable")
  end.
Definition test_set_of (n_vms : nat) (j : json) : res (nat * list string) :=
  let* vms := json_key "vms" j in
  let* n := json_nat vms in
  if decide (n_vms < n) then Ok (n, [])
  else let* tests := json_key "tests" j in let* l := json_texts tests in Ok (n, l).
Fixpoint sets_of_docs (n_vms : nat) (docs : list json) (e : option exn) : sets :=
  match docs with
  | [] => ([], e)
  | j :: docs => match test_set_of n_vms j with
                 | Ok s => let '(l, e) := sets_of_docs n_vms docs e in (s :: l, e)
                 | Raise x => ([], Some x)
                 end
  end.
(** The file of test sets, which may be missing; its length is fuel enough. *)
Definition file_sets (n_vms : nat) (file : option string) : sets :=
  match file with
  | None => ([], Some (OSError "ENOENT"))
  | Some text =>
      let '(docs, e) := stream_read_json (S (slen text)) text 0 in
      sets_of_docs n_vms docs (match e with StreamRaises x => Some x | _ => None end)
  end.
(** The sets of [--run]; nothing is yielded before all are there. *)
Definition named_sets (report : string -> res string) (tests : list string) (n_vms : nat) : sets :=
  match generate_test_set report (Z.of_nat n_vms) tests with
  | Ok l => (map (fun '(n, t) => (Z.to_nat n, t)) l, None)
  | Raise x => ([], Some x)
  end.

(** ** The iterations *)

Section main.
Context `{Machines} (report : string -> res string) (test_set_text : option string) (stamps : nat -> string) (a : run_args).

(** [run_tests] on a generator of sets *)
Definition run_sets (s : sets) (all_vm_names exclude_tests : list string) (keep_going : bool) (num_skip : nat) : M (list action) final :=
  let* original_lvs := original_LVs all_vm_names in
  let* r := run_list_on original_lvs all_vm_names exclude_tests keep_going num_skip (scheduled all_vm_names (fst s)) run_start in
  match r with
  | inl st => match snd s with
              | Some e => raise e
              | None => mret (global_exit_code st, results st, num_successful st, num_total st)
              end
  | inr f => mret f
  end.

Definition chosen_sets : sets :=
  let n := length (ra_vm_name a) in
  match ra_run a with [] => file_sets n test_set_text | tests => named_sets report tests n end.

(** The actions; the file; and the results, which the handler of the interrupt
    sees, too *)
Record run := Run { rn_actions : list action; rn_file : option string; rn_db : list json }.
Definition on_actions {A} (m : M (list action) A) : M run A := zoom rn_actions (fun l s => Run l (rn_file s) (rn_db s)) m.
Definition save : M run unit := modify (fun s => Run (rn_actions s) (Some (write_database (rn_db s))) (rn_db s)).

(** The body of the loop: its exit code, and the totals *)
Definition iteration (versions : string * string * string) (i : nat) (acc : option Z * nat * nat) : M run (option Z * nat * nat) :=
  let '(_, total_successful, total_ran) := acc in
  let* s := get in
  let* _ := lift (database_params (rn_db s)) in
  let* r := on_actions (run_sets chosen_sets (ra_vm_name a) (ra_exclude a) (ra_keep_going a) (Z.to_nat (ra_num_skip a))) in
  let '(exit_code, rs, num_successful, num_total) := r in
  modify (fun s => Run (rn_actions s) (rn_file s) (rn_db s ++ [entry_json versions (stamps i) rs])) ;;;
  mret (Some exit_code, total_successful + num_successful, total_ran + num_total).
Definition iterations (n : nat) (versions : string * string * string) : M run (option Z * nat * nat) :=
  fold_each (seq 0 n) (fun acc i => iteration versions i acc) (None, 0, 0).

(** [main], from the versions on; without an iteration there is no exit code. *)
Definition load_database : M run unit :=
  let* s := get in let* db := lift (read_database (rn_file s)) in put (Run (rn_actions s) (rn_file s) db).
Definition run_iterations (versions : string * string * string) (n : nat) : M run (option Z * nat * nat) :=
  load_database ;;; iterations n versions.
Definition main : M run Z :=
  when (bool_decide (ra_vm_name a = [])) (raise (SystemExit 1)) ;;;
  let* versions := on_actions (collect_software_versions (ra_vm_name a)) in
  let* r := run_iterations versions (Z.to_nat (ra_iterations a)) in
  save ;;;
  lift (res_of_option (NameError "exit_code") (fst (fst r))).
(** An interrupt while iteration [i] goes on: the handler writes what the
    iterations before have found; what is done of iteration [i] itself is left out. *)
Definition main_interrupted (i : nat) : M run Z :=
  when (bool_decide (ra_vm_name a = [])) (raise (SystemExit 1)) ;;;
  let* versions := on_actions (collect_software_versions (ra_vm_name a)) in
  run_iterations versions i ;;;
  save ;;;
  raise (SystemExit 0).
End main.
End database.

(** ** The table of [analyze] *)

Definition esc : string := String "027" EmptyString.
Definition NORMAL : string := esc +:+ "[0m".
Definition GREEN : string := esc +:+ "[32m".
Definition RED : string := esc +:+ "[91m".
Definition YELLOW : string := esc +:+ "[33m".
Definition GRAY_BACKGROUND : string := esc +:+ "[40;1m".

Definition blanks (n : nat) : string := of_chars (repeat " "%char n).
(** The fields [{:<n}] and [{:>n}] *)
Definition left_field (n : nat) (s : string) : string := s +:+ blanks (n - slen s).
Definition right_field (n : nat) (s : string) : string := blanks (n - slen s) +:+ s.
(** [round(q, 2)], in hundredths: to the even number when it is half way *)
Definition round_even (q : Q) : Z :=
  let f := Qfloor q in let d := (q - inject_Z f)%Q in
  if Qle_bool d (1 # 2) then (if Qeq_bool d (1 # 2) && Z.odd f then f + 1 else f)%Z else (f + 1)%Z.
Definition hundredths (q : Q) : Z := round_even (q * 100)%Q.
(** The text of such a number that is not negative: one digit at least after the point *)
Definition hundredths_text (h : Z) : string :=
  str_int (h / 100) +:+ "." +:+
    (if decide (h mod 10 = 0)%Z then str_int (h / 10 mod 10) else str_int (h / 10 mod 10) +:+ str_int (h mod 10)).

Definition stat_line (name : string) (st : stat) : string :=
  let success_rate := hundredths (default 0 (success_rate st) * 100)%Q in
  let color := if decide (success_rate = 0)%Z then RED else if decide (success_rate = 10000)%Z then GREEN else YELLOW in
  let secs := match average_runtime st with
              | Some av => if Qeq_bool av 0 then " -----" else hundredths_text (hundredths av)
              | None => " -----"
              end in
  left_field 29 name +:+ "  " +:+ right_field 5 (str_nat (default 0 (st_count st))) +:+ "     " +:+ color +:+
    right_field 5 (hundredths_text success_rate) +:+ "%" +:+ NORMAL +:+ "        " +:+ right_field 6 secs +:+ "s".
Definition header_line : string :=
  GRAY_BACKGROUND +:+ left_field 29 "Test Name" +:+ "  " +:+ right_field 5 "Count" +:+ "   " +:+ right_field 8 "Success" +:+ "   " +:+
    right_field 6 "Avg. Runtime" +:+ NORMAL.
(** The lines that [analyze] prints for the file *)
Definition analyze_lines `{FloatText} (file : option string) : res (list string) :=
  let* db := read_database file in
  let* ps := database_params db in
  let* sorted_stats := analyze ps in
  Ok (header_line :: map (fun '(name, st) => stat_line name st) sorted_stats).

(** The whole program: what it prints at the end, and its exit code if it is
    [main] that decides *)
Definition run_program `{FloatText} `{Machines} (report : string -> res string) (test_set_text : string -> option string) (stamps : nat -> string)
    (argv : list string) : M run (list string) :=
  let* a := lift (parse_run argv) in
  if ra_analyze a then let* s := get in lift (analyze_lines (rn_file s))
  else main report (test_set_text (ra_test_set_file a)) stamps a ;;; mret [].

(** ** Lemmas: the database *)

Section database_theory.
Context `{FloatTextOk}.

Lemma result_json_wf r : json_wf (result_json r).
Proof.
  split; [apply (bool_decide_unpack _); vm_compute; exact I|]. cbn -[str_int float_text]. split_and!; try done; try apply number_str_int.
  apply float_is_number.
Qed.
Lemma results_json_wf rs : NoDup (d_keys rs) -> json_wf (results_json rs).
Proof.
  intros Hnd. split.
  - rewrite map_map. replace (map (fun x => fst (let '(name, r) := x in (name, result_json r))) rs) with (d_keys rs); [done|].
    apply map_ext. by intros [name r].
  - apply (fold_wf (fun p : string * json => json_wf (snd p))). apply Forall_map, Forall_true. intros [name r]. apply result_json_wf.
Qed.
Lemma entry_json_wf v d rs : NoDup (d_keys rs) -> json_wf (entry_json v d rs).
Proof.
  intros Hnd. destruct v as [[kern drbd] git]. split; [apply (bool_decide_unpack _); vm_compute; exact I|]. cbn -[results_json].
  split_and!; try done. by apply results_json_wf.
Qed.

(** What is read of a result is what was written. *)
Definition counts (x : string * result) (y : string * params) : Prop :=
  fst y = fst x /\ p_exit_code (snd y) = Some (o_exit_code (r_outcome (snd x))) /\
  (o_exit_code (r_outcome (snd x)) = 0%Z -> p_run_time (snd y) == o_run_time (r_outcome (snd x)))%Q.
Lemma params_of_result name r : exists p, params_of (result_json r) = Ok p /\ counts (name, r) (name, p).
Proof.
  assert (He : json_get "exit_code" (result_json r) = Ok (JNum (str_int (o_exit_code (r_outcome r))))) by reflexivity.
  assert (Ht : json_get "run_time" (result_json r) = Ok (JNum (float_text (o_run_time (r_outcome r))))) by reflexivity.
  unfold params_of, counts. rewrite He, Ht. mred. cbn [json_exit_code json_time]. rewrite py_int_str_int. case_decide as Hd.
  - eexists. split; [done|]. cbn. injection Hd as Hd. rewrite Hd. split_and!; [done..|]. intros _. apply float_again.
  - eexists. split; [done|]. cbn. split_and!; [done..|]. intros Hz. by rewrite Hz in Hd.
Qed.
Lemma entry_params_again v d rs : exists ps, entry_params (entry_json v d rs) = Ok ps /\ Forall2 counts rs ps.
Proof.
  destruct v as [[kern drbd] git]. unfold entry_params.
  assert (Hr : json_get "results" (entry_json (kern, drbd, git) d rs) = Ok (results_json rs)) by reflexivity. rewrite Hr. unfold results_json. mred. clear Hr.
  induction rs as [|[name r] rs (ps & Hps & Hc)]; [by exists []|]. cbn [map map_res].
  destruct (params_of_result name r) as (p & Hp & Hn). exists ((name, p) :: ps). rewrite Hp. mred. rewrite Hps. split; [done|by constructor].
Qed.

Lemma read_write db : Forall json_wf db -> read_database (Some (write_database db)) = Ok db.
Proof.
  intros Hwf. unfold read_database, write_database. rewrite loads_dumps; [done|]. by apply (fold_wf json_wf).
Qed.
Lemma unfold_wf {A} (f : A -> Prop) l : fold_right (fun x P => f x /\ P) True l -> Forall f l.
Proof. induction l as [|x l IH]; [constructor|]. cbn. intros []. constructor; auto. Qed.
Lemma read_wf file db : read_database file = Ok db -> Forall json_wf db.
Proof.
  unfold read_database. destruct file as [text|]; [|intros [= <-]; constructor]. destruct (loads text) as [j|] eqn:Hl; [|done]. mred.
  apply loads_wf in Hl. destruct j; try done. intros [= <-]. by apply (unfold_wf json_wf).
Qed.
End database_theory.

(** ** Lemmas: the iterations *)

Section iterations_theory.
Context `{FloatTextOk} `{Machines} (report : string -> res string) (test_set_text : option string) (stamps : nat -> string) (a : run_args).
Local Abbreviation iteration := (iteration report test_set_text stamps a) (only parsing).
Local Abbreviation iterations := (iterations report test_set_text stamps a) (only parsing).
Local Abbreviation run_iterations := (run_iterations report test_set_text stamps a) (only parsing).
Local Abbreviation main := (main report test_set_text stamps a) (only parsing).
Local Abbreviation main_interrupted := (main_interrupted report test_set_text stamps a) (only parsing).

(** The tests of an iteration *)
Definition iteration_tests : list (string * list string) :=
  eligible (ra_exclude a) (Z.to_nat (ra_num_skip a)) (ra_vm_name a) (fst (chosen_sets report test_set_text a)).
(** The tests that iterations have played, one list of results for each: every
    iteration lists the volumes of the machines and then plays its tests, and
    none of them ends with an exception. *)
Inductive iterated : list action -> list (list (string * (nat * outcome))) -> list action -> Prop :=
| iterated_none l : iterated l [] l
| iterated_more l exs l1 orig l2 new ex en : iterated l exs l1 ->
    original_LVs (ra_vm_name a) l1 = (Ok orig, l2) ->
    plays orig (ra_vm_name a) (ra_keep_going a) iteration_tests l2 new ex en -> (forall e, en <> Broken e) ->
    iterated l (exs ++ [ex]) (l2 ++ new).
(** The entries for these results *)
Definition entries (v : string * string * string) (exs : list (list (string * (nat * outcome)))) : list json :=
  imap (fun i ex => entry_json v (stamps i) (record_runs ex [])) exs.

Lemma run_sets_plays l :
  match run_sets (chosen_sets report test_set_text a) (ra_vm_name a) (ra_exclude a) (ra_keep_going a) (Z.to_nat (ra_num_skip a)) l with
  | (Ok f, l') => exists orig l2 new ex en, original_LVs (ra_vm_name a) l = (Ok orig, l2) /\
      plays orig (ra_vm_name a) (ra_keep_going a) iteration_tests l2 new ex en /\ (forall e, en <> Broken e) /\
      l' = l2 ++ new /\ f = final_of (ra_keep_going a) ex
  | (Raise _, _) => True
  end.
Proof.
  unfold run_sets. mred. destruct (original_LVs (ra_vm_name a) l) as [[orig|e] l2]; [|done].
  destruct (loop_plays orig (ra_vm_name a) (ra_exclude a) (ra_keep_going a) (Z.to_nat (ra_num_skip a)) (fst (chosen_sets report test_set_text a)) l2)
    as (new & ex & en & Hp & Hl & Hen). apply ended_final in Hen.
  destruct (run_list_on _ _ _ _ _ _ _ l2) as [[r|e] l3]; [|done]. cbn [fst snd] in *. subst l3.
  assert (Hok : forall f, (let* x := Ok r in match x with inl st => Ok (global_exit_code st, results st, num_successful st, num_total st) | inr f => Ok f end) = Ok f ->
    exists orig' l2' new' ex' en', (Ok orig, l2) = (Ok orig', l2') /\ plays orig' (ra_vm_name a) (ra_keep_going a) iteration_tests l2' new' ex' en' /\
      (forall e, en' <> Broken e) /\ l2 ++ new = l2' ++ new' /\ f = final_of (ra_keep_going a) ex').
  { intros f Hf. rewrite Hen in Hf. exists orig, l2, new, ex, en. split_and!; try done; destruct en; congruence. }
  destruct r as [st|f]; [|by apply (Hok f)]. destruct (snd (chosen_sets report test_set_text a)); [done|]. by apply Hok.
Qed.

Lemma iteration_spec v i acc s :
  match iteration v i acc s with
  | (Ok _, s') => rn_file s' = rn_file s /\ exists ex, rn_db s' = rn_db s ++ [entry_json v (stamps i) (record_runs ex [])] /\
      forall l exs, iterated l exs (rn_actions s) -> iterated l (exs ++ [ex]) (rn_actions s')
  | (Raise _, s') => rn_file s' = rn_file s
  end.
Proof.
  unfold RunMain.iteration. destruct acc as [[c ns] nt]. mred. unfold get, lift. destruct (database_params (rn_db s)) as [ps|e]; [|done].
  unfold on_actions, zoom. pose proof (run_sets_plays (rn_actions s)) as Hr.
  destruct (run_sets _ _ _ _ _ _) as [[f|e] l]; [|done]. destruct Hr as (orig & l2 & new & ex & en & Ho & Hp & He & -> & ->).
  unfold final_of. cbn. split; [done|]. exists ex. split; [done|]. intros l exs Hi. by eapply iterated_more.
Qed.
Lemma iterations_spec v n : forall s,
  match iterations n v s with
  | (Ok (c, _, _), s') => rn_file s' = rn_file s /\ (c = None <-> n = 0) /\
      exists exs, length exs = n /\ rn_db s' = rn_db s ++ entries v exs /\ iterated (rn_actions s) exs (rn_actions s')
  | (Raise _, s') => rn_file s' = rn_file s
  end.
Proof.
  assert (Hgen : forall n l exs0 db acc s, iterated l exs0 (rn_actions s) -> rn_db s = db ++ entries v exs0 ->
    match fold_each (seq (length exs0) n) (fun acc i => iteration v i acc) acc s with
    | (Ok _, s') => rn_file s' = rn_file s /\
        exists exs, length exs = length exs0 + n /\ rn_db s' = db ++ entries v exs /\ iterated l exs (rn_actions s')
    | (Raise _, s') => rn_file s' = rn_file s end).
  { clear n. intros n. induction n as [|n IH]; intros l exs0 db acc s Hit Hdb; cbn [seq fold_each].
    - split; [done|]. exists exs0. by rewrite Nat.add_0_r.
    - mred. pose proof (iteration_spec v (length exs0) acc s) as Hi. destruct (iteration v (length exs0) acc s) as [[acc1|e] s1]; [|done].
      destruct Hi as (Hf & ex & Hdb1 & Hit1). specialize (IH l (exs0 ++ [ex]) db acc1 s1 (Hit1 _ _ Hit)).
      rewrite length_app, Nat.add_1_r in IH.
      assert (Hent : rn_db s1 = db ++ entries v (exs0 ++ [ex])).
      { rewrite Hdb1, Hdb, <-app_assoc. unfold entries. rewrite imap_app. cbn. by rewrite Nat.add_0_r. }
      specialize (IH Hent). destruct (fold_each (seq (S (length exs0)) n) _ acc1 s1) as [[acc2|x] s2]; [|congruence].
      destruct IH as (Hf2 & exs & Hl & Hdb2 & Hit2). split; [congruence|]. exists exs. split_and!; [lia|done|done]. }
  intros s. specialize (Hgen n (rn_actions s) [] (rn_db s) (None, 0, 0) s (iterated_none _) (eq_sym (app_nil_r _))).
  cbn [length Nat.add] in Hgen. unfold RunMain.iterations.
  assert (Hc : forall c ns nt s', fold_each (seq 0 n) (fun acc i => iteration v i acc) (None, 0, 0) s = (Ok (c, ns, nt), s') -> (c = None <-> n = 0)).
  { clear Hgen. intros c ns nt s'.
    assert (Hsome : forall l acc s c' s', l <> [] -> fold_each l (fun acc i => iteration v i acc) acc s = (Ok c', s') -> fst (fst c') <> None).
    { clear. induction l as [|i l IH]; intros acc s c' s' Hne; [done|]. cbn [fold_each]. mred.
      destruct (iteration v i acc s) as [[acc1|e] s1] eqn:Hi; [|done]. destruct l as [|j l]; [|by apply IH]. intros [= <- <-].
      revert Hi. unfold RunMain.iteration. destruct acc as [[c ns] nt]. mred. unfold get, lift. destruct (database_params (rn_db s)); [|done].
      destruct (on_actions _ _) as [[[[[code rs] n] k]|e] s2]; [|done]. cbn. by intros [= <- <-]. }
    destruct n as [|n]; [cbn; by intros [= <- <- <- <-]|]. intros Hr. apply Hsome in Hr; [|done]. cbn in Hr. done. }
  destruct (fold_each (seq 0 n) _ _ s) as [[[[c ns] nt]|e] s']; [|done]. destruct Hgen as [Hf Hn]. split_and!; [done|by eapply Hc..|done].
Qed.
Lemma run_iterations_spec v n s :
  match run_iterations v n s with
  | (Ok (c, _, _), s') => rn_file s' = rn_file s /\ (c = None <-> n = 0) /\
      exists old exs, read_database (rn_file s) = Ok old /\ length exs = n /\ rn_db s' = old ++ entries v exs /\
        iterated (rn_actions s) exs (rn_actions s')
  | (Raise _, s') => rn_file s' = rn_file s
  end.
Proof.
  unfold RunMain.run_iterations, load_database. mred. unfold get, lift, put. destruct (read_database (rn_file s)) as [old|e]; [|done].
  pose proof (iterations_spec v n (Run (rn_actions s) (rn_file s) old)) as Hi. destruct (iterations n v _) as [[[[c ns] nt]|e] s']; [|done].
  destruct Hi as (Hf & Hc & exs & Hn & Hdb & Hit). split_and!; [done|apply Hc..|]. by exists old, exs.
Qed.

(** The file in the state [s'] has, after what was in the file in the state [s],
    the results of [n] iterations: for each of them, and for every test that it
    has played, what the program of the test ended with when it was last run.
    The next run reads the same exit codes and times. *)
Definition kept (n : nat) (s s' : run) : Prop :=
  exists old v l exs ps, read_database (rn_file s) = Ok old /\
    collect_software_versions (ra_vm_name a) (rn_actions s) = (Ok v, l) /\
    length exs = n /\ iterated l exs (rn_actions s') /\
    read_database (rn_file s') = Ok (old ++ entries v exs) /\
    database_params (entries v exs) = Ok ps /\ Forall2 (fun ex => Forall2 counts (record_runs ex [])) exs ps.

Lemma run_entries_wf v exs : Forall json_wf (entries v exs).
Proof.
  unfold entries. apply Forall_forall. intros e (i & ex & -> & _)%elem_of_lookup_imap. apply entry_json_wf.
  unfold record_runs. generalize ([] : dict string result) (NoDup_nil_2 : NoDup (d_keys ([] : dict string result))).
  induction ex as [|[t [k o]] ex IH]; intros d Hd; [done|]. cbn [foldl]. apply IH. by apply d_set_NoDup.
Qed.
Lemma entries_params v exs : exists ps, database_params (entries v exs) = Ok ps /\ Forall2 (fun ex => Forall2 counts (record_runs ex [])) exs ps.
Proof.
  unfold entries. generalize stamps. induction exs as [|ex exs IH]; intros f; [by exists []|]. cbn [imap].
  destruct (entry_params_again v (f 0) (record_runs ex [])) as (p & Hp & Hc).
  destruct (IH (fun i => f (S i))) as (ps & Hps & Hf). exists (p :: ps). split; [|by constructor].
  unfold database_params in *. cbn [map_res]. rewrite Hp. mred. cbn in Hps. unfold compose. cbn. by rewrite Hps.
Qed.
Lemma saved_is_kept v l exs s s1 s' old : read_database (rn_file s) = Ok old ->
  collect_software_versions (ra_vm_name a) (rn_actions s) = (Ok v, l) -> iterated l exs (rn_actions s') ->
  rn_db s1 = old ++ entries v exs -> rn_file s' = Some (write_database (rn_db s1)) -> kept (length exs) s s'.
Proof.
  intros Ho Hv Hi Hdb Hf. destruct (entries_params v exs) as (ps & Hps & Hc). exists old, v, l, exs, ps. split_and!; try done.
  rewrite Hf, Hdb. apply read_write. apply Forall_app. split; [by eapply read_wf|apply run_entries_wf].
Qed.

Lemma finished_run_kept v l s (r : option Z * nat * nat) s2 n :
  collect_software_versions (ra_vm_name a) (rn_actions s) = (Ok v, l) ->
  run_iterations v n (Run l (rn_file s) (rn_db s)) = (Ok r, s2) ->
  (fst (fst r) = None <-> n = 0) /\ kept n s (snd (save s2)).
Proof.
  intros Hv Hr. pose proof (run_iterations_spec v n (Run l (rn_file s) (rn_db s))) as Hs. rewrite Hr in Hs. destruct r as [[c ns] nt].
  destruct Hs as (Hf & Hc & old & exs & Ho & <- & Hdb & Hit). split; [done|]. by apply (saved_is_kept v l exs s s2 _ old).
Qed.
Lemma failed_run_keeps_file v n s e s2 : run_iterations v n s = (Raise e, s2) -> rn_file s2 = rn_file s.
Proof. intros Hr. pose proof (run_iterations_spec v n s) as Hs. by rewrite Hr in Hs. Qed.

(** C10: The file with the results only grows: when the runner returns, it
    has everything that was in it and, behind that, one entry for each
    iteration, with the result of every test that the iteration has played, its
    exit code and its time as its program ended, as the next run reads them;
    after an interrupt, the entries of the iterations that had ended.  An
    exception leaves the file as it was, so that the iterations before are
    lost, unless it is the missing exit code of no iterations. *)
Theorem results_are_kept s :
  (forall z s', main s = (Ok z, s') -> kept (Z.to_nat (ra_iterations a)) s s') /\
  (forall e s', main s = (Raise e, s') ->
     rn_file s' = rn_file s \/ e = NameError "exit_code" /\ Z.to_nat (ra_iterations a) = 0 /\ kept 0 s s') /\
  (forall i r s', main_interrupted i s = (r, s') ->
     is_ok r = false /\ (rn_file s' = rn_file s \/ r = Raise (SystemExit 0) /\ kept i s s')).
Proof.
  assert (Hm : forall r s', main s = (r, s') -> match r with
    | Ok _ => kept (Z.to_nat (ra_iterations a)) s s'
    | Raise e => rn_file s' = rn_file s \/ e = NameError "exit_code" /\ Z.to_nat (ra_iterations a) = 0 /\ kept 0 s s' end).
  { intros r s'. unfold RunMain.main, when. case_bool_decide; [intros [= <- <-]; by left|]. mred. unfold on_actions, zoom.
    destruct (collect_software_versions _ _) as [[v|e] l] eqn:Hv; [|intros [= <- <-]; by left].
    destruct (run_iterations v _ _) as [[r1|e] s2] eqn:Hr; [|intros [= <- <-]; left; by apply failed_run_keeps_file in Hr].
    destruct (finished_run_kept v l s r1 s2 _ Hv Hr) as [Hc Hk]. cbn. destruct (fst (fst r1)) as [z|]; intros [= <- <-]; [exact Hk|].
    right. destruct Hc as [Hc _]. specialize (Hc eq_refl). by rewrite Hc in Hk. }
  split_and!; [intros z s' Hr; by apply Hm in Hr|intros e s' Hr; by apply Hm in Hr|]. clear Hm.
  intros i r s'. unfold RunMain.main_interrupted, when. case_bool_decide; [intros [= <- <-]; split; [done|by left]|]. mred. unfold on_actions, zoom.
  destruct (collect_software_versions _ _) as [[v|e] l] eqn:Hv; [|intros [= <- <-]; split; [done|by left]].
  destruct (run_iterations v i _) as [[r1|e] s2] eqn:Hr; [|intros [= <- <-]; split; [done|left; by apply failed_run_keeps_file in Hr]].
  destruct (finished_run_kept v l s r1 s2 i Hv Hr) as [_ Hk]. cbn. intros [= <- <-]. split; [done|]. right. split; [done|]. exact Hk.
Qed.
End iterations_theory.

(** ** The file and the table *)

Section table.
Context `{FloatTextOk} `{Machines} (report : string -> res string) (test_set_text : option string) (stamps : nat -> string) (a : run_args).

Lemma map_res_app {A B} (f : A -> res B) l l' : map_res (l ++ l') f = let* x := map_res l f in let* y := map_res l' f in Ok (x ++ y).
Proof.
  induction l as [|x l IH]; cbn [app map_res]; mred; [by destruct (map_res l' f)|]. destruct (f x) as [y|e]; [|done].
  revert IH. mred. intros ->. destruct (map_res l f) as [ys|e]; [|done]. by destruct (map_res l' f).
Qed.
(** The first iteration has read what is in the file. *)
Lemma iterated_params n s z s' : Z.to_nat (ra_iterations a) = S n -> main report test_set_text stamps a s = (Ok z, s') ->
  exists old ps, read_database (rn_file s) = Ok old /\ database_params old = Ok ps.
Proof.
  intros Hn. unfold main. rewrite Hn. unfold when. case_bool_decide; [done|]. mred. unfold on_actions, zoom.
  destruct (collect_software_versions _ _) as [[v|e] l]; [|done]. unfold run_iterations, load_database. mred. unfold get, lift, put. cbn [rn_file].
  destruct (read_database (rn_file s)) as [old|e]; [|done]. cbn [rn_actions]. unfold iterations. cbn [seq fold_each]. mred.
  intros Hr. exists old. destruct (database_params old) as [ps|e] eqn:Hps; [by exists ps|]. exfalso. revert Hr. unfold iteration. mred. unfold get, lift. cbn [rn_db].
  by rewrite Hps.
Qed.

(** After a run that returns, [analyze] prints its table, one line for each
    test that ever ran. *)
Lemma results_can_be_analyzed n s z s' : Z.to_nat (ra_iterations a) = S n -> kept report test_set_text stamps a (S n) s s' ->
  main report test_set_text stamps a s = (Ok z, s') ->
  exists db ps lines, read_database (rn_file s') = Ok db /\ database_params db = Ok ps /\ analyze_lines (rn_file s') = Ok lines /\
    length lines = S (length (find_statistics ps [])).
Proof.
  intros Hn (old & v & l & exs & qs & Ho & _ & _ & _ & Hr & Hqs & _) Hm. destruct (iterated_params n s z s' Hn Hm) as (old' & ps & Ho' & Hps).
  rewrite Ho in Ho'. injection Ho' as <-.
  assert (Hdb : database_params (old ++ entries stamps v exs) = Ok (ps ++ qs)).
  { unfold database_params in *. rewrite map_res_app, Hps. mred. by rewrite Hqs. }
  destruct (analyze_sorts_the_statistics (ps ++ qs)) as (sorted & Hl & Hperm & _). unfold analyze_lines. rewrite Hr. mred. rewrite Hdb, Hl.
  eexists _, _, _. split_and!; [done|done|done|]. cbn [length]. rewrite length_map. by rewrite (Permutation_length Hperm).
Qed.
End table.

(** ** What a test reports *)

(** What the runner makes of the limits of a test *)
Definition limits_read (least : Z) (most : option Z) : res (Z * Z) :=
  match most with
  | Some (Z.pos m) => Ok (least, Z.pos m)
  | _ => Raise (ValueError "not enough values to unpack")
  end.

(** C33: Started with [--report-and-quit], a test prints its limits, does
    nothing else, and ends with status 0.  From what it has printed the runner
    reads the limits that [setup] was called with, if there is an upper one;
    without one, or with the upper limit zero, it raises [ValueError]. *)
Theorem tests_report_their_limits `{SshServer} `{EventScanner} `{Crypto} `{LocalCommands} patience helper nodes max_nodes min_nodes multi_paths netns
    argv0 date time now (s : site) least most :
  node_limits nodes max_nodes min_nodes = (least, most) -> (0 <= least)%Z -> (forall m, most = Some m -> (0 <= m)%Z) ->
  let '(r, s') := setup patience helper nodes max_nodes min_nodes multi_paths netns argv0 ["--report-and-quit"] date time now s in
  r = Raise (SystemExit 0) /\ st_world s' = st_world s /\ l_files (st_local s') = l_files (st_local s) /\ l_commands (st_local s') = l_commands (st_local s) /\
  exists text, Logger.output Logger.stdout (l_logger (st_local s')) = Logger.output Logger.stdout (l_logger (st_local s)) ++ [text] /\
    parse_report text = limits_read least most.
Proof.
  intros Hn Hl Hm. assert (Hp : exists a, parse_setup ["--report-and-quit"] = Ok a /\ a_report_and_quit a = true) by (eexists; split; vm_compute; reflexivity).
  destruct Hp as (a & Hp & Hq).
  rewrite (setup_only_reports patience helper nodes max_nodes min_nodes multi_paths netns argv0 _ date time now a Hp s Hq), Hn. cbn [fst snd].
  split_and!; [done..|]. exists (report_and_quit least most). split.
  - unfold Logger.output. cbn. apply Tee.output_write_one.
  - destruct most as [[|m|m]|]; [by apply (parse_report_no_max least)|by apply parse_report_setup| |by apply parse_report_no_max].
    by destruct (Hm _ eq_refl).
Qed.

(** ** Witnesses *)

(** A rational number as the number of its code *)
#[local] Instance demo_floats : FloatText := {
  float_text := fun q => str_int (Z.pos (countable.encode (Qnum q, Qden q)));
  float_value := fun t => match py_int t with
                          | Ok (Z.pos p) => match countable.decode p with Some (n, d) => Qmake n d | None => 0%Q end
                          | _ => 0%Q
                          end
}.
#[local] Instance demo_floats_ok : FloatTextOk.
Proof.
  split.
  - intros q. apply number_str_int.
  - intros [n d]. cbn -[str_int py_int countable.encode countable.decode]. rewrite py_int_str_int, decode_encode. reflexivity.
Qed.
#[local] Instance demo_machines : Machines := {
  exited := fun l vm cmd =>
    if bool_decide (cmd = "uname -r; cat /proc/drbd") then
      (0%Z, "6.1.0" +:+ newline +:+ "version: 9.2.8 (api:2)" +:+ newline +:+ "GIT-hash: e163b05a" +:+ newline, EmptyString)
    else (0%Z, EmptyString, EmptyString);
  takes_long := fun _ _ _ => false;
  test_outcome := fun _ test _ => Outcome (if bool_decide (test = "resync") then 3 else 0) (Qmake 5 2) false
}.
Definition demo_set : json := JObj [("vms", JNum "2"); ("tests", JList [JStr "connect"; JStr "resync"])].
Definition demo_run_args : run_args := RunArgs ["a"; "b"] "tests.json" [] [] true false 2 0.
Local Abbreviation demo_main := (main (fun _ => Raise KeyError) (Some (dumps demo_set)) (fun i => "20240229-12000" +:+ str_nat i) demo_run_args) (only parsing).
Definition demo_run : run := Run [] None [].
Lemma demo_main_ends : demo_main demo_run = (Ok 1%Z, snd (demo_main demo_run)).
Proof. vm_compute. reflexivity. Qed.
Lemma results_are_kept_witness :
  kept (fun _ => Raise KeyError) (Some (dumps demo_set)) (fun i => "20240229-12000" +:+ str_nat i) demo_run_args 2 demo_run (snd (demo_main demo_run)).
Proof.
  exact (proj1 (results_are_kept (fun _ => Raise KeyError) (Some (dumps demo_set)) (fun i => "20240229-12000" +:+ str_nat i) demo_run_args demo_run)
    1%Z (snd (demo_main demo_run)) demo_main_ends).
Defined.
Example demo_table : analyze_lines (rn_file (snd (demo_main demo_run))) =
  Ok [header_line; "connect                            2     " +:+ GREEN +:+ "100.0%" +:+ NORMAL +:+ "           2.5s";
      "resync                             2     " +:+ RED +:+ "  0.0%" +:+ NORMAL +:+ "         -----s"].
Proof. vm_compute. reflexivity. Qed.
Example rounding : map (fun q => hundredths_text (hundredths q)) [Qmake 2 3; Qmake 1 8; Qmake 3 8; 50; Qmake 1 10]%Q = ["0.67"; "0.12"; "0.38"; "50.0"; "0.1"].
Proof. vm_compute. reflexivity. Qed.

#[local] Instance silent_server : SshServer := fun _ _ => Ok (0%Z, EmptyString).
#[local] Instance silent_scanner : EventScanner := fun _ _ _ => Ok tt.
#[local] Existing Instance Tls.demo_crypto.
#[local] Instance no_commands : LocalCommands := fun _ _ => Ok 0%Z.
Lemma tests_report_their_limits_witness :
  let '(r, s') := setup 0 (fun s => s) None (Some 3%Z) 2 false None "tests/connect.py" ["--report-and-quit"] "20240229" "120000" demo_now demo_site in
  r = Raise (SystemExit 0) /\ st_world s' = st_world demo_site /\
  exists text, Logger.output Logger.stdout (l_logger (st_local s')) = [text] /\ parse_report text = Ok (2, 3)%Z.
Proof.
  pose proof (tests_report_their_limits 0 (fun s => s) None (Some 3%Z) 2 false None "tests/connect.py" "20240229" "120000" demo_now demo_site 2 (Some 3%Z)
    eq_refl ltac:(done) ltac:(by intros m [= <-])) as Hr.
  destruct (setup 0 (fun s => s) None (Some 3%Z) 2 false None "tests/connect.py" ["--report-and-quit"] "20240229" "120000" demo_now demo_site) as [r s'].
  destruct Hr as (Hr & Hw & _ & _ & text & Ht & Hp). split; [exact Hr|]. split; [exact Hw|]. exists text. split; [|exact Hp]. rewrite Ht. reflexivity.
Defined.
