(* ===== verification/Artifact.v ===== *)
(** * The artifact of a triggered pipeline (src/.gitlab/trigger_for_artifact.py)

    Triggering the pipeline that builds DRBD for the tests, and fetching the
    file with its settings.  The module [trigger] comes with the image the
    script runs in and is an interface, as is the server. *)

From S2P Require Import Prelude PyStr.
#[local] Open Scope nat_scope.

(** The attributes of the parsed arguments that are used *)
Record trigger_args := TriggerArgs {
  project_id : string;
  api_token : string;
  http : bool;
  ta_host : string;
  url_path : string
}.
Record pipeline_job := PipelineJob { job_id : Z; j_name : string }.
(** The functions of [trigger], with the URL of the project, and the answer of
    the server to a request with a token *)
Class Gitlab := {
  trigger : list string -> res Z;
  parse_args : list string -> trigger_args;
  isint : string -> bool;
  get_project_id : string -> string -> string -> res string;
  get_pipeline_jobs : string -> string -> Z -> res (list pipeline_job);
  http_get : string -> string -> Z * string
}.

Definition job_name : string := "build:for-tests".
Definition downstream_artifact_path : string := "build.env".
Definition artifact_output_path : string := "downstream.env".

Section artifact.
Context `{Gitlab}.

(** [get_job_artifact] *)
Definition get_job_artifact (project_url token : string) (id : Z) (artifact_path : string) : res string :=
  let '(status_code, content) := http_get (project_url +:+ "/jobs/" +:+ str_int id +:+ "/artifacts/" +:+ artifact_path) token in
  if (status_code =? 200)%Z then Ok content else Raise AssertionError.
(** The URL of the server *)
Definition base_url (args : trigger_args) : string :=
  if startswith "http://" (ta_host args) || startswith "https://" (ta_host args) then ta_host args
  else (if http args then "http://" else "https://") +:+ ta_host args.
Definition project_url (args : trigger_args) : res string :=
  let* proj_id := (if isint (project_id args) then Ok (project_id args)
                   else get_project_id (base_url args +:+ url_path args) (api_token args) (project_id args)) in
  Ok (base_url args +:+ url_path args +:+ "/" +:+ proj_id).
Definition matching_job (jobs : list pipeline_job) : res pipeline_job :=
  match filter (fun j => j_name j = job_name) jobs with
  | [j] => Ok j
  | _ => Raise AssertionError
  end.
(** [trigger_for_artifact]; the state is the files of the directory. *)
Definition trigger_for_artifact (arg_list : list string) : M (gmap string string) Z :=
  let* pid := lift (trigger arg_list) in
  let args := parse_args arg_list in
  let* url := lift (project_url args) in
  let* pipeline_jobs := lift (get_pipeline_jobs url (api_token args) pid) in
  let* job := lift (matching_job pipeline_jobs) in
  let* artifact_content := lift (get_job_artifact url (api_token args) (job_id job) downstream_artifact_path) in
  modify (<[artifact_output_path := artifact_content]>) ;;;
  mret pid.
End artifact.

(** ** Lemmas *)

Lemma matching_job_spec jobs j : matching_job jobs = Ok j <-> exists before after, jobs = before ++ j :: after /\ j_name j = job_name /\
  forall x, x ∈ before ++ after -> j_name x <> job_name.
Proof.
  unfold matching_job. split.
  - intros Hj. destruct (filter _ jobs) as [|j' [|? l]] eqn:Hf; [done| |done]. injection Hj as ->.
    assert (Hin : j ∈ filter (fun j => j_name j = job_name) jobs) by (rewrite Hf; by left).
    apply list_elem_of_filter in Hin as [Hn Hin]. apply list_elem_of_split in Hin as (before & after & ->).
    exists before, after. split; [done|]. split; [done|]. rewrite filter_app, filter_cons_True in Hf by done.
    assert (Hnil : filter (fun j => j_name j = job_name) before = [] /\ filter (fun j => j_name j = job_name) after = []).
    { destruct (filter _ before) as [|y l]; [by injection Hf as Hf|]. exfalso. injection Hf as _ Hf. by destruct l. }
    destruct Hnil as [Hb Ha]. intros x [Hx|Hx]%elem_of_app Hname.
    + assert (Hin : x ∈ filter (fun j => j_name j = job_name) before) by by apply list_elem_of_filter. by rewrite Hb in Hin; apply elem_of_nil in Hin.
    + assert (Hin : x ∈ filter (fun j => j_name j = job_name) after) by by apply list_elem_of_filter. by rewrite Ha in Hin; apply elem_of_nil in Hin.
  - intros (before & after & -> & Hn & Hall).
    assert (Hnil : forall l, (forall x, x ∈ l -> j_name x <> job_name) -> filter (fun j => j_name j = job_name) l = []).
    { induction l as [|x l IH]; intros Hl; [done|]. rewrite filter_cons_False by (apply Hl; by left). apply IH. intros y Hy. apply Hl. by right. }
    rewrite filter_app, filter_cons_True, !Hnil by (done || (intros x Hx; apply Hall, elem_of_app; auto)). done.
Qed.

(** ** Properties *)

(** What is written is what the server has answered with the status 200 for
    the artifact of the one job with the name, in the pipeline that was
    triggered; when there is no such job or more than one, or when anything
    else fails, nothing is written. *)
Theorem artifact_of_the_build_is_written `{Gitlab} arg_list files : let args := parse_args arg_list in
  match trigger_for_artifact arg_list files with
  | (Ok pid, files') => exists url jobs before j after content,
      trigger arg_list = Ok pid /\ project_url args = Ok url /\ get_pipeline_jobs url (api_token args) pid = Ok jobs /\
      jobs = before ++ j :: after /\ j_name j = job_name /\ (forall x, x ∈ before ++ after -> j_name x <> job_name) /\
      http_get (url +:+ "/jobs/" +:+ str_int (job_id j) +:+ "/artifacts/build.env") (api_token args) = (200%Z, content) /\
      files' = <["downstream.env" := content]> files
  | (Raise _, files') => files' = files
  end.
Proof.
  intros args. unfold trigger_for_artifact. fold args. mred. unfold lift.
  destruct (trigger arg_list) as [pid|e]; [|done]. destruct (project_url args) as [url|e]; [|done].
  destruct (get_pipeline_jobs url (api_token args) pid) as [jobs|e] eqn:Hjobs; [|done].
  destruct (matching_job jobs) as [j|e] eqn:Hj; [|done]. apply matching_job_spec in Hj as (before & after & -> & Hn & Hall).
  unfold get_job_artifact. change ("/artifacts/" +:+ downstream_artifact_path) with "/artifacts/build.env".
  destruct (http_get _ _) as [code content] eqn:Hget. destruct (Z.eqb_spec code 200) as [->|Hc]; [|done].
  cbn. exists url, (before ++ j :: after), before, j, after, content. by split_and!.
Qed.
